(* ===== verification/_CoqProject ===== *)
-Q . S2P
Prelude.v
JSString.v
Errors.v
Bytes.v
JSNum.v
NumText.v
Logger.v
JSMap.v
NonceCache.v
Json.v
Types.v
Median.v
TimeSynthesis.v
PotCodec.v
EndToEnd.v
TimeSources.v
RoughtimeWire.v
Roughtime.v
Rounds.v
AdaptiveSwitch.v
PotFrame.v
PotVerifier.v
HttpClient.v
PoolRegistry.v
EvmConnector.v
V4Hook.v
Signer.v
PotSigner.v
TrustStore.v
Demos.v
Ordering.v
IntegrityClient.v
CTLog.v
SetupPool.v
SwapBot.v
McpTools.v
McpServer.v
ElizaPlugin.v
ElizaActions.v
Integrations.v
Subgraph.v
OpenZeppelin.v
Contracts.v
Tokens.v
Chain.v
Scripts.v
Settlement.v
Player.v
Osnma.v
Rust.v
RustSwitch.v
RustPot.v
FiloQueue.v
RustRoughtime.v
RustChain.v
RustOsnma.v
