(* ===== verification/Prelude.v ===== *)
(** * OpenTTT: a verification development

    OpenTTT issues and checks Proofs of Time: a client asks several time
    sources, combines their answers, and hands out a proof with a nonce and an
    expiry that others verify once.  Around this core the repository has wire
    formats, transports, an EVM connector, signers, registries, an HTTP-only
    client, an MCP server, agent integrations, contracts and a subgraph, all in
    TypeScript and Solidity, and a Rust crate with the issuer's side of the
    protocol.  This library models that code and proves what makes it correct,
    or that it is not, and where the two languages agree.  Paths below are
    relative to src/.

    ** Foundations

    - [Prelude]: results and state-passing computations, tactics, lists and
      bounded windows, reachability.
    - [JSString], [JSNum], [NumText], [JSMap], [Bytes], [Json]: the JavaScript and Node
      values the sources compute with.  A string is its list of UTF-16 units; a
      Number is a binary64 of the Standard Library's SpecFloat, with its
      rounding, NaN and infinities; a BigInt is a [Z]; a Map is an association
      list in insertion order, which the caches rely on for eviction; a Buffer
      is a list of bytes with out-of-range reads as RangeErrors; a JSON text is
      represented by the tree it parses to.  [NumText] prints Numbers the way
      template literals and [toFixed] do.
    - [Errors] (src/errors.ts): the code table, [TTTBaseError] with its two
      argument conventions, and the exceptions a call can end with.
    - [Logger] (src/logger.ts, src/networks.ts): the static logger as steps with
      outputs; over any history of calls it prints what a filter of the calls
      under the last level and handler says; the network presets.
    - [Types] (src/types.ts): the records the components exchange.
    - [NonceCache]: the two replay caches of the code, [Bounded] (of
      TimeSynthesis and HttpOnlyClient, sweep at half capacity and oldest-first
      eviction) and [Memory] (of PotVerifier, expiry on access), and the class
      [NonceCache] that states what a verifier asks of a cache.

    ** Proofs of Time

    - [Median], [TimeSynthesis] (src/time_synthesis.ts): sorting and combining
      readings; the object with [synthesize], [generateProofOfTime],
      [verifyProofOfTime], [getOnChainHash].  A round of network answers is an
      argument ([fetcher]) and every clock reading is one too.  The theorems:
      a majority of honest sources bounds the synthesized time; generation
      succeeds when the answers agree; verification accepts exactly the
      acceptable proofs with a fresh nonce; over histories of its public
      methods ([call]), a nonce is refused a second time within five minutes as
      long as fewer than 10,000 other calls, and no [close], happen (and a proof
      is accepted again after either); so an issuer refuses its own proof while
      any other object accepts it; the on-chain hash determines the fields it
      covers.
    - [PotCodec] (the binary and JSON forms of time_synthesis.ts): round trips,
      decoding errors, and the corruption of non-ASCII text.
    - [EndToEnd]: the two together.  Issued proofs are well formed, also in
      binary form; an issued proof that crosses the wire is accepted by another
      object once, and neither it nor the original a second time under the
      bounds of [TimeSynthesis].
    - [TimeSources] (the NTP and HTTPS sources of the same file): their
      promises as step relations over events, the NTP offset bound, and the
      HTTPS promise that never settles on an invalid Date header.
    - [RoughtimeWire], [Roughtime] (src/roughtime_source.ts): the tagged wire
      format with its round trip; response validation is equivalent to a
      declarative authenticity predicate (nonce, delegation, signatures, Merkle
      path), with 32-bit index arithmetic; the exchange settles once.
    - [Rounds] ([synthesize] and [generateProofOfTime] of src/time_synthesis.ts
      over the sources' promises): [Promise.allSettled] as an interleaving of the
      sources' machines.  While the Date headers
      parse, a pending round always has a timer or a lookup that can still end,
      at most two per source; one unparsable header keeps it pending for ever
      (lemma [round_stuck]); the readings of a proof from Roughtime sources are
      authentic answers under the configured keys.
    - [PotFrame], [PotVerifier] (src/pot_frame.ts, src/tls_binding.ts,
      src/pot_verifier.ts): the 175-byte frame codec, and the verifier against
      any cache of the class, with the caller's [nowMs] apart from the cache's
      clock ([request]): its acceptance condition, when a frame is accepted a
      second time, and the replay of frames dated in the future.
    - [PotSigner] (src/pot_signer.ts): Ed25519 signing over a class of
      operations with its laws; signatures verify; the key file is stable.
    - [Osnma] (src/osnma_source.ts): the key checks of the satellite source,
      made once, after which it serves the system clock.
    - [AdaptiveSwitch] (src/adaptive_switch.ts): the mode switch refines an
      automaton over the last twenty outcomes with integer thresholds.
    - [HttpClient] (src/http_client.ts, mcp/packages/x402-pot): the HMAC client
      and the x402 facilitator on top of it; an issued proof verifies once over
      any fewer than 10,000 calls on the client.
    - [IntegrityClient] (src/integrity_client.ts): requests, the race of the
      answer with the abort timer, the answers' readers.  Every call ends after
      at most three events and leaves no timer; against any server of the class
      [PipelineServer] the client computes the pipeline.
    - [CTLog] (src/ct_log.ts): the GraphQL texts, read back by a lexer of the
      GraphQL specification: a query means its filter; the audit query means its
      hash exactly when the hash has no quote, backslash or line break.

    ** Chain side

    - [EvmConnector] (src/evm_connector.ts): connection, listeners and
      transactions as state transformers with a trace of the calls made to
      ethers; no listener leaks over any history, reconnection tries the URLs in
      order, a transaction yields a receipt or one of the SDK's errors.
    - [V4Hook] (src/v4_hook.ts): the hook over the interface [Burner], which
      [EvmConnector] implements; its statistics are exact ledgers.
    - [Signer] (src/signer.ts): DER readers inverse to the DER encoding, KMS
      signatures that recover to the signer's address, the signer factory.
    - [PoolRegistry] (src/pool_registry.ts), [TrustStore] (src/trust_store.ts):
      registries with their capacities, ledgers and serialization.
    - [Subgraph] (subgraph/src/mapping.ts): the statistics entities are exact
      aggregates of the indexed events.

    - [SetupPool], [SwapBot] (contracts/scripts/setup_pool.ts, swap_bot.ts,
      verify_swap_bot.ts): the pool's price and transactions, and the bots that
      trade on it from the deployment file it writes; the loops end, the inputs
      alternate between the currencies.
    - [OpenZeppelin], [Contracts] (contracts/contracts: TTT.sol,
      TTTHookSimple.sol, TTTHook.sol, ProtocolFee.sol): each contract as a state,
      a constructor and an [exec] of one call that reverts with [None] or returns
      the new state and its events, run by [transactions].  The supply of a token
      is what its events minted less what they burned; every fee the hook
      returns is a valid override; a signed fee is collected once.
    - [Tokens] (contracts/contracts: TTTToken.sol, TestTTT.sol, PoolHelper.sol):
      the ERC-20 tokens, whose records are the burns of the log, and the helper
      over a class for Uniswap's PoolManager: with tokens that move what they
      answer for, a finished callback leaves no open delta; a debt in the native
      currency always reverts.
    - [Chain]: transactions to TTT and TTTHookSimple and the subgraph that indexes
      their events; the entities add up to the contract's own counters.
    - [Scripts] (contracts/scripts: the deployments, the grants, the single-call
      scripts): programs over a chain of those contracts and a node that may
      fail any request.  What a deployment leaves on the chain, and that the
      verification bot counts what the hook counts, in the mode it expects.
    - [Settlement]: [EvmConnector] and [V4Hook] with the calls answered by the
      TTT contract; a record is settled exactly when its account can burn, and
      the hook's own fee burns never succeed.

    ** Agents

    - [McpTools] (mcp/tools.ts, mcp/telemetry.ts): the five tools over one
      server state; what the server generates it verifies.
    - [McpServer] (mcp/index.ts): argument schemas, JSON answers and handlers;
      a sequence of requests is a sequence of tool calls, and the JSON of a
      generated proof sent back through the protocol verifies.
    - [ElizaPlugin] (plugins/elizaos-plugin-openttt): the generate action cannot
      succeed, because a signature holds a BigInt and [JSON.stringify] throws;
      the verify action accepts rewritten timestamps.
    - [ElizaActions]: the same actions as the runtime sees them, with their
      texts and callbacks; each returns what it last announced.
    - [Integrations] (integrations/openai, integrations/langchain): neither
      handler ever reports a verified proof.
    - [Demos] (examples/x402-pot, examples/05-flashbots-protect.ts): two programs
      over several parts of the SDK; the x402 demo reports what it announces,
      the Flashbots demo fails its own integrity check.
    - [Ordering] (examples/07-multi-agent-ordering, examples/09-governance-pot):
      the agents are ordered by what they report; the voter's run never ends
      well.
    - [Player] (demo/GRGExplainer.tsx): the player of the explainer as a state
      machine of ticks and clicks; it reaches its end.

    ** The Rust crate (src/roughtime)

    - [Rust]: u32 and u64, saturating arithmetic, slices, errors and panics.
      Arithmetic wraps, as the release profile of Cargo.toml leaves it.
    - [RustSwitch] (adaptive_switch.rs, as_store.rs): [Switch] agrees with
      [AdaptiveSwitch] block by block until a block is late or fails; from then
      on it never returns to turbo before a reset ([no_eventual_turbo]).
      [Store] keeps one such switch per context, each independent of the others.
    - [RustPot] (grg_bridge.rs, pot_crypto.rs, no_std_verify.rs,
      quic_transport.rs, the frames of wire.rs): payload, signature, gates,
      frames and the verification pipeline.  [Interop] proves that a frame the
      Rust side issues decodes in [PotFrame] to the issued fields but is accepted
      by [PotVerifier] only where Node's exporter answers the crate's HMAC, that
      the two sides' readers and recency windows agree, and the exceptions: the
      R flag and tier 4.  [Pipeline] says when the
      pipeline's result is true.
    - [FiloQueue] (filo_queue.rs): the queue over a class for BinaryHeap; no
      entry is lost or invented, the newest leaves first, and the capacity is no
      bound ([filo_outgrows_capacity]).
    - [RustRoughtime] (wire.rs): the message parser reads the values
      [RoughtimeWire] reads, and from a response [Roughtime] validated the same
      time.
    - [RustChain] (types.rs, chain.rs, client.rs, async_client.rs): which chains
      pass the check against a proof's time, and for whom; the client's nonce
      check compares its own nonces ([nonce_check_vacuous]), and one unsigned
      datagram sets the time of both clients.
    - [RustOsnma] (osnma.rs, issuer_client.rs): [GalileoKey] refines the class
      of [Osnma] reading by reading; [IssuerClient] always connects to port 80.

    ** Conventions

    A component is a Module or a file with its state as a Record; an operation
    takes the state and returns it with a [result], keeping, as JavaScript does,
    the changes made before a throw.  An await on the network is an argument
    holding the answer, and concurrency inside one exchange (timers, sockets) or
    between the sources of a round is a step relation over events.  Loops are structural or run on a measure fixed
    by their data (bytes left, URLs left, path nodes), so no fuel can run out.
    Log lines are dropped, and a model's error keeps the class, code and message
    of the source but not always the interpolated values.

    ** Parameters

    Code outside the repository is a parameter of the definitions that use it:
    hashes and signatures of Node's crypto, keccak and the ABI encoder, wallets,
    providers and contracts of ethers, the KMS clients, the GRG pipeline, Date
    parsing, BigDecimal division.  What a theorem needs of one of them is a
    named hypothesis or a class of laws ([Ed25519Laws], [abi_uint_words], the
    round trip of the pipeline), and its witness instantiates it.
    The OpenZeppelin bases are the classes [AccessControl] and [ERC1155Supply]
    with their laws, which [OpenZeppelin] discharges over finite maps; ECDSA
    recovery, EIP-712 hashing and the ERC20 transfers of ProtocolFee are
    arguments; [ERC20] and [PoolManager] are the classes of [Tokens].  On the
    Rust side ed25519-dalek, sha3 and hmac are the class [Crypto] with its laws,
    std's BinaryHeap is a class with a list instance, the hex decoder, SHA-2, the
    curve test, JSON and the sockets are arguments; that Node verifies what
    dalek signs is a hypothesis of [Interop].

    ** Not modelled

    Gas, reentrancy and the ABI of the contracts; the shell loops around the
    scripts; generated bindings (contracts/typechain-types, subgraph/generated);
    the examples that only show calls, several of a client class the repository
    does not have; the dashboards and the drawing of the explainer's scenes;
    tests, those of the crate included, and its binary, which counts requests;
    the Display texts of the crate's errors and the reading of the store's file;
    the stdio transport of the MCP server and the text layout of its JSON; the
    ping of mcp/telemetry.ts;
    console output. *)
From Stdlib Require Import ZArith Lia String Ascii.
From stdpp Require Import base list numbers option strings sorting relations.

#[global] Open Scope Z_scope.

(** ** Hint databases

    [jsdb] rewrites the observers of the shared data types; [jsinv] proves the
    structural invariants. *)
Create HintDb jsdb.
Create HintDb jsinv.

(** ** Results

    A JavaScript computation either returns or throws.  [result] is the value
    of one call; [comp] threads a component's state and, as in JavaScript,
    keeps the mutations done before a throw. *)
Inductive result (E A : Type) : Type :=
| Ok (a : A)
| Throw (e : E).
Arguments Ok {E A} a.
Arguments Throw {E A} e.

#[global] Instance result_ret {E} : MRet (result E) := fun _ a => Ok a.
#[global] Instance result_bind {E} : MBind (result E) := fun _ _ f r =>
  match r with Ok a => f a | Throw e => Throw e end.
#[global] Instance result_fmap {E} : FMap (result E) := fun _ _ f r =>
  match r with Ok a => Ok (f a) | Throw e => Throw e end.
#[global] Instance result_eq_dec {E A} `{EqDecision E, EqDecision A} :
  EqDecision (result E A).
Proof. solve_decision. Defined.

Definition is_ok {E A} (r : result E A) : bool :=
  match r with Ok _ => true | Throw _ => false end.

(** [try { return r } catch { return h }] *)
Definition try_catch {E A} (r : result E A) (h : E -> result E A) : result E A :=
  match r with Ok a => Ok a | Throw e => h e end.

Definition comp (E S A : Type) : Type := S -> S * result E A.

#[global] Instance comp_ret {E S} : MRet (comp E S) := fun _ a s => (s, Ok a).
#[global] Instance comp_bind {E S} : MBind (comp E S) := fun _ _ f c s =>
  match c s with
  | (s', Ok a) => f a s'
  | (s', Throw e) => (s', Throw e)
  end.

Lemma result_bind_Ok {E A B} (r : result E A) (f : A -> result E B) (b : B) :
  r ≫= f = Ok b <-> exists a, r = Ok a /\ f a = Ok b.
Proof.
  destruct r as [a|e]; simpl; split.
  - eauto.
  - intros (a' & [= <-] & H); exact H.
  - discriminate.
  - intros (a' & [=] & _).
Qed.

(** ** Tactics *)

(** Splits every [match]/[if] of the goal or of the hypotheses, simplifying. *)
Ltac split_matches :=
  repeat first
    [ progress simplify_eq/=
    | case_match ].

(** Turns boolean comparisons on [Z] into propositions. *)
Ltac zbool :=
  repeat match goal with
  | H : (_ <? _) = true |- _ => apply Z.ltb_lt in H
  | H : (_ <? _) = false |- _ => apply Z.ltb_ge in H
  | H : (_ <=? _) = true |- _ => apply Z.leb_le in H
  | H : (_ <=? _) = false |- _ => apply Z.leb_gt in H
  | H : (_ =? _) = true |- _ => apply Z.eqb_eq in H
  | H : (_ =? _) = false |- _ => apply Z.eqb_neq in H
  | H : (_ && _) = true |- _ => apply andb_prop in H; destruct H
  | H : (_ || _) = false |- _ => apply orb_false_elim in H; destruct H
  | H : negb _ = true |- _ => apply negb_true_iff in H
  | H : negb _ = false |- _ => apply negb_false_iff in H
  | H : bool_decide _ = true |- _ => apply bool_decide_eq_true in H
  | H : bool_decide _ = false |- _ => apply bool_decide_eq_false in H
  end.

(** Linear arithmetic with division and remainder by constants. *)
Ltac zdiv := Z.to_euclidean_division_equations; lia.

(** ** Lists *)

Lemma head_None {A} (l : list A) : head l = None <-> l = [].
Proof. destruct l; simpl; split; congruence. Qed.

(** A boolean filter, as [Array.prototype.filter] is. *)
Fixpoint bfilter {A} (p : A -> bool) (l : list A) : list A :=
  match l with
  | [] => []
  | x :: l' => if p x then x :: bfilter p l' else bfilter p l'
  end.

Lemma elem_of_bfilter {A} (p : A -> bool) (l : list A) x :
  x ∈ bfilter p l <-> p x = true /\ x ∈ l.
Proof.
  induction l as [|y l IH]; simpl.
  - split; [intros H; inversion H | intros [_ H]; inversion H].
  - destruct (p y) eqn:E; rewrite ?elem_of_cons, ?IH; intuition (subst; congruence).
Qed.

Lemma bfilter_app {A} (p : A -> bool) (l1 l2 : list A) :
  bfilter p (l1 ++ l2) = bfilter p l1 ++ bfilter p l2.
Proof. induction l1 as [|x l1 IH]; simpl; [done|]. destruct (p x); simpl; by rewrite IH. Qed.

Lemma bfilter_length {A} (p : A -> bool) (l : list A) :
  (length (bfilter p l) <= length l)%nat.
Proof. induction l as [|x l IH]; simpl; [lia|]. destruct (p x); simpl; lia. Qed.

Lemma bfilter_all {A} (p : A -> bool) (l : list A) :
  Forall (fun x => p x = true) l -> bfilter p l = l.
Proof. induction 1 as [|x l Hx _ IH]; simpl; [done|]. by rewrite Hx, IH. Qed.

Lemma bfilter_Forall {A} (P : A -> Prop) p (l : list A) : Forall P l -> Forall P (bfilter p l).
Proof. induction 1 as [|x l Hx _ IH]; cbn [bfilter]; [done|]. destruct (p x); [by constructor|done]. Qed.


Lemma bfilter_sublist {A} (p : A -> bool) (l : list A) : bfilter p l `sublist_of` l.
Proof.
  induction l as [|x l IH]; simpl; [constructor|].
  destruct (p x); by constructor.
Qed.

Lemma NoDup_sublist {A} (l1 l2 : list A) : l1 `sublist_of` l2 -> NoDup l2 -> NoDup l1.
Proof.
  induction 1 as [|x l1 l2 H IH|x l1 l2 H IH]; intros Hnd; [constructor| |].
  - apply NoDup_cons in Hnd as [Hx Hnd]. apply NoDup_cons. split; [|auto].
    intros Hin. apply Hx. by eapply elem_of_sublist.
  - apply NoDup_cons in Hnd as [_ Hnd]. auto.
Qed.

Lemma fmap_sublist {A B} (f : A -> B) (l1 l2 : list A) :
  l1 `sublist_of` l2 -> (f <$> l1) `sublist_of` (f <$> l2).
Proof. induction 1; simpl; by constructor. Qed.

Lemma NoDup_fmap_bfilter {A B} (f : A -> B) (p : A -> bool) (l : list A) :
  NoDup (f <$> l) -> NoDup (f <$> bfilter p l).
Proof. apply NoDup_sublist, fmap_sublist, bfilter_sublist. Qed.
#[export] Hint Resolve NoDup_fmap_bfilter : jsinv.

(** The last [n] elements: [arr.slice(-n)] for [n > 0]. *)
Definition last_n {A} (n : nat) (l : list A) : list A := drop (length l - n) l.

Lemma last_n_length {A} n (l : list A) : length (last_n n l) = Nat.min n (length l).
Proof. unfold last_n. rewrite length_drop. lia. Qed.

Lemma last_n_all {A} n (l : list A) : (length l <= n)%nat -> last_n n l = l.
Proof. intros H. unfold last_n. replace (length l - n)%nat with 0%nat by lia. done. Qed.

(** [Array.push] followed by [if (length > cap) shift()]: a bounded window. *)
Definition push_bounded {A} (cap : nat) (l : list A) (x : A) : list A :=
  let l' := l ++ [x] in
  if (cap <? length l')%nat then drop 1 l' else l'.

Lemma push_bounded_length {A} cap (l : list A) x :
  (length l <= cap)%nat -> (0 < cap)%nat ->
  length (push_bounded cap l x) = Nat.min cap (S (length l)).
Proof.
  intros Hl Hc. unfold push_bounded. rewrite length_app; simpl.
  destruct (Nat.ltb_spec cap (length l + 1)).
  - rewrite length_drop, length_app; simpl. lia.
  - rewrite length_app; simpl. lia.
Qed.

Lemma push_bounded_Forall {A} (P : A -> Prop) cap (l : list A) x :
  Forall P l -> P x -> Forall P (push_bounded cap l x).
Proof.
  intros Hl Hx. unfold push_bounded.
  assert (Forall P (l ++ [x])) as H by (apply Forall_app; auto).
  destruct (_ <? _)%nat; [by apply Forall_drop|done].
Qed.


Lemma push_bounded_last_n {A} cap (l : list A) x :
  (length l <= cap)%nat -> (0 < cap)%nat ->
  push_bounded cap l x = last_n cap (l ++ [x]).
Proof.
  intros Hl Hc. unfold push_bounded, last_n. rewrite length_app; simpl.
  destruct (Nat.ltb_spec cap (length l + 1)).
  - f_equal. lia.
  - replace (length l + 1 - cap)%nat with 0%nat by lia. done.
Qed.

Lemma last_n_app {A} n (m xs : list A) :
  last_n n (last_n n m ++ xs) = last_n n (m ++ xs).
Proof.
  unfold last_n. set (k := (length m - n)%nat).
  rewrite <- (drop_app_le m xs k) by lia.
  rewrite drop_drop, length_drop, length_app. f_equal. lia.
Qed.

Lemma push_bounded_run {A} cap (xs l : list A) :
  (length l <= cap)%nat -> (0 < cap)%nat ->
  foldl (push_bounded cap) l xs = last_n cap (l ++ xs).
Proof.
  intros Hl Hc. revert l Hl. induction xs as [|x xs IH]; intros l Hl; simpl.
  - rewrite app_nil_r. symmetry. by apply last_n_all.
  - rewrite IH by (rewrite push_bounded_length by done; lia).
    rewrite push_bounded_last_n, last_n_app, <- app_assoc by done. done.
Qed.

(** ** Reachability *)

(** An invariant of a step relation holds of everything reachable. *)
Lemma rtc_preserves {A} (R : A -> A -> Prop) (P : A -> Prop) x y :
  P x -> (forall a b, P a -> R a b -> P b) -> rtc R x y -> P y.
Proof. intros Hx Hs H. revert Hx. induction H; eauto. Qed.

(** A relation that decreases a measure, wherever its invariant holds, has no
    infinite run from there. *)
Lemma acc_measure {A} (R : A -> A -> Prop) (P : A -> Prop) (m : A -> nat) x :
  (forall a b, P a -> R a b -> P b /\ (m b < m a)%nat) -> P x -> Acc (flip R) x.
Proof.
  intros Hs. remember (m x) as n eqn:E. revert x E.
  induction n as [n IH] using lt_wf_ind. intros x -> Hx. constructor. intros y Hy.
  destruct (Hs x y Hx Hy) as [Hp Hm]. exact (IH (m y) Hm y eq_refl Hp).
Qed.

(** The runs from a state are no longer than its measure. *)
Lemma nsteps_measure {A} (R : A -> A -> Prop) (P : A -> Prop) (m : A -> nat) n x y :
  (forall a b, P a -> R a b -> P b /\ (m b < m a)%nat) -> P x -> nsteps R n x y -> (n + m y <= m x)%nat.
Proof.
  intros Hs Hx H. revert Hx. induction H as [x|n x y z Hxy _ IH]; intros Hx; [lia|].
  destruct (Hs x y Hx Hxy) as [Hp Hm]. specialize (IH Hp). lia.
Qed.
