(* ===== verification/JSString.v ===== *)
(** * JavaScript strings

    A string is its sequence of UTF-16 code units.  This file holds the string
    operations the sources use: prefixes, inclusion, lower-casing, the decimal
    rendering of integers and [BigInt(string)], with the round trip between
    the last two. *)
From Stdlib Require Import ZArith Lia String Ascii.
From stdpp Require Import base list numbers option strings.
From S2P Require Import Prelude.

Abbreviation jsstr := (list Z).

(** A literal. *)
Fixpoint js (s : string) : jsstr :=
  match s with
  | EmptyString => []
  | String c s' => Z.of_N (N_of_ascii c) :: js s'
  end.

(** [s.startsWith(p)] *)
Definition starts_with (p s : jsstr) : bool := bool_decide (take (length p) s = p).

(** [s.includes(p)] *)
Fixpoint includes (p s : jsstr) : bool :=
  starts_with p s || match s with [] => false | _ :: s' => includes p s' end.

(** [s < t]: the first differing code unit decides, a proper prefix is less. *)
Fixpoint str_lt (s t : jsstr) : bool :=
  match s, t with
  | _, [] => false
  | [], _ :: _ => true
  | c :: s', d :: t' => (c <? d) || ((c =? d) && str_lt s' t')
  end.

Lemma str_lt_total s t : str_lt s t = true \/ str_lt t s = true \/ s = t.
Proof.
  revert t. induction s as [|c s IH]; intros [|d t]; cbn [str_lt]; [tauto..|].
  destruct (Z.ltb_spec c d); [tauto|]. destruct (Z.ltb_spec d c); [tauto|].
  assert (c = d) as -> by lia. rewrite Z.eqb_refl. cbn [orb andb].
  destruct (IH t) as [->|[->| ->]]; tauto.
Qed.

Lemma str_lt_asym s t : str_lt s t = true -> str_lt t s = false.
Proof.
  revert t. induction s as [|c s IH]; intros [|d t]; cbn [str_lt]; try done.
  destruct (Z.ltb_spec c d), (Z.ltb_spec d c), (Z.eqb_spec c d), (Z.eqb_spec d c); try lia; try done.
  cbn [orb andb]. apply IH.
Qed.

(** [parts.join(sep)] *)
Fixpoint join (sep : jsstr) (l : list jsstr) : jsstr :=
  match l with
  | [] => []
  | [x] => x
  | x :: l' => x ++ sep ++ join sep l'
  end.

(** [s.toLowerCase()] on the ASCII letters.  The sources lower-case only
    strings they then compare with ASCII text (addresses, keywords). *)
Definition lower_unit (c : Z) : Z := if (65 <=? c) && (c <=? 90) then c + 32 else c.
Definition to_lower (s : jsstr) : jsstr := lower_unit <$> s.

Lemma to_lower_idemp s : to_lower (to_lower s) = to_lower s.
Proof.
  unfold to_lower. rewrite <- list_fmap_compose. apply list_fmap_ext.
  intros _ c _. unfold compose, lower_unit.
  destruct ((65 <=? c) && (c <=? 90)) eqn:E; [|by rewrite E].
  zbool. destruct ((65 <=? c + 32) && (c + 32 <=? 90)) eqn:E2; zbool; lia.
Qed.
#[export] Hint Rewrite to_lower_idemp : jsdb.

(** ** Decimal rendering: [n.toString()] *)

Fixpoint dec_digits (fuel : nat) (n : Z) (acc : jsstr) : jsstr :=
  match fuel with
  | O => acc
  | S fuel' =>
      let acc' := (48 + n mod 10) :: acc in
      if n <? 10 then acc' else dec_digits fuel' (n / 10) acc'
  end.

(** A number below [2^k] has at most [k] decimal digits, so [log2 + 1] steps
    are enough. *)
Definition nat_to_dec (n : Z) : jsstr := dec_digits (S (Z.to_nat (Z.log2 n))) n [].

Definition z_to_dec (n : Z) : jsstr :=
  if n <? 0 then 45 :: nat_to_dec (- n) else nat_to_dec n.

Example z_to_dec_ex1 : z_to_dec 0 = js "0". Proof. reflexivity. Qed.
Example z_to_dec_ex2 : z_to_dec (-1710412800000) = js "-1710412800000".
Proof. vm_compute. reflexivity. Qed.

Definition is_digit (c : Z) : bool := (48 <=? c) && (c <=? 57).

(** ** [BigInt(string)] *)

Definition is_space (c : Z) : bool :=
  bool_decide (c ∈ [9; 10; 11; 12; 13; 32; 160; 5760; 8232; 8233; 8239; 8287; 12288; 65279])
  || ((8192 <=? c) && (c <=? 8202)).

Fixpoint trim_left (s : jsstr) : jsstr :=
  match s with
  | c :: s' => if is_space c then trim_left s' else s
  | [] => []
  end.
(** [s.trim()] *)
Definition trim (s : jsstr) : jsstr := reverse (trim_left (reverse (trim_left s))).

(** The value of a digit in base 16 or below. *)
Definition digit_val (c : Z) : option Z :=
  if is_digit c then Some (c - 48)
  else if (97 <=? c) && (c <=? 102) then Some (c - 87)
  else if (65 <=? c) && (c <=? 70) then Some (c - 55)
  else None.

Fixpoint radix_val (radix acc : Z) (s : jsstr) : option Z :=
  match s with
  | [] => Some acc
  | c :: s' =>
      match digit_val c with
      | Some d => if d <? radix then radix_val radix (acc * radix + d) s' else None
      | None => None
      end
  end.

Definition radix_lit (radix : Z) (s : jsstr) : option Z :=
  match s with [] => None | _ => radix_val radix 0 s end.

(** [None] is a [SyntaxError]. *)
Definition bigint_of_string (s : jsstr) : option Z :=
  match trim s with
  | [] => Some 0
  | 48 :: c :: ds =>
      if bool_decide (c ∈ [120; 88]) then radix_lit 16 ds
      else if bool_decide (c ∈ [111; 79]) then radix_lit 8 ds
      else if bool_decide (c ∈ [98; 66]) then radix_lit 2 ds
      else radix_lit 10 (48 :: c :: ds)
  | 43 :: ds => radix_lit 10 ds
  | 45 :: ds => Z.opp <$> radix_lit 10 ds
  | ds => radix_lit 10 ds
  end.

Example bigint_of_string_ex1 : bigint_of_string (js " 0x1F ") = Some 31.
Proof. vm_compute. reflexivity. Qed.
Example bigint_of_string_ex2 : bigint_of_string (js "12a") = None.
Proof. vm_compute. reflexivity. Qed.

(** ** The round trip *)

Lemma dec_digits_app fuel n acc : dec_digits fuel n acc = dec_digits fuel n [] ++ acc.
Proof.
  revert n acc. induction fuel as [|f IH]; intros n acc; simpl; [done|].
  destruct (n <? 10); [done|]. rewrite IH, (IH _ [_]), <- app_assoc. done.
Qed.

Lemma dec_digits_digits fuel n :
  0 <= n -> Forall (fun c => is_digit c = true) (dec_digits fuel n []).
Proof.
  revert n. induction fuel as [|f IH]; intros n Hn; simpl; [constructor|].
  assert (is_digit (48 + n mod 10) = true) as Hd.
  { pose proof (Z.mod_pos_bound n 10 ltac:(lia)).
    unfold is_digit. apply andb_true_intro; split; apply Z.leb_le; lia. }
  destruct (n <? 10); [by constructor|].
  rewrite dec_digits_app. apply Forall_app. split; [|by constructor].
  apply IH. apply Z.div_pos; lia.
Qed.

Lemma dec_digits_nonempty f n : dec_digits (S f) n [] <> [].
Proof.
  simpl. destruct (n <? 10); [done|]. rewrite dec_digits_app.
  intros H. apply app_eq_nil in H as [_ H]. done.
Qed.

Lemma radix_val_app r acc s1 s2 :
  radix_val r acc (s1 ++ s2) = radix_val r acc s1 ≫= (fun a => radix_val r a s2).
Proof.
  revert acc. induction s1 as [|c s1 IH]; intros acc; simpl; [done|].
  destruct (digit_val c) as [d|]; [|done]. destruct (d <? r); [apply IH|done].
Qed.

Lemma radix_val_digit acc d :
  0 <= d < 10 -> radix_val 10 acc [48 + d] = Some (acc * 10 + d).
Proof.
  intros H. cbn [radix_val]. unfold digit_val, is_digit.
  replace ((48 <=? 48 + d) && (48 + d <=? 57)) with true
    by (symmetry; apply andb_true_intro; split; apply Z.leb_le; lia).
  replace (48 + d - 48) with d by lia.
  by replace (d <? 10) with true by (symmetry; apply Z.ltb_lt; lia).
Qed.

Lemma radix_val_dec_digits fuel n :
  (1 <= fuel)%nat -> 0 <= n < 10 ^ Z.of_nat fuel ->
  radix_val 10 0 (dec_digits fuel n []) = Some n.
Proof.
  revert n. induction fuel as [|f IH]; intros n Hf Hn; [lia|].
  cbn [dec_digits]. pose proof (Z.mod_pos_bound n 10 ltac:(lia)).
  destruct (Z.ltb_spec n 10).
  - rewrite radix_val_digit by done. rewrite Z.mod_small by lia. f_equal; lia.
  - rewrite dec_digits_app, radix_val_app.
    rewrite Nat2Z.inj_succ, Z.pow_succ_r in Hn by lia.
    destruct f as [|f]; [simpl in Hn; lia|].
    rewrite IH; [|lia|split; [apply Z.div_pos; lia|apply Z.div_lt_upper_bound; lia]].
    cbn [mbind option_bind]. rewrite radix_val_digit by done.
    f_equal. pose proof (Z.div_mod n 10 ltac:(lia)). lia.
Qed.

Lemma nat_to_dec_val n : 0 <= n -> radix_val 10 0 (nat_to_dec n) = Some n.
Proof.
  intros Hn. apply radix_val_dec_digits; [lia|]. split; [done|].
  rewrite Nat2Z.inj_succ, Z2Nat.id by apply Z.log2_nonneg.
  destruct (Z.eq_dec n 0) as [->|]; [reflexivity|].
  destruct (Z.log2_spec n ltac:(lia)) as [_ Hl].
  eapply Z.lt_le_trans; [exact Hl|]. apply Z.pow_le_mono_l.
  pose proof (Z.log2_nonneg n). lia.
Qed.

Lemma digit_not_space c : is_digit c = true -> is_space c = false.
Proof.
  unfold is_digit. intros H. zbool. unfold is_space. apply orb_false_intro.
  - apply bool_decide_eq_false. rewrite !elem_of_cons, elem_of_nil. lia.
  - apply andb_false_intro1. apply Z.leb_gt. lia.
Qed.

Lemma trim_left_fix s :
  (forall c, head s = Some c -> is_space c = false) -> trim_left s = s.
Proof. destruct s as [|c s]; simpl; [done|]. intros H. by rewrite (H c). Qed.

Lemma trim_fix s : Forall (fun c => is_space c = false) s -> trim s = s.
Proof.
  intros H. unfold trim.
  assert (forall l, Forall (fun c => is_space c = false) l -> trim_left l = l) as Ht.
  { intros l Hl. apply trim_left_fix. intros c Hc. destruct l; [done|].
    inversion Hl; simplify_eq/=; done. }
  rewrite (Ht s H), (Ht (reverse s)) by by apply Forall_reverse.
  apply reverse_involutive.
Qed.

Lemma nat_to_dec_digits n : 0 <= n -> Forall (fun c => is_digit c = true) (nat_to_dec n).
Proof. apply dec_digits_digits. Qed.

Lemma nat_to_dec_nonempty n : nat_to_dec n <> [].
Proof. apply dec_digits_nonempty. Qed.

Lemma bigint_of_digits s :
  s <> [] -> Forall (fun c => is_digit c = true) s ->
  bigint_of_string s = radix_val 10 0 s.
Proof.
  intros Hne Hd. unfold bigint_of_string.
  rewrite trim_fix by (eapply Forall_impl; [exact Hd|apply digit_not_space]).
  destruct s as [|c s]; [done|]. inversion Hd as [|? ? Hc Hs]; subst.
  unfold is_digit in Hc. zbool.
  assert (forall x, is_digit x = true ->
    bool_decide (x ∈ [120; 88]) = false /\ bool_decide (x ∈ [111; 79]) = false
    /\ bool_decide (x ∈ [98; 66]) = false) as Hx.
  { intros x Hx. unfold is_digit in Hx. zbool.
    rewrite !bool_decide_eq_false, !elem_of_cons, !elem_of_nil. lia. }
  assert (c = 48 \/ (c <> 48 /\ c <> 43 /\ c <> 45)) as [->|(H1 & H2 & H3)] by lia.
  - destruct s as [|c2 s]; [done|]. inversion Hs as [|? ? Hc2 _]; subst.
    destruct (Hx c2 Hc2) as (-> & -> & ->). done.
  - do 7 (destruct c as [|c|c]; try lia; try done; destruct c as [c|c|]; try lia; try done).
Qed.

(** [BigInt(n.toString()) = n] for every BigInt. *)
Lemma bigint_of_z_to_dec n : bigint_of_string (z_to_dec n) = Some n.
Proof.
  unfold z_to_dec. destruct (Z.ltb_spec n 0) as [Hn|Hn].
  - unfold bigint_of_string. rewrite trim_fix.
    + unfold radix_lit. destruct (nat_to_dec (- n)) as [|c s] eqn:E;
        [by apply nat_to_dec_nonempty in E|].
      rewrite <- E, nat_to_dec_val by lia. simpl. f_equal. lia.
    + constructor; [reflexivity|]. eapply Forall_impl; [apply nat_to_dec_digits; lia|].
      apply digit_not_space.
  - rewrite bigint_of_digits by auto using nat_to_dec_nonempty, nat_to_dec_digits.
    by apply nat_to_dec_val.
Qed.
#[export] Hint Rewrite bigint_of_z_to_dec : jsdb.

#[export] Instance z_to_dec_inj : Inj (=) (=) z_to_dec.
Proof.
  intros n m H. apply (f_equal bigint_of_string) in H.
  rewrite !bigint_of_z_to_dec in H. congruence.
Qed.

Lemma z_to_dec_units n c : c ∈ z_to_dec n -> is_digit c = true \/ c = 45.
Proof.
  unfold z_to_dec. destruct (Z.ltb_spec n 0) as [Hn|Hn]; rewrite ?elem_of_cons.
  - intros [->|Hc]; [by right|left].
    pose proof (nat_to_dec_digits (- n) ltac:(lia)) as Hd.
    by apply (proj1 (Forall_forall _ _) Hd).
  - intros Hc. left. pose proof (nat_to_dec_digits n Hn) as Hd.
    by apply (proj1 (Forall_forall _ _) Hd).
Qed.
