(* ===== verification/Errors.v ===== *)
(** * Errors (src/src/errors.ts)

    [ERROR_CODES] as an inductive type with its table, the constructor of
    [TTTBaseError] with both of its argument conventions, and the exceptions a
    component can throw.  An exception carries the class, the code and the
    message argument of the error; the reason and fix texts matter only inside
    [TTTBaseError], which renders them. *)
From Stdlib Require Import ZArith Lia String Ascii.
From stdpp Require Import base list numbers option strings.
From S2P Require Import Prelude JSString.

(** ** [ERROR_CODES] *)

Inductive error_key : Set :=
| CONFIG_MISSING_SIGNER
| CONFIG_INVALID
| SIGNER_NOT_INITIALIZED
| SIGNER_MISSING_KEY
| SIGNER_INVALID_KEY_FORMAT
| SIGNER_NO_EIP712
| SIGNER_PRIVY_NOT_IMPLEMENTED
| SIGNER_KMS_AWS_INIT_FAILED
| SIGNER_KMS_GCP_MISSING_FIELDS
| SIGNER_KMS_GCP_INIT_FAILED
| SIGNER_KMS_UNSUPPORTED_PROVIDER
| SIGNER_UNSUPPORTED_TYPE
| NETWORK_INVALID_RPC
| NETWORK_CONNECTION_FAILED
| NETWORK_CANNOT_RECONNECT
| NETWORK_RECONNECTION_EXHAUSTED
| NETWORK_TX_DROPPED
| NETWORK_PROVIDER_NOT_CONNECTED
| NETWORK_BLOCK_NOT_FOUND
| CONTRACT_SIGNER_NOT_CONNECTED
| CONTRACT_INVALID_ADDRESS
| CONTRACT_NOT_ATTACHED
| CONTRACT_BURN_FAILED
| CONTRACT_MINT_FAILED
| CONTRACT_BALANCE_QUERY_FAILED
| CONTRACT_SWAP_FAILED
| CONTRACT_INVALID_KEY_FORMAT
| TIME_SYNTHESIS_INTEGRITY_FAILED
| TIME_SYNTHESIS_INSUFFICIENT_CONFIDENCE
| TIME_SYNTHESIS_SOURCE_NOT_FOUND
| TIME_SYNTHESIS_ALL_SOURCES_FAILED
| TIME_SYNTHESIS_POT_ALL_FAILED
| TIME_SYNTHESIS_SELF_VERIFY_FAILED
| FEE_CALCULATION_FAILED.

#[export] Instance error_key_eq_dec : EqDecision error_key.
Proof. solve_decision. Defined.

Definition ERROR_CODES (k : error_key) : string :=
  match k with
  | CONFIG_MISSING_SIGNER => "TTT_E001"
  | CONFIG_INVALID => "TTT_E002"
  | SIGNER_NOT_INITIALIZED => "TTT_E010"
  | SIGNER_MISSING_KEY => "TTT_E011"
  | SIGNER_INVALID_KEY_FORMAT => "TTT_E012"
  | SIGNER_NO_EIP712 => "TTT_E013"
  | SIGNER_PRIVY_NOT_IMPLEMENTED => "TTT_E014"
  | SIGNER_KMS_AWS_INIT_FAILED => "TTT_E015"
  | SIGNER_KMS_GCP_MISSING_FIELDS => "TTT_E016"
  | SIGNER_KMS_GCP_INIT_FAILED => "TTT_E017"
  | SIGNER_KMS_UNSUPPORTED_PROVIDER => "TTT_E018"
  | SIGNER_UNSUPPORTED_TYPE => "TTT_E019"
  | NETWORK_INVALID_RPC => "TTT_E020"
  | NETWORK_CONNECTION_FAILED => "TTT_E021"
  | NETWORK_CANNOT_RECONNECT => "TTT_E022"
  | NETWORK_RECONNECTION_EXHAUSTED => "TTT_E023"
  | NETWORK_TX_DROPPED => "TTT_E024"
  | NETWORK_PROVIDER_NOT_CONNECTED => "TTT_E025"
  | NETWORK_BLOCK_NOT_FOUND => "TTT_E026"
  | CONTRACT_SIGNER_NOT_CONNECTED => "TTT_E030"
  | CONTRACT_INVALID_ADDRESS => "TTT_E031"
  | CONTRACT_NOT_ATTACHED => "TTT_E032"
  | CONTRACT_BURN_FAILED => "TTT_E033"
  | CONTRACT_MINT_FAILED => "TTT_E034"
  | CONTRACT_BALANCE_QUERY_FAILED => "TTT_E035"
  | CONTRACT_SWAP_FAILED => "TTT_E036"
  | CONTRACT_INVALID_KEY_FORMAT => "TTT_E037"
  | TIME_SYNTHESIS_INTEGRITY_FAILED => "TTT_E040"
  | TIME_SYNTHESIS_INSUFFICIENT_CONFIDENCE => "TTT_E041"
  | TIME_SYNTHESIS_SOURCE_NOT_FOUND => "TTT_E042"
  | TIME_SYNTHESIS_ALL_SOURCES_FAILED => "TTT_E043"
  | TIME_SYNTHESIS_POT_ALL_FAILED => "TTT_E044"
  | TIME_SYNTHESIS_SELF_VERIFY_FAILED => "TTT_E045"
  | FEE_CALCULATION_FAILED => "TTT_E050"
  end.

Definition all_error_keys : list error_key :=
  [CONFIG_MISSING_SIGNER; CONFIG_INVALID; SIGNER_NOT_INITIALIZED; SIGNER_MISSING_KEY; SIGNER_INVALID_KEY_FORMAT; SIGNER_NO_EIP712; SIGNER_PRIVY_NOT_IMPLEMENTED; SIGNER_KMS_AWS_INIT_FAILED; SIGNER_KMS_GCP_MISSING_FIELDS; SIGNER_KMS_GCP_INIT_FAILED; SIGNER_KMS_UNSUPPORTED_PROVIDER; SIGNER_UNSUPPORTED_TYPE; NETWORK_INVALID_RPC; NETWORK_CONNECTION_FAILED; NETWORK_CANNOT_RECONNECT; NETWORK_RECONNECTION_EXHAUSTED; NETWORK_TX_DROPPED; NETWORK_PROVIDER_NOT_CONNECTED; NETWORK_BLOCK_NOT_FOUND; CONTRACT_SIGNER_NOT_CONNECTED; CONTRACT_INVALID_ADDRESS; CONTRACT_NOT_ATTACHED; CONTRACT_BURN_FAILED; CONTRACT_MINT_FAILED; CONTRACT_BALANCE_QUERY_FAILED; CONTRACT_SWAP_FAILED; CONTRACT_INVALID_KEY_FORMAT; TIME_SYNTHESIS_INTEGRITY_FAILED; TIME_SYNTHESIS_INSUFFICIENT_CONFIDENCE; TIME_SYNTHESIS_SOURCE_NOT_FOUND; TIME_SYNTHESIS_ALL_SOURCES_FAILED; TIME_SYNTHESIS_POT_ALL_FAILED; TIME_SYNTHESIS_SELF_VERIFY_FAILED; FEE_CALCULATION_FAILED].

(** ** [TTTBaseError] *)

Inductive error_class : Set :=
| TTTConfigError | TTTSignerError | TTTNetworkError
| TTTContractError | TTTTimeSynthesisError | TTTFeeError.

#[export] Instance error_class_eq_dec : EqDecision error_class.
Proof. solve_decision. Defined.

Record ttt_error := { te_class : error_class; te_code : string; te_message : string }.

(** [new TTTXError(codeOrMessage, messageOrReason, reasonOrFix, fix?)]: with a
    fourth argument the first one is the code, without it the code defaults to
    "TTT_E002". *)
Definition TTTBaseError (cls : error_class) (codeOrMessage messageOrReason reasonOrFix : string)
    (fix_ : option string) : ttt_error :=
  let code := match fix_ with Some _ => codeOrMessage | None => "TTT_E002" end in
  let message := match fix_ with Some _ => messageOrReason | None => codeOrMessage end in
  let reason := match fix_ with Some _ => reasonOrFix | None => messageOrReason end in
  let fixStr := match fix_ with Some f => f | None => reasonOrFix end in
  {| te_class := cls; te_code := code;
     te_message := "[" +:+ code +:+ "] " +:+ message +:+ " (Reason: " +:+ reason
                   +:+ ". Fix: " +:+ fixStr +:+ ")" |}.

(** ** Exceptions *)

Inductive exn : Type :=
| TTTErr (cls : error_class) (code message : string)
    (* one of the SDK's error classes *)
| RangeError                    (* out-of-range Buffer access, BigInt(non-integer) *)
| TypeError
| SyntaxError                   (* BigInt or JSON.parse on malformed text *)
| PlainError (message : jsstr)  (* [new Error(message)] *)
| PotFrameError
| TLSBindingError
| ForeignError (reason data_message message : option jsstr).
    (* an error object raised by code outside src/, with the three string
       fields [extractRevertReason] inspects *)

#[export] Instance exn_eq_dec : EqDecision exn.
Proof. solve_decision. Defined.

Abbreviation res := (result exn).

(** [throw new TTTXError(ERROR_CODES.k, message, reason, fix)] *)
Definition throw4 {A} (cls : error_class) (k : error_key) (message : string) : res A :=
  Throw (TTTErr cls (ERROR_CODES k) message).

(** [throw new TTTXError(message, reason, fix)] *)
Definition throw3 {A} (cls : error_class) (message : string) : res A :=
  Throw (TTTErr cls (ERROR_CODES CONFIG_INVALID) message).

(** [throw new Error(message)] *)
Definition throw_plain {A} (message : string) : res A := Throw (PlainError (js message)).

Definition is_ttt_error (e : exn) : bool := match e with TTTErr _ _ _ => true | _ => false end.

(** ** The code table *)

Lemma all_error_keys_complete k : k ∈ all_error_keys.
Proof. destruct k; unfold all_error_keys; repeat (first [apply list_elem_of_here | apply list_elem_of_further]). Qed.

(** The class a code belongs to, by the ranges the sources document:
    E001-E009 config, E010-E019 signer, E020-E029 network, E030-E039 contract,
    E040-E049 time synthesis, E050-E059 fee. *)
Definition code_class (code : string) : option error_class :=
  match code with
  | String "T" (String "T" (String "T" (String "_" (String "E" (String "0" (String d _)))))) =>
      if (d =? "0")%char then Some TTTConfigError
      else if (d =? "1")%char then Some TTTSignerError
      else if (d =? "2")%char then Some TTTNetworkError
      else if (d =? "3")%char then Some TTTContractError
      else if (d =? "4")%char then Some TTTTimeSynthesisError
      else if (d =? "5")%char then Some TTTFeeError
      else None
  | _ => None
  end.

Lemma error_codes_inj k1 k2 : ERROR_CODES k1 = ERROR_CODES k2 -> k1 = k2.
Proof. destruct k1, k2; intros H; solve [reflexivity | discriminate H]. Qed.
