(* ===== verification/Bytes.v ===== *)
(** * Node.js Buffers

    Byte sequences and the [Buffer] operations the sources use: little- and
    big-endian unsigned integers (with their range errors), [subarray] with its
    clamping, [copy], hex and UTF-8 conversions. *)
From Stdlib Require Import ZArith Lia Strings.Byte String.
From stdpp Require Import base list numbers option strings.
From S2P Require Import Prelude JSString Errors.

Abbreviation byte := Byte.byte.
Abbreviation Buffer := (list byte).

#[export] Instance byte_eq_dec : EqDecision byte := Byte.byte_eq_dec.

(** ** Bytes and integers *)

Definition bval (b : byte) : Z := Z.of_N (Byte.to_N b).
Definition bofZ (z : Z) : byte :=
  match Byte.of_N (Z.to_N (z mod 256)) with Some b => b | None => Byte.x00 end.

Lemma bval_range b : 0 <= bval b < 256.
Proof. unfold bval. pose proof (Byte.to_N_bounded b). lia. Qed.
#[export] Hint Resolve bval_range : jsinv.

Lemma bval_bofZ z : bval (bofZ z) = z mod 256.
Proof.
  unfold bval, bofZ. pose proof (Z.mod_pos_bound z 256 ltac:(lia)).
  destruct (Byte.of_N _) as [b|] eqn:E.
  - apply Byte.to_of_N in E. rewrite E. lia.
  - apply Byte.of_N_None_iff in E. lia.
Qed.

Lemma bofZ_bval b : bofZ (bval b) = b.
Proof.
  unfold bofZ, bval. rewrite Z.mod_small by (apply bval_range).
  rewrite N2Z.id, Byte.of_to_N. done.
Qed.

#[export] Instance bval_inj : Inj (=) (=) bval.
Proof. intros b1 b2 H. rewrite <- (bofZ_bval b1), <- (bofZ_bval b2). congruence. Qed.

(** ** Little- and big-endian integers *)

Fixpoint le_val (l : Buffer) : Z :=
  match l with [] => 0 | b :: l' => bval b + 256 * le_val l' end.
Fixpoint le_bytes (n : nat) (z : Z) : Buffer :=
  match n with O => [] | S n' => bofZ z :: le_bytes n' (z / 256) end.
Definition be_val (l : Buffer) : Z := le_val (reverse l).
Definition be_bytes (n : nat) (z : Z) : Buffer := reverse (le_bytes n z).

Lemma length_le_bytes n z : length (le_bytes n z) = n.
Proof. revert z. induction n; intros z; simpl; congruence. Qed.
Lemma length_be_bytes n z : length (be_bytes n z) = n.
Proof. unfold be_bytes. by rewrite length_reverse, length_le_bytes. Qed.
#[export] Hint Rewrite length_le_bytes length_be_bytes : jsdb.

Lemma le_val_range l : 0 <= le_val l < 256 ^ Z.of_nat (length l).
Proof.
  induction l as [|b l IH]; cbn [le_val length]; [lia|].
  rewrite Nat2Z.inj_succ, Z.pow_succ_r by lia.
  pose proof (bval_range b). lia.
Qed.
Lemma be_val_range l : 0 <= be_val l < 256 ^ Z.of_nat (length l).
Proof. unfold be_val. rewrite <- (length_reverse l). apply le_val_range. Qed.

Lemma le_val_le_bytes n z : le_val (le_bytes n z) = z mod 256 ^ Z.of_nat n.
Proof.
  revert z. induction n as [|n IH]; intros z; cbn [le_val le_bytes].
  - by rewrite Z.mod_1_r.
  - rewrite bval_bofZ, IH, Nat2Z.inj_succ, Z.pow_succ_r by lia.
    rewrite Z.rem_mul_r by lia. done.
Qed.
Lemma be_val_be_bytes n z : be_val (be_bytes n z) = z mod 256 ^ Z.of_nat n.
Proof. unfold be_val, be_bytes. by rewrite reverse_involutive, le_val_le_bytes. Qed.

Lemma le_bytes_le_val l : le_bytes (length l) (le_val l) = l.
Proof.
  induction l as [|b l IH]; cbn [le_val le_bytes length]; [done|].
  pose proof (bval_range b).
  replace ((bval b + 256 * le_val l) / 256) with (le_val l)
    by (rewrite (Z.mul_comm 256), Z.div_add, Z.div_small by lia; lia).
  rewrite IH. f_equal. apply (inj bval). rewrite bval_bofZ.
  rewrite (Z.mul_comm 256), Z.mod_add, Z.mod_small by lia. done.
Qed.
Lemma be_bytes_be_val l : be_bytes (length l) (be_val l) = l.
Proof.
  unfold be_bytes, be_val. rewrite <- (length_reverse l), le_bytes_le_val.
  apply reverse_involutive.
Qed.

(** ** Buffer reads and writes

    A read outside the buffer throws [ERR_OUT_OF_RANGE] or
    [ERR_BUFFER_OUT_OF_BOUNDS], both [RangeError]s. *)

Definition read_bytes (buf : Buffer) (off n : nat) : res Buffer :=
  if (off + n <=? length buf)%nat then Ok (take n (drop off buf)) else Throw RangeError.

Definition readUInt8 (buf : Buffer) (off : nat) : res Z := be_val <$> read_bytes buf off 1.
Definition readUInt32LE (buf : Buffer) (off : nat) : res Z := le_val <$> read_bytes buf off 4.
Definition readUInt32BE (buf : Buffer) (off : nat) : res Z := be_val <$> read_bytes buf off 4.
Definition readBigUInt64LE (buf : Buffer) (off : nat) : res Z := le_val <$> read_bytes buf off 8.
Definition readBigUInt64BE (buf : Buffer) (off : nat) : res Z := be_val <$> read_bytes buf off 8.

(** [buf.subarray(s, e)]: both ends are clamped to the length. *)
Definition subarray (buf : Buffer) (s e : nat) : Buffer :=
  let e' := Nat.min e (length buf) in take (e' - s) (drop s buf).

(** [buf.writeX(z, off)] as the bytes it writes: a value outside the width
    throws. *)
Definition checked_be (n : nat) (z : Z) : res Buffer :=
  if (0 <=? z) && (z <? 256 ^ Z.of_nat n) then Ok (be_bytes n z) else Throw RangeError.
Definition checked_le (n : nat) (z : Z) : res Buffer :=
  if (0 <=? z) && (z <? 256 ^ Z.of_nat n) then Ok (le_bytes n z) else Throw RangeError.

(** Overwrites [length src] bytes of [buf] from [off], what fits of them:
    [src.copy(buf, off)] and [buf.write(..., off)]. *)
Definition overwrite (buf : Buffer) (off : nat) (src : Buffer) : Buffer :=
  let n := Nat.min (length src) (length buf - off) in
  take off buf ++ take n src ++ drop (off + n) buf.

Definition zeros (n : nat) : Buffer := replicate n Byte.x00.

Lemma read_bytes_app (l1 l2 l3 : Buffer) :
  read_bytes (l1 ++ l2 ++ l3) (length l1) (length l2) = Ok l2.
Proof.
  unfold read_bytes. rewrite !length_app.
  replace (_ <=? _)%nat with true by (symmetry; apply Nat.leb_le; lia).
  by rewrite drop_app_length, take_app_length.
Qed.

Lemma read_bytes_at (l1 l2 l3 : Buffer) off n :
  off = length l1 -> n = length l2 -> read_bytes (l1 ++ l2 ++ l3) off n = Ok l2.
Proof. intros -> ->. apply read_bytes_app. Qed.

Lemma read_bytes_Ok buf off n l :
  read_bytes buf off n = Ok l <-> (off + n <= length buf)%nat /\ l = take n (drop off buf).
Proof.
  unfold read_bytes. destruct (Nat.leb_spec (off + n) (length buf)); split;
    [intros [= <-]; auto|intros [_ ->]; done|done|lia].
Qed.

Lemma read_bytes_length buf off n l : read_bytes buf off n = Ok l -> length l = n.
Proof.
  intros (H & ->)%read_bytes_Ok. rewrite length_take, length_drop. lia.
Qed.

Lemma read_bytes_total buf off n :
  (off + n <= length buf)%nat -> exists l, read_bytes buf off n = Ok l.
Proof. intros H. eexists. apply read_bytes_Ok. eauto. Qed.

Lemma overwrite_length buf off src :
  (off <= length buf)%nat -> length (overwrite buf off src) = length buf.
Proof.
  intros H. unfold overwrite. rewrite !length_app, !length_take, length_drop. lia.
Qed.

Lemma overwrite_fits (l1 l2 l3 : Buffer) src :
  length src = length l2 -> overwrite (l1 ++ l2 ++ l3) (length l1) src = l1 ++ src ++ l3.
Proof.
  intros H. unfold overwrite. rewrite !length_app.
  replace (Nat.min (length src) (length l1 + (length l2 + length l3) - length l1))
    with (length src) by lia.
  rewrite take_app_length, firstn_all. do 2 f_equal.
  rewrite app_assoc, H, <- length_app, drop_app_length. done.
Qed.

Lemma subarray_take buf e : (e <= length buf)%nat -> subarray buf 0 e = take e buf.
Proof. intros H. unfold subarray. rewrite drop_0. f_equal. lia. Qed.

Lemma subarray_drop buf s : subarray buf s (length buf) = drop s buf.
Proof.
  unfold subarray. rewrite Nat.min_id. apply take_ge. rewrite length_drop. lia.
Qed.

Lemma subarray_app l1 l2 l3 s e :
  s = length l1 -> e = (length l1 + length l2)%nat -> subarray (l1 ++ l2 ++ l3) s e = l2.
Proof.
  intros -> ->. unfold subarray. rewrite !length_app.
  replace (Nat.min (length l1 + length l2) (length l1 + (length l2 + length l3)) - length l1)%nat
    with (length l2) by lia.
  by rewrite drop_app_length, take_app_length.
Qed.

Lemma subarray_length buf s e : (e <= length buf)%nat -> length (subarray buf s e) = (e - s)%nat.
Proof. intros H. unfold subarray. rewrite length_take, length_drop. lia. Qed.

(** ** Hex: [Buffer.from(s, "hex")] and [buf.toString("hex")]

    Decoding stops at the first pair that is not two hex digits. *)

Definition hex_digit (d : Z) : Z := if d <? 10 then 48 + d else 87 + d.
Definition hex_of_byte (b : byte) : jsstr := [hex_digit (bval b / 16); hex_digit (bval b mod 16)].
Definition to_hex (l : Buffer) : jsstr := l ≫= hex_of_byte.

Fixpoint from_hex (s : jsstr) : Buffer :=
  match s with
  | c1 :: c2 :: s' =>
      match digit_val c1, digit_val c2 with
      | Some d1, Some d2 => bofZ (16 * d1 + d2) :: from_hex s'
      | _, _ => []
      end
  | _ => []
  end.

Lemma digit_val_hex_digit d : 0 <= d < 16 -> digit_val (hex_digit d) = Some d.
Proof.
  intros H. unfold hex_digit, digit_val, is_digit.
  destruct (Z.ltb_spec d 10).
  - replace ((48 <=? 48 + d) && (48 + d <=? 57)) with true
      by (symmetry; apply andb_true_intro; split; apply Z.leb_le; lia). f_equal; lia.
  - replace ((48 <=? 87 + d) && (87 + d <=? 57)) with false
      by (symmetry; apply andb_false_intro2; apply Z.leb_gt; lia).
    replace ((97 <=? 87 + d) && (87 + d <=? 102)) with true
      by (symmetry; apply andb_true_intro; split; apply Z.leb_le; lia). f_equal; lia.
Qed.

Lemma from_hex_to_hex l : from_hex (to_hex l) = l.
Proof.
  induction l as [|b l IH]; [done|]. pose proof (bval_range b).
  change (to_hex (b :: l)) with (hex_of_byte b ++ to_hex l). cbn [hex_of_byte app from_hex].
  rewrite !digit_val_hex_digit
    by (split; first [apply Z.div_pos|apply Z.mod_pos_bound|apply Z.div_lt_upper_bound|idtac]; try lia;
        apply Z.mod_pos_bound; lia).
  rewrite IH, <- Z.div_mod, bofZ_bval by lia. done.
Qed.
#[export] Hint Rewrite from_hex_to_hex : jsdb.

#[export] Instance to_hex_inj : Inj (=) (=) to_hex.
Proof. intros l1 l2 H. rewrite <- (from_hex_to_hex l1), H. apply from_hex_to_hex. Qed.

Lemma length_to_hex l : length (to_hex l) = (2 * length l)%nat.
Proof.
  induction l as [|b l IH]; [done|].
  change (to_hex (b :: l)) with (hex_of_byte b ++ to_hex l).
  rewrite length_app, IH. simpl. lia.
Qed.

Lemma to_hex_digit l c : c ∈ to_hex l -> exists d, 0 <= d < 16 /\ c = hex_digit d.
Proof.
  unfold to_hex. intros (b & Hc & _)%list_elem_of_bind. pose proof (bval_range b) as Hb.
  apply elem_of_cons in Hc as [->|Hc]; [exists (bval b / 16)|exists (bval b mod 16)].
  - split; [|done]. split; [apply Z.div_pos; lia|apply Z.div_lt_upper_bound; lia].
  - apply list_elem_of_singleton in Hc as ->. split; [apply Z.mod_pos_bound; lia|done].
Qed.

(** ** ASCII and UTF-8 *)

(** [Buffer.from(s, "ascii")] keeps the low byte of every code unit. *)
Definition ascii_bytes (s : jsstr) : Buffer := bofZ <$> s.

(** [Buffer.from(s, "utf8")]: surrogate pairs make one four-byte sequence, a
    lone surrogate becomes U+FFFD. *)
Definition utf8_of_scalar (c : Z) : Buffer :=
  if c <? 128 then [bofZ c]
  else if c <? 2048 then [bofZ (192 + c / 64); bofZ (128 + c mod 64)]
  else if c <? 65536 then
    [bofZ (224 + c / 4096); bofZ (128 + c / 64 mod 64); bofZ (128 + c mod 64)]
  else [bofZ (240 + c / 262144); bofZ (128 + c / 4096 mod 64);
        bofZ (128 + c / 64 mod 64); bofZ (128 + c mod 64)].

Definition is_high (c : Z) : bool := (55296 <=? c) && (c <=? 56319).
Definition is_low (c : Z) : bool := (56320 <=? c) && (c <=? 57343).

Fixpoint utf8_encode (s : jsstr) : Buffer :=
  match s with
  | [] => []
  | c :: s' =>
      if is_high c then
        match s' with
        | c2 :: s'' =>
            if is_low c2
            then utf8_of_scalar (65536 + (c - 55296) * 1024 + (c2 - 56320)) ++ utf8_encode s''
            else utf8_of_scalar 65533 ++ utf8_encode s'
        | [] => utf8_of_scalar 65533
        end
      else if is_low c then utf8_of_scalar 65533 ++ utf8_encode s'
      else utf8_of_scalar c ++ utf8_encode s'
  end.

(** [buf.toString("utf8")], the WHATWG decoder: [need] continuation bytes are
    awaited, the next one between [lo] and [hi]; an ill-formed prefix yields
    one U+FFFD and the offending byte is read again. *)
Definition utf16_of_scalar (c : Z) : jsstr :=
  if c <? 65536 then [c]
  else [55296 + (c - 65536) / 1024; 56320 + (c - 65536) mod 1024].

(** The first byte of a sequence: the code units it yields at once, or the
    number of continuation bytes with the bits so far and the next bounds. *)
Definition utf8_start (b : Z) : jsstr + (nat * Z * Z * Z) :=
  if b <? 128 then inl [b]
  else if (194 <=? b) && (b <=? 223) then inr (1%nat, b - 192, 128, 191)
  else if (224 <=? b) && (b <=? 239) then
    inr (2%nat, b - 224, if b =? 224 then 160 else 128, if b =? 237 then 159 else 191)
  else if (240 <=? b) && (b <=? 244) then
    inr (3%nat, b - 240, if b =? 240 then 144 else 128, if b =? 244 then 143 else 191)
  else inl [65533].

Fixpoint utf8_decode_st (st : option (nat * Z * Z * Z)) (l : Buffer) : jsstr :=
  match l with
  | [] => match st with Some _ => [65533] | None => [] end
  | b :: l' =>
      let b := bval b in
      let start :=
        match utf8_start b with
        | inl us => us ++ utf8_decode_st None l'
        | inr st' => utf8_decode_st (Some st') l'
        end in
      match st with
      | None => start
      | Some (need, acc, lo, hi) =>
          if (lo <=? b) && (b <=? hi) then
            let acc' := acc * 64 + (b - 128) in
            match need with
            | S (S n) => utf8_decode_st (Some (S n, acc', 128, 191)) l'
            | _ => utf16_of_scalar acc' ++ utf8_decode_st None l'
            end
          else 65533 :: start
      end
  end.
Definition utf8_decode (l : Buffer) : jsstr := utf8_decode_st None l.

Definition is_ascii (s : jsstr) : Prop := Forall (fun c => 0 <= c < 128) s.

Lemma utf8_encode_nonempty s : s <> [] -> utf8_encode s <> [].
Proof.
  assert (forall c, utf8_of_scalar c <> []) as H.
  { intros c. unfold utf8_of_scalar. by repeat destruct (_ <? _). }
  assert (forall c l, utf8_of_scalar c ++ l <> []) as Ha.
  { intros c l E. apply app_eq_nil in E as [E _]. by apply H in E. }
  destruct s as [|c s]; [done|]. intros _. cbn [utf8_encode].
  destruct (is_high c); [destruct s as [|c2 s]; [apply H|destruct (is_low c2)]|destruct (is_low c)]; apply Ha.
Qed.

Lemma utf8_encode_ascii s : is_ascii s -> utf8_encode s = bofZ <$> s.
Proof.
  induction 1 as [|c s Hc _ IH]; [done|]. cbn [utf8_encode fmap list_fmap].
  unfold is_high, is_low, utf8_of_scalar.
  replace (55296 <=? c) with false by (symmetry; apply Z.leb_gt; lia).
  replace (56320 <=? c) with false by (symmetry; apply Z.leb_gt; lia).
  replace (c <? 128) with true by (symmetry; apply Z.ltb_lt; lia).
  by rewrite IH.
Qed.

Lemma to_hex_ascii l : is_ascii (to_hex l).
Proof.
  apply Forall_forall. intros c (d & Hd & ->)%to_hex_digit. unfold hex_digit. destruct (Z.ltb_spec d 10); lia.
Qed.

Lemma length_utf8_ascii s : is_ascii s -> length (utf8_encode s) = length s.
Proof. intros H. by rewrite utf8_encode_ascii, length_fmap by done. Qed.

Lemma utf8_decode_encode_ascii s : is_ascii s -> utf8_decode (utf8_encode s) = s.
Proof.
  intros H. rewrite utf8_encode_ascii by done. unfold utf8_decode.
  induction H as [|c s Hc _ IH]; [done|]. cbn [utf8_decode_st fmap list_fmap].
  rewrite bval_bofZ, Z.mod_small by lia. unfold utf8_start.
  replace (c <? 128) with true by (symmetry; apply Z.ltb_lt; lia).
  cbn [app]. by rewrite IH.
Qed.

Example utf8_ex_euro : to_hex (utf8_encode [8364; 55357; 56832]) = js "e282acf09f9880".
Proof. vm_compute. reflexivity. Qed.
Example utf8_ex_round : utf8_decode (utf8_encode [233; 8364; 55357; 56832]) = [233; 8364; 55357; 56832].
Proof. vm_compute. reflexivity. Qed.
Example utf8_ex_bad : utf8_decode (from_hex (js "c3")) = [65533].
Proof. vm_compute. reflexivity. Qed.
