(* ===== verification/JSNum.v ===== *)
(** * JavaScript Numbers

    A Number is an IEEE 754 binary64 value, in the executable specification
    the Standard Library has of them ([SpecFloat], precision 53, [emax] 1024):
    arithmetic rounds exactly as the JavaScript operators do.  The file adds
    the conversions the sources use: [Number(n)], [BigInt(x)], [Math.round],
    [Math.floor], [Math.abs], [Math.min], and the binary32 form
    [Buffer.writeFloatBE] stores; integers below 2^53 are exact and ordered. *)
From Stdlib Require Import ZArith Lia String Floats.SpecFloat.
From stdpp Require Import base list numbers option strings.
From S2P Require Import Prelude JSString Errors Bytes.

Abbreviation num := spec_float.

#[export] Instance num_eq_dec : EqDecision num.
Proof. solve_decision. Defined.

Definition nadd : num -> num -> num := SFadd 53 1024.
Definition nsub : num -> num -> num := SFsub 53 1024.
Definition nmul : num -> num -> num := SFmul 53 1024.
Definition ndiv : num -> num -> num := SFdiv 53 1024.
Definition nsqrt : num -> num := SFsqrt 53 1024.   (* Math.sqrt *)
Definition nabs : num -> num := SFabs.
Definition nlt (x y : num) : bool := SFltb x y.
Definition nle (x y : num) : bool := SFleb x y.
Definition neqb (x y : num) : bool := SFeqb x y.   (* === *)

(** [Number(z)]: the nearest binary64, ties to even. *)
Definition num_of_Z (z : Z) : num := binary_normalize 53 1024 z 0 false.

(** A decimal literal [n / 10^k]: a correctly rounded quotient of two exact
    integers is the nearest binary64, which is what the literal denotes. *)
Definition num_lit (n d : Z) : num := ndiv (num_of_Z n) (num_of_Z d).

Definition num_0 : num := num_of_Z 0.
Definition is_nan (x : num) : bool := match x with S754_nan => true | _ => false end.

(** The signed mantissa: a finite value is [smant s m * 2 ^ e]. *)
Definition smant (s : bool) (m : positive) : Z := if s then Zneg m else Zpos m.

(** [Math.floor], [Math.round] on a finite value, as integers. *)
Definition floor_Z (s : bool) (m : positive) (e : Z) : Z :=
  if 0 <=? e then smant s m * 2 ^ e else smant s m / 2 ^ (- e).
Definition round_Z (s : bool) (m : positive) (e : Z) : Z :=
  if 0 <=? e then smant s m * 2 ^ e else (2 * smant s m + 2 ^ (- e)) / (2 * 2 ^ (- e)).

(** An integral result, keeping the sign of zero. *)
Definition num_of_int (s : bool) (z : Z) : num := binary_normalize 53 1024 z 0 s.

Definition nfloor (x : num) : num :=
  match x with S754_finite s m e => num_of_int s (floor_Z s m e) | _ => x end.
Definition nround (x : num) : num :=
  match x with S754_finite s m e => num_of_int s (round_Z s m e) | _ => x end.

(** [BigInt(x)]: a [RangeError] on a non-integer. *)
Definition bigint_of_num (x : num) : res Z :=
  match x with
  | S754_zero _ => Ok 0
  | S754_finite s m e =>
      if 0 <=? e then Ok (smant s m * 2 ^ e)
      else if smant s m mod 2 ^ (- e) =? 0 then Ok (smant s m / 2 ^ (- e))
      else Throw RangeError
  | _ => Throw RangeError
  end.

(** [Math.min(x, y)] *)
Definition nmin (x y : num) : num :=
  if is_nan x || is_nan y then S754_nan
  else if nlt x y then x else if nlt y x then y
  else match x with S754_zero true => x | _ => y end.

Example lit_095 : neqb (num_lit 95 100) (ndiv (num_of_Z 19) (num_of_Z 20)) = true.
Proof. vm_compute. reflexivity. Qed.
Example sum_03 : neqb (nadd (num_lit 1 10) (num_lit 2 10)) (num_lit 3 10) = false.
Proof. vm_compute. reflexivity. Qed.
Example round_half : bigint_of_num (nround (num_lit (-25) 10)) = Ok (-2).
Proof. vm_compute. reflexivity. Qed.
Example bigint_frac : bigint_of_num (num_lit 1 2) = Throw RangeError.
Proof. vm_compute. reflexivity. Qed.

(** ** Binary32: [buf.writeFloatBE] and [buf.readFloatBE] *)

Definition round32 (x : num) : spec_float :=
  match x with
  | S754_finite s m e => binary_normalize 24 128 (smant s m) e s
  | _ => x
  end.

(** The bit pattern of a binary32 value; a NaN is the canonical one. *)
Definition bits32 (x : spec_float) : Z :=
  match x with
  | S754_zero s => (if s then 2 ^ 31 else 0)
  | S754_infinity s => (if s then 2 ^ 31 else 0) + 255 * 2 ^ 23
  | S754_nan => 255 * 2 ^ 23 + 2 ^ 22
  | S754_finite s m e =>
      (if s then 2 ^ 31 else 0)
      + (if Zpos m <? 2 ^ 23 then Zpos m else (e + 150) * 2 ^ 23 + (Zpos m - 2 ^ 23))
  end.

Definition of_bits32 (w : Z) : spec_float :=
  let s := 2 ^ 31 <=? w in
  let ex := w / 2 ^ 23 mod 256 in
  let fr := w mod 2 ^ 23 in
  if ex =? 255 then (if fr =? 0 then S754_infinity s else S754_nan)
  else if ex =? 0 then
    match fr with Zpos m => S754_finite s m (-149) | _ => S754_zero s end
  else match fr + 2 ^ 23 with Zpos m => S754_finite s m (ex - 150) | _ => S754_zero s end.

(** Every binary32 value is a binary64 one. *)
Definition widen (x : spec_float) : num :=
  match x with
  | S754_finite s m e => binary_normalize 53 1024 (smant s m) e s
  | _ => x
  end.

Definition float_bytes (x : num) : Buffer := be_bytes 4 (bits32 (round32 x)).
Definition float_of_bytes (b : Buffer) : num := widen (of_bits32 (be_val b)).

(** The Number a binary32 field gives back: [Math.fround(x)]. *)
Definition nfround (x : num) : num := float_of_bytes (float_bytes x).

Lemma length_float_bytes x : length (float_bytes x) = 4%nat.
Proof. apply length_be_bytes. Qed.
#[export] Hint Rewrite length_float_bytes : jsdb.

Definition readFloatBE (buf : Buffer) (off : nat) : res num :=
  float_of_bytes <$> read_bytes buf off 4.

Lemma digits2_pos_bound m :
  2 ^ (Zpos (digits2_pos m) - 1) <= Zpos m < 2 ^ Zpos (digits2_pos m).
Proof.
  induction m as [m IH|m IH|]; cbn [digits2_pos]; [| |cbn; lia].
  all: rewrite Pos2Z.inj_succ;
    replace (Z.succ (Zpos (digits2_pos m)) - 1) with (Z.succ (Zpos (digits2_pos m) - 1)) by lia;
    rewrite !Z.pow_succ_r by lia; lia.
Qed.

(** The canonical binary32 mantissas: subnormal or of 24 digits. *)
Lemma bounded32_cases m e :
  bounded 24 128 m e = true ->
  e = -149 /\ Zpos m < 2 ^ 23 \/ -149 <= e <= 104 /\ 2 ^ 23 <= Zpos m < 2 ^ 24.
Proof.
  unfold bounded, canonical_mantissa, fexp, emin. intros [Hc He]%andb_prop.
  apply Z.eqb_eq in Hc. apply Z.leb_le in He.
  pose proof (digits2_pos_bound m) as Hd. set (d := Zpos (digits2_pos m)) in *.
  destruct (Z.max_spec (d + e - 24) (3 - 128 - 24)) as [[H1 H2]|[H1 H2]]; rewrite H2 in Hc.
  - left. split; [lia|]. eapply Z.lt_le_trans; [apply Hd|]. apply Z.pow_le_mono_r; lia.
  - right. split; [lia|]. assert (d = 24) as E by lia. rewrite E in Hd. exact Hd.
Qed.

Lemma bits32_range x : valid_binary 24 128 x = true -> 0 <= bits32 x < 2 ^ 32.
Proof.
  destruct x as [s|s| |s m e]; intros H; cbn [bits32]; [destruct s; lia|destruct s; lia|lia|].
  destruct (bounded32_cases _ _ H); destruct s; destruct (Z.ltb_spec (Zpos m) (2 ^ 23)); lia.
Qed.

(** The three fields of a bit pattern. *)
Lemma fields32 (s : bool) (ex fr : Z) :
  0 <= ex < 256 -> 0 <= fr < 2 ^ 23 ->
  let w := (if s then 2 ^ 31 else 0) + (ex * 2 ^ 23 + fr) in
  (2 ^ 31 <=? w) = s /\ w / 2 ^ 23 mod 256 = ex /\ w mod 2 ^ 23 = fr.
Proof.
  intros Hex Hfr. cbv zeta.
  replace ((if s then 2 ^ 31 else 0) + (ex * 2 ^ 23 + fr))
    with (fr + (ex + (if s then 1 else 0) * 256) * 2 ^ 23) by (destruct s; lia).
  split_and!.
  - destruct s; [apply Z.leb_le|apply Z.leb_gt]; lia.
  - rewrite Z.div_add, Z.div_small, Z.add_0_l, Z.mod_add, Z.mod_small by lia. done.
  - rewrite Z.mod_add, Z.mod_small by lia. done.
Qed.

(** A binary32 value survives its bit pattern. *)
Lemma of_bits32_bits32 x :
  valid_binary 24 128 x = true -> of_bits32 (bits32 x) = x.
Proof.
  destruct x as [s|s| |s m e]; intros H; [by destruct s|by destruct s|reflexivity|].
  unfold bits32, of_bits32; cbv zeta.
  destruct (bounded32_cases _ _ H) as [[-> Hm]|[He Hm]].
  - replace (Zpos m <? 2 ^ 23) with true by (symmetry; apply Z.ltb_lt; lia).
    destruct (fields32 s 0 (Zpos m)) as (E1 & E2 & E3); [lia..|].
    rewrite Z.mul_0_l, Z.add_0_l in E1, E2, E3. by rewrite E1, E2, E3.
  - replace (Zpos m <? 2 ^ 23) with false by (symmetry; apply Z.ltb_ge; lia).
    destruct (fields32 s (e + 150) (Zpos m - 2 ^ 23)) as (E1 & E2 & E3); [lia..|].
    rewrite E1, E2, E3.
    replace (e + 150 =? 255) with false by (symmetry; apply Z.eqb_neq; lia).
    replace (e + 150 =? 0) with false by (symmetry; apply Z.eqb_neq; lia).
    replace (Zpos m - 2 ^ 23 + 2 ^ 23) with (Zpos m) by lia. f_equal. lia.
Qed.

(** [x] is a binary32 value: the round trip through a float field keeps it. *)
Definition is_float32 (x : num) : bool :=
  valid_binary 24 128 (round32 x) && bool_decide (widen (round32 x) = x).

Lemma nfround_id x : is_float32 x = true -> nfround x = x.
Proof.
  unfold is_float32. intros H. zbool.
  unfold nfround, float_of_bytes, float_bytes. rewrite be_val_be_bytes.
  change (256 ^ Z.of_nat 4) with (2 ^ 32).
  rewrite Z.mod_small by by apply bits32_range.
  by rewrite of_bits32_bits32.
Qed.

Example float32_ex : is_float32 (num_lit 5005 10) = true.
Proof. vm_compute. reflexivity. Qed.
Example float32_ex_no : is_float32 (num_lit 1 10) = false.
Proof. vm_compute. reflexivity. Qed.

(** ** Small integers are exact Numbers *)

Lemma small_ints_exact :
  forallb (fun n => bool_decide (bigint_of_num (num_of_Z (Z.of_nat n)) = Ok (Z.of_nat n))) (seq 0 256) = true.
Proof. vm_compute. reflexivity. Qed.

Lemma bigint_of_small z : 0 <= z < 256 -> bigint_of_num (num_of_Z z) = Ok z.
Proof.
  intros H. pose proof small_ints_exact as Hc. rewrite forallb_forall in Hc.
  specialize (Hc (Z.to_nat z)). rewrite in_seq in Hc. specialize (Hc ltac:(lia)).
  apply bool_decide_eq_true in Hc. by rewrite Z2Nat.id in Hc by lia.
Qed.

(** ** Integers below 2^53 are exact and ordered as Numbers *)

Lemma shr_fexp_stable m e l :
  fexp 53 1024 (Zdigits2 m + e) = e -> shr_fexp 53 1024 m e l = (shr_record_of_loc m l, e).
Proof. intros H. unfold shr_fexp. by rewrite H, Z.sub_diag. Qed.

(** A mantissa of 53 digits needs no rounding. *)
Lemma round_aux_exact m e :
  2 ^ 52 <= Zpos m < 2 ^ 53 -> -1074 <= e <= 971 ->
  binary_round_aux 53 1024 false (Zpos m) e loc_Exact = S754_finite false m e.
Proof.
  intros Hm He.
  assert (fexp 53 1024 (Zdigits2 (Zpos m) + e) = e) as Hf.
  { cbn [Zdigits2]. pose proof (digits2_pos_bound m) as [H1 H2].
    assert (Zpos (digits2_pos m) = 53) as ->; [|unfold fexp, emin; lia].
    pose proof (proj2 (Z.pow_lt_mono_r_iff 2 52 (Zpos (digits2_pos m)) ltac:(lia) ltac:(lia)) ltac:(lia)).
    pose proof (proj2 (Z.pow_lt_mono_r_iff 2 (Zpos (digits2_pos m) - 1) 53 ltac:(lia) ltac:(lia)) ltac:(lia)). lia. }
  unfold binary_round_aux. rewrite shr_fexp_stable by done. cbn [shr_record_of_loc shr_m loc_of_shr_record round_nearest_even].
  rewrite shr_fexp_stable by done. cbn [shr_record_of_loc shr_m].
  replace (e <=? 1024 - 53) with true by (symmetry; apply Z.leb_le; lia). done.
Qed.

Lemma iter_xO p q : Zpos (Pos.iter xO p q) = Zpos p * 2 ^ Zpos q.
Proof.
  induction q as [|q IH] using Pos.peano_ind; [cbn; lia|].
  rewrite Pos.iter_succ, Pos2Z.inj_succ, Z.pow_succ_r by lia. rewrite Pos2Z.inj_xO, IH. lia.
Qed.

Lemma num_of_pos p :
  Zpos p < 2 ^ 53 ->
  exists m k, num_of_Z (Zpos p) = S754_finite false m (- k) /\ 0 <= k <= 52 /\ Zpos m = Zpos p * 2 ^ k
              /\ 2 ^ 52 <= Zpos m < 2 ^ 53.
Proof.
  intros Hp. pose proof (digits2_pos_bound p) as [H1 H2]. set (d := Zpos (digits2_pos p)) in *.
  pose proof (proj2 (Z.pow_lt_mono_r_iff 2 (d - 1) 53 ltac:(lia) ltac:(lia)) ltac:(lia)) as Hd.
  assert (0 < d) as Hd0 by (unfold d; lia).
  assert (fexp 53 1024 (d + 0) = d - 53) as Hf by (unfold fexp, emin; lia).
  unfold num_of_Z, binary_normalize, binary_round. fold d. rewrite Hf. unfold shl_align. rewrite Z.sub_0_r.
  assert (forall k, 0 <= k -> k = 53 - d -> 2 ^ 52 <= Zpos p * 2 ^ k < 2 ^ 53) as Hk.
  { intros k Hk0 ->. assert (2 ^ (d - 1) * 2 ^ (53 - d) = 2 ^ 52) by (rewrite <- Z.pow_add_r by lia; f_equal; lia).
    assert (2 ^ d * 2 ^ (53 - d) = 2 ^ 53) by (rewrite <- Z.pow_add_r by lia; f_equal; lia).
    pose proof (Z.pow_pos_nonneg 2 (53 - d) ltac:(lia) ltac:(lia)). nia. }
  destruct (d - 53) as [|q|q] eqn:E; [|lia|].
  - exists p, 0. specialize (Hk 0 ltac:(lia) ltac:(lia)). rewrite Z.mul_1_r in *.
    split_and!; [by apply round_aux_exact|lia..].
  - exists (Pos.iter xO p q), (Zpos q). specialize (Hk (Zpos q) ltac:(lia) ltac:(lia)). rewrite <- iter_xO in Hk.
    split_and!; [apply round_aux_exact; [exact Hk|lia]|lia|lia|apply iter_xO|lia|lia].
Qed.

Lemma nlt_of_Z a b : 0 <= a < 2 ^ 53 -> 0 <= b < 2 ^ 53 -> nlt (num_of_Z a) (num_of_Z b) = (a <? b).
Proof.
  intros Ha Hb. destruct a as [|p|p], b as [|q|q]; try lia; [done| |  |].
  - destruct (num_of_pos q) as (m & k & -> & _); [lia|]. done.
  - destruct (num_of_pos p) as (m & k & -> & _); [lia|]. done.
  - destruct (num_of_pos p) as (m & k & -> & Hk & Em & Hm); [lia|].
    destruct (num_of_pos q) as (n & l & -> & Hl & En & Hn); [lia|].
    unfold nlt, SFltb, SFcompare. fold (Pos.compare m n).
    pose proof (Z.pow_pos_nonneg 2 k ltac:(lia) ltac:(lia)). pose proof (Z.pow_pos_nonneg 2 l ltac:(lia) ltac:(lia)).
    destruct (Z.compare_spec (- k) (- l)) as [He|He|He].
    + replace l with k in * by lia. rewrite Pos2Z.inj_compare.
      destruct (Z.compare_spec (Zpos m) (Zpos n)), (Z.ltb_spec (Zpos p) (Zpos q)); try done; nia.
    + assert (2 * 2 ^ l <= 2 ^ k) by (rewrite <- Z.pow_succ_r by lia; apply Z.pow_le_mono_r; lia).
      symmetry. apply Z.ltb_lt. nia.
    + assert (2 * 2 ^ k <= 2 ^ l) by (rewrite <- Z.pow_succ_r by lia; apply Z.pow_le_mono_r; lia).
      symmetry. apply Z.ltb_ge. nia.
Qed.
