(* ===== verification/NumText.v ===== *)
(** * The text of a Number

    [Number.prototype.toString()] and template literals: the decimal digits of
    an integer below 2^53, otherwise the shortest digits that read back as the
    same binary64, in positional or exponent form as ECMAScript lays them
    out. *)
From Stdlib Require Import ZArith Lia String Floats.SpecFloat.
From stdpp Require Import base list numbers option strings.
From S2P Require Import Prelude JSString Errors Bytes JSNum.

(** The binary64 nearest to [p / q] for positive [p] and [q]: the quotient is
    scaled to more than 64 bits and its last bit says whether it is inexact. *)
Definition num_of_Q (p q : Z) : num :=
  let k := Z.max 0 (70 - Z.log2 p + Z.log2 q) in
  let v := p * 2 ^ k in
  binary_normalize 53 1024 (2 * (v / q) + (if v mod q =? 0 then 0 else 1)) (- k - 1) false.

(** The [n] with [10^(n-1) <= p/q < 10^n], searched upwards from below. *)
Definition below_pow10 (p q n : Z) : bool := if 0 <=? n then p <? q * 10 ^ n else p * 10 ^ (- n) <? q.
Fixpoint dec_exponent (fuel : nat) (p q n : Z) : Z :=
  match fuel with
  | O => n
  | S f => if below_pow10 p q n then n else dec_exponent f p q (n + 1)
  end.

(** The decimal [s * 10^e]. *)
Definition num_of_decimal (s e : Z) : num := if 0 <=? e then num_of_Q (s * 10 ^ e) 1 else num_of_Q s (10 ^ (- e)).

(** With [k] digits: the closer of the two neighbours that reads back as [x]. *)
Definition digits_at (x : num) (p q n k : Z) : option Z :=
  let e := n - k in
  let num_ := if 0 <=? e then p else p * 10 ^ (- e) in
  let den := if 0 <=? e then q * 10 ^ e else q in
  let lo := num_ / den in
  let ok s := bool_decide (num_of_decimal s e = x) && (0 <? s) in
  let closer_hi := den <? 2 * (num_ mod den) in
  match ok lo, ok (lo + 1) with
  | true, true => Some (if closer_hi then lo + 1 else lo)
  | true, false => Some lo
  | false, true => Some (lo + 1)
  | false, false => None
  end.

(** The least [k]; 17 digits always suffice for a binary64. *)
Fixpoint shortest (ks : list Z) (x : num) (p q n : Z) : Z * Z :=
  match ks with
  | [] => (0, 1)
  | k :: ks' => match digits_at x p q n k with Some s => (s, k) | None => shortest ks' x p q n end
  end.

(** The layout of ECMAScript's Number::toString for digits [s], [k] of them,
    and the position [n] of the point. *)
Definition layout (s k n : Z) : jsstr :=
  let ds := z_to_dec s in
  let zs z := replicate (Z.to_nat z) 48 in
  if (k <=? n) && (n <=? 21) then ds ++ zs (n - k)
  else if (0 <? n) && (n <=? 21) then take (Z.to_nat n) ds ++ [46] ++ drop (Z.to_nat n) ds
  else if (-6 <? n) && (n <=? 0) then [48; 46] ++ zs (- n) ++ ds
  else
    let e := (if 0 <=? n - 1 then [43] else [45]) ++ z_to_dec (Z.abs (n - 1)) in
    if k =? 1 then ds ++ [101] ++ e else take 1 ds ++ [46] ++ drop 1 ds ++ [101] ++ e.

Definition positive_to_string (x : num) (p q : Z) : jsstr :=
  let n := dec_exponent 4 p q ((Z.log2 p - Z.log2 q - 1) * 30103 / 100000) in
  let '(s, k) := shortest [1; 2; 3; 4; 5; 6; 7; 8; 9; 10; 11; 12; 13; 14; 15; 16; 17] x p q n in
  if s =? 10 ^ k then layout 1 1 (n + 1) else layout s k n.

(** [`${x}`] *)
Definition num_to_string (x : num) : jsstr :=
  match x with
  | S754_nan => js "NaN"
  | S754_infinity s => if s then js "-Infinity" else js "Infinity"
  | S754_zero _ => js "0"
  | S754_finite s m e =>
      match bigint_of_num x with
      | Ok z => if Z.abs z <? 2 ^ 53 then z_to_dec z
                else (if s then [45] else []) ++ positive_to_string (nabs x) (Z.abs z) 1
      | Throw _ => (if s then [45] else []) ++ positive_to_string (nabs x) (Zpos m) (2 ^ (- e))
      end
  end.

Example num_text_int : num_to_string (num_of_Z (-1710412800000)) = js "-1710412800000".
Proof. vm_compute. reflexivity. Qed.
Example num_text_tenth : num_to_string (num_lit 1 10) = js "0.1".
Proof. vm_compute. reflexivity. Qed.
Example num_text_sum : num_to_string (nadd (num_lit 1 10) (num_lit 2 10)) = js "0.30000000000000004".
Proof. vm_compute. reflexivity. Qed.
Example num_text_big : num_to_string (num_of_Q (10 ^ 23) 1) = js "1e+23".
Proof. vm_compute. reflexivity. Qed.
Example num_text_21 : num_to_string (num_of_Q (123 * 10 ^ 18) 1) = js "123000000000000000000".
Proof. vm_compute. reflexivity. Qed.
Example num_text_small : num_to_string (num_of_Q 15 (10 ^ 8)) = js "1.5e-7".
Proof. vm_compute. reflexivity. Qed.
Example num_text_min : num_to_string (num_of_Q 5 (10 ^ 324)) = js "5e-324".
Proof. vm_compute. reflexivity. Qed.
Example num_text_max : num_to_string (S754_finite false 9007199254740991 971) = js "1.7976931348623157e+308".
Proof. vm_compute. reflexivity. Qed.
Example num_text_frac : num_to_string (num_lit (-25) 10) = js "-2.5".
Proof. vm_compute. reflexivity. Qed.

(** ** [x.toFixed(k)]

    Of a finite Number below 10^21: the integer [n] with [n / 10^k] nearest to
    [x], the larger one of two, with the point before its last [k] digits. *)
Definition pad_left (k : nat) (s : jsstr) : jsstr := replicate (k - length s) 48 ++ s.

Definition to_fixed (k : nat) (x : num) : jsstr :=
  match x with
  | S754_finite s m e =>
      let scale := 10 ^ Z.of_nat k in
      let n := if 0 <=? e then Zpos m * 2 ^ e * scale
               else (2 * Zpos m * scale + 2 ^ (- e)) / (2 * 2 ^ (- e)) in
      if 10 ^ 21 * scale <=? n then num_to_string x
      else
        let ds := pad_left (S k) (z_to_dec n) in
        (if s then [45] else []) ++ take (length ds - k) ds ++ (if (k =? 0)%nat then [] else [46] ++ drop (length ds - k) ds)
  | S754_zero _ => js "0" ++ (if (k =? 0)%nat then [] else [46] ++ replicate k 48)
  | _ => num_to_string x
  end.

Example to_fixed_hours : to_fixed 1 (ndiv (num_of_Z 5580000) (num_of_Z 3600000)) = js "1.6".
Proof. vm_compute. reflexivity. Qed.
Example to_fixed_ratio : to_fixed 4 (ndiv (num_of_Z 1) (num_of_Z 3)) = js "0.3333".
Proof. vm_compute. reflexivity. Qed.
