(* ===== verification/Logger.v ===== *)
(** * Logger and network presets (src/src/logger.ts, src/src/networks.ts)

    The logger's shared state: one instance whose name is the first one asked
    for, a level and a handler for all.  What a handler does with a line is
    recorded as a trace.  The properties: exactly the calls at or above the
    current level reach the handler installed at that moment, once and in
    order, whatever configuration calls come in between.  The presets are
    constants; a mainnet client must override the zero contract address. *)
From Stdlib Require Import ZArith Lia String.
From stdpp Require Import base list numbers option strings.
From S2P Require Import Prelude JSString JSNum.

Module Logger.

Inductive LogLevel := DEBUG | INFO | WARN | ERROR | SILENT.
#[export] Instance LogLevel_eq_dec : EqDecision LogLevel.
Proof. solve_decision. Defined.

(** The enum's values. *)
Definition level_value (l : LogLevel) : Z :=
  match l with DEBUG => 0 | INFO => 1 | WARN => 2 | ERROR => 3 | SILENT => 4 end.
Definition LOG_LEVEL_NAMES (l : LogLevel) : string :=
  match l with DEBUG => "DEBUG" | INFO => "INFO" | WARN => "WARN" | ERROR => "ERROR" | SILENT => "SILENT" end.

(** A handler: the default one, or one the application installed. *)
Inductive handler := DefaultHandler | Custom (id : nat).
#[export] Instance handler_eq_dec : EqDecision handler.
Proof. solve_decision. Defined.

(** What handlers are called with, and the console method the default one
    uses. *)
Inductive output := Console (method : string) (message : jsstr) | Handled (id : nat) (l : LogLevel) (message : jsstr).

Definition defaultHandler (l : LogLevel) (message : jsstr) : list output :=
  match l with
  | DEBUG => [Console "debug" message]
  | INFO => [Console "log" message]
  | WARN => [Console "warn" message]
  | ERROR => [Console "error" message]
  | SILENT => []
  end.

Definition invoke (h : handler) (l : LogLevel) (message : jsstr) : list output :=
  match h with DefaultHandler => defaultHandler l message | Custom i => [Handled i l message] end.

(** The static fields; the instance is its namespace. *)
Record t := { instance : option jsstr; currentLevel : LogLevel; currentHandler : handler }.
Definition initial : t := {| instance := None; currentLevel := INFO; currentHandler := DefaultHandler |}.

(** [getInstance]: the instance and its namespace. *)
Definition getInstance (namespace : option jsstr) (s : t) : t * jsstr :=
  match instance s with
  | Some n => (s, n)
  | None =>
      let n := default (js "TTT-SDK") namespace in
      ({| instance := Some n; currentLevel := currentLevel s; currentHandler := currentHandler s |}, n)
  end.

Definition configure (level : option LogLevel) (h : option handler) (s : t) : t :=
  {| instance := instance s; currentLevel := default (currentLevel s) level;
     currentHandler := default (currentHandler s) h |}.
Definition silent (s : t) : t :=
  {| instance := instance s; currentLevel := SILENT; currentHandler := currentHandler s |}.

(** [timestamp] is the ISO text of the clock. *)
Definition formatMessage (namespace timestamp : jsstr) (l : LogLevel) (message : jsstr) : jsstr :=
  js "[" ++ timestamp ++ js "] [" ++ js (LOG_LEVEL_NAMES l) ++ js "] [" ++ namespace ++ js "] " ++ message.

Definition emit (namespace timestamp : jsstr) (l : LogLevel) (message : jsstr) (s : t) : list output :=
  if level_value l <? level_value (currentLevel s) then []
  else invoke (currentHandler s) l (formatMessage namespace timestamp l message).

Record js_error := { e_message : jsstr; e_stack : option jsstr }.

(** The text [error] adds: an empty stack is left out. *)
Definition error_text (message : jsstr) (e : option js_error) : jsstr :=
  message ++ match e with
             | None => []
             | Some e => js " | Error: " ++ e_message e
                         ++ match e_stack e with Some (u :: st) => [10] ++ js "Stack: " ++ u :: st | _ => [] end
             end.

(** ** Histories *)

Inductive call :=
| GetInstance (namespace : option jsstr)
| Configure (level : option LogLevel) (h : option handler)
| Silent
| Debug (timestamp message : jsstr)
| Info (timestamp message : jsstr)
| Warn (timestamp message : jsstr)
| Error_ (timestamp message : jsstr) (e : option js_error).

Definition log_of (c : call) : option (LogLevel * jsstr * jsstr) :=
  match c with
  | Debug ts m => Some (DEBUG, ts, m)
  | Info ts m => Some (INFO, ts, m)
  | Warn ts m => Some (WARN, ts, m)
  | Error_ ts m e => Some (ERROR, ts, error_text m e)
  | _ => None
  end.

(** A call on the SDK's logger, which is the instance. *)
Definition step (c : call) (s : t) : t * list output :=
  let namespace := default [] (instance s) in
  match c with
  | GetInstance n => ((getInstance n s).1, [])
  | Configure l h => (configure l h s, [])
  | Silent => (silent s, [])
  | _ => match log_of c with
         | Some (l, ts, m) => (s, emit namespace ts l m s)
         | None => (s, [])
         end
  end.

Fixpoint run (l : list call) (s : t) : t * list output :=
  match l with
  | [] => (s, [])
  | c :: l' => let '(s1, o1) := step c s in let '(s2, o2) := run l' s1 in (s2, o1 ++ o2)
  end.

(** The SDK's module-level [logger]. *)
Definition sdk : t := (getInstance None initial).1.

(** ** The specification

    The level and the handler in force are the last ones configured. *)
Definition level_after (l : list call) : LogLevel :=
  foldl (fun lv c => match c with Configure (Some x) _ => x | Silent => SILENT | _ => lv end) INFO l.
Definition handler_after (l : list call) : handler :=
  foldl (fun h c => match c with Configure _ (Some x) => x | _ => h end) DefaultHandler l.

Definition expected (before : list call) (c : call) : list output :=
  match log_of c with
  | Some (l, ts, m) =>
      if level_value (level_after before) <=? level_value l
      then invoke (handler_after before) l (formatMessage (js "TTT-SDK") ts l m) else []
  | None => []
  end.

Fixpoint expected_all (before l : list call) : list output :=
  match l with [] => [] | c :: l' => expected before c ++ expected_all (before ++ [c]) l' end.

(** ** Lemmas *)

Definition tracks (before : list call) (s : t) : Prop :=
  instance s = Some (js "TTT-SDK") /\ currentLevel s = level_after before /\ currentHandler s = handler_after before.

Lemma step_tracks before c s :
  tracks before s -> tracks (before ++ [c]) (step c s).1 /\ (step c s).2 = expected before c.
Proof.
  intros (Hi & Hl & Hh). unfold tracks, level_after, handler_after. rewrite !foldl_app. fold (level_after before) (handler_after before).
  assert (forall l ts m, emit (default [] (instance s)) ts l m s
    = if level_value (level_after before) <=? level_value l
      then invoke (handler_after before) l (formatMessage (js "TTT-SDK") ts l m) else []) as He.
  { intros l ts m. unfold emit. rewrite Hi, Hl, Hh, Z.ltb_antisym.
    by destruct (level_value (level_after before) <=? level_value l). }
  destruct c as [n|[lv|] [h|]| |ts m|ts m|ts m|ts m e]; cbn [step log_of fst snd foldl expected]; rewrite ?He;
    (split; [|done]); try by split_and!.
  unfold getInstance. rewrite Hi. by split_and!.
Qed.

Lemma run_expected before l s : tracks before s -> (run l s).2 = expected_all before l.
Proof.
  revert before s. induction l as [|c l IH]; intros before s H; cbn [run expected_all]; [done|].
  destruct (step_tracks before c s H) as [H1 H2]. destruct (step c s) as [s1 o1]. cbn [fst snd] in H1, H2.
  specialize (IH _ _ H1). destruct (run l s1) as [s2 o2]. cbn [snd] in *. by rewrite H2, IH.
Qed.

(** ** Properties *)

(** The logger is the filter it promises: over any history of calls the
    lines handed out are, in order, exactly those of the calls at or above the
    level last configured, each to the handler last configured, with the
    logger's own name whatever name was asked for later. *)
Lemma logger_refines_filter l : (run l sdk).2 = expected_all [] l.
Proof. apply run_expected. by split_and!. Qed.

(** Once silenced nothing is logged until the level is configured again. *)
Lemma silent_is_silent l1 l2 :
  Forall (fun c => match c with Configure (Some _) _ => False | _ => True end) l2 ->
  (run l2 (silent (run l1 sdk).1)).2 = [].
Proof.
  generalize (run l1 sdk).1. intros s H. assert (currentLevel (silent s) = SILENT) as Hs by done.
  revert Hs. generalize (silent s). clear s. induction H as [|c l Hc _ IH]; intros s Hs; [done|]. cbn [run].
  assert (currentLevel (step c s).1 = SILENT /\ (step c s).2 = []) as [H1 H2].
  { destruct c as [n|[lv|] h| |ts m|ts m|ts m|ts m e]; cbn [step log_of]; try done;
      try (unfold emit; by rewrite Hs).
    unfold getInstance. by destruct (instance s). }
  destruct (step c s) as [s1 o1]. cbn [fst snd] in H1, H2. subst o1. specialize (IH s1 H1).
  by destruct (run l s1).
Qed.

End Logger.

(** ** Network presets *)

Module Networks.

Record NetworkConfig := {
  chainId : Z; rpcUrl : jsstr; tttAddress : jsstr; protocolFeeAddress : jsstr; usdcAddress : jsstr;
}.

Definition BASE_MAINNET : NetworkConfig :=
  {| chainId := 8453; rpcUrl := js "https://mainnet.base.org";
     tttAddress := js "0x0000000000000000000000000000000000000000";
     protocolFeeAddress := js "0x0000000000000000000000000000000000000000";
     usdcAddress := js "0x833589fCD6eDb6E08f4c7C32D4f71b54bdA02913" |}.
Definition ETH_SEPOLIA : NetworkConfig :=
  {| chainId := 11155111; rpcUrl := js "https://ethereum-sepolia-rpc.publicnode.com";
     tttAddress := js "0x291b83F605F2dA95cf843d4a53983B413ef3B929";
     protocolFeeAddress := js "0x6b39D96741BB4Ce6283F824CC31c2931c75AEe64";
     usdcAddress := js "0x1c7D4B196Cb0C7B01d743Fbc6116a902379C7238" |}.
Definition BASE_SEPOLIA : NetworkConfig :=
  {| chainId := 84532; rpcUrl := js "https://sepolia.base.org";
     tttAddress := js "0xde357135cA493e59680182CDE9E1c6A4dA400811";
     protocolFeeAddress := js "0xE289337d3a79b22753BDA03510a8b8E4D1040F21";
     usdcAddress := js "0x036CbD53842c5426634e7929541eC2318f3dCF7e" |}.

Definition NETWORKS : list (jsstr * NetworkConfig) :=
  [(js "base", BASE_MAINNET); (js "sepolia", ETH_SEPOLIA); (js "baseSepolia", BASE_SEPOLIA)].

(** A well-formed address text: 0x and 40 hex digits. *)
Definition address_text (a : jsstr) : bool :=
  starts_with (js "0x") a && (length a =? 42)%nat
  && forallb (fun c => match digit_val c with Some _ => true | None => false end) (drop 2 a).

(** Every preset is well formed, under its own name and chain id; only the
    mainnet one has no deployed contract. *)
Lemma presets_wellformed :
  forallb (fun p => let c := p.2 in
             address_text (tttAddress c) && address_text (protocolFeeAddress c) && address_text (usdcAddress c)
             && starts_with (js "https://") (rpcUrl c)) NETWORKS = true
  /\ NoDup (NETWORKS.*1) /\ NoDup (chainId <$> NETWORKS.*2).
Proof. split_and!; [vm_compute; reflexivity|apply (bool_decide_eq_true _); vm_compute; reflexivity..]. Qed.

End Networks.
