(* ===== verification/JSMap.v ===== *)
(** * JavaScript [Map]s

    A [Map] is an association list in insertion order without duplicate keys:
    [set] updates in place or appends, [keys().next()] is the oldest key.  The
    bounded caches of the sources rely on that order.  [jm_ok] is the
    invariant; two maps with the same lookups are related by [jm_equiv], for
    which the observers are [Proper]. *)
From Stdlib Require Import ZArith Lia.
From stdpp Require Import base list numbers option gmap.
From S2P Require Import Prelude.

Abbreviation jsmap K V := (list (K * V)).

Section JSMap.
Context {K V : Type} `{EqDecision K}.

Implicit Types (m : jsmap K V) (k : K) (v : V).

Definition jm_empty : jsmap K V := [].

Fixpoint jm_get m k : option V :=
  match m with
  | [] => None
  | (k', v) :: m' => if decide (k' = k) then Some v else jm_get m' k
  end.

Definition jm_has m k : bool := match jm_get m k with Some _ => true | None => false end.

Fixpoint jm_set m k v : jsmap K V :=
  match m with
  | [] => [(k, v)]
  | (k', v') :: m' => if decide (k' = k) then (k, v) :: m' else (k', v') :: jm_set m' k v
  end.

Definition jm_delete m k : jsmap K V := bfilter (fun p => negb (bool_decide (p.1 = k))) m.

Definition jm_size m : Z := Z.of_nat (length m).
Definition jm_keys m : list K := m.*1.
(** [m.keys().next().value]: [None] is [undefined]. *)
Definition jm_oldest m : option K := head (jm_keys m).

(** [for (const [k, v] of m) if (p(k, v)) m.delete(k)]: the visited entry is
    the only one deleted, so the others are visited as they are. *)
Definition jm_prune (p : K -> V -> bool) m : jsmap K V :=
  bfilter (fun e => negb (p e.1 e.2)) m.

Definition jm_ok m : Prop := NoDup (jm_keys m).

(** ** Lookup laws *)

Lemma jm_get_set_eq m k v : jm_get (jm_set m k v) k = Some v.
Proof.
  induction m as [|[k' v'] m IH]; simpl; [by rewrite decide_True|].
  destruct (decide (k' = k)) as [->|Hne]; simpl; [by rewrite decide_True|].
  by rewrite decide_False.
Qed.

Lemma jm_get_set_ne m k k' v : k <> k' -> jm_get (jm_set m k v) k' = jm_get m k'.
Proof.
  intros Hne. induction m as [|[k0 v0] m IH]; simpl; [by rewrite decide_False|].
  destruct (decide (k0 = k)) as [->|H]; simpl.
  - by rewrite !decide_False.
  - destruct (decide (k0 = k')); [done|apply IH].
Qed.

Lemma jm_get_delete_eq m k : jm_get (jm_delete m k) k = None.
Proof.
  unfold jm_delete. induction m as [|[k0 v0] m IH]; simpl; [done|].
  case_bool_decide; simpl; [done|]. by rewrite decide_False.
Qed.

Lemma jm_get_delete_ne m k k' : k <> k' -> jm_get (jm_delete m k) k' = jm_get m k'.
Proof.
  unfold jm_delete. intros Hne. induction m as [|[k0 v0] m IH]; simpl; [done|].
  case_bool_decide; simpl; subst.
  - by rewrite decide_False.
  - destruct (decide (k0 = k')); [done|apply IH].
Qed.

Lemma jm_has_spec m k : jm_has m k = true <-> k ∈ jm_keys m.
Proof.
  unfold jm_has, jm_keys. induction m as [|[k0 v0] m IH]; simpl.
  - split; [done|]. intros H; inversion H.
  - rewrite elem_of_cons. destruct (decide (k0 = k)) as [->|Hne].
    + split; [by left|done].
    + rewrite IH. split; [by right|]. intros [<-|?]; done.
Qed.

Lemma jm_has_false m k : jm_has m k = false <-> k ∉ jm_keys m.
Proof. rewrite <- jm_has_spec. by destruct (jm_has m k). Qed.

Lemma jm_get_None m k : jm_get m k = None <-> k ∉ jm_keys m.
Proof. rewrite <- jm_has_false. unfold jm_has. by destruct (jm_get m k). Qed.

Lemma jm_get_elem m k v : jm_ok m -> (k, v) ∈ m <-> jm_get m k = Some v.
Proof.
  unfold jm_ok, jm_keys. induction m as [|[k0 v0] m IH]; simpl; intros Hnd.
  - split; [intros H; inversion H|done].
  - apply NoDup_cons in Hnd as [Hk Hnd]. rewrite elem_of_cons, IH by done.
    destruct (decide (k0 = k)) as [->|Hne].
    + split; [|by intros [= ->]; left]. intros [[= ->]|H]; [done|].
      apply IH in H; [|done]. apply (list_elem_of_fmap_2 fst) in H. done.
    + split; [intros [[=]|H]; done|by right].
Qed.

Lemma jm_get_prune p m k :
  jm_ok m ->
  jm_get (jm_prune p m) k
  = match jm_get m k with Some v => if p k v then None else Some v | None => None end.
Proof.
  unfold jm_ok, jm_keys, jm_prune. induction m as [|[k0 v0] m IH]; simpl; intros Hnd; [done|].
  apply NoDup_cons in Hnd as [Hk Hnd]. specialize (IH Hnd).
  destruct (p k0 v0) eqn:E; simpl; destruct (decide (k0 = k)) as [->|Hne]; rewrite ?E; try done.
  rewrite IH. replace (jm_get m k) with (@None V); [done|].
  symmetry. by apply jm_get_None.
Qed.

(** ** Keys, order and size *)

Lemma jm_keys_set m k v :
  jm_keys (jm_set m k v) = if jm_has m k then jm_keys m else jm_keys m ++ [k].
Proof.
  unfold jm_has, jm_keys. induction m as [|[k0 v0] m IH]; csimpl; [done|].
  destruct (decide (k0 = k)) as [->|Hne]; csimpl; [done|].
  rewrite IH. by destruct (jm_get m k).
Qed.

Lemma jm_set_new m k v : jm_has m k = false -> jm_set m k v = m ++ [(k, v)].
Proof.
  unfold jm_has. induction m as [|[k0 v0] m IH]; simpl; [done|].
  destruct (decide (k0 = k)); [done|]. intros H. by rewrite IH.
Qed.

Lemma jm_ok_empty : jm_ok [].
Proof. constructor. Qed.

Lemma jm_ok_set m k v : jm_ok m -> jm_ok (jm_set m k v).
Proof.
  unfold jm_ok. intros Hnd. rewrite jm_keys_set. destruct (jm_has m k) eqn:E; [done|].
  apply jm_has_false in E. apply NoDup_app. split_and!; [done| |apply NoDup_singleton].
  intros x Hx ->%list_elem_of_singleton. done.
Qed.

Lemma jm_ok_delete m k : jm_ok m -> jm_ok (jm_delete m k).
Proof. apply NoDup_fmap_bfilter. Qed.

Lemma jm_ok_prune p m : jm_ok m -> jm_ok (jm_prune p m).
Proof. apply NoDup_fmap_bfilter. Qed.

Lemma jm_set_Forall (P : K * V -> Prop) m k v :
  Forall P m -> P (k, v) -> Forall P (jm_set m k v).
Proof.
  intros Hm Hp. induction Hm as [|[k' v'] m Hx Hm IH]; cbn [jm_set]; [by constructor|].
  destruct (decide (k' = k)); by constructor.
Qed.


Lemma jm_size_set m k v : jm_size (jm_set m k v) = if jm_has m k then jm_size m else jm_size m + 1.
Proof.
  unfold jm_size, jm_has. induction m as [|[k0 v0] m IH]; simpl; [done|].
  destruct (decide (k0 = k)); simpl; [done|]. destruct (jm_get m k); lia.
Qed.

Lemma jm_size_nonneg m : 0 <= jm_size m.
Proof. unfold jm_size. lia. Qed.

Lemma jm_size_prune p m : jm_size (jm_prune p m) <= jm_size m.
Proof. unfold jm_size, jm_prune. pose proof (bfilter_length (fun e => negb (p e.1 e.2)) m). lia. Qed.

Lemma jm_delete_head k v m : jm_ok ((k, v) :: m) -> jm_delete ((k, v) :: m) k = m.
Proof.
  unfold jm_ok, jm_keys, jm_delete. csimpl. intros [Hk _]%NoDup_cons.
  rewrite bool_decide_eq_true_2 by done. simpl. apply bfilter_all, Forall_forall.
  intros [k' v'] Hin. simpl. rewrite bool_decide_eq_false_2; [done|].
  intros ->. apply Hk. by apply (list_elem_of_fmap_2 fst) in Hin.
Qed.

Lemma jm_set_present_val m k v : jm_get m k = Some v -> jm_set m k v = m.
Proof.
  induction m as [|[k0 v0] m IH]; simpl; [done|].
  destruct (decide (k0 = k)) as [->|]; [by intros [= ->]|]. intros H. by rewrite IH.
Qed.

(** ** Extensional equivalence *)

Definition jm_equiv m1 m2 : Prop := forall k, jm_get m1 k = jm_get m2 k.

#[global] Instance jm_equiv_equivalence : Equivalence jm_equiv.
Proof.
  split.
  - intros m k. done.
  - intros m1 m2 H k. by rewrite H.
  - intros m1 m2 m3 H1 H2 k. by rewrite H1, H2.
Qed.

#[global] Instance jm_get_proper : Proper (jm_equiv ==> (=) ==> (=)) jm_get.
Proof. intros m1 m2 H k _ <-. apply H. Qed.

#[global] Instance jm_has_proper : Proper (jm_equiv ==> (=) ==> (=)) jm_has.
Proof. intros m1 m2 H k _ <-. unfold jm_has. by rewrite (H k). Qed.

#[global] Instance jm_set_proper : Proper (jm_equiv ==> (=) ==> (=) ==> jm_equiv) jm_set.
Proof.
  intros m1 m2 H k _ <- v _ <- k'. destruct (decide (k = k')) as [<-|Hne].
  - by rewrite !jm_get_set_eq.
  - by rewrite !jm_get_set_ne.
Qed.

#[global] Instance jm_delete_proper : Proper (jm_equiv ==> (=) ==> jm_equiv) jm_delete.
Proof.
  intros m1 m2 H k _ <- k'. destruct (decide (k = k')) as [<-|Hne].
  - by rewrite !jm_get_delete_eq.
  - by rewrite !jm_get_delete_ne.
Qed.

End JSMap.

#[export] Hint Rewrite @jm_get_set_eq @jm_get_delete_eq : jsdb.
#[export] Hint Rewrite @jm_get_set_ne @jm_get_delete_ne using done : jsdb.
#[export] Hint Resolve jm_ok_empty jm_ok_set jm_ok_delete jm_ok_prune : jsinv.
#[export] Hint Resolve jm_size_nonneg : jsinv.

(** The map a [jsmap] denotes, for clients that do not care about order. *)
Definition jm_to_gmap {K V} `{Countable K} (m : jsmap K V) : gmap K V :=
  foldr (fun e acc => <[e.1 := e.2]> acc) ∅ m.

Lemma jm_to_gmap_lookup {K V} `{Countable K} (m : jsmap K V) (k : K) :
  jm_to_gmap m !! k = jm_get m k.
Proof.
  induction m as [|[k0 v0] m IH]; simpl; [apply lookup_empty|].
  destruct (decide (k0 = k)) as [->|Hne].
  - apply lookup_insert_eq.
  - by rewrite lookup_insert_ne.
Qed.

Lemma jm_to_gmap_set {K V} `{Countable K} (m : jsmap K V) (k : K) (v : V) :
  jm_to_gmap (jm_set m k v) = <[k := v]> (jm_to_gmap m).
Proof.
  apply map_eq. intros i. rewrite jm_to_gmap_lookup. destruct (decide (k = i)) as [<-|Hne].
  - by rewrite lookup_insert_eq, jm_get_set_eq.
  - by rewrite lookup_insert_ne, jm_get_set_ne, jm_to_gmap_lookup by done.
Qed.

Lemma jm_to_gmap_delete {K V} `{Countable K} (m : jsmap K V) (k : K) :
  jm_to_gmap (jm_delete m k) = delete k (jm_to_gmap m).
Proof.
  apply map_eq. intros i. rewrite jm_to_gmap_lookup. destruct (decide (k = i)) as [<-|Hne].
  - by rewrite lookup_delete_eq, jm_get_delete_eq.
  - by rewrite lookup_delete_ne, jm_get_delete_ne, jm_to_gmap_lookup by done.
Qed.
