(* ===== verification/NonceCache.v ===== *)
(** * Nonce caches

    Two replay caches of the sources.  [Bounded] is the cache [TimeSynthesis]
    and [HttpOnlyClient] share line for line: at most [max] entries, entries
    older than [ttl] swept when it is more than half full, the oldest entry
    evicted when it is full.  [Memory] is [MemoryNonceCache] of
    pot_verifier.ts.  [NonceCache] is the interface a [PotVerifier] is given;
    [Memory] implements it. *)
From Stdlib Require Import ZArith Lia.
From stdpp Require Import base list numbers option strings.
From S2P Require Import Prelude JSString JSMap.

Module Bounded.
Section Operations.
Variables max ttl : Z.

Implicit Types (c : jsmap jsstr Z) (n k : jsstr).

(** The sweep: [if (size > MAX / 2) for ... if (now - ts > TTL) delete]. *)
Definition sweep (now : Z) c : jsmap jsstr Z :=
  if max <? 2 * jm_size c then jm_prune (fun _ ts => ttl <? now - ts) c else c.

(** The check a verification makes of its nonce: the new cache and whether
    the nonce was fresh. *)
Definition check (now : Z) (n : jsstr) (c : jsmap jsstr Z) : jsmap jsstr Z * bool :=
  let c1 := sweep now c in
  if jm_has c1 n then (c1, false)
  else
    let c2 := if max <=? jm_size c1
              then match jm_oldest c1 with Some k => jm_delete c1 k | None => c1 end
              else c1 in
    (jm_set c2 n now, true).

Definition inv c : Prop := jm_ok c /\ jm_size c <= max.

(** ** The invariant *)

Lemma sweep_inv now c : inv c -> inv (sweep now c).
Proof.
  intros [Hok Hsz]. unfold sweep, inv. destruct (_ <? _); [|done].
  split; [by apply jm_ok_prune|]. pose proof (jm_size_prune (fun _ ts => ttl <? now - ts) c). lia.
Qed.

(** Evicting the oldest entry of a full cache drops its head. *)
Lemma evict_eq c :
  jm_ok c ->
  (match jm_oldest c with Some k => jm_delete c k | None => c end) = drop 1 c.
Proof.
  destruct c as [|[k t] c]; [done|]. intros Hok. unfold jm_oldest. simpl.
  by apply jm_delete_head.
Qed.

Lemma NoDup_drop {A} i (l : list A) : NoDup l -> NoDup (drop i l).
Proof. apply NoDup_sublist, sublist_drop. Qed.

Lemma jm_ok_drop i c : jm_ok c -> jm_ok (drop i c).
Proof. unfold jm_ok, jm_keys. rewrite fmap_drop. apply NoDup_drop. Qed.

Lemma check_inv now n c : 0 < max -> inv c -> inv (check now n c).1.
Proof.
  intros Hmax Hinv. unfold check. pose proof (sweep_inv now c Hinv) as [Hok Hsz].
  set (c1 := sweep now c) in *. destruct (jm_has c1 n) eqn:E; [done|]. simpl.
  rewrite evict_eq by done. split.
  - apply jm_ok_set. destruct (max <=? jm_size c1); [by apply jm_ok_drop|done].
  - rewrite jm_size_set. destruct (Z.leb_spec max (jm_size c1)).
    + assert (jm_size (drop 1 c1) = jm_size c1 - 1).
      { unfold jm_size in *. rewrite length_drop. lia. }
      destruct (jm_has (drop 1 c1) n); lia.
    + rewrite E. lia.
Qed.

(** ** A fresh nonce is remembered *)

Lemma check_fresh_get now n c : (check now n c).2 = true -> jm_get (check now n c).1 n = Some now.
Proof.
  unfold check. destruct (jm_has (sweep now c) n); [done|]. intros _. apply jm_get_set_eq.
Qed.

(** [k] was stored at [t] and at most [j] entries are newer. *)
Definition recent k (t : Z) (j : nat) c : Prop :=
  exists c1 c2, c = c1 ++ (k, t) :: c2 /\ (length c2 <= j)%nat.

Lemma recent_weaken k t j j' c : (j <= j')%nat -> recent k t j c -> recent k t j' c.
Proof. intros Hj (c1 & c2 & -> & H). exists c1, c2. split; [done|lia]. Qed.

Lemma recent_has k t j c : recent k t j c -> jm_has c k = true.
Proof.
  intros (c1 & c2 & -> & _). apply jm_has_spec. unfold jm_keys.
  rewrite fmap_app, elem_of_app. right. left.
Qed.

Lemma check_fresh_recent now n c :
  inv c -> (check now n c).2 = true -> recent n now 0 (check now n c).1.
Proof.
  intros Hinv. unfold check. pose proof (sweep_inv now c Hinv) as [Hok _].
  set (c1 := sweep now c) in *. destruct (jm_has c1 n) eqn:E; [done|]. intros _. simpl.
  rewrite evict_eq by done.
  assert (jm_has (if max <=? jm_size c1 then drop 1 c1 else c1) n = false) as Hn.
  { destruct (max <=? jm_size c1); [|done]. rewrite jm_has_false in E |- *. intros Hin. apply E.
    unfold jm_keys in *. rewrite fmap_drop in Hin. eapply elem_of_sublist; [exact Hin|].
    apply sublist_drop. }
  rewrite jm_set_new by done. by exists (if max <=? jm_size c1 then drop 1 c1 else c1), [].
Qed.

Lemma sweep_recent now k t j c : now - t <= ttl -> recent k t j c -> recent k t j (sweep now c).
Proof.
  intros Ht (c1 & c2 & -> & Hj). unfold sweep. destruct (_ <? _); [|by exists c1, c2].
  unfold jm_prune. rewrite bfilter_app. simpl.
  replace (ttl <? now - t) with false by (symmetry; apply Z.ltb_ge; lia). simpl.
  eexists _, _. split; [done|]. pose proof (bfilter_length (fun e => negb (ttl <? now - e.2)) c2). lia.
Qed.

(** A further check moves [k] by at most one place and evicts it only when
    [max - 1] entries are newer. *)
Lemma check_recent now n k t j c :
  inv c -> now - t <= ttl -> Z.of_nat (S j) < max ->
  recent k t j c -> recent k t (S j) (check now n c).1.
Proof.
  intros Hinv Ht Hj Hr. unfold check.
  pose proof (sweep_inv now c Hinv) as [Hok Hsz]. apply (sweep_recent now) in Hr; [|done].
  set (c1 := sweep now c) in *. destruct (jm_has c1 n) eqn:E.
  - simpl. eapply recent_weaken; [|done]. lia.
  - simpl. rewrite evict_eq by done. destruct Hr as (d1 & d2 & Hc & Hd).
    assert (exists d1', (if max <=? jm_size c1 then drop 1 c1 else c1) = d1' ++ (k, t) :: d2) as [d1' Hd1].
    { destruct (Z.leb_spec max (jm_size c1)); [|by exists d1].
      destruct d1 as [|e d1]; [|exists d1; by rewrite Hc].
      unfold jm_size in *. rewrite Hc in *. simpl in *. lia. }
    rewrite Hd1. rewrite jm_set_new.
    + exists d1', (d2 ++ [(n, now)]). rewrite <- app_assoc. split; [done|].
      rewrite length_app. simpl. lia.
    + rewrite <- Hd1. destruct (max <=? jm_size c1); [|done]. rewrite jm_has_false in E |- *.
      intros Hin. apply E. unfold jm_keys in *. rewrite fmap_drop in Hin.
      eapply elem_of_sublist; [exact Hin|]. apply sublist_drop.
Qed.

(** Running a sequence of checks. *)
Definition run (l : list (Z * jsstr)) (c : jsmap jsstr Z) : jsmap jsstr Z :=
  foldl (fun c e => (check e.1 e.2 c).1) c l.

Lemma run_inv l c : 0 < max -> inv c -> inv (run l c).
Proof.
  intros Hmax. revert c. induction l as [|[now n] l IH]; intros c Hinv; simpl; [done|].
  apply IH. by apply check_inv.
Qed.

Lemma run_recent l k t j c :
  0 < max -> inv c -> Forall (fun e => e.1 - t <= ttl) l ->
  Z.of_nat (j + length l) < max -> recent k t j c -> recent k t (j + length l) (run l c).
Proof.
  intros Hmax Hinv Hl. revert j c Hinv. induction Hl as [|[now n] l Ht _ IH]; intros j c Hinv Hj Hr; simpl.
  - by rewrite Nat.add_0_r.
  - replace (j + S (length l))%nat with (S j + length l)%nat by lia. simpl in Hj.
    apply IH; [by apply check_inv|lia|]. by apply check_recent; [|done|lia|].
Qed.

(** A nonce accepted at [t] is rejected at any [now] within the lifetime, as
    long as fewer than [max] checks came in between. *)
Lemma replay_rejected t k c l now :
  inv c -> (check t k c).2 = true ->
  Forall (fun e => e.1 - t <= ttl) l -> Z.of_nat (length l) < max -> now - t <= ttl ->
  (check now k (run l (check t k c).1)).2 = false.
Proof.
  intros Hinv Hf Hl Hlen Hnow. assert (0 < max) as Hmax by lia.
  pose proof (check_fresh_recent t k c Hinv Hf) as Hr.
  apply (run_recent l) in Hr; [|done|by apply check_inv|done|done].
  apply (sweep_recent now) in Hr; [|done]. apply recent_has in Hr.
  unfold check at 1. by rewrite Hr.
Qed.

(** The bound is tight: checks of fresh nonces, none expired, keep exactly the
    last [max] entries, in order. *)
Lemma check_push now n c :
  inv c -> 0 < max -> Forall (fun e => now - e.2 <= ttl) c -> jm_has c n = false ->
  check now n c = (push_bounded (Z.to_nat max) c (n, now), true).
Proof.
  intros [Hok Hsz] Hmax Hall Hn. unfold check.
  assert (sweep now c = c) as Hs.
  { unfold sweep. destruct (_ <? _); [|done]. apply bfilter_all.
    eapply Forall_impl; [exact Hall|]. intros e He. simpl in *.
    apply negb_true_iff, Z.ltb_ge. lia. }
  rewrite Hs, Hn, evict_eq by done. f_equal. unfold push_bounded. rewrite length_app. simpl.
  unfold jm_size in *. destruct (Z.leb_spec max (Z.of_nat (length c))) as [Hle|Hlt].
  - replace (_ <? _)%nat with true by (symmetry; apply Nat.ltb_lt; lia).
    destruct c as [|e c]; [simpl in *; lia|]. simpl. rewrite drop_0. apply jm_set_new.
    rewrite jm_has_false in Hn |- *. unfold jm_keys in *. csimpl in Hn. by apply not_elem_of_cons in Hn as [_ ?].
  - replace (_ <? _)%nat with false by (symmetry; apply Nat.ltb_ge; lia). by apply jm_set_new.
Qed.

(** A sequence of checks of distinct unseen nonces, none of which expires
    meanwhile, leaves exactly the last [max] entries. *)
Lemma run_fresh l c t0 :
  0 < max -> inv c -> Forall (fun e => t0 <= e.2) c -> Forall (fun e => t0 <= e.1 <= t0 + ttl) l ->
  NoDup (jm_keys c ++ l.*2) ->
  run l c = last_n (Z.to_nat max) (c ++ (prod_swap <$> l)).
Proof.
  intros Hmax Hinv Hc Hl Hnd.
  assert (run l c = foldl (push_bounded (Z.to_nat max)) c (prod_swap <$> l)) as ->.
  { revert c Hinv Hc Hnd. induction Hl as [|[now n] l Ht Hl IH]; intros c Hinv Hc Hnd; [done|].
    csimpl. simpl in Ht. csimpl in Hnd.
    assert (jm_has c n = false) as Hn.
    { apply jm_has_false. intros Hin. apply NoDup_app in Hnd as (_ & Hd & _). apply (Hd n Hin). left. }
    assert (check now n c = (push_bounded (Z.to_nat max) c (n, now), true)) as Hp.
    { apply check_push; [done..| |done]. eapply Forall_impl; [exact Hc|]. intros e He.
      cbv beta in *. lia. }
    pose proof (check_inv now n c Hmax Hinv) as Hi. rewrite Hp in Hi |- *. cbn [fst] in Hi |- *.
    change (prod_swap (now, n)) with (n, now).
    assert (push_bounded (Z.to_nat max) c (n, now) `sublist_of` c ++ [(n, now)]) as Hsub.
    { unfold push_bounded. destruct (_ <? _)%nat; [apply sublist_drop|done]. }
    apply IH; [done| |].
    - apply Forall_forall. intros e He. assert (e ∈ c ++ [(n, now)]) as He' by by eapply elem_of_sublist.
      apply elem_of_app in He' as [He'|He'%list_elem_of_singleton].
      + by apply (proj1 (Forall_forall _ _) Hc).
      + subst e. simpl. lia.
    - eapply NoDup_sublist; [|exact Hnd]. rewrite (cons_middle n), app_assoc.
      apply sublist_app; [|done]. apply (fmap_sublist fst) in Hsub. by rewrite fmap_app in Hsub. }
  destruct Hinv as [_ Hsz]. unfold jm_size in Hsz. apply push_bounded_run; lia.
Qed.

(** A nonce the cache has not seen is fresh. *)
Lemma check_fresh now n c : jm_has c n = false -> (check now n c).2 = true.
Proof.
  intros H. unfold check. replace (jm_has (sweep now c) n) with false; [done|].
  symmetry. unfold sweep. destruct (_ <? _); [|done]. rewrite jm_has_false in H |- *.
  intros Hin. apply H. eapply elem_of_sublist; [exact Hin|]. apply fmap_sublist, bfilter_sublist.
Qed.

Lemma check_seen now n c :
  (check now n c).2 = false <-> jm_has (sweep now c) n = true.
Proof. unfold check. by destruct (jm_has (sweep now c) n). Qed.

Lemma run_snoc l now n c : run (l ++ [(now, n)]) c = (check now n (run l c)).1.
Proof. unfold run. by rewrite foldl_app. Qed.

Lemma run_app l1 l2 c : run (l1 ++ l2) c = run l2 (run l1 c).
Proof. unfold run. by rewrite foldl_app. Qed.

End Operations.
End Bounded.

(** ** The interface a verifier is given

    [nc_live now n c]: the cache would report [n] as seen at time [now].  The
    laws are what replay protection needs: the query answers [nc_live], it
    forgets only what has expired, and an added nonce stays live for its
    lifetime and no longer. *)
Class NonceCache (C : Type) := {
  nc_has : Z -> jsstr -> C -> C * bool;
  nc_add : Z -> Z -> jsstr -> C -> C;   (* two readings of the clock *)
  nc_inv : C -> Prop;
  nc_ttl : C -> Z;
  nc_live : Z -> jsstr -> C -> Prop;
}.

Class NonceCacheLaws (C : Type) `{NonceCache C} := {
  nc_has_inv now n c : nc_inv c -> nc_inv (nc_has now n c).1;
  nc_add_inv s now n c : nc_inv c -> nc_inv (nc_add s now n c);
  nc_has_ttl now n c : nc_ttl (nc_has now n c).1 = nc_ttl c;
  nc_add_ttl s now n c : nc_ttl (nc_add s now n c) = nc_ttl c;
  nc_has_spec now n c : (nc_has now n c).2 = true <-> nc_live now n c;
  nc_has_keeps now now' n n' c :
    now <= now' -> nc_live now' n' c -> nc_live now' n' (nc_has now n c).1;
  nc_add_live s now now' n c :
    nc_live now' n (nc_add s now n c) <-> now' <= now + nc_ttl c;
  nc_add_keeps s now now' n n' c :
    nc_inv c -> s <= now' -> n' <> n -> nc_live now' n' c -> nc_live now' n' (nc_add s now n c);
  nc_live_mono now now' n c : now <= now' -> nc_live now' n c -> nc_live now n c;
}.

(** ** [MemoryNonceCache] (src/src/pot_verifier.ts) *)
Module Memory.

(** [cache]: nonce to expiry. *)
Record t := { cache : jsmap jsstr Z; ttlMs : Z }.

Definition make (ttlMs : option Z) : t := {| cache := []; ttlMs := default 120000 ttlMs |}.

(** [has(nonce)] at [Date.now() = now]: an expired entry is deleted. *)
Definition has (now : Z) (n : jsstr) (c : t) : t * bool :=
  match jm_get (cache c) n with
  | None => (c, false)
  | Some exp =>
      if exp <? now then ({| cache := jm_delete (cache c) n; ttlMs := ttlMs c |}, false)
      else (c, true)
  end.

Definition sweep (now : Z) (c : t) : t :=
  {| cache := jm_prune (fun _ exp => exp <? now) (cache c); ttlMs := ttlMs c |}.

(** [add(nonce)]: the sweep and the store each read the clock. *)
Definition add (sweep_now now : Z) (n : jsstr) (c : t) : t :=
  let c := if 10000 <? jm_size (cache c) then sweep sweep_now c else c in
  {| cache := jm_set (cache c) n (now + ttlMs c); ttlMs := ttlMs c |}.

Definition live (now : Z) (n : jsstr) (c : t) : Prop :=
  exists exp, jm_get (cache c) n = Some exp /\ now <= exp.

Lemma has_live now n c : (has now n c).2 = true <-> live now n c.
Proof.
  unfold has, live. destruct (jm_get (cache c) n) as [exp|] eqn:E.
  - destruct (Z.ltb_spec exp now); simpl; split; try done.
    + intros (e & [= <-] & ?). lia.
    + intros _. eauto.
  - simpl. split; [done|]. intros (e & [=] & _).
Qed.

Lemma has_keeps now now' n n' c :
  now <= now' -> live now' n' c -> live now' n' (has now n c).1.
Proof.
  intros Hle (exp & Hget & Hexp). unfold has.
  destruct (jm_get (cache c) n) as [e|] eqn:E; simpl; [|by exists exp].
  destruct (Z.ltb_spec e now); simpl; [|by exists exp].
  exists exp. simpl. split; [|done]. rewrite jm_get_delete_ne; [done|]. intros ->. simplify_eq. lia.
Qed.

(** Entries are stored with the cache's lifetime. *)
Definition inv (c : t) : Prop := jm_ok (cache c).

Lemma sweep_keeps now now' n c : inv c -> now <= now' -> live now' n c -> live now' n (sweep now c).
Proof.
  intros Hok Hle (exp & Hget & Hexp). exists exp. split; [|done]. simpl.
  rewrite jm_get_prune, Hget by done.
  by replace (exp <? now) with false by (symmetry; apply Z.ltb_ge; lia).
Qed.

Lemma has_inv now n c : inv c -> inv (has now n c).1.
Proof.
  unfold has, inv. destruct (jm_get _ _) as [e|]; [|done].
  destruct (e <? now); [apply jm_ok_delete|done].
Qed.

Lemma add_inv s now n c : inv c -> inv (add s now n c).
Proof.
  unfold add, inv. intros H. apply jm_ok_set. destruct (_ <? _); [by apply jm_ok_prune|done].
Qed.

Lemma add_live s now now' n c : live now' n (add s now n c) <-> now' <= now + ttlMs c.
Proof.
  unfold live, add. simpl. rewrite jm_get_set_eq.
  replace (ttlMs (if 10000 <? jm_size (cache c) then sweep s c else c)) with (ttlMs c)
    by (by destruct (10000 <? _)).
  split; [by intros (e & [= <-] & ?)|intros; by eexists].
Qed.

Lemma add_keeps s now now' n n' c :
  inv c -> s <= now' -> n' <> n -> live now' n' c -> live now' n' (add s now n c).
Proof.
  intros Hok Hle Hne Hlive. unfold live, add. simpl. rewrite jm_get_set_ne by done.
  destruct (10000 <? _); [|done]. by apply sweep_keeps.
Qed.

End Memory.

#[export] Instance memory_nonce_cache : NonceCache Memory.t := {
  nc_has := Memory.has;
  nc_add := Memory.add;
  nc_inv := Memory.inv;
  nc_ttl := Memory.ttlMs;
  nc_live := Memory.live;
}.

#[export] Instance memory_nonce_cache_laws : NonceCacheLaws Memory.t.
Proof.
  split; simpl.
  - apply Memory.has_inv.
  - apply Memory.add_inv.
  - intros now n c. unfold Memory.has. destruct (jm_get _ _) as [e|]; [|done]. by destruct (e <? now).
  - intros s now n c. unfold Memory.add. simpl. by destruct (10000 <? _).
  - apply Memory.has_live.
  - apply Memory.has_keeps.
  - apply Memory.add_live.
  - apply Memory.add_keeps.
  - intros now now' n c Hle (e & Hget & He). exists e. split; [done|lia].
Qed.
