(* ===== verification/Json.v ===== *)
(** * JSON

    A JSON text is represented by the tree [JSON.parse] makes of it; a text
    that does not parse is [None].  [JSON.stringify] of a value is then a tree:
    non-finite Numbers become [null], negative zero becomes zero, [undefined]
    properties are dropped.  The file adds what the sources do with parsed
    data: property reads and [BigInt(value)]. *)
From Stdlib Require Import ZArith Lia String Floats.SpecFloat.
From stdpp Require Import base list numbers option strings.
From S2P Require Import Prelude JSString Errors Bytes JSNum.

Inductive json : Type :=
| JNull
| JBool (b : bool)
| JNum (x : num)
| JStr (s : jsstr)
| JArr (l : list json)
| JObj (fields : list (jsstr * json)).

Abbreviation json_text := (option json).

(** [JSON.parse(text)] *)
Definition JSON_parse (t : json_text) : res json :=
  match t with Some j => Ok j | None => Throw SyntaxError end.

(** How [JSON.stringify] renders a Number. *)
Definition json_num (x : num) : json :=
  match x with
  | S754_finite _ _ _ => JNum x
  | S754_zero _ => JNum (S754_zero false)
  | _ => JNull
  end.

(** [obj.key] of a parsed value: [None] is [undefined]; reading a property of
    [null] is a [TypeError].  Of a repeated key [JSON.parse] keeps the last
    value. *)
Fixpoint field_lookup (k : jsstr) (fs : list (jsstr * json)) : option json :=
  match fs with
  | [] => None
  | (k', v) :: fs' =>
      match field_lookup k fs' with
      | Some w => Some w
      | None => if decide (k' = k) then Some v else None
      end
  end.

Definition get_field (j : json) (k : string) : res (option json) :=
  match j with
  | JNull => Throw TypeError
  | JObj fs => Ok (field_lookup (js k) fs)
  | _ => Ok None
  end.

(** [BigInt(v)]; an array is converted to a string first: the empty array is
    the empty string, one element its own conversion, more have a comma. *)
Definition bigint_of_text (s : jsstr) : res Z :=
  match bigint_of_string s with Some z => Ok z | None => Throw SyntaxError end.

(** [BigInt(String(x))] of a Number: the decimal text of an integer below
    10^21, otherwise a fraction or an exponent. *)
Definition bigint_of_num_text (x : num) : res Z :=
  match bigint_of_num x with
  | Ok z => if Z.abs z <? 10 ^ 21 then Ok z else Throw SyntaxError
  | Throw _ => Throw SyntaxError
  end.

Fixpoint bigint_of_element (j : json) : res Z :=
  match j with
  | JNull => Ok 0
  | JStr s => bigint_of_text s
  | JNum x => bigint_of_num_text x
  | JArr [] => Ok 0
  | JArr [j'] => bigint_of_element j'
  | _ => Throw SyntaxError
  end.

Definition bigint_of_json (v : option json) : res Z :=
  match v with
  | None | Some JNull => Throw TypeError
  | Some (JBool b) => Ok (if b then 1 else 0)
  | Some (JNum x) => bigint_of_num x
  | Some (JStr s) => bigint_of_text s
  | Some (JArr l) => bigint_of_element (JArr l)
  | Some (JObj _) => Throw SyntaxError
  end.

(** [value instanceof Array] data. *)
Definition json_array (v : option json) : res (list json) :=
  match v with Some (JArr l) => Ok l | _ => Throw TypeError end.

Fixpoint res_map {A B} (f : A -> res B) (l : list A) : res (list B) :=
  match l with
  | [] => Ok []
  | a :: l' => b ← f a; bs ← res_map f l'; Ok (b :: bs)
  end.

(** ** Facts *)

Lemma bigint_of_json_dec z : bigint_of_json (Some (JStr (z_to_dec z))) = Ok z.
Proof. simpl. unfold bigint_of_text. by rewrite bigint_of_z_to_dec. Qed.
#[export] Hint Rewrite bigint_of_json_dec : jsdb.

(** Finite and not negative zero: what JSON text keeps. *)
Definition json_safe (x : num) : bool :=
  match x with S754_zero s => negb s | S754_finite _ _ _ => true | _ => false end.

Lemma json_num_safe x : json_safe x = true -> json_num x = JNum x.
Proof. destruct x as [[|]| | |]; done. Qed.

Lemma res_map_fmap {A B C} (f : B -> res C) (g : A -> B) (l : list A) :
  res_map f (g <$> l) = res_map (fun a => f (g a)) l.
Proof. induction l as [|a l IH]; [done|]. cbn [fmap list_fmap res_map]. by rewrite <- IH. Qed.

Lemma res_map_Ok {A B} (f : A -> res B) (g : A -> B) (l : list A) :
  (forall a, a ∈ l -> f a = Ok (g a)) -> res_map f l = Ok (g <$> l).
Proof.
  induction l as [|a l IH]; intros H; simpl; [done|]. rewrite (H a) by left. simpl.
  rewrite IH; [done|]. intros b Hb. apply H. by right.
Qed.

Lemma res_map_length {A B} (f : A -> res B) (l : list A) bs :
  res_map f l = Ok bs -> length bs = length l.
Proof.
  revert bs. induction l as [|a l IH]; intros bs; simpl; [by intros [= <-]|].
  destruct (f a) as [b|]; [|done]. simpl. destruct (res_map f l) as [bs'|]; [|done].
  intros [= <-]. simpl. by rewrite (IH bs').
Qed.

Lemma json_num_small z : 0 <= z < 256 -> json_num (num_of_Z z) = JNum (num_of_Z z).
Proof.
  intros H. apply json_num_safe.
  assert (forallb (fun n => json_safe (num_of_Z (Z.of_nat n))) (seq 0 256) = true) as Hc by reflexivity.
  rewrite forallb_forall in Hc. specialize (Hc (Z.to_nat z)). rewrite in_seq in Hc.
  specialize (Hc ltac:(lia)). by rewrite Z2Nat.id in Hc by lia.
Qed.
