(* ===== verification/Types.v ===== *)
(** * Shared data types (src/src/types.ts)

    The records the SDK's components exchange.  Timestamps and expiries are
    BigInts, hence [Z]; [uncertainty] and [confidence] are Numbers; [stratum]
    and [sources], which every producer fills with integers, are [Z]. *)
From Stdlib Require Import ZArith Lia String.
From stdpp Require Import base list numbers option strings.
From S2P Require Import Prelude JSString JSNum.

Inductive TierType : Set := T0_epoch | T1_block | T2_slot | T3_micro.

#[export] Instance TierType_eq_dec : EqDecision TierType.
Proof. solve_decision. Defined.

(** [TierIntervals], in milliseconds. *)
Definition TierIntervals (t : TierType) : Z :=
  match t with T0_epoch => 384000 | T1_block => 2000 | T2_slot => 12000 | T3_micro => 100 end.

Record TimeReading := {
  tr_timestamp : Z;      (* Unix nanoseconds *)
  tr_uncertainty : num;  (* milliseconds *)
  tr_stratum : Z;
  tr_source : jsstr;
}.

Record SynthesizedTime := {
  st_timestamp : Z;
  st_confidence : num;
  st_uncertainty : num;
  st_sources : Z;
  st_stratum : Z;
}.

(** The element type of [sourceReadings]: [stratum] is optional. *)
Record SourceReading := {
  sr_source : jsstr;
  sr_timestamp : Z;
  sr_uncertainty : num;
  sr_stratum : option Z;
}.

Record PotSignature := {
  ps_issuerPubKey : jsstr;
  ps_signature : jsstr;
  ps_issuedAt : Z;
}.

Record ProofOfTime := {
  pot_timestamp : Z;
  pot_uncertainty : num;
  pot_sources : Z;
  pot_stratum : Z;
  pot_confidence : num;
  pot_sourceReadings : list SourceReading;
  pot_nonce : jsstr;
  pot_expiresAt : Z;              (* Unix milliseconds *)
  pot_issuerSignature : option PotSignature;
}.

Definition reading_of (r : TimeReading) : SourceReading :=
  {| sr_source := tr_source r; sr_timestamp := tr_timestamp r;
     sr_uncertainty := tr_uncertainty r; sr_stratum := Some (tr_stratum r) |}.

Record PoolKey := {
  currency0 : jsstr; currency1 : jsstr; pk_fee : Z; tickSpacing : Z; pk_hooks : jsstr;
}.

Record SwapParams := { zeroForOne : bool; amountSpecified : Z; sqrtPriceLimitX96 : Z }.

Record BeforeSwapParams := {
  bs_sender : jsstr; bs_key : PoolKey; bs_params : SwapParams; bs_hookData : jsstr;
}.

Record AfterSwapParams := {
  as_sender : jsstr; as_key : PoolKey; as_params : SwapParams;
  as_amount0 : Z; as_amount1 : Z; as_hookData : jsstr;
}.
