(* ===== verification/Median.v ===== *)
(** * Sorting and combining time readings

    The step [TimeSynthesis.synthesize], [TimeSynthesis.generateProofOfTime]
    and [HttpOnlyClient.generatePoT] share: sort the successful readings by
    timestamp (the JavaScript sort is stable), then take the reading itself,
    the mean of two, or the upper median. *)
From Stdlib Require Import ZArith Lia.
From stdpp Require Import base list numbers option sorting strings.
From S2P Require Import Prelude JSString JSNum Types.

(** ** The stable sort *)

Fixpoint insert_reading (r : TimeReading) (l : list TimeReading) : list TimeReading :=
  match l with
  | [] => [r]
  | x :: l' => if tr_timestamp r <=? tr_timestamp x then r :: l else x :: insert_reading r l'
  end.

Definition sort_readings (l : list TimeReading) : list TimeReading := foldr insert_reading [] l.

(** ** The combination: timestamp, uncertainty, stratum *)

Definition combine (rs : list TimeReading) : option (Z * num * Z) :=
  match rs with
  | [] => None
  | [r] => Some (tr_timestamp r, tr_uncertainty r, tr_stratum r)
  | [a; b] =>
      Some (Z.quot (tr_timestamp a + tr_timestamp b) 2,
            ndiv (nadd (tr_uncertainty a) (tr_uncertainty b)) (num_of_Z 2),
            Z.min (tr_stratum a) (tr_stratum b))
  | _ =>
      match rs !! (length rs / 2)%nat with
      | Some r => Some (tr_timestamp r, tr_uncertainty r, tr_stratum r)
      | None => None
      end
  end.

(** ** Facts *)

Definition ts_le (a b : TimeReading) : Prop := tr_timestamp a <= tr_timestamp b.

#[export] Instance ts_le_trans : Transitive ts_le.
Proof. intros a b c. unfold ts_le. lia. Qed.

Lemma insert_reading_perm r l : insert_reading r l ≡ₚ r :: l.
Proof.
  induction l as [|x l IH]; simpl; [done|].
  destruct (_ <=? _); [done|]. rewrite IH. apply Permutation_swap.
Qed.

Lemma sort_readings_perm l : sort_readings l ≡ₚ l.
Proof.
  induction l as [|r l IH]; simpl; [done|]. rewrite insert_reading_perm. by constructor.
Qed.

Lemma insert_reading_sorted r l : StronglySorted ts_le l -> StronglySorted ts_le (insert_reading r l).
Proof.
  induction 1 as [|x l Hl IH Hx]; simpl; [repeat constructor|].
  destruct (Z.leb_spec (tr_timestamp r) (tr_timestamp x)) as [Hle|Hlt].
  - constructor; [by constructor|]. constructor; [done|].
    eapply Forall_impl; [exact Hx|]. intros y Hy. unfold ts_le in *. lia.
  - constructor; [done|]. rewrite insert_reading_perm. constructor; [unfold ts_le; lia|done].
Qed.

Lemma sort_readings_sorted l : StronglySorted ts_le (sort_readings l).
Proof. induction l as [|r l IH]; simpl; [constructor|]. by apply insert_reading_sorted. Qed.

Lemma length_sort_readings l : length (sort_readings l) = length l.
Proof. by rewrite sort_readings_perm. Qed.
#[export] Hint Rewrite length_sort_readings : jsdb.

(** Around the element at [i] of a sorted list. *)
Lemma sorted_lookup l i r :
  StronglySorted ts_le l -> l !! i = Some r ->
  Forall (fun x => ts_le x r) (take (S i) l) /\ Forall (ts_le r) (drop i l).
Proof.
  intros Hs. revert i. induction Hs as [|x l Hs IH Hx]; intros i Hi; [done|].
  destruct i as [|i]; simpl in Hi.
  - injection Hi as ->. simpl. rewrite take_0. split; repeat constructor; unfold ts_le; [lia|lia|done].
  - destruct (IH i Hi) as [H1 H2]. split; [|done]. constructor; [|done].
    apply (proj1 (Forall_forall _ _) Hx). by eapply list_elem_of_lookup_2.
Qed.

Definition count {A} (p : A -> bool) (l : list A) : nat := length (bfilter p l).

Lemma count_app {A} (p : A -> bool) l1 l2 : count p (l1 ++ l2) = (count p l1 + count p l2)%nat.
Proof. unfold count. by rewrite bfilter_app, length_app. Qed.

#[export] Instance count_perm {A} (p : A -> bool) : Proper ((≡ₚ) ==> (=)) (count p).
Proof.
  intros l1 l2 H. unfold count. induction H; simpl; repeat case_match; simpl in *; lia.
Qed.

Lemma count_le {A} (p : A -> bool) l : (count p l <= length l)%nat.
Proof. apply bfilter_length. Qed.

Lemma count_none {A} (p : A -> bool) l : Forall (fun x => p x = false) l -> count p l = 0%nat.
Proof. unfold count. induction 1 as [|x l Hx _ IH]; simpl; [done|]. by rewrite Hx. Qed.

(** If some elements of one part fail [p], the count is bounded by the other
    part. *)
Lemma count_take_none {A} (p : A -> bool) l i :
  Forall (fun x => p x = false) (take i l) -> (count p l <= length l - i)%nat.
Proof.
  intros H. rewrite <- (take_drop i l) at 1. rewrite count_app, count_none by done.
  pose proof (count_le p (drop i l)). rewrite length_drop in *. lia.
Qed.
Lemma count_drop_none {A} (p : A -> bool) l i :
  Forall (fun x => p x = false) (drop i l) -> (count p l <= i)%nat.
Proof.
  intros H. rewrite <- (take_drop i l) at 1. rewrite count_app, (count_none _ (drop i l)) by done.
  pose proof (count_le p (take i l)). rewrite length_take in *. lia.
Qed.

(** With three readings or more the combination is the element in the middle. *)
Lemma combine_median rs :
  (3 <= length rs)%nat ->
  exists r, rs !! (length rs / 2)%nat = Some r
    /\ combine rs = Some (tr_timestamp r, tr_uncertainty r, tr_stratum r).
Proof.
  intros H. destruct (lookup_lt_is_Some_2 rs (length rs / 2)) as [r Hr].
  { apply Nat.div_lt; lia. }
  exists r. split; [done|].
  destruct rs as [|a [|b [|c rs]]]; simpl in H; try lia.
  unfold combine. by rewrite Hr.
Qed.

Lemma combine_some rs : rs <> [] -> exists t, combine rs = Some t.
Proof.
  intros H. destruct rs as [|a [|b [|c rs]]]; [done|by eexists|by eexists|].
  destruct (combine_median (a :: b :: c :: rs)) as (r & _ & E); [simpl; lia|]. by eexists.
Qed.

Definition within (lo hi : Z) (r : TimeReading) : bool :=
  (lo <=? tr_timestamp r) && (tr_timestamp r <=? hi).

(** The middle element of a sorted list lies in any interval that holds a
    majority of the list. *)
Lemma majority_median (l : list TimeReading) (r : TimeReading) (lo hi : Z) :
  StronglySorted ts_le l -> l !! (length l / 2)%nat = Some r ->
  (length l < 2 * count (within lo hi) l)%nat ->
  lo <= tr_timestamp r <= hi.
Proof.
  intros Hs Hr Hmaj. destruct (sorted_lookup l _ r Hs Hr) as [Hlow Hhigh].
  pose proof (Nat.div_mod_eq (length l) 2). pose proof (Nat.mod_upper_bound (length l) 2 ltac:(lia)).
  split; apply Z.nlt_ge; intros Hbad.
  - assert (count (within lo hi) l <= length l - S (length l / 2))%nat; [|lia].
    apply count_take_none. eapply Forall_impl; [exact Hlow|]. intros x Hx. unfold ts_le, within in *.
    apply andb_false_intro1, Z.leb_gt. lia.
  - assert (count (within lo hi) l <= length l / 2)%nat; [|lia].
    apply count_drop_none. eapply Forall_impl; [exact Hhigh|]. intros x Hx. unfold ts_le, within in *.
    apply andb_false_intro2, Z.leb_gt. lia.
Qed.

Lemma sorted_timestamps l :
  StronglySorted ts_le l -> StronglySorted Z.le (tr_timestamp <$> l).
Proof. induction 1 as [|x l Hl IH Hx]; csimpl; constructor; [done|]. by apply Forall_fmap. Qed.

(** Two sorted permutations have the same timestamps in the same order. *)
Lemma sorted_perm_ts (l1 l2 : list TimeReading) :
  StronglySorted ts_le l1 -> StronglySorted ts_le l2 -> l1 ≡ₚ l2 ->
  (tr_timestamp <$> l1) = (tr_timestamp <$> l2).
Proof.
  intros H1 H2 Hp. apply (StronglySorted_unique Z.le); [by apply sorted_timestamps..|].
  by rewrite Hp.
Qed.

Lemma combine_timestamps (l1 l2 : list TimeReading) :
  (tr_timestamp <$> l1) = (tr_timestamp <$> l2) ->
  (fun t => t.1.1) <$> combine l1 = (fun t => t.1.1) <$> combine l2.
Proof.
  intros H. pose proof (f_equal length H) as Hl. rewrite !length_fmap in Hl.
  destruct (Nat.le_gt_cases 3 (length l1)) as [Hn|Hn].
  - destruct (combine_median l1 Hn) as (r1 & Hr1 & ->).
    destruct (combine_median l2) as (r2 & Hr2 & ->); [lia|]. rewrite Hl in Hr1. simpl. f_equal.
    assert ((tr_timestamp <$> l1) !! (length l2 / 2)%nat = Some (tr_timestamp r1)) as E1
      by by rewrite list_lookup_fmap, Hr1.
    rewrite H, list_lookup_fmap, Hr2 in E1. by injection E1.
  - destruct l1 as [|a [|b [|c l1]]]; simpl in Hn; try lia;
      destruct l2 as [|a' [|b' [|c' l2]]]; try discriminate Hl; simpl in H |- *; congruence.
Qed.

(** The combined time lies between the extreme readings. *)
Lemma combine_bounds l ts u st (lo hi : Z) :
  Forall (fun r => lo <= tr_timestamp r <= hi) l ->
  combine l = Some (ts, u, st) -> lo <= ts <= hi.
Proof.
  intros Hall E. destruct (Nat.le_gt_cases 3 (length l)) as [Hn|Hn].
  - destruct (combine_median l Hn) as (r & Hr & E'). rewrite E in E'. simplify_eq.
    apply list_elem_of_lookup_2 in Hr. by apply (proj1 (Forall_forall _ _) Hall).
  - destruct l as [|a [|b [|c l]]]; simpl in Hn; try lia; [done| |].
    + by inversion Hall; simplify_eq/=.
    + inversion Hall as [|? ? Ha Hb']; inversion Hb' as [|? ? Hb ?]; simplify_eq/=.
      rewrite <- (Z.quot_mul lo 2), <- (Z.quot_mul hi 2) by lia. split; apply Z.quot_le_mono; lia.
Qed.

(** The combined stratum is a contributor's. *)
Lemma combine_stratum l ts u st :
  combine l = Some (ts, u, st) -> exists r, r ∈ l /\ tr_stratum r = st.
Proof.
  intros E. destruct (Nat.le_gt_cases 3 (length l)) as [Hn|Hn].
  - destruct (combine_median l Hn) as (r & Hr & E'). rewrite E in E'. simplify_eq.
    apply list_elem_of_lookup_2 in Hr. eauto.
  - destruct l as [|a [|b [|c l]]]; simpl in Hn; try lia; simplify_eq/=.
    + exists a. split; [left|done].
    + destruct (Z.min_spec (tr_stratum a) (tr_stratum b)) as [[_ ->]|[_ ->]];
        [exists a|exists b]; split; (done || (right; left) || left).
Qed.
