(* ===== verification/TimeSynthesis.v ===== *)
(** * TimeSynthesis (src/src/time_synthesis.ts)

    The class that queries the configured time sources, synthesizes one time
    from their readings, issues Proofs of Time and verifies them with a replay
    cache.  What the network answers in one round is the argument [fetch]: the
    outcome of [getTime()] of each source.  The clock readings a method makes
    are its arguments too, in the order it makes them.  [keccak256] and the
    ethers ABI encoder are not code of the repository: the on-chain hash takes
    them as parameters. *)
From Stdlib Require Import ZArith Lia String.
From stdpp Require Import base list numbers option sorting strings.
From S2P Require Import Prelude JSString Errors Bytes JSNum JSMap NonceCache Types Median.

(** ** Sources *)

Record RoughtimeServerConfig := {
  rs_name : jsstr; rs_host : jsstr; rs_port : Z; rs_pubkeyB64 : jsstr;
}.

Definition ROUGHTIME_SERVERS : list RoughtimeServerConfig :=
  [ {| rs_name := js "roughtime-int08h"; rs_host := js "roughtime.int08h.com"; rs_port := 2002;
       rs_pubkeyB64 := js "AW5uAoTSTDfG5NfY1bTh08GUnOqlRb+HVhbJ3ODJvsE=" |};
    {| rs_name := js "roughtime-cloudflare"; rs_host := js "roughtime.cloudflare.com"; rs_port := 2003;
       rs_pubkeyB64 := js "0GD7c3yP8xEc4Zl2zeuN2SlLvDVVocjsPSL8/Rl/7zg=" |};
    {| rs_name := js "roughtime-se"; rs_host := js "roughtime.se"; rs_port := 2002;
       rs_pubkeyB64 := js "S3AzfZJ5CjSdkJ21ZJGbxqdYP/SoE8fXKY0+aicsehI=" |};
    {| rs_name := js "roughtime-txryan"; rs_host := js "time.txryan.com"; rs_port := 2002;
       rs_pubkeyB64 := js "iBVjxg/1j7y1+kQUTBYdTabxCppesU/07D4PMDJk2WA=" |} ].

Inductive TimeSource :=
| HTTPSTimeSource (name url : jsstr)
| RoughtimeSource (cfg : RoughtimeServerConfig).

Definition source_name (s : TimeSource) : jsstr :=
  match s with HTTPSTimeSource name _ => name | RoughtimeSource cfg => rs_name cfg end.

Definition DEFAULT_SOURCE_NAMES : list jsstr :=
  [js "nist"; js "google"; js "cloudflare"; js "apple";
   js "roughtime-int08h"; js "roughtime-cloudflare"; js "roughtime-se"; js "roughtime-txryan"].

(** One step of the constructor's loop. *)
Definition sources_of_name (s : jsstr) : list TimeSource :=
  if bool_decide (s = js "nist") then [HTTPSTimeSource (js "nist") (js "https://time.nist.gov/")]
  else if bool_decide (s = js "google") || bool_decide (s = js "galileo") then
    [HTTPSTimeSource (js "google") (js "https://time.google.com/")]
  else if bool_decide (s = js "cloudflare") then
    [HTTPSTimeSource (js "cloudflare") (js "https://time.cloudflare.com/")]
  else if bool_decide (s = js "apple") then
    [HTTPSTimeSource (js "apple") (js "https://time.apple.com/")]
  else if bool_decide (s = js "roughtime") then RoughtimeSource <$> ROUGHTIME_SERVERS
  else match list_find (fun c => rs_name c = s) ROUGHTIME_SERVERS with
       | Some (_, cfg) => [RoughtimeSource cfg]
       | None => []
       end.

(** ** The object *)

Record t := { sources : list TimeSource; usedNonces : jsmap jsstr Z }.

Definition MAX_NONCE_CACHE : Z := 10000.
Definition NONCE_TTL_MS : Z := 300000.

(** [new TimeSynthesis(config)]; [None] is an absent [config.sources]. *)
Definition make (config : option (list jsstr)) : t :=
  {| sources := default DEFAULT_SOURCE_NAMES config ≫= sources_of_name; usedNonces := [] |}.

Definition close (s : t) : t := {| sources := sources s; usedNonces := [] |}.

(** What the sources answer in one round: the outcome of [getTime()] of the
    [i]-th source. *)
Abbreviation fetcher := (nat -> TimeSource -> res TimeReading).

(** [Promise.allSettled(sources.map(s => s.getTime()))], then the fulfilled
    values in order. *)
Definition settled (fetch : fetcher) (s : t) : list (res TimeReading) := imap fetch (sources s).

Fixpoint fulfilled {A} (l : list (res A)) : list A :=
  match l with
  | [] => []
  | Ok a :: l' => a :: fulfilled l'
  | Throw _ :: l' => fulfilled l'
  end.

Definition readings (fetch : fetcher) (s : t) : list TimeReading := fulfilled (settled fetch s).

Definition num_of_nat (n : nat) : num := num_of_Z (Z.of_nat n).

Definition getFromSource (fetch : fetcher) (s : t) (name : jsstr) : res TimeReading :=
  match list_find (fun x => source_name x = name) (sources s) with
  | Some (i, src) => fetch i src
  | None => throw4 TTTTimeSynthesisError TIME_SYNTHESIS_SOURCE_NOT_FOUND "Source not found"
  end.

(** ** [synthesize] *)

Definition synthesize (fetch : fetcher) (s : t) : res SynthesizedTime :=
  match readings fetch s with
  | [] => throw4 TTTTimeSynthesisError TIME_SYNTHESIS_ALL_SOURCES_FAILED
            "[TimeSynthesis] CRITICAL: All NTP sources failed."
  | [r] =>
      Ok {| st_timestamp := tr_timestamp r;
            st_confidence := ndiv (num_of_Z 1) (num_of_nat (length (sources s)));
            st_uncertainty := tr_uncertainty r; st_sources := 1; st_stratum := tr_stratum r |}
  | rs =>
      match combine (sort_readings rs) with
      | Some (ts, unc, str) =>
          Ok {| st_timestamp := ts;
                st_confidence := ndiv (num_of_nat (length rs)) (num_of_nat (length (sources s)));
                st_uncertainty := unc; st_sources := Z.of_nat (length rs); st_stratum := str |}
      | None => Throw TypeError
      end
  end.

(** ** [verifyProofOfTime] *)

Definition getToleranceForStratum (stratum : Z) : Z :=
  if stratum <=? 1 then 10000000 else if stratum =? 2 then 25000000 else 50000000.

Definition lowest_stratum (pot : ProofOfTime) : Z :=
  foldl (fun low r => match sr_stratum r with
                      | Some s => if s <? low then s else low
                      | None => low
                      end) (pot_stratum pot) (pot_sourceReadings pot).

(** [BigInt(Math.round(u * 1_000_000))] *)
Definition ns_of_ms (u : num) : res Z := bigint_of_num (nround (nmul u (num_of_Z 1000000))).

Definition abs_diff (a b : Z) : Z := if b <? a then a - b else b - a.

(** The loop over the readings: it returns at the first one out of tolerance. *)
Fixpoint check_readings (ts floor : Z) (l : list SourceReading) : res bool :=
  match l with
  | [] => Ok true
  | r :: l' =>
      own ← ns_of_ms (sr_uncertainty r);
      let tolerance := if floor <? own then own else floor in
      if tolerance <? abs_diff (sr_timestamp r) ts then Ok false
      else check_readings ts floor l'
  end.

(** [verifyProofOfTime(pot)]; [now1], [now2] are the two [Date.now()] it reads. *)
Definition verifyProofOfTime (now1 now2 : Z) (pot : ProofOfTime) (s : t) : t * res bool :=
  if (length (pot_sourceReadings pot) =? 0)%nat then (s, Ok false)
  else if nle (pot_confidence pot) num_0 then (s, Ok false)
  else
    let floor := getToleranceForStratum (lowest_stratum pot) in
    if pot_expiresAt pot <? now1 then (s, Ok false)
    else
      let '(c, fresh) := Bounded.check MAX_NONCE_CACHE NONCE_TTL_MS now2 (pot_nonce pot) (usedNonces s) in
      let s' := {| sources := sources s; usedNonces := c |} in
      if fresh then (s', check_readings (pot_timestamp pot) floor (pot_sourceReadings pot))
      else (s', Ok false).

(** ** [generateProofOfTime] *)

(** The proof object built from the readings; [now] is the [Date.now()] of the
    expiry, [nonce] the hex of the 16 random bytes. *)
Definition make_pot (rs : list TimeReading) (total : nat) (nonce : jsstr) (now : Z) : option ProofOfTime :=
  match combine rs with
  | Some (ts, unc, str) =>
      Some {| pot_timestamp := ts; pot_uncertainty := unc; pot_sources := Z.of_nat (length rs);
              pot_stratum := str;
              pot_confidence := ndiv (num_of_nat (length rs)) (num_of_nat total);
              pot_sourceReadings := reading_of <$> rs; pot_nonce := nonce;
              pot_expiresAt := now + 60000; pot_issuerSignature := None |}
  | None => None
  end.

Definition generateProofOfTime (fetch : fetcher) (nonce : jsstr) (now0 now1 now2 : Z) (s : t)
    : t * res ProofOfTime :=
  match make_pot (sort_readings (readings fetch s)) (length (sources s)) nonce now0 with
  | None => (s, throw4 TTTTimeSynthesisError TIME_SYNTHESIS_POT_ALL_FAILED
                  "[TimeSynthesis] Cannot generate PoT: All NTP sources failed.")
  | Some pot =>
      match verifyProofOfTime now1 now2 pot s with
      | (s', Ok true) => (s', Ok pot)
      | (s', Ok false) => (s', throw4 TTTTimeSynthesisError TIME_SYNTHESIS_SELF_VERIFY_FAILED
                                 "[PoT] Self-verification failed")
      | (s', Throw e) => (s', Throw e)
      end
  end.

(** ** [getOnChainHash] *)
Section OnChainHash.
Variable keccak256 : Buffer -> jsstr.
(** [AbiCoder.defaultAbiCoder().encode(types, values)] on unsigned integer
    types, given by their widths; a value is a BigInt or a Number. *)
Variable abi_encode : list Z -> list (Z + num) -> res Buffer.

Definition getOnChainHash (pot : ProofOfTime) : res jsstr :=
  keccak256 <$> abi_encode [64; 64; 8; 8; 32]
    [inl (pot_timestamp pot);
     inr (nround (nmul (pot_uncertainty pot) (num_of_Z 1000000)));
     inr (num_of_Z (pot_sources pot));
     inr (num_of_Z (pot_stratum pot));
     inr (nround (nmul (pot_confidence pot) (num_of_Z 1000000)))].

End OnChainHash.

(** The five integers the hash commits to, when they fit their ABI types. *)
Definition abi_arg (v : Z + num) : option Z :=
  match v with
  | inl z => Some z
  | inr x => match bigint_of_num x with
             | Ok z => if Z.abs z <? 2 ^ 53 then Some z else None
             | Throw _ => None
             end
  end.

Definition committed (pot : ProofOfTime) : option (list Z) :=
  u ← abi_arg (inr (nround (nmul (pot_uncertainty pot) (num_of_Z 1000000))));
  c ← abi_arg (inr (nround (nmul (pot_confidence pot) (num_of_Z 1000000))));
  let fits (w z : Z) := (0 <=? z) && (z <? 2 ^ w) in
  if fits 64 (pot_timestamp pot) && fits 64 u && fits 8 (pot_sources pot)
     && fits 8 (pot_stratum pot) && fits 32 c
  then Some [pot_timestamp pot; u; pot_sources pot; pot_stratum pot; c] else None.

(** What the ABI fixes for a tuple of unsigned integers: every value in range
    is one 32-byte big-endian word. *)
Definition abi_uint_words (abi_encode : list Z -> list (Z + num) -> res Buffer) : Prop :=
  forall ws vs zs,
    Forall2 (fun v z => abi_arg v = Some z) vs zs ->
    Forall2 (fun w z => 0 <= z < 2 ^ w /\ w <= 256) ws zs ->
    abi_encode ws vs = Ok (zs ≫= be_bytes 32).

(** ** A history of calls on one object: its public methods that read or
    change its state ([getOnChainHash] and the binary format read the proof
    only). *)

Inductive call :=
| CSynthesize (fetch : fetcher)
| CGetFromSource (fetch : fetcher) (name : jsstr)
| CGenerate (fetch : fetcher) (nonce : jsstr) (now0 now1 now2 : Z)
| CVerify (now1 now2 : Z) (pot : ProofOfTime)
| CClose.

Definition step (c : call) (s : t) : t :=
  match c with
  | CSynthesize _ | CGetFromSource _ _ => s
  | CGenerate fetch nonce now0 now1 now2 => (generateProofOfTime fetch nonce now0 now1 now2 s).1
  | CVerify now1 now2 pot => (verifyProofOfTime now1 now2 pot s).1
  | CClose => close s
  end.

Definition call_time (c : call) : option Z :=
  match c with
  | CSynthesize _ | CGetFromSource _ _ | CClose => None
  | CGenerate _ _ _ _ now2 | CVerify _ now2 _ => Some now2
  end.

Definition run_calls (l : list call) (s : t) : t := foldl (fun s c => step c s) s l.

(** ** What an acceptable proof is *)

Definition tolerance_ok (pot : ProofOfTime) (r : SourceReading) : Prop :=
  exists own, ns_of_ms (sr_uncertainty r) = Ok own
    /\ Z.abs (sr_timestamp r - pot_timestamp pot)
       <= Z.max own (getToleranceForStratum (lowest_stratum pot)).

Definition acceptable (now : Z) (pot : ProofOfTime) : Prop :=
  pot_sourceReadings pot <> []
  /\ nle (pot_confidence pot) num_0 = false
  /\ now <= pot_expiresAt pot
  /\ Forall (tolerance_ok pot) (pot_sourceReadings pot).

Definition inv (s : t) : Prop := Bounded.inv MAX_NONCE_CACHE (usedNonces s).

(** ** Lemmas *)

Lemma abs_diff_abs a b : abs_diff a b = Z.abs (a - b).
Proof. unfold abs_diff. destruct (Z.ltb_spec b a); lia. Qed.
#[export] Hint Rewrite abs_diff_abs : jsdb.

Lemma check_readings_true ts floor l :
  check_readings ts floor l = Ok true
  <-> Forall (fun r => exists own, ns_of_ms (sr_uncertainty r) = Ok own
                /\ Z.abs (sr_timestamp r - ts) <= Z.max own floor) l.
Proof.
  induction l as [|r l IH]; simpl; [done|]. rewrite Forall_cons, <- IH.
  destruct (ns_of_ms (sr_uncertainty r)) as [own|e]; simpl.
  - rewrite abs_diff_abs. set (d := Z.abs _).
    replace (if floor <? own then own else floor) with (Z.max own floor)
      by (destruct (Z.ltb_spec floor own); lia).
    destruct (Z.ltb_spec (Z.max own floor) d).
    + split; [done|]. intros [(o & [= <-] & ?) _]. lia.
    + split; [intros ->; split; [by exists own|done]|by intros [_ ?]].
  - split; [done|]. intros [(o & [=] & _) _].
Qed.

Lemma tolerance_floor s : 10000000 <= getToleranceForStratum s <= 50000000.
Proof. unfold getToleranceForStratum. destruct (s <=? 1), (s =? 2); lia. Qed.

Lemma verify_spec now1 now2 pot s :
  (verifyProofOfTime now1 now2 pot s).2 = Ok true
  <-> acceptable now1 pot
      /\ (Bounded.check MAX_NONCE_CACHE NONCE_TTL_MS now2 (pot_nonce pot) (usedNonces s)).2 = true.
Proof.
  unfold verifyProofOfTime, acceptable.
  destruct (Bounded.check _ _ _ _ _) as [c fresh]; simpl.
  destruct (pot_sourceReadings pot) as [|r l] eqn:El; simpl; [naive_solver|].
  destruct (nle (pot_confidence pot) num_0); simpl; [naive_solver|].
  destruct (Z.ltb_spec (pot_expiresAt pot) now1); simpl; [split; [done|lia]|].
  destruct fresh; simpl; [|naive_solver].
  change (check_readings (pot_timestamp pot) (getToleranceForStratum (lowest_stratum pot)) (r :: l) = Ok true
          <-> (r :: l <> [] /\ false = false /\ now1 <= pot_expiresAt pot /\ Forall (tolerance_ok pot) (r :: l)) /\ true = true).
  rewrite check_readings_true. unfold tolerance_ok. naive_solver.
Qed.

(** A call makes at most one check of the nonce cache, at its own time. *)
Lemma verify_state now1 now2 pot s :
  (verifyProofOfTime now1 now2 pot s).1 = s
  \/ (verifyProofOfTime now1 now2 pot s).1
     = {| sources := sources s;
          usedNonces := (Bounded.check MAX_NONCE_CACHE NONCE_TTL_MS now2 (pot_nonce pot) (usedNonces s)).1 |}.
Proof.
  unfold verifyProofOfTime. destruct (Bounded.check _ _ _ _ _) as [c fresh]; simpl.
  repeat case_match; simpl; auto.
Qed.

Lemma generate_state fetch nonce now0 now1 now2 s :
  (generateProofOfTime fetch nonce now0 now1 now2 s).1 = s
  \/ exists pot, make_pot (sort_readings (readings fetch s)) (length (sources s)) nonce now0 = Some pot
       /\ (generateProofOfTime fetch nonce now0 now1 now2 s).1 = (verifyProofOfTime now1 now2 pot s).1.
Proof.
  unfold generateProofOfTime. destruct (make_pot _ _ _ _) as [pot|]; [|by left].
  right. exists pot. split; [done|].
  by destruct (verifyProofOfTime now1 now2 pot s) as [s' [[|]|e]].
Qed.

Lemma step_check c s :
  c <> CClose ->
  step c s = s
  \/ exists now n, call_time c = Some now
       /\ step c s = {| sources := sources s;
                        usedNonces := (Bounded.check MAX_NONCE_CACHE NONCE_TTL_MS now n (usedNonces s)).1 |}.
Proof.
  intros Hc. destruct c as [f|f name|f nonce now0 now1 now2|now1 now2 pot|]; simpl; [by left|by left| | |done].
  - destruct (generate_state f nonce now0 now1 now2 s) as [->|(pot & _ & ->)]; [by left|].
    destruct (verify_state now1 now2 pot s) as [->| ->]; [by left|right; eauto].
  - destruct (verify_state now1 now2 pot s) as [->| ->]; [by left|right; eauto].
Qed.

Lemma run_calls_checks l s (b : Z) :
  CClose ∉ l ->
  Forall (fun c => forall now, call_time c = Some now -> now <= b) l ->
  exists checks, Forall (fun e => e.1 <= b) checks /\ (length checks <= length l)%nat
    /\ run_calls l s = {| sources := sources s;
                          usedNonces := Bounded.run MAX_NONCE_CACHE NONCE_TTL_MS checks (usedNonces s) |}.
Proof.
  intros Hcl Hl. revert Hcl s. induction Hl as [|c l Hc _ IH]; intros Hcl s.
  - exists []. split_and!; [done|simpl; lia|]. by destruct s.
  - apply not_elem_of_cons in Hcl as [Hn Hcl]. specialize (IH Hcl).
    simpl. destruct (step_check c s) as [->|(now & n & Hnow & ->)]; [done| |].
    + destruct (IH s) as (ch & H1 & H2 & ->). exists ch. split_and!; [done|lia|done].
    + edestruct IH as (ch & H1 & H2 & ->). exists ((now, n) :: ch).
      split_and!; [constructor; [by apply Hc|done]|simpl; lia|done].
Qed.

Lemma close_inv s : inv (close s).
Proof. split; [constructor|done]. Qed.

Lemma step_inv c s : inv s -> inv (step c s).
Proof.
  intros Hinv. assert (c = CClose \/ c <> CClose) as [->|Hc]; [destruct c; auto|apply close_inv|].
  destruct (step_check c s Hc) as [->|(now & n & _ & ->)]; [done|].
  by apply Bounded.check_inv.
Qed.

(** [close] forgets every nonce: an acceptable proof is accepted, whatever was
    accepted before. *)
Lemma accepted_after_close calls now1 now2 pot s :
  (verifyProofOfTime now1 now2 pot (run_calls (calls ++ [CClose]) s)).2 = Ok true <-> acceptable now1 pot.
Proof.
  rewrite verify_spec. split; [by intros [? _]|]. intros H. split; [done|].
  apply Bounded.check_fresh. unfold run_calls. by rewrite foldl_app.
Qed.

Lemma make_inv_ts config : inv (make config).
Proof. split; [constructor|done]. Qed.

(** A nonce consumed at [t0] is refused by any later check within its lifetime. *)
Lemma consumed_refused t0 nonce pot s0 s calls now1 now2 :
  inv s0 -> pot_nonce pot = nonce ->
  (Bounded.check MAX_NONCE_CACHE NONCE_TTL_MS t0 nonce (usedNonces s0)).2 = true ->
  usedNonces s = (Bounded.check MAX_NONCE_CACHE NONCE_TTL_MS t0 nonce (usedNonces s0)).1 ->
  CClose ∉ calls ->
  Forall (fun c => forall now, call_time c = Some now -> now <= now2) calls ->
  Z.of_nat (length calls) < MAX_NONCE_CACHE ->
  now2 - t0 <= NONCE_TTL_MS ->
  (verifyProofOfTime now1 now2 pot (run_calls calls s)).2 = Ok false.
Proof.
  intros Hinv Hn Hf Hs Hcl Hc Hlen Hnow.
  destruct (run_calls_checks calls s now2 Hcl Hc) as (ch & H1 & H2 & ->).
  unfold verifyProofOfTime. simpl.
  pose proof (Bounded.replay_rejected MAX_NONCE_CACHE NONCE_TTL_MS t0 nonce (usedNonces s0) ch now2
                Hinv Hf) as Hr.
  rewrite Hs, Hn. destruct (Bounded.check _ _ now2 _ _) as [c fresh]. simpl in Hr.
  rewrite Hr; [by repeat case_match| |lia|done].
  eapply Forall_impl; [exact H1|]. intros e He. cbv beta in *. lia.
Qed.

Lemma generate_ok fetch nonce now0 now1 now2 s s' pot :
  generateProofOfTime fetch nonce now0 now1 now2 s = (s', Ok pot) ->
  make_pot (sort_readings (readings fetch s)) (length (sources s)) nonce now0 = Some pot
  /\ verifyProofOfTime now1 now2 pot s = (s', Ok true).
Proof.
  unfold generateProofOfTime. destruct (make_pot _ _ _ _) as [p|]; [|done].
  destruct (verifyProofOfTime now1 now2 p s) as [s1 [[|]|e]] eqn:E; intros [= <- <-].
  split; [done|exact E].
Qed.

Lemma make_pot_fields rs n nonce now pot :
  make_pot rs n nonce now = Some pot ->
  pot_nonce pot = nonce /\ pot_expiresAt pot = now + 60000
  /\ pot_sources pot = Z.of_nat (length rs) /\ pot_sourceReadings pot = reading_of <$> rs
  /\ exists unc str, combine rs = Some (pot_timestamp pot, unc, str)
       /\ pot_uncertainty pot = unc /\ pot_stratum pot = str.
Proof.
  unfold make_pot. destruct (combine rs) as [[[ts unc] str]|]; [|done].
  intros [= <-]. simpl. eauto 10.
Qed.

(** An accepted proof leaves the cache its check makes. *)
Lemma verify_ok_state now1 now2 pot s s' :
  verifyProofOfTime now1 now2 pot s = (s', Ok true) ->
  acceptable now1 pot
  /\ (Bounded.check MAX_NONCE_CACHE NONCE_TTL_MS now2 (pot_nonce pot) (usedNonces s)).2 = true
  /\ usedNonces s' = (Bounded.check MAX_NONCE_CACHE NONCE_TTL_MS now2 (pot_nonce pot) (usedNonces s)).1.
Proof.
  intros E. assert ((verifyProofOfTime now1 now2 pot s).2 = Ok true) as Hv by by rewrite E.
  apply verify_spec in Hv as [Ha Hf]. split_and!; [done|done|].
  revert E. unfold verifyProofOfTime. destruct (Bounded.check _ _ now2 _ _) as [c fresh].
  repeat case_match; intros [= <-]; done.
Qed.

(** The early return on a single reading is an instance of the general case. *)
Lemma synthesize_eq fetch s :
  synthesize fetch s =
  match combine (sort_readings (readings fetch s)) with
  | Some (ts, unc, str) =>
      Ok {| st_timestamp := ts;
            st_confidence := ndiv (num_of_nat (length (readings fetch s))) (num_of_nat (length (sources s)));
            st_uncertainty := unc; st_sources := Z.of_nat (length (readings fetch s)); st_stratum := str |}
  | None => throw4 TTTTimeSynthesisError TIME_SYNTHESIS_ALL_SOURCES_FAILED
              "[TimeSynthesis] CRITICAL: All NTP sources failed."
  end.
Proof.
  unfold synthesize. destruct (readings fetch s) as [|a [|b l]] eqn:E; [done|done|].
  destruct (combine_some (sort_readings (a :: b :: l))) as [[[ts unc] str] ->]; [|done].
  intros H. apply (f_equal length) in H. rewrite length_sort_readings in H. done.
Qed.

Lemma make_pot_None rs n nonce now : make_pot rs n nonce now = None <-> rs = [].
Proof.
  unfold make_pot. split; [|by intros ->].
  intros H. destruct (decide (rs = [])) as [|Hne]; [done|].
  destruct (combine_some rs Hne) as [[[? ?] ?] E]. by rewrite E in H.
Qed.

Lemma sort_readings_nil l : sort_readings l = [] <-> l = [].
Proof.
  split; [|by intros ->]. intros H. apply (f_equal length) in H.
  rewrite length_sort_readings in H. by destruct l.
Qed.

(** With [k] of [n] sources answering, the confidence is positive; checked for
    every pool of at most 64 sources. *)
Definition confidence_positive (n : nat) : bool :=
  forallb (fun k => negb (nle (ndiv (num_of_nat (S k)) (num_of_nat n)) num_0)) (seq 0 n).

Lemma confidence_positive_64 : forallb confidence_positive (seq 0 65) = true.
Proof. vm_compute. reflexivity. Qed.

Lemma confidence_pos k n :
  (1 <= k <= n)%nat -> (n <= 64)%nat -> nle (ndiv (num_of_nat k) (num_of_nat n)) num_0 = false.
Proof.
  intros Hk Hn. pose proof confidence_positive_64 as H. rewrite forallb_forall in H.
  specialize (H n). rewrite in_seq in H. specialize (H ltac:(lia)).
  unfold confidence_positive in H. rewrite forallb_forall in H. specialize (H (pred k)).
  rewrite in_seq in H. specialize (H ltac:(lia)). apply negb_true_iff in H.
  by replace (S (pred k)) with k in H by lia.
Qed.

Lemma readings_length fetch s : (length (readings fetch s) <= length (sources s))%nat.
Proof.
  unfold readings, settled. rewrite <- (length_imap fetch (sources s)).
  induction (imap fetch (sources s)) as [|[a|e] l IH]; simpl; lia.
Qed.

Lemma majority_combined rs (lo hi : Z) ts unc str :
  (3 <= length rs)%nat -> (length rs < 2 * count (within lo hi) rs)%nat ->
  combine (sort_readings rs) = Some (ts, unc, str) -> lo <= ts <= hi.
Proof.
  intros H3 Hmaj E. rewrite <- (length_sort_readings rs) in H3.
  destruct (combine_median _ H3) as (r & Hr & E'). rewrite E in E'. simplify_eq.
  eapply majority_median; [apply sort_readings_sorted|exact Hr|].
  by rewrite length_sort_readings, (count_perm _ _ _ (sort_readings_perm rs)).
Qed.

(** *** The hash *)

Lemma words_inj l1 l2 :
  length l1 = length l2 -> Forall (fun z => 0 <= z < 2 ^ 256) l1 -> Forall (fun z => 0 <= z < 2 ^ 256) l2 ->
  (l1 ≫= be_bytes 32) = (l2 ≫= be_bytes 32) -> l1 = l2.
Proof.
  revert l2. induction l1 as [|z1 l1 IH]; intros [|z2 l2] Hl H1 H2 E; try done.
  inversion H1; inversion H2; subst.
  change (be_bytes 32 z1 ++ (l1 ≫= be_bytes 32) = be_bytes 32 z2 ++ (l2 ≫= be_bytes 32)) in E.
  apply app_inj_1 in E as [E1 E2]; [|by rewrite !length_be_bytes].
  apply (f_equal be_val) in E1. rewrite !be_val_be_bytes in E1.
  change (256 ^ Z.of_nat 32) with (2 ^ 256) in E1. rewrite !Z.mod_small in E1 by done.
  f_equal; [done|]. by apply IH; [injection Hl| | |].
Qed.

Lemma abi_arg_small z : 0 <= z < 256 -> abi_arg (inr (num_of_Z z)) = Some z.
Proof.
  intros H.
  assert (forallb (fun n => bool_decide (abi_arg (inr (num_of_nat n)) = Some (Z.of_nat n))) (seq 0 256) = true)
    as Hc by (vm_compute; reflexivity).
  rewrite forallb_forall in Hc. specialize (Hc (Z.to_nat z)). rewrite in_seq in Hc.
  specialize (Hc ltac:(lia)). apply bool_decide_eq_true in Hc. unfold num_of_nat in Hc.
  by rewrite Z2Nat.id in Hc by lia.
Qed.

Lemma committed_encoding abi_encode keccak256 pot l :
  abi_uint_words abi_encode -> committed pot = Some l ->
  getOnChainHash keccak256 abi_encode pot = Ok (keccak256 (l ≫= be_bytes 32))
  /\ length l = 5%nat /\ Forall (fun z => 0 <= z < 2 ^ 256) l.
Proof.
  intros Habi. unfold committed, getOnChainHash.
  destruct (abi_arg (inr (nround (nmul (pot_uncertainty pot) _)))) as [u|] eqn:Eu; [|done].
  destruct (abi_arg (inr (nround (nmul (pot_confidence pot) _)))) as [c|] eqn:Ec; [|done].
  cbn [mbind option_bind]. case_match eqn:E; [|done]. zbool. intros [= <-]. split_and!.
  - erewrite Habi; [reflexivity| |]; repeat (constructor; [|]); try constructor; try done; try lia.
    all: by apply abi_arg_small.
  - done.
  - repeat constructor; lia.
Qed.

(** *** The capacity *)

Lemma verify_checks now1 now2 pot s :
  acceptable now1 pot ->
  (verifyProofOfTime now1 now2 pot s).1
  = {| sources := sources s;
       usedNonces := (Bounded.check MAX_NONCE_CACHE NONCE_TTL_MS now2 (pot_nonce pot) (usedNonces s)).1 |}.
Proof.
  intros (H1 & H2 & H3 & _). unfold verifyProofOfTime. rewrite H2.
  destruct (pot_sourceReadings pot); [done|]. cbn [length Nat.eqb].
  replace (pot_expiresAt pot <? now1) with false by (symmetry; apply Z.ltb_ge; lia).
  destruct (Bounded.check _ _ _ _ _) as [c []]; done.
Qed.

Definition verify_calls (l : list (Z * ProofOfTime)) : list call :=
  (fun e => CVerify e.1 e.1 e.2) <$> l.

Lemma run_verify_calls l s :
  Forall (fun e => acceptable e.1 e.2) l ->
  run_calls (verify_calls l) s
  = {| sources := sources s;
       usedNonces := Bounded.run MAX_NONCE_CACHE NONCE_TTL_MS
                       ((fun e => (e.1, pot_nonce e.2)) <$> l) (usedNonces s) |}.
Proof.
  intros H. revert s. induction H as [|[now p] l Hp _ IH]; intros s; [by destruct s|].
  simpl in *. rewrite verify_checks by done. apply IH.
Qed.

(** The issuing object refuses its own proof. *)
Lemma own_proof_refused fetch nonce t0 t1 t2 s s' pot calls now1 now2 :
  inv s -> generateProofOfTime fetch nonce t0 t1 t2 s = (s', Ok pot) -> t0 <= t2 ->
  CClose ∉ calls ->
  Forall (fun c => forall now, call_time c = Some now -> now <= now2) calls ->
  Z.of_nat (length calls) < 10000 -> now2 - 240000 <= now1 ->
  (verifyProofOfTime now1 now2 pot (run_calls calls s')).2 = Ok false.
Proof.
  intros Hinv E Ht Hcl Hc Hlen Hnow. apply generate_ok in E as [Hp E].
  apply make_pot_fields in Hp as (Hn & He & _).
  apply verify_ok_state in E as (_ & Hf & Hs).
  destruct (Z.le_gt_cases (now2 - t2) 300000) as [Hle|Hgt].
  - eapply (consumed_refused _ (pot_nonce pot)); [exact Hinv|reflexivity|exact Hf|exact Hs|exact Hcl|exact Hc| |exact Hle].
    exact Hlen.
  - unfold verifyProofOfTime.
    replace (pot_expiresAt pot <? now1) with true by (symmetry; apply Z.ltb_lt; lia).
    by repeat case_match.
Qed.

(** ** Properties *)

(** C1: Byzantine robustness of [synthesize]: with at least three readings, of
    which a strict majority lies in an interval, the synthesized time lies in
    that interval, whatever the other sources answered. *)
Theorem synthesize_majority fetch s (lo hi : Z) :
  (3 <= length (readings fetch s))%nat ->
  (length (readings fetch s) < 2 * count (within lo hi) (readings fetch s))%nat ->
  exists st, synthesize fetch s = Ok st /\ lo <= st_timestamp st <= hi.
Proof.
  intros H3 Hmaj. rewrite synthesize_eq.
  destruct (combine_some (sort_readings (readings fetch s))) as [[[ts unc] str] E].
  { intros H. apply (f_equal length) in H. rewrite length_sort_readings in H. simpl in H. lia. }
  rewrite E. eexists. split; [done|]. simpl. by eapply majority_combined.
Qed.

(** The same for an issued proof: the timestamp of a proof made of at
    least three readings lies in every interval that holds a strict majority
    of them. *)
Lemma generate_majority fetch nonce now0 now1 now2 s s' pot (lo hi : Z) :
  generateProofOfTime fetch nonce now0 now1 now2 s = (s', Ok pot) ->
  (3 <= length (readings fetch s))%nat ->
  (length (readings fetch s) < 2 * count (within lo hi) (readings fetch s))%nat ->
  lo <= pot_timestamp pot <= hi.
Proof.
  intros E H3 Hmaj. apply generate_ok in E as [E _].
  apply make_pot_fields in E as (_ & _ & _ & _ & unc & str & E & _). by eapply majority_combined.
Qed.

(** The synthesized timestamp does not depend on the order in which the
    sources are configured or answer. *)
Lemma synthesize_order_independent fetch1 fetch2 s1 s2 :
  readings fetch1 s1 ≡ₚ readings fetch2 s2 ->
  st_timestamp <$> synthesize fetch1 s1 = st_timestamp <$> synthesize fetch2 s2.
Proof.
  intros Hp. rewrite !synthesize_eq.
  pose proof (combine_timestamps (sort_readings (readings fetch1 s1)) (sort_readings (readings fetch2 s2))) as Hc.
  rewrite (sorted_perm_ts _ (sort_readings (readings fetch2 s2))) in Hc;
    [|apply sort_readings_sorted..|by rewrite !sort_readings_perm].
  specialize (Hc eq_refl).
  destruct (combine _) as [[[t1 u1] k1]|], (combine _) as [[[t2 u2] k2]|]; simpl in *; congruence.
Qed.

(** C2: [verifyProofOfTime] accepts exactly the acceptable proofs (some
    reading, positive confidence, not expired, every reading within the larger
    of its own uncertainty and the stratum floor) whose nonce the cache has
    not seen. *)
Theorem verify_accepts_iff now1 now2 pot s :
  (verifyProofOfTime now1 now2 pot s).2 = Ok true
  <-> acceptable now1 pot
      /\ jm_has (Bounded.sweep MAX_NONCE_CACHE NONCE_TTL_MS now2 (usedNonces s)) (pot_nonce pot) = false.
Proof.
  rewrite verify_spec, <- not_false_iff_true, Bounded.check_seen, not_true_iff_false. done.
Qed.

(** C4: Replay protection: once a proof was accepted, any proof with the same
    nonce is refused for five minutes, whatever calls other than [close] come
    in between, as long as there are fewer than 10,000 of them and none reads a
    later clock than the replay.  [close] ends
    the protection: right after it, whatever was accepted before, exactly the
    acceptable proofs are accepted, the same one included. *)
Theorem verify_replay_refused t1 t2 pot s s' calls now1 now2 pot' :
  inv s -> verifyProofOfTime t1 t2 pot s = (s', Ok true) -> pot_nonce pot' = pot_nonce pot ->
  (CClose ∉ calls -> Forall (fun c => forall now, call_time c = Some now -> now <= now2) calls ->
   Z.of_nat (length calls) < 10000 -> now2 - t2 <= 300000 ->
   (verifyProofOfTime now1 now2 pot' (run_calls calls s')).2 = Ok false)
  /\ ((verifyProofOfTime now1 now2 pot' (run_calls (calls ++ [CClose]) s')).2 = Ok true
      <-> acceptable now1 pot').
Proof.
  intros Hinv E Hn. split; [|apply accepted_after_close].
  intros Hcl Hc Hlen Hnow. apply verify_ok_state in E as (_ & Hf & Hs).
  eapply consumed_refused; [exact Hinv|exact Hn|exact Hf|exact Hs|exact Hcl|exact Hc| |exact Hnow].
  exact Hlen.
Qed.

(** The replay cache keeps one entry per nonce and never more than 10,000,
    whatever calls are made on the object. *)
Lemma nonce_cache_bounded config calls :
  let s := run_calls calls (make config) in
  NoDup (jm_keys (usedNonces s)) /\ jm_size (usedNonces s) <= 10000.
Proof.
  cbv zeta. assert (inv (make config)) as Hinv by (split; [constructor|done]).
  revert Hinv. generalize (make config). induction calls as [|c l IH]; intros s Hinv; [done|].
  apply IH. by apply step_inv.
Qed.

(** C14: An issued proof is refused by the object that issued it, after any
    fewer than 10,000 calls without a [close] among them: the self-verification
    has consumed its nonce, and when five minutes have passed the proof has
    expired.  (The clock is assumed not to run backwards, and the two readings
    of a verification to be at most four minutes apart.)  Right after a [close] the object accepts the
    proof until it expires. *)
Theorem issuer_refuses_own_proof fetch nonce t0 t1 t2 s s' pot calls now1 now2 :
  inv s -> generateProofOfTime fetch nonce t0 t1 t2 s = (s', Ok pot) -> t0 <= t2 ->
  (CClose ∉ calls -> Forall (fun c => forall now, call_time c = Some now -> now <= now2) calls ->
   Z.of_nat (length calls) < 10000 -> now2 - 240000 <= now1 ->
   (verifyProofOfTime now1 now2 pot (run_calls calls s')).2 = Ok false)
  /\ ((verifyProofOfTime now1 now2 pot (run_calls (calls ++ [CClose]) s')).2 = Ok true <-> now1 <= t0 + 60000).
Proof.
  intros Hinv E Ht. split; [intros; by eapply own_proof_refused|].
  rewrite accepted_after_close. apply generate_ok in E as [Hp E].
  apply make_pot_fields in Hp as (_ & He & _). apply verify_ok_state in E as [(H1 & H2 & _ & H4) _].
  unfold acceptable. rewrite He. naive_solver.
Qed.

(** An issued proof is accepted by every other object that has not seen
    its nonce, until it expires. *)
Lemma issued_proof_accepted_elsewhere fetch nonce t0 t1 t2 s s' pot other now1 now2 :
  generateProofOfTime fetch nonce t0 t1 t2 s = (s', Ok pot) ->
  jm_has (usedNonces other) nonce = false -> now1 <= t0 + 60000 ->
  (verifyProofOfTime now1 now2 pot other).2 = Ok true.
Proof.
  intros E Hnew Hnow. apply generate_ok in E as [Hp E].
  apply make_pot_fields in Hp as (Hn & He & _).
  apply verify_ok_state in E as ((H1 & H2 & _ & H4) & _ & _).
  apply verify_spec. split; [split_and!; [done|done|lia|done]|].
  apply Bounded.check_fresh. by rewrite Hn.
Qed.

(** C10: [generateProofOfTime] succeeds whenever some source answers, the
    answers agree within 10 ms (the smallest tolerance), their uncertainties
    are finite, the nonce is new and the clock has not passed the expiry while
    the method ran (pools of at most 64 sources). *)
Theorem generate_succeeds fetch nonce t0 t1 t2 s (lo : Z) :
  readings fetch s <> [] -> (length (sources s) <= 64)%nat -> 0 <= lo ->
  Forall (fun r => lo <= tr_timestamp r <= lo + 10000000
                   /\ is_ok (ns_of_ms (tr_uncertainty r)) = true) (readings fetch s) ->
  jm_has (usedNonces s) nonce = false -> t1 <= t0 + 60000 ->
  exists s' pot, generateProofOfTime fetch nonce t0 t1 t2 s = (s', Ok pot).
Proof.
  intros Hne Hlen Hlo Hall Hnew Ht. unfold generateProofOfTime.
  destruct (make_pot _ _ _ _) as [pot|] eqn:E;
    [|apply make_pot_None in E; by apply (proj1 (sort_readings_nil _)) in E].
  pose proof E as Hm. apply make_pot_fields in E as (Hn & He & _ & Hr & unc & str & Hc & _).
  rewrite <- (sort_readings_perm (readings fetch s)) in Hall.
  assert (lo <= pot_timestamp pot <= lo + 10000000) as Hts.
  { eapply combine_bounds; [|exact Hc]. eapply Forall_impl; [exact Hall|]. naive_solver. }
  assert ((verifyProofOfTime t1 t2 pot s).2 = Ok true) as Hv.
  { apply verify_spec. split; [|apply Bounded.check_fresh; by rewrite Hn].
    split_and!; [| |lia|].
    - rewrite Hr. intros H. apply (f_equal length) in H.
      rewrite length_fmap, length_sort_readings in H. by destruct (readings fetch s).
    - unfold make_pot in Hm. rewrite Hc in Hm. injection Hm as <-. simpl.
      apply confidence_pos; [|done]. rewrite length_sort_readings.
      pose proof (readings_length fetch s). destruct (readings fetch s); [done|simpl in *; lia].
    - rewrite Hr. apply Forall_fmap. eapply Forall_impl; [exact Hall|]. intros r [Hb Ho].
      unfold tolerance_ok. simpl. destruct (ns_of_ms (tr_uncertainty r)) as [own|e] eqn:Eo; [|done].
      exists own. split; [done|].
      pose proof (tolerance_floor (lowest_stratum pot)). lia. }
  destruct (verifyProofOfTime t1 t2 pot s) as [s1 r1]. simpl in Hv. subst r1. eauto.
Qed.

(** An issued proof reports the round it was made from: it carries exactly
    the successful readings, sorted by time, and the values [synthesize]
    computes from the same round; it expires 60 s after its creation. *)
Lemma generate_reports_round fetch nonce t0 t1 t2 s s' pot :
  generateProofOfTime fetch nonce t0 t1 t2 s = (s', Ok pot) ->
  pot_sourceReadings pot ≡ₚ reading_of <$> readings fetch s
  /\ StronglySorted Z.le (sr_timestamp <$> pot_sourceReadings pot)
  /\ pot_nonce pot = nonce /\ pot_expiresAt pot = t0 + 60000
  /\ synthesize fetch s
     = Ok {| st_timestamp := pot_timestamp pot; st_confidence := pot_confidence pot;
             st_uncertainty := pot_uncertainty pot; st_sources := pot_sources pot;
             st_stratum := pot_stratum pot |}.
Proof.
  intros E. apply generate_ok in E as [E _]. pose proof E as Hm.
  apply make_pot_fields in E as (Hn & He & Hs & Hr & unc & str & Hc & Hu & Hst).
  split_and!; [by rewrite Hr, sort_readings_perm| |done|done|].
  - rewrite Hr, <- list_fmap_compose. apply (sorted_timestamps _ (sort_readings_sorted _)).
  - rewrite synthesize_eq, Hc, Hs, length_sort_readings. do 2 f_equal; try done.
    unfold make_pot in Hm. rewrite Hc in Hm. injection Hm as <-. simpl.
    by rewrite length_sort_readings.
Qed.

(** The bound of the replay protection is tight: after exactly 10,000
    accepted proofs with other nonces, all within the lifetime, the nonce of a
    first proof has been evicted and the same proof, if it has not expired, is
    accepted a second time. *)
Lemma replay_after_10000 config t pot s' (l : list (Z * ProofOfTime)) now :
  verifyProofOfTime t t pot (make config) = (s', Ok true) ->
  Forall (fun e => acceptable e.1 e.2 /\ t <= e.1 <= t + 300000) l ->
  NoDup (pot_nonce pot :: (pot_nonce ∘ snd <$> l)) -> Z.of_nat (length l) = 10000 ->
  acceptable now pot ->
  (verifyProofOfTime now now pot (run_calls (verify_calls l) s')).2 = Ok true.
Proof.
  intros E Hl Hnd Hlen Hacc. apply verify_ok_state in E as (_ & Hf & Hs).
  rewrite run_verify_calls by (eapply Forall_impl; [exact Hl|naive_solver]).
  apply verify_spec. split; [done|]. apply Bounded.check_fresh. cbn [usedNonces].
  assert (usedNonces s' = [(pot_nonce pot, t)]) as -> by by rewrite Hs.
  rewrite Bounded.run_fresh with (t0 := t); [|done|split; [apply NoDup_singleton|done]|by repeat constructor| |].
  - rewrite <- list_fmap_compose.
    replace (Z.to_nat MAX_NONCE_CACHE) with (length l) by (unfold MAX_NONCE_CACHE; lia).
    unfold last_n. rewrite length_app, length_fmap.
    replace (length [_] + length l - length l)%nat with (length [(pot_nonce pot, t)]) by (simpl; lia).
    rewrite drop_app_length. apply jm_has_false. unfold jm_keys. rewrite <- list_fmap_compose.
    by apply NoDup_cons in Hnd as [? _].
  - apply Forall_fmap. eapply Forall_impl; [exact Hl|]. intros e [_ He]. exact He.
  - rewrite <- list_fmap_compose. exact Hnd.
Qed.

(** The on-chain hash commits to the timestamp, the uncertainty in ns, the
    number of sources, the stratum and the confidence in millionths, and to
    nothing else: two proofs whose fields fit their ABI types have the same
    hash exactly when these five agree (unless they make a keccak collision).
    Nonce, expiry and source readings are not covered. *)
Lemma onchain_hash_commits keccak256 abi_encode p1 p2 l1 l2 :
  abi_uint_words abi_encode ->
  committed p1 = Some l1 -> committed p2 = Some l2 ->
  (keccak256 (l1 ≫= be_bytes 32) = keccak256 (l2 ≫= be_bytes 32) ->
   (l1 ≫= be_bytes 32) = (l2 ≫= be_bytes 32)) ->
  getOnChainHash keccak256 abi_encode p1 = getOnChainHash keccak256 abi_encode p2 <-> l1 = l2.
Proof.
  intros Habi H1 H2 Hk.
  destruct (committed_encoding abi_encode keccak256 p1 l1 Habi H1) as (-> & Hl1 & Hr1).
  destruct (committed_encoding abi_encode keccak256 p2 l2 Habi H2) as (-> & Hl2 & Hr2).
  split; [|by intros ->]. intros [= E]. apply words_inj; [congruence|done..|by apply Hk].
Qed.

(** ** Witnesses: one round of three HTTPS sources, one of them lying *)

Definition ex_reading (ts : Z) (name : string) : TimeReading :=
  {| tr_timestamp := ts; tr_uncertainty := num_of_Z 500; tr_stratum := 2; tr_source := js name |}.
Definition ex_object : t := make (Some [js "google"; js "cloudflare"; js "apple"]).
Definition ex_answers (ts1 ts2 ts3 : Z) : fetcher := fun i _ =>
  match i with
  | 0%nat => Ok (ex_reading ts1 "google")
  | 1%nat => Ok (ex_reading ts2 "cloudflare")
  | _ => Ok (ex_reading ts3 "apple")
  end.
Definition ex_liar : fetcher := ex_answers 1710412800000000000 99 1710412800004000000.
Definition ex_honest : fetcher := ex_answers 1710412800000000000 1710412800002000000 1710412800004000000.
Definition ex_round : t * res ProofOfTime :=
  generateProofOfTime ex_honest (js "00ff") 1710412800000 1710412800001 1710412800001 ex_object.
Definition ex_pot : ProofOfTime :=
  match ex_round.2 with
  | Ok pot => pot
  | Throw _ => {| pot_timestamp := 0; pot_uncertainty := num_0; pot_sources := 0; pot_stratum := 0;
                  pot_confidence := num_0; pot_sourceReadings := []; pot_nonce := []; pot_expiresAt := 0;
                  pot_issuerSignature := None |}
  end.

Lemma ex_round_ok : ex_round = (ex_round.1, Ok ex_pot).
Proof. vm_compute. reflexivity. Qed.

Lemma ex_object_inv : inv ex_object.
Proof. split; [constructor|done]. Qed.

Lemma synthesize_majority_witness :
  exists st, synthesize ex_liar ex_object = Ok st
    /\ 1710412800000000000 <= st_timestamp st <= 1710412800010000000.
Proof.
  apply (synthesize_majority ex_liar ex_object 1710412800000000000 1710412800010000000);
    apply Nat.leb_le; vm_compute; reflexivity.
Defined.

Lemma generate_majority_witness :
  1710412800000000000 <= pot_timestamp ex_pot <= 1710412800003000000.
Proof.
  eapply (generate_majority ex_honest (js "00ff") 1710412800000 1710412800001 1710412800001 ex_object);
    [exact ex_round_ok|apply Nat.leb_le; vm_compute; reflexivity..].
Defined.

Lemma synthesize_order_independent_witness :
  st_timestamp <$> synthesize (ex_answers 30 10 20) ex_object
  = st_timestamp <$> synthesize (ex_answers 30 10 20) (make (Some [js "apple"; js "google"; js "cloudflare"])).
Proof.
  apply (synthesize_order_independent (ex_answers 30 10 20) (ex_answers 30 10 20)).
  vm_compute. reflexivity.
Defined.

Definition ex_calls : list call := [CSynthesize ex_liar; CVerify 1710412800003 1710412800003 ex_pot].

Lemma verify_replay_refused_witness :
  let s' := (verifyProofOfTime 1710412800002 1710412800002 ex_pot (make None)).1 in
  (verifyProofOfTime 1710412800005 1710412800005 ex_pot (run_calls ex_calls s')).2 = Ok false
  /\ ((verifyProofOfTime 1710412800005 1710412800005 ex_pot (run_calls (ex_calls ++ [CClose]) s')).2 = Ok true
      <-> acceptable 1710412800005 ex_pot).
Proof.
  intros s'.
  destruct (verify_replay_refused 1710412800002 1710412800002 ex_pot (make None) s' ex_calls
              1710412800005 1710412800005 ex_pot) as [H1 H2].
  - split; [constructor|done].
  - vm_compute. reflexivity.
  - reflexivity.
  - split; [apply H1|exact H2].
    + unfold ex_calls. rewrite !not_elem_of_cons. split_and!; [discriminate..|apply not_elem_of_nil].
    + repeat constructor; simpl; intros now [= <-]; lia.
    + simpl. lia.
    + lia.
Defined.

Lemma issuer_refuses_own_proof_witness :
  (verifyProofOfTime 1710412800002 1710412800002 ex_pot (run_calls [] ex_round.1)).2 = Ok false
  /\ ((verifyProofOfTime 1710412800002 1710412800002 ex_pot (run_calls ([] ++ [CClose]) ex_round.1)).2 = Ok true
      <-> 1710412800002 <= 1710412800000 + 60000).
Proof.
  destruct (issuer_refuses_own_proof ex_honest (js "00ff") 1710412800000 1710412800001 1710412800001 ex_object
              ex_round.1 ex_pot [] 1710412800002 1710412800002) as [H1 H2];
    [exact ex_object_inv|exact ex_round_ok|lia|].
  split; [apply H1; [apply not_elem_of_nil|constructor|simpl; lia|lia]|exact H2].
Defined.

Lemma issued_proof_accepted_elsewhere_witness :
  (verifyProofOfTime 1710412800002 1710412800002 ex_pot (make None)).2 = Ok true.
Proof.
  apply (issued_proof_accepted_elsewhere ex_honest (js "00ff") 1710412800000 1710412800001 1710412800001
           ex_object ex_round.1); [exact ex_round_ok|reflexivity|lia].
Defined.

Lemma generate_succeeds_witness :
  exists s' pot, generateProofOfTime ex_honest (js "00ff") 1710412800000 1710412800001 1710412800001 ex_object
                 = (s', Ok pot).
Proof.
  apply (generate_succeeds ex_honest (js "00ff") 1710412800000 1710412800001 1710412800001 ex_object
           1710412800000000000).
  - discriminate.
  - apply Nat.leb_le. reflexivity.
  - lia.
  - repeat constructor; simpl; lia.
  - reflexivity.
  - lia.
Defined.

Lemma generate_reports_round_witness :
  pot_sourceReadings ex_pot ≡ₚ reading_of <$> readings ex_honest ex_object
  /\ StronglySorted Z.le (sr_timestamp <$> pot_sourceReadings ex_pot)
  /\ pot_nonce ex_pot = js "00ff" /\ pot_expiresAt ex_pot = 1710412800000 + 60000
  /\ synthesize ex_honest ex_object
     = Ok {| st_timestamp := pot_timestamp ex_pot; st_confidence := pot_confidence ex_pot;
             st_uncertainty := pot_uncertainty ex_pot; st_sources := pot_sources ex_pot;
             st_stratum := pot_stratum ex_pot |}.
Proof.
  apply (generate_reports_round ex_honest (js "00ff") 1710412800000 1710412800001 1710412800001 ex_object
           ex_round.1); exact ex_round_ok.
Defined.

(** [ex_pot] with another nonce. *)
Definition ex_pot_nonce (n : jsstr) : ProofOfTime :=
  {| pot_timestamp := pot_timestamp ex_pot; pot_uncertainty := pot_uncertainty ex_pot;
     pot_sources := pot_sources ex_pot; pot_stratum := pot_stratum ex_pot;
     pot_confidence := pot_confidence ex_pot; pot_sourceReadings := pot_sourceReadings ex_pot;
     pot_nonce := n; pot_expiresAt := pot_expiresAt ex_pot; pot_issuerSignature := None |}.

Lemma ex_pot_nonce_acceptable now n : now <= 1710412860000 -> acceptable now (ex_pot_nonce n).
Proof.
  intros H.
  assert ((verifyProofOfTime 0 0 ex_pot (make None)).2 = Ok true) as Hv by (vm_compute; reflexivity).
  apply verify_spec in Hv as [(H1 & H2 & _ & H4) _]. split_and!; [done|done|exact H|exact H4].
Qed.

Definition ex_flood : list (Z * ProofOfTime) :=
  (fun i => (1710412800002, ex_pot_nonce (z_to_dec (Z.of_nat i)))) <$> seq 0 (Z.to_nat 10000).

Lemma ex_flood_nonces : (pot_nonce ∘ snd <$> ex_flood) = (fun i => z_to_dec (Z.of_nat i)) <$> seq 0 (Z.to_nat 10000).
Proof. unfold ex_flood. rewrite <- list_fmap_compose. done. Qed.

Lemma ex_flood_fresh : NoDup (js "x" :: (pot_nonce ∘ snd <$> ex_flood)).
Proof.
  rewrite ex_flood_nonces. apply NoDup_cons. split.
  - intros (i & Hi & _)%list_elem_of_fmap. assert (120 ∈ z_to_dec (Z.of_nat i)) as Hx by (rewrite <- Hi; left).
    apply z_to_dec_units in Hx as [Hx|Hx]; discriminate Hx.
  - apply NoDup_fmap_2, NoDup_seq. intros i j Hij. apply (inj z_to_dec) in Hij. lia.
Qed.

Lemma replay_after_10000_witness :
  (verifyProofOfTime 1710412800003 1710412800003 (ex_pot_nonce (js "x"))
     (run_calls (verify_calls ex_flood)
        (verifyProofOfTime 1710412800001 1710412800001 (ex_pot_nonce (js "x")) (make None)).1)).2 = Ok true.
Proof.
  apply (replay_after_10000 None 1710412800001).
  - vm_compute. reflexivity.
  - unfold ex_flood. apply Forall_fmap, Forall_forall. intros i _. split; [apply ex_pot_nonce_acceptable|]; simpl; lia.
  - exact ex_flood_fresh.
  - unfold ex_flood. rewrite length_fmap, length_seq. lia.
  - apply ex_pot_nonce_acceptable. lia.
Defined.

(** An ABI encoder for unsigned tuples that meets the specification. *)
Fixpoint ex_abi (ws : list Z) (vs : list (Z + num)) : res Buffer :=
  match ws, vs with
  | [], [] => Ok []
  | w :: ws, v :: vs =>
      match abi_arg v with
      | Some z => if (0 <=? z) && (z <? 2 ^ w) then (fun b => be_bytes 32 z ++ b) <$> ex_abi ws vs
                  else Throw RangeError
      | None => Throw TypeError
      end
  | _, _ => Throw TypeError
  end.

Lemma ex_abi_words : abi_uint_words ex_abi.
Proof.
  intros ws vs zs Hv. revert ws. induction Hv as [|v z vs zs Hvz _ IH]; intros ws Hw;
    inversion Hw as [|w ? ws' ? [[Hz1 Hz2] _] Hws]; subst; [done|].
  cbn [ex_abi]. rewrite Hvz. apply Z.leb_le in Hz1. apply Z.ltb_lt in Hz2. rewrite Hz1, Hz2. cbn [andb].
  by rewrite (IH ws' Hws).
Qed.

Lemma onchain_hash_commits_witness :
  getOnChainHash to_hex ex_abi ex_pot = getOnChainHash to_hex ex_abi (ex_pot_nonce (js "other"))
  <-> default [] (committed ex_pot) = default [] (committed (ex_pot_nonce (js "other"))).
Proof.
  apply (onchain_hash_commits to_hex ex_abi ex_pot (ex_pot_nonce (js "other")));
    [exact ex_abi_words|vm_compute; reflexivity|vm_compute; reflexivity|apply (inj to_hex)].
Defined.
