(* ===== verification/PotCodec.v ===== *)
(** * Serialization of Proofs of Time (src/src/time_synthesis.ts)

    The JSON and the binary format of [TimeSynthesis].  The binary writer is
    modelled on the allocated buffer with its offset, as the code writes it:
    the space of a source name is its number of UTF-16 units, what
    [buf.write] stores there is UTF-8. *)
From Stdlib Require Import ZArith Lia String Strings.Byte Floats.SpecFloat.
From stdpp Require Import base list numbers option strings.
From S2P Require Import Prelude JSString Errors Bytes JSNum Json Types.

(** ** The binary format *)

(** The whole characters of [s] whose UTF-8 form fits in [n] bytes: what
    [buf.write(s, offset)] stores when [n] bytes remain. *)
Fixpoint utf8_fit (n : nat) (s : jsstr) : Buffer :=
  match s with
  | [] => []
  | c :: s' =>
      let put (b : Buffer) rest := if (length b <=? n)%nat then b ++ rest (n - length b)%nat else [] in
      if is_high c then
        match s' with
        | c2 :: s'' =>
            if is_low c2
            then put (utf8_of_scalar (65536 + (c - 55296) * 1024 + (c2 - 56320))) (fun n => utf8_fit n s'')
            else put (utf8_of_scalar 65533) (fun n => utf8_fit n s')
        | [] => put (utf8_of_scalar 65533) (fun _ => [])
        end
      else if is_low c then put (utf8_of_scalar 65533) (fun n => utf8_fit n s')
      else put (utf8_of_scalar c) (fun n => utf8_fit n s')
  end.

(** The buffer being written and the offset. *)
Record cursor := { buf : Buffer; off : nat }.

Definition put (src : Buffer) (c : cursor) : cursor :=
  {| buf := overwrite (buf c) (off c) src; off := off c + length src |}.
(** [buf.writeUIntBE(z, offset); offset += n] *)
Definition put_uint (n : nat) (z : Z) (c : cursor) : res cursor :=
  b ← checked_be n z; Ok (put b c).
Definition put_float (x : num) (c : cursor) : cursor := put (float_bytes x) c.
(** [buf.write(s, offset); offset += s.length] *)
Definition put_string (s : jsstr) (c : cursor) : cursor :=
  {| buf := overwrite (buf c) (off c) (utf8_fit (length (buf c) - off c) s); off := off c + length s |}.

Definition put_reading (c : cursor) (r : SourceReading) : res cursor :=
  c ← put_uint 1 (Z.of_nat (length (sr_source r))) c;
  c ← put_uint 8 (sr_timestamp r) (put_string (sr_source r) c);
  Ok (put_float (sr_uncertainty r) c).

Fixpoint put_readings (l : list SourceReading) (c : cursor) : res cursor :=
  match l with
  | [] => Ok c
  | r :: l' => c ← put_reading c r; put_readings l' c
  end.

Definition binary_size (pot : ProofOfTime) : nat :=
  19 + 1 + length (utf8_encode (pot_nonce pot)) + 8
  + list_sum ((fun r => 1 + length (sr_source r) + 8 + 4) <$> pot_sourceReadings pot)%nat.

Definition serializeToBinary (pot : ProofOfTime) : res Buffer :=
  let nonceBytes := utf8_encode (pot_nonce pot) in
  let c := {| buf := zeros (binary_size pot); off := 0 |} in
  c ← put_uint 8 (pot_timestamp pot) c;
  let c := put_float (pot_uncertainty pot) c in
  c ← put_uint 1 (pot_sources pot) c;
  c ← put_uint 1 (pot_stratum pot) c;
  let c := put_float (pot_confidence pot) c in
  c ← put_uint 1 (Z.of_nat (length (pot_sourceReadings pot))) c;
  c ← put_uint 1 (Z.of_nat (length nonceBytes)) c;
  let c := put nonceBytes c in
  c ← put_uint 8 (pot_expiresAt pot) c;
  c ← put_readings (pot_sourceReadings pot) c;
  Ok (buf c).

(** [buf.toString('utf8', s, s + n)] *)
Definition read_string (b : Buffer) (s n : nat) : jsstr := utf8_decode (subarray b s (s + n)).

Fixpoint get_readings (n : nat) (b : Buffer) (o : nat) : res (list SourceReading) :=
  match n with
  | O => Ok []
  | S n' =>
      nameLen ← readUInt8 b o;
      let k := Z.to_nat nameLen in
      let source := read_string b (o + 1) k in
      ts ← readBigUInt64BE b (o + 1 + k);
      unc ← readFloatBE b (o + 1 + k + 8);
      rest ← get_readings n' b (o + 1 + k + 8 + 4);
      Ok ({| sr_source := source; sr_timestamp := ts; sr_uncertainty := unc; sr_stratum := None |} :: rest)
  end.

Definition deserializeFromBinary (b : Buffer) : res ProofOfTime :=
  timestamp ← readBigUInt64BE b 0;
  uncertainty ← readFloatBE b 8;
  sources ← readUInt8 b 12;
  stratum ← readUInt8 b 13;
  confidence ← readFloatBE b 14;
  sigCount ← readUInt8 b 18;
  nonceLen ← readUInt8 b 19;
  let k := Z.to_nat nonceLen in
  let nonce := read_string b 20 k in
  expiresAt ← readBigUInt64BE b (20 + k);
  readings ← get_readings (Z.to_nat sigCount) b (20 + k + 8);
  Ok {| pot_timestamp := timestamp; pot_uncertainty := uncertainty; pot_sources := sources;
        pot_stratum := stratum; pot_confidence := confidence; pot_sourceReadings := readings;
        pot_nonce := nonce; pot_expiresAt := expiresAt; pot_issuerSignature := None |}.

(** ** The JSON format *)

Definition json_of_bigint (z : Z) : json := JStr (z_to_dec z).

Definition json_of_reading (r : SourceReading) : json :=
  JObj ([(js "source", JStr (sr_source r)); (js "timestamp", json_of_bigint (sr_timestamp r));
         (js "uncertainty", json_num (sr_uncertainty r))]
        ++ match sr_stratum r with
           | Some s => [(js "stratum", json_num (num_of_Z s))]
           | None => []
           end).

Definition json_of_signature (s : PotSignature) : json :=
  JObj [(js "issuerPubKey", JStr (ps_issuerPubKey s)); (js "signature", JStr (ps_signature s));
        (js "issuedAt", json_of_bigint (ps_issuedAt s))].

(** [JSON.stringify] with the replacer that turns BigInts into strings. *)
Definition serializeToJSON (pot : ProofOfTime) : json :=
  JObj ([(js "timestamp", json_of_bigint (pot_timestamp pot));
         (js "uncertainty", json_num (pot_uncertainty pot));
         (js "sources", json_num (num_of_Z (pot_sources pot)));
         (js "stratum", json_num (num_of_Z (pot_stratum pot)));
         (js "confidence", json_num (pot_confidence pot));
         (js "sourceReadings", JArr (json_of_reading <$> pot_sourceReadings pot));
         (js "nonce", JStr (pot_nonce pot));
         (js "expiresAt", json_of_bigint (pot_expiresAt pot))]
        ++ match pot_issuerSignature pot with
           | Some s => [(js "issuerSignature", json_of_signature s)]
           | None => []
           end).

(** The objects [deserializeFromJSON] builds: the parsed fields, with the
    timestamps replaced by BigInts. *)
Record json_reading := { jr_rest : json; jr_timestamp : Z }.
Record json_pot := {
  jp_rest : json;
  jp_timestamp : Z;
  jp_expiresAt : Z;
  jp_sourceReadings : list json_reading;
}.

Definition deserializeReading (s : json) : res json_reading :=
  f ← get_field s "timestamp";
  ts ← bigint_of_json f;
  Ok {| jr_rest := s; jr_timestamp := ts |}.

Definition deserializeFromJSON (text : json_text) : res json_pot :=
  data ← JSON_parse text;
  f ← get_field data "timestamp";
  timestamp ← bigint_of_json f;
  f ← get_field data "expiresAt";
  expiresAt ← bigint_of_json f;
  f ← get_field data "sourceReadings";
  l ← json_array f;
  readings ← res_map deserializeReading l;
  Ok {| jp_rest := data; jp_timestamp := timestamp; jp_expiresAt := expiresAt;
        jp_sourceReadings := readings |}.

(** The object at the type [ProofOfTime]; [None] when a field does not have
    its declared type. *)
Definition as_num (v : res (option json)) : option num :=
  match v with Ok (Some (JNum x)) => Some x | _ => None end.
Definition as_int (v : res (option json)) : option Z :=
  x ← as_num v; match bigint_of_num x with Ok z => Some z | Throw _ => None end.
Definition as_str (v : res (option json)) : option jsstr :=
  match v with Ok (Some (JStr s)) => Some s | _ => None end.
Definition is_undefined (v : res (option json)) : bool := match v with Ok None => true | _ => false end.

Definition typed_reading (r : json_reading) : option SourceReading :=
  source ← as_str (get_field (jr_rest r) "source");
  unc ← as_num (get_field (jr_rest r) "uncertainty");
  str ← (if is_undefined (get_field (jr_rest r) "stratum") then Some None
         else Some <$> as_int (get_field (jr_rest r) "stratum"));
  Some {| sr_source := source; sr_timestamp := jr_timestamp r; sr_uncertainty := unc; sr_stratum := str |}.

(** A present [issuerSignature] never has its declared type: [issuedAt] is a
    BigInt there, and stays a string here. *)
Definition typed_pot (p : json_pot) : option ProofOfTime :=
  unc ← as_num (get_field (jp_rest p) "uncertainty");
  sources ← as_int (get_field (jp_rest p) "sources");
  str ← as_int (get_field (jp_rest p) "stratum");
  conf ← as_num (get_field (jp_rest p) "confidence");
  nonce ← as_str (get_field (jp_rest p) "nonce");
  readings ← mapM typed_reading (jp_sourceReadings p);
  if is_undefined (get_field (jp_rest p) "issuerSignature") then
    Some {| pot_timestamp := jp_timestamp p; pot_uncertainty := unc; pot_sources := sources;
            pot_stratum := str; pot_confidence := conf; pot_sourceReadings := readings;
            pot_nonce := nonce; pot_expiresAt := jp_expiresAt p; pot_issuerSignature := None |}
  else None.

(** ** The binary layout *)

Definition reading_bytes (r : SourceReading) : Buffer :=
  be_bytes 1 (Z.of_nat (length (sr_source r))) ++ utf8_encode (sr_source r)
  ++ be_bytes 8 (sr_timestamp r) ++ float_bytes (sr_uncertainty r).

Definition pot_bytes (pot : ProofOfTime) : Buffer :=
  be_bytes 8 (pot_timestamp pot) ++ float_bytes (pot_uncertainty pot)
  ++ be_bytes 1 (pot_sources pot) ++ be_bytes 1 (pot_stratum pot)
  ++ float_bytes (pot_confidence pot) ++ be_bytes 1 (Z.of_nat (length (pot_sourceReadings pot)))
  ++ be_bytes 1 (Z.of_nat (length (utf8_encode (pot_nonce pot)))) ++ utf8_encode (pot_nonce pot)
  ++ be_bytes 8 (pot_expiresAt pot) ++ (pot_sourceReadings pot ≫= reading_bytes).

Definition u64 (z : Z) : Prop := 0 <= z < 2 ^ 64.
Definition u8 (z : Z) : Prop := 0 <= z < 2 ^ 8.

(** The proofs the binary format can hold. *)
Definition reading_fits (r : SourceReading) : Prop :=
  is_ascii (sr_source r) /\ u8 (Z.of_nat (length (sr_source r))) /\ u64 (sr_timestamp r).
Definition binary_fits (pot : ProofOfTime) : Prop :=
  u64 (pot_timestamp pot) /\ u8 (pot_sources pot) /\ u8 (pot_stratum pot)
  /\ u8 (Z.of_nat (length (pot_sourceReadings pot)))
  /\ is_ascii (pot_nonce pot) /\ u8 (Z.of_nat (length (pot_nonce pot))) /\ u64 (pot_expiresAt pot)
  /\ Forall reading_fits (pot_sourceReadings pot).

(** What the format keeps: the Numbers rounded to binary32, neither the
    strata of the readings nor the signature. *)
Definition binary_reading (r : SourceReading) : SourceReading :=
  {| sr_source := sr_source r; sr_timestamp := sr_timestamp r;
     sr_uncertainty := nfround (sr_uncertainty r); sr_stratum := None |}.
Definition binary_view (pot : ProofOfTime) : ProofOfTime :=
  {| pot_timestamp := pot_timestamp pot; pot_uncertainty := nfround (pot_uncertainty pot);
     pot_sources := pot_sources pot; pot_stratum := pot_stratum pot;
     pot_confidence := nfround (pot_confidence pot);
     pot_sourceReadings := binary_reading <$> pot_sourceReadings pot; pot_nonce := pot_nonce pot;
     pot_expiresAt := pot_expiresAt pot; pot_issuerSignature := None |}.

(** ** Writing *)

(** [done_] is written, [k] bytes are left. *)
Definition cur (done_ : Buffer) (k : nat) (c : cursor) : Prop :=
  buf c = done_ ++ zeros k /\ off c = length done_.

Lemma put_cur done_ k c src :
  cur done_ (length src + k) c -> cur (done_ ++ src) k (put src c).
Proof.
  intros [Hb Ho]. split; cbn [put buf off].
  - rewrite Hb, Ho. unfold zeros. rewrite replicate_add.
    rewrite (overwrite_fits done_ (replicate (length src) Byte.x00)) by by rewrite length_replicate.
    by rewrite app_assoc.
  - by rewrite Ho, length_app.
Qed.

Lemma checked_be_ok n z : 0 <= z < 256 ^ Z.of_nat n -> checked_be n z = Ok (be_bytes n z).
Proof.
  intros H. unfold checked_be. replace ((0 <=? z) && (z <? 256 ^ Z.of_nat n)) with true; [done|].
  symmetry. apply andb_true_intro. split; [apply Z.leb_le|apply Z.ltb_lt]; lia.
Qed.

Lemma put_uint_cur n z done_ k c :
  0 <= z < 256 ^ Z.of_nat n -> cur done_ (n + k) c ->
  exists c', put_uint n z c = Ok c' /\ cur (done_ ++ be_bytes n z) k c'.
Proof.
  intros Hz Hc. unfold put_uint. rewrite checked_be_ok by done. eexists. split; [done|].
  apply put_cur. by rewrite length_be_bytes.
Qed.

Lemma utf8_fit_ascii s n : is_ascii s -> (length s <= n)%nat -> utf8_fit n s = utf8_encode s.
Proof.
  intros Hs. revert n. induction Hs as [|c s Hc _ IH]; intros n Hn; [done|].
  cbn [utf8_fit utf8_encode]. unfold is_high, is_low, utf8_of_scalar.
  replace (55296 <=? c) with false by (symmetry; apply Z.leb_gt; lia).
  replace (56320 <=? c) with false by (symmetry; apply Z.leb_gt; lia).
  replace (c <? 128) with true by (symmetry; apply Z.ltb_lt; lia). cbn [andb length] in *.
  replace (1 <=? n)%nat with true by (symmetry; apply Nat.leb_le; lia).
  by rewrite IH by lia.
Qed.

Lemma put_string_cur s done_ k c :
  is_ascii s -> cur done_ (length s + k) c -> cur (done_ ++ utf8_encode s) k (put_string s c).
Proof.
  intros Hs [Hb Ho]. unfold put_string. rewrite utf8_fit_ascii; [|done|].
  - replace (off c + length s)%nat with (off c + length (utf8_encode s))%nat by by rewrite length_utf8_ascii.
    apply (put_cur _ _ c). by rewrite length_utf8_ascii.
  - rewrite Hb, Ho, length_app. unfold zeros. rewrite length_replicate. lia.
Qed.

Lemma put_float_cur x done_ k c : cur done_ (4 + k) c -> cur (done_ ++ float_bytes x) k (put_float x c).
Proof. intros Hc. apply put_cur. by rewrite length_float_bytes. Qed.

Lemma length_reading_bytes r :
  is_ascii (sr_source r) -> length (reading_bytes r) = (1 + length (sr_source r) + 8 + 4)%nat.
Proof.
  intros H. unfold reading_bytes.
  rewrite !length_app, !length_be_bytes, length_float_bytes, length_utf8_ascii by done. lia.
Qed.

Lemma put_reading_cur r done_ k c :
  reading_fits r -> cur done_ (length (reading_bytes r) + k) c ->
  exists c', put_reading c r = Ok c' /\ cur (done_ ++ reading_bytes r) k c'.
Proof.
  intros (Hs & Hl & Ht) Hc. rewrite length_reading_bytes in Hc by done. unfold put_reading.
  destruct (put_uint_cur 1 _ done_ (length (sr_source r) + (8 + (4 + k))) c Hl) as (c1 & -> & H1);
    [by rewrite <- !Nat.add_assoc in Hc|].
  cbn [mbind result_bind]. apply (put_string_cur (sr_source r)) in H1; [|done].
  destruct (put_uint_cur 8 _ _ _ _ Ht H1) as (c2 & -> & H2).
  cbn [mbind result_bind]. eexists. split; [done|].
  apply (put_float_cur (sr_uncertainty r)) in H2. unfold reading_bytes. by rewrite !app_assoc.
Qed.

Lemma put_readings_cur l done_ k c :
  Forall reading_fits l -> cur done_ (length (l ≫= reading_bytes) + k) c ->
  exists c', put_readings l c = Ok c' /\ cur (done_ ++ (l ≫= reading_bytes)) k c'.
Proof.
  intros Hl. revert done_ c. induction Hl as [|r l Hr _ IH]; intros done_ c Hc.
  - eexists. split; [done|]. by rewrite app_nil_r.
  - change ((r :: l) ≫= reading_bytes) with (reading_bytes r ++ (l ≫= reading_bytes)) in *.
    rewrite length_app, <- Nat.add_assoc in Hc. cbn [put_readings].
    destruct (put_reading_cur r _ _ c Hr Hc) as (c1 & -> & H1). cbn [mbind result_bind].
    destruct (IH _ _ H1) as (c2 & -> & H2). eexists. split; [done|]. by rewrite app_assoc.
Qed.

Lemma length_readings_bytes l :
  Forall reading_fits l ->
  length (l ≫= reading_bytes) = list_sum ((fun r => 1 + length (sr_source r) + 8 + 4)%nat <$> l).
Proof.
  induction 1 as [|r l (Hs & _) _ IH]; [done|].
  change ((r :: l) ≫= reading_bytes) with (reading_bytes r ++ (l ≫= reading_bytes)).
  rewrite length_app, IH, length_reading_bytes by done. done.
Qed.

Lemma serializeToBinary_ok pot : binary_fits pot -> serializeToBinary pot = Ok (pot_bytes pot).
Proof.
  intros (Hts & Hso & Hst & Hn & Hna & Hnl & He & Hr). unfold serializeToBinary, binary_size.
  rewrite <- length_readings_bytes by done.
  assert (u8 (Z.of_nat (length (utf8_encode (pot_nonce pot))))) as Hnl' by by rewrite length_utf8_ascii.
  set (nb := utf8_encode (pot_nonce pot)) in *. set (rb := pot_sourceReadings pot ≫= reading_bytes).
  set (c0 := {| buf := _; off := 0 |}).
  assert (cur [] (8 + (4 + (1 + (1 + (4 + (1 + (1 + (length nb + (8 + (length rb + 0)))))))))) c0) as H0.
  { split; [|done]. unfold c0. cbn [buf app]. f_equal. lia. }
  destruct (put_uint_cur 8 _ _ _ _ Hts H0) as (c1 & -> & H1). cbn [mbind result_bind].
  apply (put_float_cur (pot_uncertainty pot)) in H1.
  destruct (put_uint_cur 1 _ _ _ _ Hso H1) as (c2 & -> & H2). cbn [mbind result_bind].
  destruct (put_uint_cur 1 _ _ _ _ Hst H2) as (c3 & -> & H3). cbn [mbind result_bind].
  apply (put_float_cur (pot_confidence pot)) in H3.
  destruct (put_uint_cur 1 _ _ _ _ Hn H3) as (c4 & -> & H4). cbn [mbind result_bind].
  destruct (put_uint_cur 1 _ _ _ _ Hnl' H4) as (c5 & -> & H5). cbn [mbind result_bind].
  apply (put_cur _ _ _ nb) in H5.
  destruct (put_uint_cur 8 _ _ _ _ He H5) as (c6 & -> & H6). cbn [mbind result_bind].
  destruct (put_readings_cur _ _ _ _ Hr H6) as (c7 & -> & H7). cbn [mbind result_bind].
  destruct H7 as [-> _]. f_equal. unfold pot_bytes. fold nb rb.
  cbn [app zeros replicate]. by rewrite app_nil_r, <- !app_assoc.
Qed.

(** ** Reading *)

Lemma read_uint_at (read : Buffer -> nat -> res Z) n pre z post b o :
  (forall b o, read b o = be_val <$> read_bytes b o n) ->
  b = pre ++ be_bytes n z ++ post -> o = length pre -> 0 <= z < 256 ^ Z.of_nat n ->
  read b o = Ok z.
Proof.
  intros Hr -> -> Hz. rewrite Hr, (read_bytes_at _ (be_bytes n z)) by (by rewrite ?length_be_bytes).
  simpl. by rewrite be_val_be_bytes, Z.mod_small.
Qed.

Lemma readUInt8_at pre z post b o :
  b = pre ++ be_bytes 1 z ++ post -> o = length pre -> u8 z -> readUInt8 b o = Ok z.
Proof. intros. by eapply (read_uint_at readUInt8 1). Qed.

Lemma readU64_at pre z post b o :
  b = pre ++ be_bytes 8 z ++ post -> o = length pre -> u64 z -> readBigUInt64BE b o = Ok z.
Proof. intros. by eapply (read_uint_at readBigUInt64BE 8). Qed.

Lemma readFloat_at pre x post b o :
  b = pre ++ float_bytes x ++ post -> o = length pre -> readFloatBE b o = Ok (nfround x).
Proof.
  intros -> ->. unfold readFloatBE. by rewrite (read_bytes_at _ (float_bytes x)) by (by rewrite ?length_float_bytes).
Qed.

Lemma read_string_at pre s post b o n :
  b = pre ++ utf8_encode s ++ post -> o = length pre -> is_ascii s -> n = length s -> read_string b o n = s.
Proof.
  intros -> -> Hs ->. unfold read_string.
  rewrite (subarray_app _ (utf8_encode s)) by (rewrite ?length_utf8_ascii; done).
  by apply utf8_decode_encode_ascii.
Qed.

Lemma get_readings_at l pre post b o :
  Forall reading_fits l -> b = pre ++ (l ≫= reading_bytes) ++ post -> o = length pre ->
  get_readings (length l) b o = Ok (binary_reading <$> l).
Proof.
  intros Hl. revert pre o. induction Hl as [|r l (Hs & Hn & Ht) _ IH]; intros pre o Hb Ho; [done|].
  change ((r :: l) ≫= reading_bytes) with (reading_bytes r ++ (l ≫= reading_bytes)) in Hb.
  unfold reading_bytes at 1 in Hb. cbn [get_readings length].
  set (n1 := be_bytes 1 (Z.of_nat (length (sr_source r)))) in *. set (sb := utf8_encode (sr_source r)) in *.
  set (t8 := be_bytes 8 (sr_timestamp r)) in *. set (u4 := float_bytes (sr_uncertainty r)) in *.
  assert (length n1 = 1%nat) as L1 by apply length_be_bytes.
  assert (length sb = length (sr_source r)) as L2 by by apply length_utf8_ascii.
  assert (length t8 = 8%nat) as L3 by apply length_be_bytes.
  assert (length u4 = 4%nat) as L4 by apply length_float_bytes.
  rewrite (readUInt8_at pre (Z.of_nat (length (sr_source r))) (sb ++ t8 ++ u4 ++ (l ≫= reading_bytes) ++ post));
    [|by rewrite Hb, <- !app_assoc|done|done]. cbn [mbind result_bind]. rewrite Nat2Z.id.
  rewrite (readU64_at (pre ++ n1 ++ sb) (sr_timestamp r) (u4 ++ (l ≫= reading_bytes) ++ post));
    [|by rewrite Hb, <- !app_assoc|rewrite !length_app; lia|done]. cbn [mbind result_bind].
  rewrite (readFloat_at (pre ++ n1 ++ sb ++ t8) (sr_uncertainty r) ((l ≫= reading_bytes) ++ post));
    [|by rewrite Hb, <- !app_assoc|rewrite !length_app; lia]. cbn [mbind result_bind].
  rewrite (read_string_at (pre ++ n1) (sr_source r) (t8 ++ u4 ++ (l ≫= reading_bytes) ++ post));
    [|by rewrite Hb, <- !app_assoc|rewrite !length_app; lia|done|done].
  rewrite (IH (pre ++ n1 ++ sb ++ t8 ++ u4));
    [done|by rewrite Hb, <- !app_assoc|rewrite !length_app; lia].
Qed.

Lemma deserialize_pot_bytes pot : binary_fits pot -> deserializeFromBinary (pot_bytes pot) = Ok (binary_view pot).
Proof.
  intros (Hts & Hso & Hst & Hn & Hna & Hnl & He & Hr).
  assert (u8 (Z.of_nat (length (utf8_encode (pot_nonce pot))))) as Hnl' by by rewrite length_utf8_ascii.
  unfold deserializeFromBinary. set (b := pot_bytes pot). pose proof (eq_refl : b = pot_bytes pot) as Hb.
  unfold pot_bytes in Hb. set (rb := pot_sourceReadings pot ≫= reading_bytes) in *.
  set (nb := utf8_encode (pot_nonce pot)) in *.
  set (t8 := be_bytes 8 (pot_timestamp pot)) in *. set (u4 := float_bytes (pot_uncertainty pot)) in *.
  set (s1 := be_bytes 1 (pot_sources pot)) in *. set (k1 := be_bytes 1 (pot_stratum pot)) in *.
  set (c4 := float_bytes (pot_confidence pot)) in *. set (e8 := be_bytes 8 (pot_expiresAt pot)) in *.
  set (r1 := be_bytes 1 (Z.of_nat (length (pot_sourceReadings pot)))) in *.
  set (l1 := be_bytes 1 (Z.of_nat (length nb))) in *.
  assert (length t8 = 8%nat /\ length s1 = 1%nat /\ length k1 = 1%nat /\ length e8 = 8%nat
          /\ length r1 = 1%nat /\ length l1 = 1%nat /\ length u4 = 4%nat /\ length c4 = 4%nat
          /\ length nb = length (pot_nonce pot))
    as (L1 & L2 & L3 & L4 & L5 & L6 & L7 & L8 & L9)
    by (split_and!; first [apply length_be_bytes|apply length_float_bytes|by apply length_utf8_ascii]).
  clearbody b.
  rewrite (readU64_at [] (pot_timestamp pot) (u4 ++ s1 ++ k1 ++ c4 ++ r1 ++ l1 ++ nb ++ e8 ++ rb) b 0) by done.
  cbn [mbind result_bind].
  rewrite (readFloat_at t8 (pot_uncertainty pot) (s1 ++ k1 ++ c4 ++ r1 ++ l1 ++ nb ++ e8 ++ rb) b 8);
    [|exact Hb|by rewrite L1].
  cbn [mbind result_bind].
  rewrite (readUInt8_at (t8 ++ u4) (pot_sources pot) (k1 ++ c4 ++ r1 ++ l1 ++ nb ++ e8 ++ rb) b 12);
    [|by rewrite Hb, <- ?app_assoc|rewrite !length_app; lia|done]. cbn [mbind result_bind].
  rewrite (readUInt8_at (t8 ++ u4 ++ s1) (pot_stratum pot) (c4 ++ r1 ++ l1 ++ nb ++ e8 ++ rb) b 13);
    [|by rewrite Hb, <- ?app_assoc|rewrite !length_app; lia|done]. cbn [mbind result_bind].
  rewrite (readFloat_at (t8 ++ u4 ++ s1 ++ k1) (pot_confidence pot) (r1 ++ l1 ++ nb ++ e8 ++ rb) b 14);
    [|by rewrite Hb, <- ?app_assoc|rewrite !length_app; lia]. cbn [mbind result_bind].
  rewrite (readUInt8_at (t8 ++ u4 ++ s1 ++ k1 ++ c4) (Z.of_nat (length (pot_sourceReadings pot))) (l1 ++ nb ++ e8 ++ rb) b 18);
    [|by rewrite Hb, <- ?app_assoc|rewrite !length_app; lia|done]. cbn [mbind result_bind].
  rewrite (readUInt8_at (t8 ++ u4 ++ s1 ++ k1 ++ c4 ++ r1) (Z.of_nat (length nb)) (nb ++ e8 ++ rb) b 19);
    [|by rewrite Hb, <- ?app_assoc|rewrite !length_app; lia|done]. cbn [mbind result_bind].
  rewrite !Nat2Z.id.
  rewrite (read_string_at (t8 ++ u4 ++ s1 ++ k1 ++ c4 ++ r1 ++ l1) (pot_nonce pot) (e8 ++ rb));
    [|by rewrite Hb, <- ?app_assoc|rewrite !length_app; lia|done|done].
  rewrite (readU64_at (t8 ++ u4 ++ s1 ++ k1 ++ c4 ++ r1 ++ l1 ++ nb) (pot_expiresAt pot) rb);
    [|by rewrite ?Hb, <- ?app_assoc|rewrite !length_app; lia|done]. cbn [mbind result_bind].
  rewrite (get_readings_at _ (t8 ++ u4 ++ s1 ++ k1 ++ c4 ++ r1 ++ l1 ++ nb ++ e8) []);
    [done|done|by rewrite ?Hb, app_nil_r, <- ?app_assoc|rewrite !length_app; lia].
Qed.

(** ** Errors of the decoder *)

Definition range_only {A} (r : res A) : Prop :=
  match r with Ok _ => True | Throw e => e = RangeError end.

Lemma range_only_bind {A B} (r : res A) (f : A -> res B) :
  range_only r -> (forall a, range_only (f a)) -> range_only (r ≫= f).
Proof. destruct r; simpl; auto. Qed.

Lemma range_only_read (f : Buffer -> Z) b o n : range_only (f <$> read_bytes b o n).
Proof. unfold read_bytes. by destruct (_ <=? _)%nat. Qed.

Lemma range_only_float b o : range_only (readFloatBE b o).
Proof. unfold readFloatBE, read_bytes. by destruct (_ <=? _)%nat. Qed.

Lemma range_only_readings n b o : range_only (get_readings n b o).
Proof.
  revert o. induction n as [|n IH]; intros o; simpl; [done|].
  apply range_only_bind; [apply range_only_read|intros len].
  apply range_only_bind; [apply range_only_read|intros ts].
  apply range_only_bind; [apply range_only_float|intros unc].
  by apply range_only_bind.
Qed.

(** ** JSON lemmas *)

Lemma json_fields pot :
  get_field (serializeToJSON pot) "timestamp" = Ok (Some (json_of_bigint (pot_timestamp pot)))
  /\ get_field (serializeToJSON pot) "expiresAt" = Ok (Some (json_of_bigint (pot_expiresAt pot)))
  /\ get_field (serializeToJSON pot) "sourceReadings"
     = Ok (Some (JArr (json_of_reading <$> pot_sourceReadings pot)))
  /\ get_field (serializeToJSON pot) "uncertainty" = Ok (Some (json_num (pot_uncertainty pot)))
  /\ get_field (serializeToJSON pot) "sources" = Ok (Some (json_num (num_of_Z (pot_sources pot))))
  /\ get_field (serializeToJSON pot) "stratum" = Ok (Some (json_num (num_of_Z (pot_stratum pot))))
  /\ get_field (serializeToJSON pot) "confidence" = Ok (Some (json_num (pot_confidence pot)))
  /\ get_field (serializeToJSON pot) "nonce" = Ok (Some (JStr (pot_nonce pot)))
  /\ get_field (serializeToJSON pot) "issuerSignature" = Ok (json_of_signature <$> pot_issuerSignature pot).
Proof. unfold serializeToJSON. destruct (pot_issuerSignature pot); by split_and!. Qed.

Lemma json_reading_fields r :
  get_field (json_of_reading r) "timestamp" = Ok (Some (json_of_bigint (sr_timestamp r)))
  /\ get_field (json_of_reading r) "source" = Ok (Some (JStr (sr_source r)))
  /\ get_field (json_of_reading r) "uncertainty" = Ok (Some (json_num (sr_uncertainty r)))
  /\ get_field (json_of_reading r) "stratum" = Ok ((fun s => json_num (num_of_Z s)) <$> sr_stratum r).
Proof. unfold json_of_reading. destruct (sr_stratum r); by split_and!. Qed.

Definition json_reading_of (r : SourceReading) : json_reading :=
  {| jr_rest := json_of_reading r; jr_timestamp := sr_timestamp r |}.

Lemma deserialize_serialize_json pot :
  deserializeFromJSON (Some (serializeToJSON pot))
  = Ok {| jp_rest := serializeToJSON pot; jp_timestamp := pot_timestamp pot;
          jp_expiresAt := pot_expiresAt pot;
          jp_sourceReadings := json_reading_of <$> pot_sourceReadings pot |}.
Proof.
  destruct (json_fields pot) as (E1 & E2 & E3 & _).
  unfold deserializeFromJSON. cbn [JSON_parse mbind result_bind].
  rewrite E1. cbn [mbind result_bind]. unfold json_of_bigint. rewrite bigint_of_json_dec. cbn [mbind result_bind].
  rewrite E2. cbn [mbind result_bind]. unfold json_of_bigint. rewrite bigint_of_json_dec. cbn [mbind result_bind].
  rewrite E3. cbn [mbind result_bind json_array]. rewrite res_map_fmap.
  rewrite (res_map_Ok _ json_reading_of); [done|]. intros r _.
  destruct (json_reading_fields r) as (R1 & _). unfold deserializeReading. rewrite R1.
  cbn [mbind result_bind]. unfold json_of_bigint. by rewrite bigint_of_json_dec.
Qed.

(** The Numbers JSON keeps: finite, not negative zero; strata of one byte. *)
Definition reading_json_safe (r : SourceReading) : Prop :=
  json_safe (sr_uncertainty r) = true /\ (forall s, sr_stratum r = Some s -> 0 <= s < 256).
Definition pot_json_safe (pot : ProofOfTime) : Prop :=
  json_safe (pot_uncertainty pot) = true /\ json_safe (pot_confidence pot) = true
  /\ 0 <= pot_sources pot < 256 /\ 0 <= pot_stratum pot < 256
  /\ Forall reading_json_safe (pot_sourceReadings pot).

Lemma typed_reading_json r : reading_json_safe r -> typed_reading (json_reading_of r) = Some r.
Proof.
  intros [Hu Hs]. destruct (json_reading_fields r) as (_ & R2 & R3 & R4).
  unfold typed_reading. cbn [json_reading_of jr_rest jr_timestamp].
  rewrite R2, R3, R4, (json_num_safe _ Hu). destruct r as [src ts unc [s|]]; cbn in *; [|done].
  rewrite json_num_small by by apply Hs. cbn. rewrite bigint_of_small by by apply Hs. done.
Qed.

Lemma typed_pot_json pot :
  pot_json_safe pot ->
  typed_pot {| jp_rest := serializeToJSON pot; jp_timestamp := pot_timestamp pot;
               jp_expiresAt := pot_expiresAt pot;
               jp_sourceReadings := json_reading_of <$> pot_sourceReadings pot |}
  = match pot_issuerSignature pot with None => Some pot | Some _ => None end.
Proof.
  intros (Hu & Hc & Hso & Hst & Hr). destruct (json_fields pot) as (_ & _ & _ & E4 & E5 & E6 & E7 & E8 & E9).
  unfold typed_pot. cbn [jp_rest jp_timestamp jp_expiresAt jp_sourceReadings].
  rewrite E4, E5, E6, E7, E8, E9, (json_num_safe _ Hu), (json_num_safe _ Hc), !json_num_small by done.
  unfold as_int. cbn [as_num as_str mbind option_bind]. rewrite !bigint_of_small by done.
  cbn [mbind option_bind].
  rewrite mapM_fmap_Forall_Some
    by (eapply Forall_impl; [exact Hr|]; intros r Hs; by apply typed_reading_json).
  cbn [mbind option_bind]. destruct pot as [? ? ? ? ? ? ? ? [sg|]]; done.
Qed.

(** ** Properties *)

(** C27: The binary format round-trips: a proof that fits it (64-bit times,
    byte-sized counts, ASCII names and nonce of at most 255 characters)
    serializes, and deserializing gives the same proof with its Numbers
    rounded to binary32, the strata of the readings and the issuer signature
    dropped. *)
Theorem binary_roundtrip pot :
  binary_fits pot -> serializeToBinary pot ≫= deserializeFromBinary = Ok (binary_view pot).
Proof.
  intros H. rewrite serializeToBinary_ok by done. by apply deserialize_pot_bytes.
Qed.

(** Decoding arbitrary bytes either returns a proof or throws a
    [RangeError]; no other exception is possible. *)
Lemma binary_decode_errors b :
  match deserializeFromBinary b with Ok _ => True | Throw e => e = RangeError end.
Proof.
  change (range_only (deserializeFromBinary b)). unfold deserializeFromBinary.
  repeat (apply range_only_bind; [first [apply range_only_read|apply range_only_float|apply range_only_readings]|intros ?]).
  done.
Qed.

(** The JSON format round-trips: for every proof whose Numbers JSON can
    hold (finite, byte-sized counts), [deserializeFromJSON] of its
    [serializeToJSON] is the proof when it is unsigned; with an issuer
    signature the result is not a [ProofOfTime], because [issuedAt] stays a
    string. *)
Lemma json_roundtrip pot :
  pot_json_safe pot ->
  typed_pot <$> deserializeFromJSON (Some (serializeToJSON pot))
  = Ok (match pot_issuerSignature pot with None => Some pot | Some _ => None end).
Proof.
  intros H. rewrite deserialize_serialize_json. cbn [fmap result_fmap]. by rewrite typed_pot_json.
Qed.

(** A source name outside ASCII is cut: its UTF-8 form is longer than the
    space reserved for it, and the timestamp overwrites the rest. *)
Definition ex_accent : ProofOfTime :=
  {| pot_timestamp := 5; pot_uncertainty := num_0; pot_sources := 1; pot_stratum := 1;
     pot_confidence := num_of_Z 1;
     pot_sourceReadings := [{| sr_source := [233]; sr_timestamp := 5; sr_uncertainty := num_0;
                               sr_stratum := None |}];
     pot_nonce := js "ab"; pot_expiresAt := 7; pot_issuerSignature := None |}.

Lemma binary_non_ascii_corrupted :
  (fun p => sr_source <$> pot_sourceReadings p) <$> (serializeToBinary ex_accent ≫= deserializeFromBinary)
  = Ok [[65533]].
Proof. vm_compute. reflexivity. Qed.

(** ** Witnesses *)

Definition ex_codec : ProofOfTime :=
  {| pot_timestamp := 1710412800123456789; pot_uncertainty := num_lit 5005 10; pot_sources := 2;
     pot_stratum := 2; pot_confidence := num_lit 1 2;
     pot_sourceReadings :=
       [{| sr_source := js "google"; sr_timestamp := 1710412800123000000;
           sr_uncertainty := num_of_Z 500; sr_stratum := Some 2 |};
        {| sr_source := js "apple"; sr_timestamp := 1710412800123913578;
           sr_uncertainty := num_of_Z 501; sr_stratum := Some 2 |}];
     pot_nonce := js "00ff"; pot_expiresAt := 1710412860000; pot_issuerSignature := None |}.

Lemma binary_roundtrip_witness :
  serializeToBinary ex_codec ≫= deserializeFromBinary = Ok (binary_view ex_codec).
Proof.
  apply (binary_roundtrip ex_codec).
  split_and!; repeat constructor; try (vm_compute; congruence); cbn; lia.
Defined.

Lemma json_roundtrip_witness :
  typed_pot <$> deserializeFromJSON (Some (serializeToJSON ex_codec)) = Ok (Some ex_codec).
Proof.
  apply (json_roundtrip ex_codec).
  unfold pot_json_safe, reading_json_safe. cbn [ex_codec pot_uncertainty pot_confidence pot_sources pot_stratum
    pot_sourceReadings]. split_and!; [reflexivity|reflexivity|lia..|].
  repeat (apply Forall_cons; split; [split; [reflexivity|cbn; intros s [= <-]; lia]|]). constructor.
Defined.
