(* ===== verification/EndToEnd.v ===== *)
(** * Issued proofs from end to end

    What the pieces give together: a proof made by [generateProofOfTime]
    (TimeSynthesis.v) is well formed, it fits the binary format of PotCodec.v,
    and what comes out of the format at the receiver is well formed and
    accepted by the receiver's own [verifyProofOfTime], although the format
    rounds the Numbers to binary32 and drops the strata. *)
From Stdlib Require Import ZArith Lia String Strings.Byte.
From stdpp Require Import base list numbers option sorting strings.
From S2P Require Import Prelude JSString Errors Bytes JSNum JSMap NonceCache Types Median TimeSynthesis PotCodec.

(** ** Well-formed proofs *)

(** [total] is the number of sources that were asked. *)
Record well_formed (total : nat) (pot : ProofOfTime) : Prop := {
  wf_count : pot_sources pot = Z.of_nat (length (pot_sourceReadings pot));
  wf_some : (1 <= length (pot_sourceReadings pot) <= total)%nat;
  wf_sorted : StronglySorted Z.le (sr_timestamp <$> pot_sourceReadings pot);
  wf_after : Exists (fun r => sr_timestamp r <= pot_timestamp pot) (pot_sourceReadings pot);
  wf_before : Exists (fun r => pot_timestamp pot <= sr_timestamp r) (pot_sourceReadings pot);
  wf_confidence : nle (pot_confidence pot) num_0 = false /\ nle (pot_confidence pot) (num_of_Z 1) = true;
  wf_stratum : Exists (fun r => sr_stratum r = Some (pot_stratum pot)) (pot_sourceReadings pot)
               \/ Forall (fun r => sr_stratum r = None) (pot_sourceReadings pot);
  wf_unsigned : pot_issuerSignature pot = None;
}.

(** ** Confidence

    Checked for every pool of at most 64 sources, before and after the
    rounding to binary32. *)
Definition in_unit (c : num) : bool := negb (nle c num_0) && nle c (num_of_Z 1).
Definition confidence_ok (n k : nat) : bool :=
  let c := ndiv (num_of_nat (S k)) (num_of_nat n) in in_unit c && in_unit (nfround c).

Lemma confidence_ok_64 : forallb (fun n => forallb (confidence_ok n) (seq 0 n)) (seq 0 65) = true.
Proof. vm_compute. reflexivity. Qed.

Lemma in_unit_spec c : in_unit c = true <-> nle c num_0 = false /\ nle c (num_of_Z 1) = true.
Proof. unfold in_unit. by rewrite andb_true_iff, negb_true_iff. Qed.

Lemma confidence_range k n :
  (1 <= k <= n)%nat -> (n <= 64)%nat ->
  let c := ndiv (num_of_nat k) (num_of_nat n) in in_unit c = true /\ in_unit (nfround c) = true.
Proof.
  intros Hk Hn c. pose proof confidence_ok_64 as H. rewrite forallb_forall in H.
  specialize (H n). rewrite in_seq in H. specialize (H ltac:(lia)).
  rewrite forallb_forall in H. specialize (H (pred k)). rewrite in_seq in H. specialize (H ltac:(lia)).
  apply andb_true_iff in H. by replace (S (pred k)) with k in H by lia.
Qed.

(** ** The extreme readings *)

Lemma timestamps_bounded l : exists lo hi, Forall (fun r => lo <= tr_timestamp r <= hi) l.
Proof.
  induction l as [|r l (lo & hi & IH)]; [by exists 0, 0|].
  exists (Z.min (tr_timestamp r) lo), (Z.max (tr_timestamp r) hi). constructor; [lia|].
  eapply Forall_impl; [exact IH|]. cbv beta. lia.
Qed.

(** Some reading is at or before, and some at or after, the combined time. *)
Lemma combine_between l ts u st :
  combine l = Some (ts, u, st) ->
  Exists (fun r => tr_timestamp r <= ts) l /\ Exists (fun r => ts <= tr_timestamp r) l.
Proof.
  intros E. destruct (timestamps_bounded l) as (lo & hi & Hb).
  split; apply dec_stable; intros H; apply not_Exists_Forall in H; try solve_decision.
  - enough (ts + 1 <= ts <= hi) by lia. eapply combine_bounds; [|exact E].
    eapply Forall_impl; [exact (proj2 (Forall_and _ _) (conj H Hb))|]. unfold compose. cbv beta. lia.
  - enough (lo <= ts <= ts - 1) by lia. eapply combine_bounds; [|exact E].
    eapply Forall_impl; [exact (proj2 (Forall_and _ _) (conj H Hb))|]. unfold compose. cbv beta. lia.
Qed.

(** ** What an issued proof looks like *)

Lemma generate_confidence fetch nonce t0 t1 t2 s s' pot :
  generateProofOfTime fetch nonce t0 t1 t2 s = (s', Ok pot) ->
  pot_confidence pot = ndiv (num_of_nat (length (readings fetch s))) (num_of_nat (length (sources s)))
  /\ (1 <= length (readings fetch s) <= length (sources s))%nat.
Proof.
  intros E. apply generate_ok in E as [Hp _]. split.
  - unfold make_pot in Hp. destruct (combine _) as [[[ts u] st]|]; [|done]. injection Hp as <-. cbn.
    by rewrite length_sort_readings.
  - split; [|apply readings_length]. destruct (readings fetch s) eqn:Er; [|simpl; lia].
    rewrite (proj2 (sort_readings_nil _) eq_refl) in Hp. done.
Qed.

(** The well-formedness of a proof and that of its binary form. *)
Lemma binary_view_well_formed n pot :
  well_formed n pot -> in_unit (nfround (pot_confidence pot)) = true -> well_formed n (binary_view pot).
Proof.
  intros [Hc Hs Ho Ha Hb _ _ _] Hf.
  split; cbn [binary_view pot_sources pot_sourceReadings pot_timestamp pot_confidence pot_stratum pot_issuerSignature];
    rewrite ?length_fmap; try done.
  - by rewrite <- list_fmap_compose.
  - by apply Exists_fmap.
  - by apply Exists_fmap.
  - by apply in_unit_spec.
  - right. apply Forall_fmap, Forall_forall. done.
Qed.

(** ** Properties *)

(** C16: Every proof [generateProofOfTime] issues is well formed, for pools of
    at most 64 sources: at least one reading and no more than sources asked,
    counted by [sources] and sorted; a timestamp between two readings and the
    stratum of a reading; a confidence above 0 and at most 1, also after the
    rounding to binary32; no signature.  So is the form of it that the binary
    format carries. *)
Theorem issued_proof_well_formed fetch nonce t0 t1 t2 s s' pot :
  generateProofOfTime fetch nonce t0 t1 t2 s = (s', Ok pot) -> (length (sources s) <= 64)%nat ->
  well_formed (length (sources s)) pot /\ well_formed (length (sources s)) (binary_view pot).
Proof.
  intros E H64. pose proof (generate_confidence _ _ _ _ _ _ _ _ E) as [Hconf Hlen].
  destruct (confidence_range _ _ Hlen H64) as [Hu Hf]. rewrite <- Hconf in Hu, Hf.
  assert (well_formed (length (sources s)) pot) as Hw; [|split; [done|by apply binary_view_well_formed]].
  apply generate_ok in E as [Hp _]. pose proof Hp as Hm.
  apply make_pot_fields in Hp as (Hn & He & Hs & Hr & unc & str & Hc & _ & Hst).
  pose proof (combine_between _ _ _ _ Hc) as [Hle Hge].
  split; rewrite ?Hr, ?length_fmap.
  - done.
  - by rewrite length_sort_readings.
  - rewrite <- list_fmap_compose. apply sorted_timestamps, sort_readings_sorted.
  - by apply Exists_fmap.
  - by apply Exists_fmap.
  - by apply in_unit_spec.
  - left. apply combine_stratum in Hc as (r & Hin & Hrs). apply Exists_fmap, Exists_exists.
    exists r. split; [done|]. cbn. congruence.
  - unfold make_pot in Hm. rewrite Hc in Hm. by injection Hm as <-.
Qed.

(** ** Over the wire *)

(** What the readings of a round must satisfy: they agree within 10 ms, their
    names are short ASCII texts, strata are bytes, and the uncertainty rounded
    to binary32 is still a finite number of nanoseconds. *)
Record reading_ok (lo : Z) (r : TimeReading) : Prop := {
  ro_near : lo <= tr_timestamp r <= lo + 10000000;
  ro_uncertainty : is_ok (ns_of_ms (nfround (tr_uncertainty r))) = true;
  ro_name : is_ascii (tr_source r) /\ u8 (Z.of_nat (length (tr_source r)));
  ro_stratum : u8 (tr_stratum r);
}.

Section Wire.
Variables (lo now : Z) (total : nat) (pot : ProofOfTime) (rs : list TimeReading) (random : Buffer).
Hypothesis (Hlo : 0 <= lo) (Hhi : lo + 10000000 < 2 ^ 64) (Hnow : 0 <= now + 60000 < 2 ^ 64).
Hypothesis (Htotal : (1 <= length rs <= total)%nat) (H64 : (total <= 64)%nat).
Hypothesis (Hrandom : length random = 16%nat).
Hypothesis Hok : Forall (reading_ok lo) rs.
Hypothesis Hmake : make_pot rs total (to_hex random) now = Some pot.

Lemma made_near : lo <= pot_timestamp pot <= lo + 10000000.
Proof.
  apply make_pot_fields in Hmake as (_ & _ & _ & _ & unc & str & Hc & _).
  eapply combine_bounds; [|exact Hc]. eapply Forall_impl; [exact Hok|]. by intros r [? _ _ _].
Qed.

(** The proof fits the binary format. *)
Lemma made_fits : binary_fits pot.
Proof.
  pose proof made_near as Hn. pose proof Hmake as (Hnc & He & Hs & Hr & unc & str & Hc & _ & Hst)%make_pot_fields.
  apply combine_stratum in Hc as (r & Hin & Hrs). destruct (proj1 (Forall_forall _ _) Hok r Hin) as [_ _ _ H8].
  assert (length (to_hex random) = 32%nat) as H32 by by rewrite length_to_hex, Hrandom.
  unfold binary_fits, u64, u8 in *. rewrite Hnc, Hr, length_fmap. split_and!; try lia; [apply to_hex_ascii|].
  apply Forall_fmap. eapply Forall_impl; [exact Hok|]. intros x [? _ [? ?] _].
  unfold reading_fits, u64, u8 in *. cbn. split_and!; try done; lia.
Qed.

(** What the format carries is accepted. *)
Lemma made_view_acceptable t : t <= now + 60000 -> acceptable t (binary_view pot).
Proof.
  intros Ht. pose proof made_near as Hn.
  pose proof Hmake as (Hnc & He & Hs & Hr & _)%make_pot_fields.
  destruct (confidence_range (length rs) total Htotal H64) as [_ Hf].
  unfold acceptable. cbn [binary_view pot_sourceReadings pot_confidence pot_expiresAt]. rewrite Hr. split_and!.
  - intros E%(f_equal length). rewrite !length_fmap in E. simpl in E. lia.
  - revert Hmake. unfold make_pot. destruct (combine _) as [[[ts u] st]|]; [|done]. intros [= <-].
    by apply in_unit_spec in Hf as [? _].
  - lia.
  - rewrite <- list_fmap_compose. apply Forall_fmap. eapply Forall_impl; [exact Hok|]. intros r [Hb Hu _ _].
    unfold tolerance_ok. pose proof (tolerance_floor (lowest_stratum (binary_view pot))) as Hfl. revert Hfl.
    generalize (getToleranceForStratum (lowest_stratum (binary_view pot))). intros fl Hfl. cbn.
    destruct (ns_of_ms (nfround (tr_uncertainty r))) as [own|]; [|done]. exists own. split; [done|lia].
Qed.

End Wire.

(** C15: A proof issued by a pool of at most 64 sources, with a nonce of 16
    random bytes, crosses the wire, when each reading lies within the same 10
    ms, has an ASCII name of at most 255 characters, a byte as stratum and an
    uncertainty that is a finite number of nanoseconds also after the rounding
    to binary32, and the times (readings, expiry) fit 64 bits:
    [serializeToBinary] succeeds, the receiver decodes its bytes to the proof
    without strata and rounded to binary32, and a verifier whose replay cache
    is in a state the class can reach ([inv]) and does not hold the nonce
    accepts it until it expires.  From then on, for five minutes and fewer than
    10,000 calls, none of them [close] or with a later clock, that verifier refuses the decoded proof
    and the original alike. *)
Theorem issued_proof_crosses_wire fetch random t0 t1 t2 s s' pot lo other now1 now2 :
  length random = 16%nat -> generateProofOfTime fetch (to_hex random) t0 t1 t2 s = (s', Ok pot) ->
  (length (sources s) <= 64)%nat -> 0 <= lo -> lo + 10000000 < 2 ^ 64 -> 0 <= t0 + 60000 < 2 ^ 64 ->
  Forall (reading_ok lo) (readings fetch s) -> inv other ->
  jm_has (usedNonces other) (to_hex random) = false -> now1 <= t0 + 60000 ->
  exists bytes pot',
    serializeToBinary pot = Ok bytes /\ deserializeFromBinary bytes = Ok pot' /\ pot' = binary_view pot
    /\ exists other', verifyProofOfTime now1 now2 pot' other = (other', Ok true)
    /\ forall calls again1 again2 copy,
         copy ∈ [pot; pot'] -> CClose ∉ calls -> Z.of_nat (length calls) < 10000 -> again2 - now2 <= 300000 ->
         Forall (fun c => forall now, call_time c = Some now -> now <= again2) calls ->
         (verifyProofOfTime again1 again2 copy (run_calls calls other')).2 = Ok false.
Proof.
  intros H16 E H64 Hlo Hhi Ht0 Hok Hinv Hnew Hnow.
  pose proof (generate_confidence _ _ _ _ _ _ _ _ E) as [_ Hlen]. apply generate_ok in E as [Hm _].
  rewrite <- (length_sort_readings (readings fetch s)) in Hlen.
  rewrite <- (sort_readings_perm (readings fetch s)) in Hok.
  pose proof Hm as (Hn & _)%make_pot_fields.
  assert (binary_fits pot) as Hfit by by eapply made_fits.
  exists (pot_bytes pot), (binary_view pot).
  split_and!; [by apply serializeToBinary_ok|by apply deserialize_pot_bytes|done|].
  assert ((verifyProofOfTime now1 now2 (binary_view pot) other).2 = Ok true) as Hv.
  { apply verify_spec. split; [by eapply made_view_acceptable|]. apply Bounded.check_fresh. cbn. by rewrite Hn. }
  destruct (verifyProofOfTime now1 now2 (binary_view pot) other) as [other' r] eqn:Ev. cbn in Hv. subst r.
  exists other'. split; [done|]. intros calls a1 a2 copy Hcopy Hcl Hcalls Ha Htimes.
  apply verify_ok_state in Ev as (_ & Hf & Hst).
  eapply (consumed_refused now2 (pot_nonce (binary_view pot)));
    [exact Hinv| |exact Hf|exact Hst|exact Hcl|exact Htimes|exact Hcalls|exact Ha].
  repeat (apply elem_of_cons in Hcopy as [->|Hcopy]; [done|]). by apply elem_of_nil in Hcopy.
Qed.

(** ** Witnesses *)

Definition ex_random : Buffer := bofZ <$> [0; 1; 2; 3; 4; 5; 6; 7; 8; 9; 10; 11; 12; 13; 14; 255].
Definition ex_issue : t * res ProofOfTime :=
  generateProofOfTime ex_honest (to_hex ex_random) 1710412800000 1710412800001 1710412800001 ex_object.
Definition ex_issued : ProofOfTime := default ex_pot (match ex_issue.2 with Ok p => Some p | Throw _ => None end).

Lemma ex_issue_ok : ex_issue = (ex_issue.1, Ok ex_issued).
Proof. vm_compute. reflexivity. Qed.

Lemma issued_proof_well_formed_witness :
  well_formed (length (sources ex_object)) ex_issued /\ well_formed (length (sources ex_object)) (binary_view ex_issued).
Proof.
  apply (issued_proof_well_formed ex_honest (to_hex ex_random) 1710412800000 1710412800001 1710412800001 ex_object
           ex_issue.1); [exact ex_issue_ok|apply Nat.leb_le; reflexivity].
Defined.

Lemma issued_proof_crosses_wire_witness :
  exists bytes pot',
    serializeToBinary ex_issued = Ok bytes /\ deserializeFromBinary bytes = Ok pot' /\ pot' = binary_view ex_issued
    /\ exists other', verifyProofOfTime 1710412800002 1710412800002 pot' (make None) = (other', Ok true)
    /\ forall calls again1 again2 copy,
         copy ∈ [ex_issued; pot'] -> CClose ∉ calls -> Z.of_nat (length calls) < 10000 -> again2 - 1710412800002 <= 300000 ->
         Forall (fun c => forall now, call_time c = Some now -> now <= again2) calls ->
         (verifyProofOfTime again1 again2 copy (run_calls calls other')).2 = Ok false.
Proof.
  apply (issued_proof_crosses_wire ex_honest ex_random 1710412800000 1710412800001 1710412800001 ex_object
           ex_issue.1 ex_issued 1710412800000000000 (make None)); try lia.
  - reflexivity.
  - exact ex_issue_ok.
  - apply Nat.leb_le. reflexivity.
  - repeat (apply Forall_cons; split); [..|constructor]; split; try (vm_compute; split; congruence);
      try (vm_compute; reflexivity); split; try (vm_compute; split; congruence);
      repeat constructor; vm_compute; congruence.
  - split; [constructor|done].
  - reflexivity.
Defined.
