(* ===== verification/TimeSources.v ===== *)
(** * The NTP and HTTPS time sources (src/src/time_synthesis.ts)

    [NTPSource.getTime] and [HTTPSTimeSource.getTime]: what they compute from
    an answer, and the event machine of the promise, its timer and its socket.
    An event handler that throws ends there: the exception is uncaught, the
    rest of the handler does not run.  Closing a closed datagram socket throws,
    as Node documents. *)
From Stdlib Require Import ZArith Lia String Strings.Byte.
From stdpp Require Import base list numbers option relations strings.
From S2P Require Import Prelude JSString Errors Bytes JSNum Types.

(** [Number(ns) / 1_000_000] *)
Definition ms_of_ns (ns : Z) : num := ndiv (num_of_Z ns) (num_of_Z 1000000).

(** A promise settles once. *)
Abbreviation promise A := (option (res A)).
Definition settle {A} (p : promise A) (r : res A) : promise A := match p with Some _ => p | None => Some r end.

(** ** NTPSource *)
Module NTP.

Definition NTP_OFFSET_1900_TO_1970 : Z := 2208988800.

(** Seconds and fraction of an NTP timestamp to Unix nanoseconds. *)
Definition ntp_ns (sec frac : Z) : Z :=
  (sec - NTP_OFFSET_1900_TO_1970) * 1000000000 + Z.quot (frac * 1000000000) (2 ^ 32).

(** The request: LI 0, VN 4, mode 3. *)
Definition packet : Buffer := overwrite (zeros 48) 0 [bofZ 35].

(** The 'message' handler after the socket is closed; [t1], [t4] in ns. *)
Definition parse_reply (name : jsstr) (t1 t4 : Z) (msg : Buffer) : res TimeReading :=
  if (length msg <? 48)%nat then throw3 TTTTimeSynthesisError "Invalid NTP response"
  else
    stratum ← readUInt8 msg 1;
    if (stratum =? 0) || (15 <? stratum) then throw3 TTTTimeSynthesisError "Invalid Stratum"
    else
      t2_sec ← readUInt32BE msg 32;
      t2_frac ← readUInt32BE msg 36;
      if t2_sec <=? NTP_OFFSET_1900_TO_1970 then throw3 TTTTimeSynthesisError "[NTP] Invalid T2 timestamp"
      else
        let t2 := ntp_ns t2_sec t2_frac in
        t3_sec ← readUInt32BE msg 40;
        t3_frac ← readUInt32BE msg 44;
        if t3_sec <=? NTP_OFFSET_1900_TO_1970 then throw3 TTTTimeSynthesisError "[NTP] Invalid T3 timestamp"
        else
          let t3 := ntp_ns t3_sec t3_frac in
          let offset := Z.quot ((t2 - t1) + (t3 - t4)) 2 in
          let delay := (t4 - t1) - (t3 - t2) in
          raw ← readUInt32BE msg 8;
          let rootDispersion := nmul (ndiv (num_of_Z raw) (num_of_Z 65536)) (num_of_Z 1000) in
          let rtt := ms_of_ns delay in
          Ok {| tr_timestamp := t4 + offset;
                tr_uncertainty := nadd rootDispersion (ndiv rtt (num_of_Z 2));
                tr_stratum := stratum; tr_source := name |}.

(** *** The event machine *)

Record state := {
  result_ : promise TimeReading;
  timer : bool;        (* the 2 s timeout is armed *)
  sock_open : bool;
  sending : bool;      (* the callback of [client.send] is still to come *)
  uncaught : bool;     (* an exception left an event handler *)
}.

Inductive event :=
| SendThrows                       (* [client.send] throws at once *)
| Timeout
| SocketError
| Message (t4 : Z) (msg : Buffer)  (* [t4]: Date.now() in ms *)
| SendCallback (failed : bool).

(** The events that can occur: the timer only while armed, socket events only
    on an open socket, the send callback once (also after the socket was
    closed: a failed host lookup is reported then too). *)
Definition enabled (e : event) (s : state) : bool :=
  match e with
  | SendThrows => sending s && timer s && sock_open s
  | Timeout => timer s
  | SocketError | Message _ _ => sock_open s
  | SendCallback _ => sending s
  end.

Definition start : state :=
  {| result_ := None; timer := true; sock_open := true; sending := true; uncaught := false |}.

Definition clearTimeout (s : state) : state :=
  {| result_ := result_ s; timer := false; sock_open := sock_open s; sending := sending s;
     uncaught := uncaught s |}.

(** [client.close(); k()] in a handler. *)
Definition close_then (k : state -> state) (s : state) : state :=
  if sock_open s then
    k {| result_ := result_ s; timer := timer s; sock_open := false; sending := sending s;
         uncaught := uncaught s |}
  else {| result_ := result_ s; timer := timer s; sock_open := sock_open s; sending := sending s;
          uncaught := true |}.

Definition settle_with (r : res TimeReading) (s : state) : state :=
  {| result_ := settle (result_ s) r; timer := timer s; sock_open := sock_open s; sending := sending s;
     uncaught := uncaught s |}.

Definition sent (s : state) : state :=
  {| result_ := result_ s; timer := timer s; sock_open := sock_open s; sending := false;
     uncaught := uncaught s |}.

(** [try { client.close() } catch {}] *)
Definition close_quietly (s : state) : state :=
  {| result_ := result_ s; timer := timer s; sock_open := false; sending := sending s;
     uncaught := uncaught s |}.

Definition handle (name : jsstr) (t1 : Z) (e : event) (s : state) : state :=
  match e with
  | SendThrows =>
      settle_with (throw3 TTTTimeSynthesisError "Synchronous send error") (close_quietly (clearTimeout (sent s)))
  | Timeout => close_then (settle_with (throw3 TTTTimeSynthesisError "NTP timeout")) (clearTimeout s)
  | SocketError => close_then (settle_with (throw3 TTTTimeSynthesisError "NTP socket error")) (clearTimeout s)
  | Message t4 msg =>
      close_then (settle_with (parse_reply name (t1 * 1000000) (t4 * 1000000) msg)) (clearTimeout s)
  | SendCallback failed =>
      if failed then
        close_then (settle_with (throw3 TTTTimeSynthesisError "Failed to send NTP packet")) (clearTimeout (sent s))
      else sent s
  end.

(** One step of the event loop. *)
Inductive step (name : jsstr) (t1 : Z) : state -> state -> Prop :=
| step_event e s : enabled e s = true -> step name t1 s (handle name t1 e s).

Definition reachable (name : jsstr) (t1 : Z) : state -> Prop := rtc (step name t1) start.

(** The promise is pending exactly while the timer is armed and the socket
    open: an unanswered request ends with the timeout. *)
Definition inv (s : state) : Prop :=
  (result_ s = None -> timer s = true /\ sock_open s = true)
  /\ (is_Some (result_ s) -> timer s = false /\ sock_open s = false).

End NTP.

(** ** HTTPSTimeSource *)
Module HTTPS.
Section Operations.
(** [new Date(header).getTime()]: [None] is NaN.  How a header that is not an
    ISO date parses is up to the JavaScript engine. *)
Variable date_parse : jsstr -> option Z.

(** The response handler after the timer is cleared: [None] is the exception
    of [BigInt(NaN)] leaving the handler. *)
Definition parse_response (name : jsstr) (t1 t4 : Z) (date : option jsstr) : option (res TimeReading) :=
  match date with
  | None | Some [] => Some (throw3 TTTTimeSynthesisError "No Date header")
  | Some d =>
      match date_parse d with
      | None => None
      | Some ms =>
          let serverTime := ms * 1000000 in
          let rttNs := t4 - t1 in
          let rttMs := ms_of_ns rttNs in
          Some (Ok {| tr_timestamp := serverTime + Z.quot rttNs 2;
                      tr_uncertainty := nadd (ndiv rttMs (num_of_Z 2)) (num_of_Z 500);
                      tr_stratum := 2; tr_source := name |})
      end
  end.

Record state := {
  result_ : promise TimeReading;
  timer : bool;
  active : bool;      (* the request is in [activeRequests] *)
  in_flight : bool;   (* no response or error yet *)
  uncaught : bool;
}.

Inductive event := Timeout | Response (t4 : Z) (date : option jsstr) | RequestError.

Definition enabled (e : event) (s : state) : bool :=
  match e with Timeout => timer s | Response _ _ | RequestError => in_flight s end.

Definition start : state :=
  {| result_ := None; timer := true; active := true; in_flight := true; uncaught := false |}.

Definition handle (name : jsstr) (t1 : Z) (e : event) (s : state) : state :=
  match e with
  | Timeout =>
      {| result_ := settle (result_ s) (throw3 TTTTimeSynthesisError "HTTPS time timeout"); timer := false;
         active := active s; in_flight := in_flight s; uncaught := uncaught s |}
  | Response t4 date =>
      match parse_response name (t1 * 1000000) (t4 * 1000000) date with
      | Some r => {| result_ := settle (result_ s) r; timer := false; active := false;
                     in_flight := false; uncaught := uncaught s |}
      | None => {| result_ := result_ s; timer := false; active := active s; in_flight := false;
                   uncaught := true |}
      end
  | RequestError =>
      {| result_ := settle (result_ s) (throw3 TTTTimeSynthesisError "HTTPS time error"); timer := false;
         active := false; in_flight := false; uncaught := uncaught s |}
  end.

Inductive step (name : jsstr) (t1 : Z) : state -> state -> Prop :=
| step_event e s : enabled e s = true -> step name t1 s (handle name t1 e s).

Definition reachable (name : jsstr) (t1 : Z) : state -> Prop := rtc (step name t1) start.

End Operations.
End HTTPS.

(** ** Lemmas *)

Lemma ntp_step_inv name t1 s s' : NTP.inv s -> NTP.step name t1 s s' -> NTP.inv s'.
Proof.
  intros [H1 H2] Hs. destruct Hs as [e s He].
  assert (forall r s0, NTP.sock_open s0 = true -> NTP.inv (NTP.close_then (NTP.settle_with r) (NTP.clearTimeout s0))) as Hc.
  { intros r s0 Ho. unfold NTP.close_then. cbn. rewrite Ho. split; cbn; [|done].
    unfold settle. by destruct (NTP.result_ s0). }
  destruct s as [r tm op sn un]; cbn in *. destruct e as [| | |t4 msg|[|]]; cbn in He |- *.
  - destruct sn, tm, op; try done. split; cbn; [|done]. by destruct r.
  - subst tm. apply Hc. cbn. destruct r; [|by apply H1].
    by destruct (H2 ltac:(by eexists)).
  - by apply Hc.
  - by apply Hc.
  - destruct op; [by apply Hc|]. unfold NTP.close_then. cbn. destruct r; [|by destruct H1].
    split; cbn; [done|]. by intros _.
  - split; cbn; auto.
Qed.

Lemma ntp_reachable_inv name t1 s : NTP.reachable name t1 s -> NTP.inv s.
Proof.
  apply rtc_preserves; [by split; [|intros []]|]. intros a b. apply ntp_step_inv.
Qed.

Lemma ntp_result_stable name t1 s s' r :
  NTP.step name t1 s s' -> NTP.result_ s = Some r -> NTP.result_ s' = Some r.
Proof.
  intros [e s0 _] Hr. destruct s0 as [r0 tm op sn un]; cbn in *. subst r0.
  destruct e as [| | | |[|]]; cbn; unfold NTP.close_then; cbn; try done; by destruct op.
Qed.

(** The fields of a reply, as the parser reads them. *)
Definition ntp_field (msg : Buffer) (o : nat) : Z := be_val (take 4 (drop o msg)).

Lemma read32_field msg o : (o + 4 <= length msg)%nat -> readUInt32BE msg o = Ok (ntp_field msg o).
Proof.
  intros H. unfold readUInt32BE, read_bytes, ntp_field.
  by replace (o + 4 <=? length msg)%nat with true by (symmetry; by apply Nat.leb_le).
Qed.

Lemma parse_reply_ok name t1 t4 msg r :
  NTP.parse_reply name t1 t4 msg = Ok r ->
  let t2 := NTP.ntp_ns (ntp_field msg 32) (ntp_field msg 36) in
  let t3 := NTP.ntp_ns (ntp_field msg 40) (ntp_field msg 44) in
  (48 <= length msg)%nat /\ 1 <= tr_stratum r <= 15 /\ tr_source r = name
  /\ 0 < t2 /\ 0 < t3
  /\ tr_timestamp r = t4 + Z.quot ((t2 - t1) + (t3 - t4)) 2
  /\ exists disp, tr_uncertainty r = nadd disp (ndiv (ms_of_ns ((t4 - t1) - (t3 - t2))) (num_of_Z 2)).
Proof.
  unfold NTP.parse_reply. destruct (Nat.ltb_spec (length msg) 48) as [|Hl]; [done|].
  rewrite !read32_field by lia.
  destruct (read_bytes_total msg 1 1 ltac:(lia)) as [b Hb]. unfold readUInt8. rewrite Hb.
  cbn [fmap result_fmap mbind result_bind].
  pose proof (be_val_range b) as Hr. rewrite (read_bytes_length _ _ _ _ Hb) in Hr.
  change (256 ^ Z.of_nat 1) with 256 in Hr.
  destruct (_ || _) eqn:Es; [done|]. zbool.
  destruct (ntp_field msg 32 <=? _) eqn:E2; [done|]. destruct (ntp_field msg 40 <=? _) eqn:E3; [done|]. zbool.
  intros [= <-]. cbn. 
  assert (forall o, 0 <= ntp_field msg o) as Hpos by (intros o; apply be_val_range).
  assert (forall a b0, NTP.NTP_OFFSET_1900_TO_1970 < a -> 0 <= b0 -> 0 < NTP.ntp_ns a b0) as Hns.
  { intros a b0 Ha Hb0. unfold NTP.ntp_ns.
    pose proof (Z.quot_pos (b0 * 1000000000) (2 ^ 32) ltac:(lia) ltac:(lia)). lia. }
  split_and!; [lia|lia|lia|done|by apply Hns|by apply Hns|done|by eexists].
Qed.

(** ** Properties *)

(** C24: The NTP time is right up to half the network delay: a reply accepted
    from a server whose clock is [theta] ahead, after one-way delays [d1] and
    [d2], yields a timestamp at distance at most [(d1 + d2 + 1) / 2] from the
    server's time at [t4]; with equal delays it is exact. *)
Theorem ntp_offset_error_bound name t1 t4 msg r theta d1 d2 :
  NTP.parse_reply name t1 t4 msg = Ok r -> 0 <= d1 -> 0 <= d2 ->
  NTP.ntp_ns (ntp_field msg 32) (ntp_field msg 36) = t1 + theta + d1 ->
  t4 + theta = NTP.ntp_ns (ntp_field msg 40) (ntp_field msg 44) + d2 ->
  2 * Z.abs (tr_timestamp r - (t4 + theta)) <= d1 + d2 + 1
  /\ (d1 = d2 -> tr_timestamp r = t4 + theta).
Proof.
  intros E H1 H2 Ht2 Ht3. apply parse_reply_ok in E as (_ & _ & _ & _ & _ & -> & _).
  rewrite Ht2. replace (NTP.ntp_ns (ntp_field msg 40) (ntp_field msg 44)) with (t4 + theta - d2) by lia.
  replace (t1 + theta + d1 - t1 + (t4 + theta - d2 - t4)) with (2 * theta + (d1 - d2)) by lia.
  split; [zdiv|intros ->; zdiv].
Qed.

(** The NTP promise behaves under every order of events: while it is
    pending the timer is armed and the socket open, so the request ends with
    the timeout at the latest; once it is settled the timer is cleared, the
    socket closed and the result never changes. *)
Lemma ntp_promise_settles_once name t1 s :
  NTP.reachable name t1 s ->
  (NTP.result_ s = None ->
     NTP.enabled NTP.Timeout s = true /\ is_Some (NTP.result_ (NTP.handle name t1 NTP.Timeout s)))
  /\ (forall r, NTP.result_ s = Some r ->
       NTP.timer s = false /\ NTP.sock_open s = false
       /\ forall s', rtc (NTP.step name t1) s s' -> NTP.result_ s' = Some r).
Proof.
  intros H. destruct (ntp_reachable_inv _ _ _ H) as [H1 H2]. split.
  - intros Hn. destruct (H1 Hn) as [Ht Ho]. split; [done|].
    destruct s; cbn in *. subst. unfold NTP.close_then. cbn. by eexists.
  - intros r Hr. destruct (H2 ltac:(by eexists)) as [Ht Ho]. split_and!; [done|done|].
    intros s' Hs. revert Hs. apply (rtc_preserves _ (fun x => NTP.result_ x = Some r)); [done|].
    intros a b Ha Hab. by eapply ntp_result_stable.
Qed.

(** The send callback of a request that has timed out closes the socket a
    second time: the exception is uncaught. *)
Lemma ntp_late_send_failure name t1 :
  let s := NTP.handle name t1 (NTP.SendCallback true) (NTP.handle name t1 NTP.Timeout NTP.start) in
  NTP.reachable name t1 s /\ NTP.uncaught s = true.
Proof.
  split; [|done].
  eapply rtc_l; [by apply (NTP.step_event name t1 NTP.Timeout NTP.start)|].
  eapply rtc_l; [|apply rtc_refl]. by apply NTP.step_event.
Qed.

(** An HTTPS answer whose Date header does not parse leaves the promise of
    [HTTPSTimeSource.getTime] pending for ever: the exception escapes the
    handler after the timer was cleared, and no later event can settle it. *)
Lemma https_bad_date_never_settles date_parse name t1 t4 d :
  d <> [] -> date_parse d = None ->
  let s := HTTPS.handle date_parse name t1 (HTTPS.Response t4 (Some d)) HTTPS.start in
  HTTPS.reachable date_parse name t1 s /\ HTTPS.uncaught s = true
  /\ forall s', rtc (HTTPS.step date_parse name t1) s s' -> HTTPS.result_ s' = None.
Proof.
  intros Hd Hp s.
  assert (s = {| HTTPS.result_ := None; HTTPS.timer := false; HTTPS.active := true;
                 HTTPS.in_flight := false; HTTPS.uncaught := true |}) as Hs.
  { unfold s. cbn. destruct d; [done|]. by rewrite Hp. }
  split_and!.
  - eapply rtc_l; [|apply rtc_refl]. by apply (HTTPS.step_event _ _ _ (HTTPS.Response t4 (Some d)) HTTPS.start).
  - by rewrite Hs.
  - intros s' Hr. rewrite Hs in Hr. inversion Hr as [|? y ? Hstep]; subst; [done|].
    inversion Hstep as [e s0 He]; subst. by destruct e.
Qed.

(** ** Witnesses *)

(** A reply of stratum 1: received at 3 s 0.5, sent at 4 s, after the epoch. *)
Definition ex_reply : Buffer :=
  [bofZ 36; bofZ 1] ++ zeros 30 ++ be_bytes 4 (2208988800 + 3) ++ be_bytes 4 (2 ^ 31)
  ++ be_bytes 4 (2208988800 + 4) ++ be_bytes 4 0.

Lemma ntp_offset_error_bound_witness :
  exists r, NTP.parse_reply (js "pool") 1000000000 2000000000 ex_reply = Ok r
    /\ 2 * Z.abs (tr_timestamp r - (2000000000 + 2250000000)) <= 250000000 + 250000000 + 1
    /\ (250000000 = 250000000 -> tr_timestamp r = 2000000000 + 2250000000).
Proof.
  eexists. split; [vm_compute; reflexivity|].
  apply (ntp_offset_error_bound (js "pool") 1000000000 2000000000 ex_reply _ 2250000000 250000000 250000000).
  - vm_compute. reflexivity.
  - lia.
  - lia.
  - vm_compute. reflexivity.
  - vm_compute. reflexivity.
Defined.

Lemma ntp_promise_settles_once_witness :
  NTP.enabled NTP.Timeout NTP.start = true
  /\ is_Some (NTP.result_ (NTP.handle (js "pool") 0 NTP.Timeout NTP.start)).
Proof. apply (ntp_promise_settles_once (js "pool") 0 NTP.start); [apply rtc_refl|reflexivity]. Defined.

Lemma https_bad_date_never_settles_witness :
  let s := HTTPS.handle (fun _ => None) (js "nist") 0 (HTTPS.Response 5 (Some (js "yesterday"))) HTTPS.start in
  HTTPS.reachable (fun _ => None) (js "nist") 0 s /\ HTTPS.uncaught s = true
  /\ forall s', rtc (HTTPS.step (fun _ => None) (js "nist") 0) s s' -> HTTPS.result_ s' = None.
Proof. apply (https_bad_date_never_settles (fun _ => None) (js "nist") 0 5 (js "yesterday")); [discriminate|reflexivity]. Defined.
