(* ===== verification/RoughtimeWire.v ===== *)
(** * Roughtime messages (src/src/roughtime_source.ts)

    The tag-value wire format: building, parsing, and the padded request.
    Offsets stay integers until they are checked against the buffer, so that
    a hostile header costs nothing to reject.  SHA-512 is a parameter. *)
From Stdlib Require Import ZArith Lia String Strings.Byte.
From stdpp Require Import base list numbers option strings.
From S2P Require Import Prelude JSString Errors Bytes JSMap.

Definition ROUGHTIME_MAGIC : Buffer := ascii_bytes (js "ROUGHTIM").
Definition NONCE_LEN : nat := 32.
Definition MIN_PACKET_LEN : nat := 1024.
Definition VER_FINAL : Z := 1.
Definition VER_EXPERIMENTAL : Z := 2147483660.

Definition tagU32 (ascii : string) : Buffer := overwrite (zeros 4) 0 (ascii_bytes (js ascii)).
(** [tag.readUInt32LE(0)]; every tag of the sources has four bytes. *)
Definition tagKey (tag : Buffer) : Z := le_val (take 4 tag).

Abbreviation pair := (Buffer * Buffer)%type.

(** ** Building *)

(** The offsets of the values after the first one. *)
Fixpoint value_offsets (offset : Z) (vals : list Buffer) : list Z :=
  match vals with
  | [] => []
  | v :: vals' => let o := offset + Z.of_nat (length v) in o :: value_offsets o vals'
  end.
Definition header_offsets (vals : list Buffer) : list Z := removelast (value_offsets 0 vals).

Fixpoint write_words (zs : list Z) : res Buffer :=
  match zs with
  | [] => Ok []
  | z :: zs' => b ← checked_le 4 z; rest ← write_words zs'; Ok (b ++ rest)
  end.

Definition buildMessage (pairs : list pair) : res Buffer :=
  numTags ← checked_le 4 (Z.of_nat (length pairs));
  offs ← write_words (header_offsets pairs.*2);
  Ok (numTags ++ offs ++ concat pairs.*1 ++ concat pairs.*2).

(** ** Parsing *)

(** The first [n] little-endian words of [l]. *)
Fixpoint read_words (n : nat) (l : Buffer) : list Z :=
  match n with O => [] | S n' => le_val (take 4 l) :: read_words n' (drop 4 l) end.

(** [buf.subarray(s, e)] for checked integers [s <= e <= length buf]. *)
Definition slice (buf : Buffer) (s e : Z) : Buffer := take (Z.to_nat (e - s)) (drop (Z.to_nat s) buf).

Fixpoint parse_values (valuesStart : Z) (buf : Buffer) (tags offsets : list Z) (m : jsmap Z Buffer)
    : option (jsmap Z Buffer) :=
  match tags, offsets with
  | t :: tags', o :: offsets' =>
      let vstart := valuesStart + o in
      let vend := match offsets' with o2 :: _ => valuesStart + o2 | [] => Z.of_nat (length buf) end in
      if (Z.of_nat (length buf) <? vend) || (vend <? vstart) then None
      else parse_values valuesStart buf tags' offsets' (jm_set m t (slice buf vstart vend))
  | _, _ => Some m
  end.

Definition parseMessage (buf : Buffer) : option (jsmap Z Buffer) :=
  if (length buf <? 4)%nat then None
  else
    let n := le_val (take 4 buf) in
    if n =? 0 then Some []
    else
      let headerLen := 4 + 4 * (n - 1) + 4 * n in
      if Z.of_nat (length buf) <? headerLen then None
      else
        let k := Z.to_nat n in
        let offsets := 0 :: read_words (pred k) (drop 4 buf) in
        let tags := read_words k (drop (4 + 4 * pred k) buf) in
        parse_values headerLen buf tags offsets [].

(** ** The request *)

(** [pairs.sort((a, b) => tagKey(a[0]) - tagKey(b[0]))], a stable sort. *)
Fixpoint insert_pair (p : pair) (l : list pair) : list pair :=
  match l with
  | [] => [p]
  | q :: l' => if tagKey p.1 <=? tagKey q.1 then p :: l else q :: insert_pair p l'
  end.
Definition sort_pairs (l : list pair) : list pair := foldr insert_pair [] l.

Section Request.
(** [crypto.createHash('sha512')] over the concatenation of the updates. *)
Variable sha512 : Buffer -> Buffer.

Definition rtHash (parts : list Buffer) : Buffer := take 32 (sha512 (concat parts)).

Definition request_pairs (nonce32 serverPubkey32 : Buffer) : list pair :=
  let srv := rtHash [[bofZ 255]; serverPubkey32] in
  let ver := le_bytes 4 VER_FINAL ++ le_bytes 4 VER_EXPERIMENTAL in
  [(tagU32 "NONC", nonce32); (tagU32 "SRV", srv); (tagU32 "TYPE", zeros 4); (tagU32 "VER", ver)].

Definition buildRoughtimeRequest (nonce32 serverPubkey32 : Buffer) : res Buffer :=
  if negb (length nonce32 =? NONCE_LEN)%nat then throw_plain "nonce must be 32 bytes"
  else
    let pairs := sort_pairs (request_pairs nonce32 serverPubkey32) in
    msg ← buildMessage pairs;
    let lenWithoutPad := (12 + length msg)%nat in
    msg ← (if (lenWithoutPad <? MIN_PACKET_LEN)%nat
           then buildMessage (sort_pairs (pairs ++ [(tagU32 "ZZZZ", zeros (MIN_PACKET_LEN - lenWithoutPad))]))
           else Ok msg);
    lenBuf ← checked_le 4 (Z.of_nat (length msg));
    Ok (ROUGHTIME_MAGIC ++ lenBuf ++ msg).

End Request.

(** ** Lemmas *)

Lemma le_val_le_bytes_small n z : 0 <= z < 256 ^ Z.of_nat n -> le_val (le_bytes n z) = z.
Proof. intros H. rewrite le_val_le_bytes. by apply Z.mod_small. Qed.

Lemma checked_le_ok n z : 0 <= z < 256 ^ Z.of_nat n -> checked_le n z = Ok (le_bytes n z).
Proof.
  intros H. unfold checked_le. replace ((0 <=? z) && (z <? 256 ^ Z.of_nat n)) with true; [done|].
  symmetry. apply andb_true_intro. split; [apply Z.leb_le|apply Z.ltb_lt]; lia.
Qed.

Definition word (z : Z) : Prop := 0 <= z < 2 ^ 32.

Lemma write_words_ok zs : Forall word zs -> write_words zs = Ok (zs ≫= le_bytes 4).
Proof.
  induction 1 as [|z zs Hz _ IH]; [done|]. cbn [write_words].
  rewrite checked_le_ok by done. cbn [mbind result_bind]. by rewrite IH.
Qed.

Lemma length_words zs : length (zs ≫= le_bytes 4) = (4 * length zs)%nat.
Proof.
  induction zs as [|z zs IH]; [done|].
  change ((z :: zs) ≫= le_bytes 4) with (le_bytes 4 z ++ (zs ≫= le_bytes 4)).
  rewrite length_app, IH, length_le_bytes. simpl. lia.
Qed.

Lemma read_words_app zs l : Forall word zs -> read_words (length zs) ((zs ≫= le_bytes 4) ++ l) = zs.
Proof.
  induction 1 as [|z zs Hz _ IH]; [done|].
  change ((z :: zs) ≫= le_bytes 4) with (le_bytes 4 z ++ (zs ≫= le_bytes 4)).
  rewrite <- app_assoc. cbn [read_words length]. pose proof (length_le_bytes 4 z) as Hl.
  rewrite (take_app_le _ _ 4) by lia. rewrite (firstn_all2 (le_bytes 4 z)) by lia.
  rewrite <- Hl at 2. rewrite drop_app_length, IH. f_equal. by apply le_val_le_bytes_small.
Qed.

Lemma value_offsets_length o vals : length (value_offsets o vals) = length vals.
Proof. revert o. induction vals as [|v vals IH]; intros o; simpl; [done|]. by rewrite IH. Qed.

Lemma value_offsets_word o vals :
  0 <= o -> o + Z.of_nat (length (concat vals)) < 2 ^ 32 -> Forall word (value_offsets o vals).
Proof.
  revert o. induction vals as [|v vals IH]; intros o Ho H; [constructor|].
  cbn [concat] in H. rewrite length_app in H. cbn [value_offsets].
  constructor; [unfold word; lia|]. apply IH; lia.
Qed.

Lemma removelast_cons {A} (a : A) l : l <> [] -> removelast (a :: l) = a :: removelast l.
Proof. by destruct l. Qed.

Lemma length_removelast {A} (l : list A) : length (removelast l) = pred (length l).
Proof. induction l as [|a [|b l] IH]; [done|done|]. rewrite removelast_cons by done. simpl in *. by rewrite IH. Qed.

Lemma Forall_removelast {A} (P : A -> Prop) l : Forall P l -> Forall P (removelast l).
Proof.
  induction 1 as [|a [|b l] Ha Hl IH]; [constructor|constructor|].
  rewrite removelast_cons by done. by constructor.
Qed.

(** The parser's loop on a well-formed value area. *)
Lemma parse_values_ok pre vals tags (o : Z) (done_ : Buffer) m :
  length tags = length vals -> NoDup (jm_keys m ++ tags) -> o = Z.of_nat (length done_) -> vals <> [] ->
  parse_values (Z.of_nat (length pre)) (pre ++ done_ ++ concat vals) tags
    (o :: removelast (value_offsets o vals)) m
  = Some (m ++ zip tags vals).
Proof.
  revert tags o done_ m. induction vals as [|v vals IH]; intros tags o done_ m Hl Hnd Ho Hne; [done|].
  destruct tags as [|t tags]; [done|]. injection Hl as Hl. cbn [value_offsets].
  set (o2 := o + Z.of_nat (length v)).
  assert (jm_set m t v = m ++ [(t, v)]) as Hset.
  { apply jm_set_new, jm_has_false. apply NoDup_app in Hnd as (_ & Hd & _).
    intros Hin. apply (Hd t Hin). left. }
  assert (forall e, e = Z.of_nat (length pre) + o2 ->
     slice (pre ++ done_ ++ concat (v :: vals)) (Z.of_nat (length pre) + o) e = v) as Hslice.
  { intros e ->. unfold slice, o2. cbn [concat]. rewrite app_assoc.
    replace (Z.to_nat (Z.of_nat (length pre) + o)) with (length (pre ++ done_)) by (rewrite length_app; lia).
    rewrite drop_app_length.
    replace (Z.to_nat _) with (length v) by lia. apply take_app_length. }
  assert (Z.of_nat (length (pre ++ done_ ++ concat (v :: vals)))
          = Z.of_nat (length pre) + o2 + Z.of_nat (length (concat vals))) as Hlen.
  { cbn [concat]. rewrite !length_app. unfold o2. lia. }
  destruct vals as [|v2 vals].
  - cbn [value_offsets removelast parse_values].
    destruct tags; [|done]. cbn [zip zip_with parse_values]. 
    rewrite Hlen. cbn [concat length].
    replace (_ || _) with false; [|symmetry; apply orb_false_intro; apply Z.ltb_ge; unfold o2; lia].
    rewrite Hslice by lia. by rewrite Hset.
  - rewrite removelast_cons by done. cbn [parse_values]. rewrite Hlen.
    replace (_ || _) with false; [|symmetry; apply orb_false_intro; apply Z.ltb_ge; unfold o2; lia].
    rewrite Hslice, Hset by done.
    replace (pre ++ done_ ++ concat (v :: v2 :: vals)) with (pre ++ (done_ ++ v) ++ concat (v2 :: vals))
      by (cbn [concat]; by rewrite <- !app_assoc).
    rewrite IH; [|done| |rewrite length_app; unfold o2; lia|done].
    + rewrite <- app_assoc. done.
    + unfold jm_keys in *. rewrite fmap_app. csimpl. by rewrite <- app_assoc.
Qed.

(** The pairs a message can carry. *)
Definition pairs_ok (pairs : list pair) : Prop :=
  Forall (fun p => length p.1 = 4%nat) pairs /\ NoDup (tagKey <$> pairs.*1)
  /\ Z.of_nat (length pairs) < 2 ^ 28 /\ Z.of_nat (length (concat pairs.*2)) < 2 ^ 31.

Lemma tags_words (tags : list Buffer) :
  Forall (fun t => length t = 4%nat) tags ->
  concat tags = ((tagKey <$> tags) ≫= le_bytes 4) /\ Forall word (tagKey <$> tags).
Proof.
  induction 1 as [|t tags Ht _ [IH1 IH2]]; [done|].
  assert (tagKey t = le_val t) as Hk by (unfold tagKey; by rewrite firstn_all2 by lia).
  split.
  - change (t ++ concat tags = le_bytes 4 (tagKey t) ++ ((tagKey <$> tags) ≫= le_bytes 4)).
    rewrite <- IH1, Hk, <- Ht, le_bytes_le_val. done.
  - csimpl. constructor; [|done]. rewrite Hk. pose proof (le_val_range t) as Hr. by rewrite Ht in Hr.
Qed.

Lemma buildMessage_ok pairs :
  pairs_ok pairs ->
  buildMessage pairs = Ok (le_bytes 4 (Z.of_nat (length pairs)) ++ (header_offsets pairs.*2 ≫= le_bytes 4)
                           ++ concat pairs.*1 ++ concat pairs.*2).
Proof.
  intros (_ & _ & Hn & Hv). unfold buildMessage.
  rewrite checked_le_ok by (change (256 ^ Z.of_nat 4) with (2 ^ 32); lia). cbn [mbind result_bind].
  rewrite write_words_ok; [done|]. unfold header_offsets. apply Forall_removelast, value_offsets_word; lia.
Qed.

Lemma parse_build pairs :
  pairs_ok pairs ->
  exists msg, buildMessage pairs = Ok msg
    /\ length msg = (8 * length pairs + (if decide (pairs = []) then 4 else 0) + length (concat pairs.*2))%nat
    /\ parseMessage msg = Some ((fun p => (tagKey p.1, p.2)) <$> pairs).
Proof.
  intros Hok. rewrite buildMessage_ok by done. eexists. split; [done|].
  destruct Hok as (Ht & Hnd & Hn & Hv).
  assert (Forall (fun t => length t = 4%nat) pairs.*1) as Ht1 by by apply Forall_fmap.
  destruct (tags_words _ Ht1) as [Htags Hw].
  set (offs := header_offsets pairs.*2).
  assert (length offs = pred (length pairs)) as Hoffs.
  { unfold offs, header_offsets. by rewrite length_removelast, value_offsets_length, length_fmap. }
  assert (Forall word offs) as Hwo by (apply Forall_removelast, value_offsets_word; lia).
  rewrite Htags. set (tw := (tagKey <$> pairs.*1) ≫= le_bytes 4) in *.
  assert (length tw = (4 * length pairs)%nat) as Htw by (unfold tw; by rewrite length_words, !length_fmap).
  set (vals := concat pairs.*2) in *.
  assert (length (le_bytes 4 (Z.of_nat (length pairs)) ++ (offs ≫= le_bytes 4) ++ tw ++ vals)
          = (4 + 4 * pred (length pairs) + 4 * length pairs + length vals)%nat) as Hlen.
  { rewrite !length_app, length_words, length_le_bytes. lia. }
  split; [rewrite Hlen; destruct (decide (pairs = [])) as [->|Hne]; [done|];
    destruct pairs; [done|simpl; lia]|].
  unfold parseMessage. rewrite Hlen.
  replace (_ <? 4)%nat with false by (symmetry; apply Nat.ltb_ge; lia).
  pose proof (length_le_bytes 4 (Z.of_nat (length pairs))) as Hl4.
  rewrite (take_app_le _ _ 4) by lia. rewrite (firstn_all2 (le_bytes 4 _)) by lia.
  rewrite le_val_le_bytes_small by (change (256 ^ Z.of_nat 4) with (2 ^ 32); lia).
  destruct (Z.eqb_spec (Z.of_nat (length pairs)) 0) as [Hz|Hz]; [by destruct pairs|].
  assert (pairs <> []) as Hne by by intros ->.
  replace (_ <? _) with false by (symmetry; apply Z.ltb_ge; lia).
  rewrite Nat2Z.id. set (k := length pairs) in *.
  rewrite (drop_app_length' _ _ 4) by by rewrite length_le_bytes.
  assert (read_words (pred k) ((offs ≫= le_bytes 4) ++ tw ++ vals) = offs) as ->
    by (rewrite <- Hoffs; by apply read_words_app).
  assert (drop (4 + 4 * pred k) (le_bytes 4 (Z.of_nat k) ++ (offs ≫= le_bytes 4) ++ tw ++ vals) = tw ++ vals)
    as -> by (rewrite app_assoc; apply drop_app_length'; rewrite length_app, length_words, length_le_bytes; lia).
  assert (read_words k (tw ++ vals) = tagKey <$> pairs.*1) as ->.
  { replace k with (length (tagKey <$> pairs.*1)) by by rewrite !length_fmap. by apply read_words_app. }
  replace (4 + 4 * (Z.of_nat k - 1) + 4 * Z.of_nat k)
    with (Z.of_nat (length (le_bytes 4 (Z.of_nat k) ++ (offs ≫= le_bytes 4) ++ tw)))
    by (rewrite !length_app, length_words, length_le_bytes; destruct pairs; [done|unfold k in *; simpl in *; lia]).
  replace (le_bytes 4 (Z.of_nat k) ++ (offs ≫= le_bytes 4) ++ tw ++ vals)
    with ((le_bytes 4 (Z.of_nat k) ++ (offs ≫= le_bytes 4) ++ tw) ++ [] ++ vals)
    by by rewrite <- !app_assoc.
  unfold vals, offs, header_offsets. rewrite parse_values_ok.
  - cbn [app]. f_equal. clear. induction pairs as [|[t v] pairs IH]; [done|]. csimpl. by rewrite IH.
  - by rewrite !length_fmap.
  - exact Hnd.
  - done.
  - by destruct pairs.
Qed.

(** The sorted pairs of a request: the order depends on the tags only. *)
Lemma request_sorted nonce srv ver :
  sort_pairs [(tagU32 "NONC", nonce); (tagU32 "SRV", srv); (tagU32 "TYPE", zeros 4); (tagU32 "VER", ver)]
  = [(tagU32 "VER", ver); (tagU32 "SRV", srv); (tagU32 "NONC", nonce); (tagU32 "TYPE", zeros 4)].
Proof. reflexivity. Qed.

Lemma padded_sorted nonce srv ver pad :
  sort_pairs ([(tagU32 "VER", ver); (tagU32 "SRV", srv); (tagU32 "NONC", nonce); (tagU32 "TYPE", zeros 4)]
              ++ [(tagU32 "ZZZZ", pad)])
  = [(tagU32 "VER", ver); (tagU32 "SRV", srv); (tagU32 "NONC", nonce); (tagU32 "TYPE", zeros 4);
     (tagU32 "ZZZZ", pad)].
Proof. reflexivity. Qed.

(** The body of a request: its tags in order, the padding last. *)
Definition request_body (srv ver nonce : Buffer) : list pair :=
  [(tagU32 "VER", ver); (tagU32 "SRV", srv); (tagU32 "NONC", nonce); (tagU32 "TYPE", zeros 4)].

Lemma request_tags_nodup :
  NoDup (tagKey <$> [tagU32 "VER"; tagU32 "SRV"; tagU32 "NONC"; tagU32 "TYPE"; tagU32 "ZZZZ"]).
Proof. refine (bool_decide_unpack _ _). vm_compute. exact I. Qed.

Lemma request_body_ok srv ver nonce :
  length srv = 32%nat -> length ver = 8%nat -> length nonce = 32%nat ->
  pairs_ok (request_body srv ver nonce)
  /\ forall n, (n < 2000)%nat -> pairs_ok (request_body srv ver nonce ++ [(tagU32 "ZZZZ", zeros n)]).
Proof.
  intros H1 H2 H3. split; [|intros n Hn]; split_and!.
  - by repeat constructor.
  - pose proof request_tags_nodup as H.
    change (NoDup ((tagKey <$> (request_body srv ver nonce).*1) ++ [tagKey (tagU32 "ZZZZ")])) in H.
    by apply NoDup_app in H as [? _].
  - done.
  - cbn [request_body fmap list_fmap snd concat]. rewrite !length_app, H1, H2, H3. done.
  - by repeat constructor.
  - exact request_tags_nodup.
  - done.
  - cbn [request_body fmap list_fmap snd concat app]. rewrite !length_app, H1, H2, H3.
    unfold zeros. rewrite !length_replicate. cbn [length]. lia.
Qed.

(** ** Properties *)

(** The message parser inverts the builder: for pairs with distinct
    four-byte tags, building succeeds and parsing the bytes gives every value
    under its tag, in the order of the pairs. *)
Lemma roughtime_message_roundtrip pairs :
  pairs_ok pairs ->
  exists msg, buildMessage pairs = Ok msg
    /\ parseMessage msg = Some ((fun p => (tagKey p.1, p.2)) <$> pairs).
Proof. intros H. destruct (parse_build pairs H) as (msg & E & _ & P). eauto. Qed.

(** Every request is well formed: for a 32-byte nonce it is 1032 bytes (at
    least the 1024 the protocol demands), starts with the magic and the length
    of the rest, and a server that parses it finds the nonce, the hash of the
    expected key, type 0 and the two versions. *)
Lemma roughtime_request_wellformed sha512 nonce key :
  length nonce = 32%nat -> (forall b, length (sha512 b) = 64%nat) ->
  exists msg m,
    buildRoughtimeRequest sha512 nonce key = Ok (ROUGHTIME_MAGIC ++ le_bytes 4 (Z.of_nat (length msg)) ++ msg)
    /\ length (ROUGHTIME_MAGIC ++ le_bytes 4 (Z.of_nat (length msg)) ++ msg) = 1032%nat
    /\ parseMessage msg = Some m
    /\ jm_get m (tagKey (tagU32 "NONC")) = Some nonce
    /\ jm_get m (tagKey (tagU32 "SRV")) = Some (rtHash sha512 [[bofZ 255]; key])
    /\ jm_get m (tagKey (tagU32 "TYPE")) = Some (le_bytes 4 0)
    /\ jm_get m (tagKey (tagU32 "VER")) = Some (le_bytes 4 VER_FINAL ++ le_bytes 4 VER_EXPERIMENTAL).
Proof.
  intros Hn Hs. unfold buildRoughtimeRequest. rewrite Hn. cbn [Nat.eqb NONCE_LEN negb].
  unfold request_pairs. set (srv := rtHash sha512 [[bofZ 255]; key]).
  set (ver := le_bytes 4 VER_FINAL ++ le_bytes 4 VER_EXPERIMENTAL).
  assert (length srv = 32%nat) as Hsrv by (unfold srv, rtHash; rewrite length_take, Hs; lia).
  assert (length ver = 8%nat) as Hver by done.
  cbv zeta. rewrite request_sorted. change [(_, ver); _; _; _] with (request_body srv ver nonce).
  destruct (request_body_ok srv ver nonce Hsrv Hver Hn) as [Hok Hpad].
  destruct (parse_build _ Hok) as (msg0 & -> & Hl0 & _). cbn [mbind result_bind].
  assert (length msg0 = 108%nat) as ->.
  { rewrite Hl0. cbn [request_body fmap list_fmap snd concat]. rewrite !length_app, Hsrv, Hver, Hn. done. }
  change (12 + 108 <? MIN_PACKET_LEN)%nat with true. cbv iota.
  change (MIN_PACKET_LEN - (12 + 108))%nat with 904%nat.
  unfold request_body at 1. rewrite padded_sorted.
  change [(_, ver); _; _; _; ?z] with (request_body srv ver nonce ++ [z]).
  destruct (parse_build _ (Hpad 904%nat ltac:(apply Nat.ltb_lt; reflexivity))) as (msg & -> & Hl & Hp).
  assert (length msg = 1020%nat) as Hmsg.
  { rewrite Hl. cbn [request_body fmap list_fmap snd concat app]. rewrite !length_app, Hsrv, Hver, Hn.
    unfold zeros. by rewrite !length_replicate. }
  cbn [mbind result_bind]. rewrite checked_le_ok by (rewrite Hmsg; done). cbn [mbind result_bind].
  exists msg. eexists. split_and!; [done| |exact Hp|done..].
  rewrite !length_app, length_le_bytes, Hmsg. done.
Qed.

(** ** Witnesses *)

Lemma roughtime_message_roundtrip_witness :
  exists msg, buildMessage [(tagU32 "SIG", zeros 64); (tagU32 "TYPE", le_bytes 4 1)] = Ok msg
    /\ parseMessage msg = Some [(tagKey (tagU32 "SIG"), zeros 64); (tagKey (tagU32 "TYPE"), le_bytes 4 1)].
Proof.
  apply (roughtime_message_roundtrip [(tagU32 "SIG", zeros 64); (tagU32 "TYPE", le_bytes 4 1)]).
  split_and!; [by repeat constructor|refine (bool_decide_unpack _ _); vm_compute; exact I|done|done].
Defined.

Lemma roughtime_request_wellformed_witness :
  exists msg m,
    buildRoughtimeRequest (fun _ => zeros 64) (zeros 32) (zeros 32)
    = Ok (ROUGHTIME_MAGIC ++ le_bytes 4 (Z.of_nat (length msg)) ++ msg)
    /\ length (ROUGHTIME_MAGIC ++ le_bytes 4 (Z.of_nat (length msg)) ++ msg) = 1032%nat
    /\ parseMessage msg = Some m
    /\ jm_get m (tagKey (tagU32 "NONC")) = Some (zeros 32)
    /\ jm_get m (tagKey (tagU32 "SRV")) = Some (rtHash (fun _ => zeros 64) [[bofZ 255]; zeros 32])
    /\ jm_get m (tagKey (tagU32 "TYPE")) = Some (le_bytes 4 0)
    /\ jm_get m (tagKey (tagU32 "VER")) = Some (le_bytes 4 VER_FINAL ++ le_bytes 4 VER_EXPERIMENTAL).
Proof. apply (roughtime_request_wellformed (fun _ => zeros 64) (zeros 32) (zeros 32)); reflexivity. Defined.
