(* ===== verification/Roughtime.v ===== *)
(** * Roughtime validation and source (src/src/roughtime_source.ts)

    [validateRoughtimeResponse] and the class [RoughtimeSource].  SHA-512, the
    import of a DER public key and [crypto.verify] are parameters.  The
    validation is proved equivalent to the conditions of the protocol: the two
    signatures, the delegation window and the Merkle path of the request. *)
From Stdlib Require Import ZArith Lia String Strings.Byte.
From stdpp Require Import base list numbers option relations strings.
From S2P Require Import Prelude JSString Errors Bytes JSNum JSMap Types TimeSources RoughtimeWire.

(** JavaScript's 32-bit view of a Number: [ToInt32]. *)
Definition int32 (z : Z) : Z := (z + 2 ^ 31) mod 2 ^ 32 - 2 ^ 31.

(** [buf.subarray(s, e)] with an end that comes from the wire. *)
Definition subarray_from (buf : Buffer) (s : nat) (len : Z) : Buffer :=
  take (Z.to_nat (Z.min len (Z.of_nat (length buf)))) (drop s buf).

Record RoughtimeValidatedResponse := { midpSeconds : Z; radiSeconds : Z }.

Definition tag (t : string) : Z := tagKey (tagU32 t).

Section Validation.
Variable sha512 : Buffer -> Buffer.
Context {K : Type}.
(** [crypto.createPublicKey] of an SPKI DER, and [crypto.verify(null, data, key, sig)]. *)
Variable createPublicKey : Buffer -> res K.
Variable crypto_verify : Buffer -> K -> Buffer -> res bool.

Definition rebuildEd25519PublicKey (raw32 : Buffer) : res K :=
  if negb (length raw32 =? 32)%nat then throw_plain "Ed25519 public key must be 32 bytes"
  else createPublicKey (from_hex (js "302a300506032b6570032100") ++ raw32).

(** [try { ok = crypto.verify(...) } catch { ok = false }] *)
Definition verify_quietly (data : Buffer) (key : K) (sig : Buffer) : bool :=
  match crypto_verify data key sig with Ok b => b | Throw _ => false end.

Definition fail {A} : res A := throw3 TTTTimeSynthesisError "Roughtime validation failed".

Definition opt {A} (o : option A) : res A := match o with Some a => Ok a | None => fail end.

Definition DELE_CONTEXT : Buffer := ascii_bytes (js "RoughTime v1 delegation signature") ++ [bofZ 0].
Definition SREP_CONTEXT : Buffer := ascii_bytes (js "RoughTime v1 response signature") ++ [bofZ 0].

(** The Merkle walk over the 32-byte nodes of [path]; [n] is their number. *)
Fixpoint merkle_walk (n : nat) (path cur : Buffer) (idx : Z) : Buffer * Z :=
  match n with
  | O => (cur, idx)
  | S n' =>
      let node := take 32 path in
      let cur' := if Z.land (int32 idx) 1 =? 0 then rtHash sha512 [[bofZ 1]; cur; node]
                  else rtHash sha512 [[bofZ 1]; node; cur] in
      merkle_walk n' (drop 32 path) cur' (Z.shiftr (int32 idx) 1)
  end.

Definition path_nodes (path : Buffer) : nat := (length path / 32)%nat.

Definition validateRoughtimeResponse (requestPacket responsePacket serverPubkey32 sentNonce32 : Buffer)
    : res RoughtimeValidatedResponse :=
  if (length responsePacket <? 12)%nat then fail
  else
    msgLen ← readUInt32LE responsePacket 8;
    top ← opt (parseMessage (subarray_from responsePacket 12 msgLen));
    nonc ← opt (jm_get top (tag "NONC"));
    if negb (bool_decide (nonc = sentNonce32)) then fail
    else
      typeBuf ← opt (jm_get top (tag "TYPE"));
      typeV ← readUInt32LE typeBuf 0;
      if negb (typeV =? 1) then fail
      else
        sig ← opt (jm_get top (tag "SIG"));
        path ← opt (jm_get top (tag "PATH"));
        srep ← opt (jm_get top (tag "SREP"));
        cert ← opt (jm_get top (tag "CERT"));
        indxBuf ← opt (jm_get top (tag "INDX"));
        indx0 ← readUInt32LE indxBuf 0;
        certMsg ← opt (parseMessage cert);
        certSig ← opt (jm_get certMsg (tag "SIG"));
        dele ← opt (jm_get certMsg (tag "DELE"));
        deleMsg ← opt (parseMessage dele);
        pubk ← opt (jm_get deleMsg (tag "PUBK"));
        mintBuf ← opt (jm_get deleMsg (tag "MINT"));
        maxtBuf ← opt (jm_get deleMsg (tag "MAXT"));
        mint ← readBigUInt64LE mintBuf 0;
        maxt ← readBigUInt64LE maxtBuf 0;
        longTermKey ← try_catch (rebuildEd25519PublicKey serverPubkey32) (fun _ => fail);
        if negb (verify_quietly (DELE_CONTEXT ++ dele) longTermKey certSig) then fail
        else
          delegatedKey ← try_catch (rebuildEd25519PublicKey pubk) (fun _ => fail);
          if negb (verify_quietly (SREP_CONTEXT ++ srep) delegatedKey sig) then fail
          else
            srepMsg ← opt (parseMessage srep);
            radiBuf ← opt (jm_get srepMsg (tag "RADI"));
            midpBuf ← opt (jm_get srepMsg (tag "MIDP"));
            root ← opt (jm_get srepMsg (tag "ROOT"));
            radi ← readUInt32LE radiBuf 0;
            midp ← readBigUInt64LE midpBuf 0;
            if (midp <? mint) || (maxt <? midp) then fail
            else
              let leaf := rtHash sha512 [[bofZ 0]; requestPacket] in
              let '(cur, idx) := merkle_walk (path_nodes path) path leaf indx0 in
              if negb (idx =? 0) then fail
              else if negb (bool_decide (cur = root)) then fail
              else Ok {| midpSeconds := midp; radiSeconds := radi |}.

(** ** The reference: an authentic response *)

(** The root over a path by the bits of the index, from the leaf up. *)
Fixpoint merkle_root (nodes : list Buffer) (index : Z) (cur : Buffer) : Buffer :=
  match nodes with
  | [] => cur
  | node :: nodes' =>
      merkle_root nodes' (index / 2)
        (if Z.even index then rtHash sha512 [[bofZ 1]; cur; node] else rtHash sha512 [[bofZ 1]; node; cur])
  end.

Fixpoint chunks (n : nat) (l : Buffer) : list Buffer :=
  match n with O => [] | S n' => take 32 l :: chunks n' (drop 32 l) end.

(** [f] is a value of a message, read as an integer of [n] bytes. *)
Definition has_le (m : jsmap Z Buffer) (t : string) (n : nat) (z : Z) : Prop :=
  exists b, jm_get m (tag t) = Some b /\ (n <= length b)%nat /\ z = le_val (take n b).

Record authentic (request response key nonce : Buffer) (v : RoughtimeValidatedResponse) : Prop := {
  au_parts : exists top sig path srep cert certMsg certSig dele deleMsg pubk srepMsg root
                    longTerm delegated indx mint maxt,
    (12 <= length response)%nat
    /\ parseMessage (subarray_from response 12 (le_val (take 4 (drop 8 response)))) = Some top
    /\ jm_get top (tag "NONC") = Some nonce /\ has_le top "TYPE" 4 1
    /\ jm_get top (tag "SIG") = Some sig /\ jm_get top (tag "PATH") = Some path
    /\ jm_get top (tag "SREP") = Some srep /\ jm_get top (tag "CERT") = Some cert
    /\ has_le top "INDX" 4 indx
    (* the long-term key certifies the delegation *)
    /\ parseMessage cert = Some certMsg /\ jm_get certMsg (tag "SIG") = Some certSig
    /\ jm_get certMsg (tag "DELE") = Some dele /\ parseMessage dele = Some deleMsg
    /\ rebuildEd25519PublicKey key = Ok longTerm
    /\ crypto_verify (DELE_CONTEXT ++ dele) longTerm certSig = Ok true
    (* the delegated key signs the report, inside its window *)
    /\ jm_get deleMsg (tag "PUBK") = Some pubk /\ rebuildEd25519PublicKey pubk = Ok delegated
    /\ crypto_verify (SREP_CONTEXT ++ srep) delegated sig = Ok true
    /\ has_le deleMsg "MINT" 8 mint /\ has_le deleMsg "MAXT" 8 maxt
    /\ parseMessage srep = Some srepMsg
    /\ has_le srepMsg "MIDP" 8 (midpSeconds v) /\ has_le srepMsg "RADI" 4 (radiSeconds v)
    /\ mint <= midpSeconds v <= maxt
    (* the request is the leaf [indx] under the signed root *)
    /\ jm_get srepMsg (tag "ROOT") = Some root
    /\ indx < 2 ^ 31 /\ indx < 2 ^ Z.of_nat (path_nodes path)
    /\ merkle_root (chunks (path_nodes path) path) indx (rtHash sha512 [[bofZ 0]; request]) = root
}.

(** ** Lemmas *)

Lemma int32_id z : 0 <= z < 2 ^ 31 -> int32 z = z.
Proof. unfold int32. intros H. rewrite Z.mod_small; lia. Qed.

Lemma int32_high z : 2 ^ 31 <= z < 2 ^ 32 -> int32 z = z - 2 ^ 32.
Proof. unfold int32. intros H. zdiv. Qed.

Lemma int32_neg z : - 2 ^ 31 <= z < 0 -> int32 z = z.
Proof. unfold int32. intros H. rewrite Z.mod_small; lia. Qed.

Lemma land_1_even z : (Z.land z 1 =? 0) = Z.even z.
Proof.
  change 1 with (Z.ones 1). rewrite Z.land_ones by lia. change (2 ^ 1) with 2.
  rewrite Zmod_even. by destruct (Z.even z).
Qed.

(** For an index below [2^31] the 32-bit walk is the reference. *)
Lemma merkle_walk_root n path cur idx :
  0 <= idx < 2 ^ 31 ->
  merkle_walk n path cur idx = (merkle_root (chunks n path) idx cur, idx / 2 ^ Z.of_nat n).
Proof.
  revert path cur idx. induction n as [|n IH]; intros path cur idx H.
  - simpl. by rewrite Z.div_1_r.
  - cbn [merkle_walk chunks merkle_root]. rewrite int32_id, land_1_even by done.
    rewrite Z.shiftr_div_pow2 by lia. change (2 ^ 1) with 2. rewrite IH by zdiv. f_equal.
    rewrite Nat2Z.inj_succ, Z.pow_succ_r, Z.div_div by lia. done.
Qed.

(** A negative index never becomes zero: the shift keeps its sign. *)
Lemma merkle_walk_negative n path cur idx :
  - 2 ^ 31 <= idx < 0 -> (merkle_walk n path cur idx).2 < 0.
Proof.
  revert path cur idx. induction n as [|n IH]; intros path cur idx H; [simpl; lia|].
  cbn [merkle_walk]. rewrite int32_neg by done. apply IH.
  rewrite Z.shiftr_div_pow2 by lia. change (2 ^ 1) with 2. zdiv.
Qed.

Lemma merkle_walk_high n path cur idx :
  2 ^ 31 <= idx < 2 ^ 32 -> (merkle_walk n path cur idx).2 <> 0.
Proof.
  intros H. destruct n as [|n]; [simpl; lia|]. cbn [merkle_walk]. rewrite int32_high by done.
  pose proof (merkle_walk_negative n (drop 32 path)
    (if Z.land (idx - 2 ^ 32) 1 =? 0 then rtHash sha512 [[bofZ 1]; cur; take 32 path]
     else rtHash sha512 [[bofZ 1]; take 32 path; cur]) (Z.shiftr (idx - 2 ^ 32) 1)) as Hn.
  rewrite Z.shiftr_div_pow2 in * by lia. change (2 ^ 1) with 2 in *.
  assert (- 2 ^ 31 <= (idx - 2 ^ 32) / 2 < 0) as Hr by zdiv. specialize (Hn Hr). lia.
Qed.

Lemma walk_accepts n path cur idx root :
  0 <= idx < 2 ^ 32 ->
  ((merkle_walk n path cur idx).2 = 0 /\ (merkle_walk n path cur idx).1 = root)
  <-> idx < 2 ^ 31 /\ idx < 2 ^ Z.of_nat n /\ merkle_root (chunks n path) idx cur = root.
Proof.
  intros H. destruct (Z.lt_ge_cases idx (2 ^ 31)) as [Hlt|Hge].
  - rewrite merkle_walk_root by lia. cbn [fst snd]. pose proof (Z.pow_pos_nonneg 2 (Z.of_nat n) ltac:(lia) ltac:(lia)).
    rewrite Z.div_small_iff by lia. split; [intros [[H1|H1] H2]; split_and!; (lia || done)|].
    intros (_ & H1 & H2). split; [lia|done].
  - split; [|lia]. intros [H0 _]. apply merkle_walk_high in H0; [done|lia].
Qed.

Lemma opt_Ok {A B} (o : option A) (f : A -> res B) b :
  opt o ≫= f = Ok b <-> exists a, o = Some a /\ f a = Ok b.
Proof. destruct o as [a|]; simpl; [|naive_solver]. split; [eauto|intros (? & [= <-] & ?); done]. Qed.

Lemma catch_Ok {A B} (r : res A) (f : A -> res B) b :
  try_catch r (fun _ => fail) ≫= f = Ok b <-> exists a, r = Ok a /\ f a = Ok b.
Proof. destruct r as [a|]; simpl; [|naive_solver]. split; [eauto|intros (? & [= <-] & ?); done]. Qed.

Lemma guard_Ok {A} (c : bool) (r : res A) b :
  (if negb c then fail else r) = Ok b <-> c = true /\ r = Ok b.
Proof. destruct c; simpl; naive_solver. Qed.

Lemma verify_quietly_true data key sig : verify_quietly data key sig = true <-> crypto_verify data key sig = Ok true.
Proof. unfold verify_quietly. destruct (crypto_verify data key sig) as [[|]|]; naive_solver. Qed.

Lemma read_le_Ok {B} n (read : Buffer -> nat -> res Z) buf (f : Z -> res B) b :
  (forall x o, read x o = le_val <$> read_bytes x o n) ->
  (read buf 0%nat ≫= f = Ok b <-> (n <= length buf)%nat /\ f (le_val (take n buf)) = Ok b).
Proof.
  intros Hr. rewrite Hr. unfold read_bytes. rewrite Nat.add_0_l, drop_0.
  destruct (Nat.leb_spec n (length buf)); cbn [fmap result_fmap mbind result_bind].
  - naive_solver.
  - split; [done|]. intros [? _]. lia.
Qed.

(** One step of the validation, undone. *)
Ltac peel H :=
  let a := fresh "a" in let E := fresh "E" in
  match type of H with
  | opt _ ≫= _ = Ok _ => apply opt_Ok in H as (a & E & H)
  | try_catch _ _ ≫= _ = Ok _ => apply catch_Ok in H as (a & E & H)
  | readUInt32LE _ 0 ≫= _ = Ok _ => apply (read_le_Ok 4 readUInt32LE) in H as [E H]; [|done]
  | readBigUInt64LE _ 0 ≫= _ = Ok _ => apply (read_le_Ok 8 readBigUInt64LE) in H as [E H]; [|done]
  | (if negb _ then fail else _) = Ok _ => apply guard_Ok in H as [E H]
  end.

Lemma read_le_exact n (read : Buffer -> nat -> res Z) buf :
  (forall x o, read x o = le_val <$> read_bytes x o n) -> (n <= length buf)%nat ->
  read buf 0%nat = Ok (le_val (take n buf)).
Proof.
  intros Hr Hl. rewrite Hr. unfold read_bytes. rewrite Nat.add_0_l, drop_0.
  by replace (n <=? length buf)%nat with true by (symmetry; by apply Nat.leb_le).
Qed.

Lemma read_msgLen response :
  (12 <= length response)%nat -> readUInt32LE response 8 = Ok (le_val (take 4 (drop 8 response))).
Proof.
  intros H. unfold readUInt32LE, read_bytes. cbn [Nat.add].
  by replace (12 <=? length response)%nat with true by (symmetry; by apply Nat.leb_le).
Qed.

Lemma has_le_intro m t b n :
  jm_get m (tag t) = Some b -> (n <= length b)%nat -> has_le m t n (le_val (take n b)).
Proof. intros H1 H2. by exists b. Qed.

Lemma le_val_take_range n b : (n <= length b)%nat -> 0 <= le_val (take n b) < 256 ^ Z.of_nat n.
Proof.
  intros H. pose proof (le_val_range (take n b)) as Hr. rewrite length_take in Hr.
  by rewrite Nat.min_l in Hr.
Qed.

Lemma validate_sound request response key nonce v :
  validateRoughtimeResponse request response key nonce = Ok v -> authentic request response key nonce v.
Proof.
  unfold validateRoughtimeResponse. destruct (Nat.ltb_spec (length response) 12) as [|Hl]; [done|].
  rewrite read_msgLen by done. cbn [mbind result_bind]. intros H. repeat peel H.
  destruct (_ || _) eqn:Ew; [done|]. zbool.
  destruct (merkle_walk _ _ _ _) as [cur idx] eqn:Em. repeat peel H. zbool. injection H as <-. subst a0 idx cur.
  pose proof (le_val_take_range 4 a6 ltac:(done)) as Hidx. change (256 ^ Z.of_nat 4) with (2 ^ 32) in Hidx.
  pose proof (proj1 (walk_accepts (path_nodes a3) a3 (rtHash sha512 [[bofZ 0]; request]) (le_val (take 4 a6)) a19 Hidx))
    as Hw. rewrite Em in Hw. destruct (Hw (conj eq_refl eq_refl)) as (W1 & W2 & W3).
  constructor. exists a, a2, a3, a4, a5, a7, a8, a9, a10, a11, a16, a19, a14, a15,
    (le_val (take 4 a6)), (le_val (take 8 a12)), (le_val (take 8 a13)).
  split_and!; try done; try (by apply has_le_intro); try (by apply verify_quietly_true).
  exists a1. by split_and!.
Qed.

Lemma validate_complete request response key nonce v :
  authentic request response key nonce v -> validateRoughtimeResponse request response key nonce = Ok v.
Proof.
  intros [(top & sig & path & srep & cert & certMsg & certSig & dele & deleMsg & pubk & srepMsg & root
    & longTerm & delegated & indx & mint & maxt & H1 & H2 & H3 & (bt & Ht1 & Ht2 & Ht3) & H5 & H6 & H7 & H8
    & (bi & Hi1 & Hi2 & Hi3) & H10 & H11 & H12 & H13 & H14 & H15 & H16 & H17 & H18
    & (bm & Hm1 & Hm2 & Hm3) & (bx & Hx1 & Hx2 & Hx3) & H21 & (bp & Hp1 & Hp2 & Hp3) & (br & Hr1 & Hr2 & Hr3)
    & Hw & H25 & H26 & H27 & H28)].
  unfold validateRoughtimeResponse.
  replace (length response <? 12)%nat with false by (symmetry; by apply Nat.ltb_ge).
  rewrite read_msgLen by done. cbn [mbind result_bind].
  rewrite H2. cbn [opt mbind result_bind]. rewrite H3. cbn [opt mbind result_bind].
  rewrite bool_decide_eq_true_2 by done. cbn [negb].
  rewrite Ht1. cbn [opt mbind result_bind]. rewrite (read_le_exact 4 readUInt32LE) by done.
  cbn [mbind result_bind]. rewrite <- Ht3. cbn [Z.eqb Pos.eqb negb].
  rewrite H5, H6, H7, H8, Hi1. cbn [opt mbind result_bind].
  rewrite (read_le_exact 4 readUInt32LE) by done. cbn [mbind result_bind]. rewrite <- Hi3.
  rewrite H10. cbn [opt mbind result_bind]. rewrite H11, H12. cbn [opt mbind result_bind].
  rewrite H13. cbn [opt mbind result_bind]. rewrite H16, Hm1, Hx1. cbn [opt mbind result_bind].
  rewrite !(read_le_exact 8 readBigUInt64LE) by done. cbn [mbind result_bind]. rewrite <- Hm3, <- Hx3.
  rewrite H14. cbn [try_catch mbind result_bind].
  rewrite (proj2 (verify_quietly_true _ _ _) H15). cbn [negb].
  rewrite H17. cbn [try_catch mbind result_bind].
  rewrite (proj2 (verify_quietly_true _ _ _) H18). cbn [negb].
  rewrite H21. cbn [opt mbind result_bind]. rewrite Hr1, Hp1, H25. cbn [opt mbind result_bind].
  rewrite (read_le_exact 4 readUInt32LE) by done. cbn [mbind result_bind].
  rewrite (read_le_exact 8 readBigUInt64LE) by done. cbn [mbind result_bind]. rewrite <- Hp3, <- Hr3.
  replace (_ || _) with false by (symmetry; apply orb_false_intro; apply Z.ltb_ge; lia).
  pose proof (le_val_take_range 4 bi ltac:(done)) as Hidx. change (256 ^ Z.of_nat 4) with (2 ^ 32) in Hidx.
  rewrite <- Hi3 in Hidx.
  destruct (proj2 (walk_accepts (path_nodes path) path (rtHash sha512 [[bofZ 0]; request]) indx root Hidx)
    (conj H26 (conj H27 H28))) as [W1 W2].
  destruct (merkle_walk _ _ _ _) as [cur idx]. cbn [fst snd] in W1, W2. subst.
  cbn [Z.eqb negb]. rewrite bool_decide_eq_true_2 by done. by destruct v.
Qed.

(** Every exception of the validation is its own error or a [RangeError]. *)
Definition fail_or_range {A} (r : res A) : Prop :=
  match r with
  | Ok _ => True
  | Throw e => e = RangeError
      \/ e = TTTErr TTTTimeSynthesisError (ERROR_CODES CONFIG_INVALID) "Roughtime validation failed"
  end.

Lemma for_bind {A B} (r : res A) (f : A -> res B) :
  fail_or_range r -> (forall a, fail_or_range (f a)) -> fail_or_range (r ≫= f).
Proof. destruct r; simpl; auto. Qed.
Lemma for_opt {A} (o : option A) : fail_or_range (opt o).
Proof. destruct o; simpl; auto. Qed.
Lemma for_read (f : Buffer -> Z) b o n : fail_or_range (f <$> read_bytes b o n).
Proof. unfold read_bytes. destruct (_ <=? _)%nat; simpl; auto. Qed.
Lemma for_catch {A} (r : res A) : fail_or_range (try_catch r (fun _ => fail)).
Proof. destruct r; simpl; auto. Qed.
Lemma for_fail {A} : fail_or_range (@fail A).
Proof. by right. Qed.

(** ** Properties *)

(** C17: [validateRoughtimeResponse] accepts exactly the authentic responses:
    those that answer our nonce, whose delegation the configured key signed,
    whose report the delegated key signed inside the delegation window, and
    whose Merkle path leads from our request to the signed root; it returns
    the report's midpoint and radius. *)
Theorem roughtime_validation_iff_authentic request response key nonce v :
  validateRoughtimeResponse request response key nonce = Ok v
  <-> authentic request response key nonce v.
Proof. split; [apply validate_sound|apply validate_complete]. Qed.

(** Whatever the packets, a failed validation throws the validation's
    [TTTTimeSynthesisError] or, for a field shorter than its integer, a
    [RangeError]; no other exception leaves it. *)
Lemma roughtime_validation_errors request response key nonce :
  fail_or_range (validateRoughtimeResponse request response key nonce).
Proof.
  unfold validateRoughtimeResponse. destruct (_ <? _)%nat; [apply for_fail|].
  repeat match goal with
  | |- fail_or_range fail => apply for_fail
  | |- fail_or_range (Ok _) => exact I
  | |- fail_or_range (_ ≫= _) =>
      apply for_bind; [first [apply for_opt|apply for_read|apply for_catch]|intros ?]
  | |- fail_or_range (let '(_, _) := ?m in _) => destruct m
  | |- fail_or_range (if ?c then _ else _) => destruct c
  end.
Qed.

End Validation.

(** ** RoughtimeSource *)
Module Source.

(** [new RoughtimeSource(...)] on the decoded key. *)
Definition check_key (pubkey : Buffer) : res Buffer :=
  if negb (length pubkey =? 32)%nat then throw_plain "pubkeyB64 must decode to 32 bytes" else Ok pubkey.

(** The reading made of a validated response. *)
Definition reading (name : jsstr) (v : RoughtimeValidatedResponse) : TimeReading :=
  {| tr_timestamp := midpSeconds v * 1000000000;
     tr_uncertainty := nadd (nmul (num_of_Z (radiSeconds v)) (num_of_Z 1000)) (num_of_Z 500);
     tr_stratum := 2; tr_source := name |}.

(** [getTime]: [lookup] is the outcome of the DNS lookup, [exchange] what
    [sendAndReceive] yields for the request. *)
Definition getTime {K} (sha512 : Buffer -> Buffer) (createPublicKey : Buffer -> res K)
    (crypto_verify : Buffer -> K -> Buffer -> res bool) (name : jsstr) (pubkey nonce : Buffer)
    (lookup : res unit) (exchange : Buffer -> res Buffer) : res TimeReading :=
  _ ← lookup;
  requestPacket ← buildRoughtimeRequest sha512 nonce pubkey;
  responsePacket ← exchange requestPacket;
  v ← validateRoughtimeResponse sha512 createPublicKey crypto_verify requestPacket responsePacket pubkey nonce;
  Ok (reading name v).

(** [sendAndReceive]: its promise, the [settled] flag, the timer, the socket
    and its membership in [activeSockets]. *)
Record state := {
  result_ : promise Buffer;
  settled : bool;
  timer : bool;
  sock_open : bool;
  active : bool;
}.

Inductive event := Timeout | SocketError | Message (msg : Buffer) | SendCallback (failed : bool) | Close.

Definition enabled (e : event) (s : state) : bool :=
  match e with
  | Timeout => timer s
  | SocketError | Message _ => sock_open s
  | SendCallback _ | Close => true
  end.

Definition start : state :=
  {| result_ := None; settled := false; timer := true; sock_open := true; active := true |}.

(** [if (settled) return; settled = true; clearTimeout; cleanup(); settle] *)
Definition finish (r : res Buffer) (s : state) : state :=
  if settled s then s
  else {| result_ := settle (result_ s) r; settled := true; timer := false; sock_open := false; active := false |}.

Definition handle (e : event) (s : state) : state :=
  match e with
  | Timeout =>
      let s := {| result_ := result_ s; settled := settled s; timer := false; sock_open := sock_open s;
                  active := active s |} in
      finish (throw3 TTTTimeSynthesisError "Roughtime timeout") s
  | SocketError => finish (throw3 TTTTimeSynthesisError "Roughtime socket error") s
  | Message msg => finish (Ok msg) s
  | SendCallback failed =>
      if failed then finish (throw3 TTTTimeSynthesisError "Failed to send Roughtime request") s else s
  | Close => (* RoughtimeSource.close() *)
      {| result_ := result_ s; settled := settled s; timer := timer s;
         sock_open := if active s then false else sock_open s; active := false |}
  end.

Inductive step : state -> state -> Prop :=
| step_event e s : enabled e s = true -> step s (handle e s).

Definition inv (s : state) : Prop :=
  (settled s = true <-> is_Some (result_ s))
  /\ (settled s = false -> timer s = true)
  /\ (settled s = true -> timer s = false /\ sock_open s = false /\ active s = false).

End Source.

Lemma source_inv s : rtc Source.step Source.start s -> Source.inv s.
Proof.
  apply rtc_preserves.
  - split_and!; [split; [done|by intros []]|done|done].
  - intros a b I Hs. revert I. destruct Hs as [e s0 He]. intros (I1 & I2 & I3).
    destruct s0 as [r st tm op ac]; cbn in *.
    assert (st = true -> tm = false /\ op = false /\ ac = false /\ is_Some r) as Hst.
    { intros ->. destruct (I3 eq_refl) as (? & ? & ?). split_and!; try done. by apply I1. }
    destruct st.
    + destruct (Hst eq_refl) as (-> & -> & -> & Hr).
      destruct e as [| | |[|]|]; cbn in *; try done; by split_and!.
    + assert (r = None) as -> by (destruct r; [|done]; assert (false = true) by (apply I1; by eexists); done).
      rewrite (I2 eq_refl).
      destruct e as [| | |[|]|]; cbn; split_and!; try done; split; try done; try (intros; by eexists); by intros [].
Qed.

(** C21: The Roughtime exchange settles once under every order of events, the
    object's [close] included: while it is pending the timer is armed and
    firing it settles the promise; once settled, the timer is cleared, the
    socket is closed and forgotten, and the result never changes. *)
Theorem roughtime_exchange_settles_once s :
  rtc Source.step Source.start s ->
  (Source.result_ s = None ->
     Source.enabled Source.Timeout s = true /\ is_Some (Source.result_ (Source.handle Source.Timeout s)))
  /\ (forall r, Source.result_ s = Some r ->
       Source.timer s = false /\ Source.sock_open s = false /\ Source.active s = false
       /\ forall s', rtc Source.step s s' -> Source.result_ s' = Some r).
Proof.
  intros H. pose proof (source_inv s H) as (I1 & I2 & I3). split.
  - intros Hn. destruct s as [r st tm op ac]; cbn in *. subst r.
    destruct st; [by destruct (proj1 I1 eq_refl)|]. split; [by apply I2|by eexists].
  - intros r Hr. assert (Source.settled s = true) as Hst by (apply I1; by eexists).
    destruct (I3 Hst) as (? & ? & ?). split_and!; [done..|]. intros s' Hs.
    assert (Source.settled s' = true /\ Source.result_ s' = Some r) as [_ E]; [|done].
    revert Hs. apply (rtc_preserves _ (fun x => Source.settled x = true /\ Source.result_ x = Some r)); [done|].
    intros a b I Hst'. revert I. destruct Hst' as [e s0 _]. intros [Ha Ea].
    destruct s0 as [r0 st tm op ac]; cbn in *. subst.
    by destruct e as [| | |[|]|].
Qed.

(** *** Short fields *)

(** A datagram around a message: eight bytes of magic and the length. *)
Definition datagram (msg : Buffer) : Buffer := ROUGHTIME_MAGIC ++ le_bytes 4 (Z.of_nat (length msg)) ++ msg.

Lemma datagram_body msg :
  Z.of_nat (length msg) < 2 ^ 32 ->
  (12 <= length (datagram msg))%nat
  /\ subarray_from (datagram msg) 12 (le_val (take 4 (drop 8 (datagram msg)))) = msg.
Proof.
  intros H. unfold datagram. set (l4 := le_bytes 4 _).
  assert (length ROUGHTIME_MAGIC = 8%nat) as H8 by done.
  assert (length l4 = 4%nat) as H4 by apply length_le_bytes.
  split; [rewrite !length_app, H8, H4; lia|].
  rewrite (drop_app_length' ROUGHTIME_MAGIC _ 8) by done. rewrite (take_app_le l4) by lia.
  rewrite (firstn_all2 l4) by lia.
  assert (le_val l4 = Z.of_nat (length msg)) as -> by by apply le_val_le_bytes_small; lia.
  unfold subarray_from. rewrite app_assoc.
  rewrite (drop_app_length' (ROUGHTIME_MAGIC ++ l4) msg 12) by (rewrite length_app; lia).
  apply firstn_all2. rewrite length_app, Z.min_l by (rewrite length_app; lia). lia.
Qed.

(** Contrary to its comment, [validateRoughtimeResponse] does not turn
    every failure into a [TTTTimeSynthesisError]: anyone who sees the nonce can
    answer with an empty TYPE field, and a bare [RangeError] leaves it. *)
Lemma roughtime_short_type_range_error {K} sha512 (createPublicKey : Buffer -> res K) crypto_verify
    request key nonce :
  length nonce = 32%nat ->
  exists response,
    validateRoughtimeResponse sha512 createPublicKey crypto_verify request response key nonce
    = Throw RangeError.
Proof.
  intros Hn.
  assert (pairs_ok [(tagU32 "NONC", nonce); (tagU32 "TYPE", [])]) as Hok.
  { split_and!; [by repeat constructor|refine (bool_decide_unpack _ _); vm_compute; exact I|done|].
    cbn [fmap list_fmap snd concat]. rewrite !length_app, Hn. done. }
  destruct (parse_build _ Hok) as (msg & _ & Hl & Hp).
  cbn [length fmap list_fmap snd concat] in Hl. rewrite !length_app, Hn in Hl.
  destruct (datagram_body msg) as [H12 Hb]; [rewrite Hl; done|].
  exists (datagram msg). unfold validateRoughtimeResponse.
  replace (length (datagram msg) <? 12)%nat with false by (symmetry; by apply Nat.ltb_ge).
  rewrite read_msgLen by done. cbn [mbind result_bind]. rewrite Hb, Hp.
  set (m := _ <$> _).
  assert (jm_get m (tag "NONC") = Some nonce) as E1 by reflexivity.
  assert (jm_get m (tag "TYPE") = Some []) as E2 by reflexivity.
  cbn [opt mbind result_bind]. rewrite E1. cbn [opt mbind result_bind].
  rewrite bool_decide_eq_true_2 by done. cbn [negb]. by rewrite E2.
Qed.

(** ** Witnesses *)

(** A response to [zeros 32], with a one-node path, under an oracle that
    accepts every signature. *)
Definition ex_sha (b : Buffer) : Buffer := take 64 (b ++ zeros 64).
Definition ex_key : Buffer -> res unit := fun _ => Ok tt.
Definition ex_verify : Buffer -> unit -> Buffer -> res bool := fun _ _ _ => Ok true.
Definition ok_or_empty (r : res Buffer) : Buffer := match r with Ok b => b | Throw _ => [] end.
Definition ex_root : Buffer :=
  rtHash ex_sha [[bofZ 1]; zeros 32; rtHash ex_sha [[bofZ 0]; zeros 1032]].
Definition ex_response : Buffer :=
  let msg p := ok_or_empty (buildMessage p) in
  datagram (msg
    [(tagU32 "SIG", zeros 64); (tagU32 "NONC", zeros 32); (tagU32 "TYPE", le_bytes 4 1);
     (tagU32 "PATH", zeros 32); (tagU32 "INDX", le_bytes 4 1);
     (tagU32 "SREP", msg [(tagU32 "RADI", le_bytes 4 3); (tagU32 "MIDP", le_bytes 8 1710412800);
                          (tagU32 "ROOT", ex_root)]);
     (tagU32 "CERT", msg [(tagU32 "SIG", zeros 64);
        (tagU32 "DELE", msg [(tagU32 "PUBK", zeros 32); (tagU32 "MINT", le_bytes 8 1710000000);
                             (tagU32 "MAXT", le_bytes 8 1720000000)])])]).

Example ex_response_accepted :
  validateRoughtimeResponse ex_sha ex_key ex_verify (zeros 1032) ex_response (zeros 32) (zeros 32)
  = Ok {| midpSeconds := 1710412800; radiSeconds := 3 |}.
Proof. vm_compute. reflexivity. Qed.

Lemma roughtime_short_type_range_error_witness :
  exists response,
    validateRoughtimeResponse ex_sha ex_key ex_verify (zeros 1032) response (zeros 32) (zeros 32)
    = Throw RangeError.
Proof. apply (roughtime_short_type_range_error ex_sha ex_key ex_verify (zeros 1032) (zeros 32) (zeros 32)); reflexivity. Defined.

Lemma roughtime_exchange_settles_once_witness :
  Source.enabled Source.Timeout Source.start = true
  /\ is_Some (Source.result_ (Source.handle Source.Timeout Source.start)).
Proof. apply (roughtime_exchange_settles_once Source.start); [apply rtc_refl|reflexivity]. Defined.
