(* ===== verification/Rounds.v ===== *)
(** * A round of time requests (src/src/time_synthesis.ts, src/src/roughtime_source.ts)

    [Promise.allSettled(this.sources.map(s => s.getTime()))], which [synthesize]
    and [generateProofOfTime] await.  Every source runs its own machine
    ([HTTPS] of TimeSources.v, [Source] of Roughtime.v after its DNS lookup);
    the machines interleave freely, one event at one index at a time, and the
    await returns when every promise has settled.  The theorems compose the
    machines with the object of TimeSynthesis.v. *)
From Stdlib Require Import ZArith Lia String.
From stdpp Require Import base list numbers option relations strings sets.
From S2P Require Import Prelude JSString Errors Bytes JSNum JSMap NonceCache Types Median TimeSynthesis EndToEnd.
From S2P Require Import TimeSources RoughtimeWire Roughtime.

(** ** [Buffer.from(text, "base64")]

    Both alphabets, up to the padding; what the configured keys need.  Other
    characters are skipped. *)
Definition base64_digit (c : Z) : option Z :=
  if (65 <=? c) && (c <=? 90) then Some (c - 65)
  else if (97 <=? c) && (c <=? 122) then Some (c - 71)
  else if (48 <=? c) && (c <=? 57) then Some (c + 4)
  else if (c =? 43) || (c =? 45) then Some 62
  else if (c =? 47) || (c =? 95) then Some 63
  else None.

(** [acc] holds the [bits] < 8 bits read and not yet output. *)
Fixpoint base64_bits (acc bits : Z) (s : jsstr) : Buffer :=
  match s with
  | [] => []
  | c :: s' =>
      if c =? 61 then []
      else match base64_digit c with
           | None => base64_bits acc bits s'
           | Some d =>
               let acc := acc * 64 + d in
               let bits := bits + 6 in
               if 8 <=? bits then
                 bofZ (Z.shiftr acc (bits - 8)) :: base64_bits (Z.land acc (2 ^ (bits - 8) - 1)) (bits - 8) s'
               else base64_bits acc bits s'
           end
  end.

Definition base64_decode : jsstr -> Buffer := base64_bits 0 0.

Section Round.
Variable date_parse : jsstr -> option Z.
Variable sha512 : Buffer -> Buffer.
Context {K : Type}.
Variable createPublicKey : Buffer -> res K.
Variable crypto_verify : Buffer -> K -> Buffer -> res bool.

(** ** One [getTime()] in progress *)

Inductive task :=
| HttpsTask (t1 : Z) (st : HTTPS.state)
| LookupTask                                            (* [await this.resolveFamily()] *)
| ExchangeTask (nonce request : Buffer) (st : Source.state)  (* [await this.sendAndReceive(...)] *)
| DoneTask (r : res TimeReading).

Inductive event :=
| OnHttps (e : HTTPS.event)
| OnLookup (found : bool) (nonce : Buffer)   (* [nonce]: the [crypto.randomBytes] that follow *)
| OnExchange (e : Source.event).

(** The key of a [RoughtimeSource]. *)
Definition server_key (src : TimeSource) : Buffer :=
  match src with RoughtimeSource cfg => base64_decode (rs_pubkeyB64 cfg) | HTTPSTimeSource _ _ => [] end.

(** The synchronous part of [getTime()]; [clock i] is the [Date.now()] of the
    [i]-th call. *)
Definition launch (clock : nat -> Z) (i : nat) (src : TimeSource) : task :=
  match src with
  | HTTPSTimeSource _ _ => HttpsTask (clock i) HTTPS.start
  | RoughtimeSource _ => LookupTask
  end.

(** The callback of [dns.lookup] and what runs up to the next await. *)
Definition after_lookup (src : TimeSource) (found : bool) (nonce : Buffer) : task :=
  if found then
    match buildRoughtimeRequest sha512 nonce (server_key src) with
    | Ok request => ExchangeTask nonce request Source.start
    | Throw e => DoneTask (Throw e)
    end
  else DoneTask (throw3 TTTTimeSynthesisError "Roughtime DNS resolution failed").

Definition advance (src : TimeSource) (e : event) (k : task) : option task :=
  match k, e with
  | HttpsTask t1 st, OnHttps ev =>
      if HTTPS.enabled ev st then Some (HttpsTask t1 (HTTPS.handle date_parse (source_name src) t1 ev st)) else None
  | LookupTask, OnLookup found nonce => Some (after_lookup src found nonce)
  | ExchangeTask nonce request st, OnExchange ev =>
      if Source.enabled ev st then Some (ExchangeTask nonce request (Source.handle ev st)) else None
  | _, _ => None
  end.

(** The promise of [getTime()]. *)
Definition outcome (src : TimeSource) (k : task) : promise TimeReading :=
  match k with
  | HttpsTask _ st => HTTPS.result_ st
  | LookupTask => None
  | ExchangeTask nonce request st =>
      answer ← Source.result_ st;
      Some (response ← answer;
            v ← validateRoughtimeResponse sha512 createPublicKey crypto_verify request response (server_key src) nonce;
            Ok (Source.reading (source_name src) v))
  | DoneTask r => Some r
  end.

(** ** The round *)
Section Sources.
Variable srcs : list TimeSource.

Definition launch_all (clock : nat -> Z) : list task := imap (launch clock) srcs.

Definition step (ie : nat * event) (ts : list task) : option (list task) :=
  src ← srcs !! ie.1;
  k ← ts !! ie.1;
  k' ← advance src ie.2 k;
  Some (<[ie.1 := k']> ts).

Fixpoint run (evs : list (nat * event)) (ts : list task) : option (list task) :=
  match evs with
  | [] => Some ts
  | e :: evs' => step e ts ≫= run evs'
  end.

(** [Promise.allSettled]: nothing until every promise has settled. *)
Definition all_settled (ts : list task) : option (list (res TimeReading)) :=
  mapM (fun sk => outcome sk.1 sk.2) (zip srcs ts).

End Sources.

(** The round's outcomes as the answers the methods compute with. *)
Definition fetch_of (rs : list (res TimeReading)) : fetcher := fun i _ => default (Throw TypeError) (rs !! i).

(** [synthesize()] and [generateProofOfTime()] over a round: no value while the
    await is pending. *)
Definition synthesize_round (s : t) (ts : list task) : option (res SynthesizedTime) :=
  rs ← all_settled (sources s) ts;
  Some (synthesize (fetch_of rs) s).

Definition generate_round (s : t) (nonce : jsstr) (now0 now1 now2 : Z) (ts : list task)
    : option (t * res ProofOfTime) :=
  rs ← all_settled (sources s) ts;
  Some (generateProofOfTime (fetch_of rs) nonce now0 now1 now2 s).

(** ** What a reading can stand for *)

(** An event that no source can be stuck on: not an answer whose Date header
    does not parse. *)
Definition parses (e : event) : bool :=
  match e with
  | OnHttps (HTTPS.Response _ (Some (c :: d))) => if date_parse (c :: d) then true else false
  | _ => true
  end.

(** The events that come without the network's help: the timers, and the
    callback of [dns.lookup]. *)
Definition deadline (e : event) : bool :=
  match e with
  | OnHttps HTTPS.Timeout | OnLookup _ _ | OnExchange Source.Timeout => true
  | _ => false
  end.

(** The reading [r] of the [i]-th source was made of an answer that arrived in
    the round: the Date header of an HTTPS server, or a Roughtime response to
    this round's request that the server's configured key authenticates. *)
Inductive vouched (clock : nat -> Z) (evs : list (nat * event)) (i : nat) (src : TimeSource) (r : TimeReading) : Prop :=
| vouched_https t4 d ms name url :
    src = HTTPSTimeSource name url ->
    (i, OnHttps (HTTPS.Response t4 (Some d))) ∈ evs -> date_parse d = Some ms ->
    tr_timestamp r = ms * 1000000 + Z.quot (t4 * 1000000 - clock i * 1000000) 2 ->
    tr_source r = name -> vouched clock evs i src r
| vouched_roughtime cfg nonce request response v :
    src = RoughtimeSource cfg ->
    (i, OnLookup true nonce) ∈ evs ->
    buildRoughtimeRequest sha512 nonce (server_key src) = Ok request ->
    (i, OnExchange (Source.Message response)) ∈ evs ->
    authentic sha512 createPublicKey crypto_verify request response (server_key src) nonce v ->
    r = Source.reading (rs_name cfg) v -> vouched clock evs i src r.

End Round.

(** ** Lemmas *)

Section RoundLemmas.
Context (date_parse : jsstr -> option Z) (sha512 : Buffer -> Buffer) {K : Type}
  (createPublicKey : Buffer -> res K) (crypto_verify : Buffer -> K -> Buffer -> res bool).

Abbreviation advance' := (advance date_parse sha512).
Abbreviation outcome' := (outcome sha512 createPublicKey crypto_verify).
Abbreviation step' := (step date_parse sha512).
Abbreviation run' := (run date_parse sha512).
Abbreviation settled' := (all_settled sha512 createPublicKey crypto_verify).

(** *** Runs *)

Lemma round_step_inv srcs ie ts ts' :
  step' srcs ie ts = Some ts' ->
  exists src k k', srcs !! ie.1 = Some src /\ ts !! ie.1 = Some k /\ advance' src ie.2 k = Some k'
    /\ ts' = <[ie.1 := k']> ts.
Proof.
  unfold step. intros H. destruct (srcs !! ie.1) as [src|] eqn:E1; [|done].
  destruct (ts !! ie.1) as [k|] eqn:E2; [|done]. cbn in H.
  destruct (advance' src ie.2 k) as [k'|] eqn:E3; [|done]. cbn in H. injection H as <-.
  by exists src, k, k'.
Qed.

Lemma round_run_app srcs l1 l2 ts : run' srcs (l1 ++ l2) ts = run' srcs l1 ts ≫= run' srcs l2.
Proof. revert ts. induction l1 as [|e l IH]; intros ts; simpl; [done|]. by destruct (step' srcs e ts); simpl. Qed.

(** A property of single tasks that every event keeps holds after a run; the
    property may speak of the events so far. *)
Lemma run_tasks srcs (P : list (nat * event) -> nat -> TimeSource -> task -> Prop) evs0 evs ts ts' :
  (forall l l' i src k, P l i src k -> P (l ++ l') i src k) ->
  (forall l i src e k k', (i, e) ∈ evs -> P l i src k -> advance' src e k = Some k' -> P (l ++ [(i, e)]) i src k') ->
  (forall i src k, srcs !! i = Some src -> ts !! i = Some k -> P evs0 i src k) ->
  run' srcs evs ts = Some ts' ->
  forall i src k, srcs !! i = Some src -> ts' !! i = Some k -> P (evs0 ++ evs) i src k.
Proof.
  intros Hmono Hstep. revert evs0 ts. induction evs as [|[j e] evs IH]; intros evs0 ts H0 Hr.
  - injection Hr as <-. intros. rewrite app_nil_r. by apply H0.
  - simpl in Hr. destruct (step' srcs (j, e) ts) as [ts1|] eqn:E; [|done].
    apply round_step_inv in E as (src & k & k' & Hs & Hk & Ha & ->). simpl in *.
    replace (evs0 ++ (j, e) :: evs) with ((evs0 ++ [(j, e)]) ++ evs) by (by rewrite <- app_assoc).
    eapply IH; [|  |exact Hr].
    + intros l i src0 e0 k0 k0' Hin. apply Hstep. by right.
    + intros i src0 k0 Hs0. rewrite list_lookup_insert_Some. intros [(<- & <- & _)|[Hne Hk0]].
      * replace src0 with src by congruence. eapply Hstep; [by left| |exact Ha]. by apply H0.
      * by apply Hmono, H0.
Qed.

Lemma run_length srcs evs ts ts' : run' srcs evs ts = Some ts' -> length ts' = length ts.
Proof.
  revert ts. induction evs as [|e evs IH]; intros ts Hr; [by injection Hr as <-|].
  simpl in Hr. destruct (step' srcs e ts) as [ts1|] eqn:E; [|done].
  apply round_step_inv in E as (src & k & k' & _ & _ & _ & ->). apply IH in Hr. by rewrite Hr, length_insert.
Qed.

Lemma launch_lookup srcs clock i src k :
  srcs !! i = Some src -> launch_all srcs clock !! i = Some k -> k = launch clock i src.
Proof. unfold launch_all. rewrite list_lookup_imap. intros ->. by intros [= <-]. Qed.

Lemma launch_length srcs clock : length (launch_all srcs clock) = length srcs.
Proof. apply length_imap. Qed.

(** *** The await *)

Lemma all_settled_Some srcs ts rs :
  length ts = length srcs ->
  settled' srcs ts = Some rs
  <-> length rs = length srcs
      /\ forall i src k, srcs !! i = Some src -> ts !! i = Some k -> outcome' src k = rs !! i.
Proof.
  intros Hl. unfold all_settled. rewrite mapM_Some, Forall2_same_length_lookup.
  rewrite length_zip_with, Hl, Nat.min_id. split.
  - intros [H1 H2]. split; [done|]. intros i src k Hs Hk.
    destruct (rs !! i) as [r|] eqn:Er; [|apply lookup_ge_None in Er; apply lookup_lt_Some in Hs; lia].
    apply (H2 i (src, k) r); [|done]. apply lookup_zip_with_Some. by exists src, k.
  - intros [H1 H2]. split; [done|]. intros i [src k] r Hz Hr.
    apply lookup_zip_with_Some in Hz as (? & ? & [= <- <-] & Hs & Hk). simpl. rewrite <- Hr. by apply H2.
Qed.

Lemma all_settled_None srcs ts :
  settled' srcs ts = None ->
  exists i src k, srcs !! i = Some src /\ ts !! i = Some k /\ outcome' src k = None.
Proof.
  unfold all_settled. intros H. apply mapM_None, Exists_exists in H as ([src k] & Hin & Ho).
  apply list_elem_of_lookup in Hin as [i Hi]. apply lookup_zip_with_Some in Hi as (? & ? & [= <- <-] & Hs & Hk).
  by exists i, src, k.
Qed.

Lemma settled_fetch rs s : length rs = length (sources s) -> settled (fetch_of rs) s = rs.
Proof.
  intros Hl. apply list_eq. intros i. unfold settled. rewrite list_lookup_imap. unfold fetch_of.
  destruct (sources s !! i) as [src|] eqn:Es; simpl.
  - destruct (rs !! i) eqn:Er; [done|]. apply lookup_ge_None in Er. apply lookup_lt_Some in Es. lia.
  - symmetry. apply lookup_ge_None. apply lookup_ge_None in Es. lia.
Qed.

(** *** One task *)

(** The task of a source runs that source's machine. *)
Definition task_ok (src : TimeSource) (k : task) : Prop :=
  match src, k with
  | HTTPSTimeSource _ _, HttpsTask _ _ => True
  | RoughtimeSource _, ExchangeTask _ _ st => rtc Source.step Source.start st
  | RoughtimeSource _, (LookupTask | DoneTask _) => True
  | _, _ => False
  end.

(** The timer of an HTTPS request is armed exactly while its promise is
    pending, as long as the answers parse. *)
Definition timer_ok (k : task) : Prop :=
  match k with HttpsTask _ st => HTTPS.result_ st = None <-> HTTPS.timer st = true | _ => True end.

(** How many deadlines a task can still meet. *)
Definition work (k : task) : nat :=
  match k with
  | HttpsTask _ st => if HTTPS.timer st then 1 else 0
  | LookupTask => 2
  | ExchangeTask _ _ st => if Source.settled st then 0 else 1
  | DoneTask _ => 0
  end.

Definition hit (e : event) : nat := if deadline e then 1 else 0.

Lemma launch_ok clock i src : task_ok src (launch clock i src) /\ timer_ok (launch clock i src).
Proof. by destruct src. Qed.

Lemma advance_ok src e k k' : task_ok src k -> advance' src e k = Some k' -> task_ok src k'.
Proof.
  intros Hi Ha. destruct src, k as [t1 st| |nonce req st|r], e as [ev|found nonce'|ev]; try done; cbn in Ha.
  - destruct (HTTPS.enabled ev st); [|done]. by injection Ha as <-.
  - injection Ha as <-. unfold after_lookup. destruct found; [|done].
    destruct (buildRoughtimeRequest _ _ _); [apply rtc_refl|done].
  - destruct (Source.enabled ev st) eqn:En; [|done]. injection Ha as <-. cbn in *.
    eapply rtc_r; [exact Hi|]. by constructor.
Qed.

Lemma https_work t1 name ev st :
  parses date_parse (OnHttps ev) = true -> HTTPS.enabled ev st = true ->
  timer_ok (HttpsTask t1 st) ->
  let k' := HttpsTask t1 (HTTPS.handle date_parse name t1 ev st) in
  timer_ok k' /\ (work k' + hit (OnHttps ev) <= work (HttpsTask t1 st))%nat.
Proof.
  intros Hp He Hi. destruct st as [r tm ac fl un]; cbn in *.
  assert (forall x, settle r x <> None) as Hs by (intros x; by destruct r).
  destruct ev as [|t4 date|]; cbn in *.
  - subst tm. split; [|done]. split; [intros H; by destruct (Hs _ H)|done].
  - destruct date as [[|c d]|]; cbn; try (destruct (date_parse (c :: d)); [|done]); cbn;
      (split; [split; [intros H; by destruct (Hs _ H)|done]|lia]).
  - split; [split; [intros H; by destruct (Hs _ H)|done]|cbn; lia].
Qed.

Lemma exchange_work nonce req ev st :
  Source.inv st -> Source.enabled ev st = true ->
  (work (ExchangeTask nonce req (Source.handle ev st)) + hit (OnExchange ev) <= work (ExchangeTask nonce req st))%nat.
Proof.
  intros (_ & _ & I3) He. destruct st as [r st tm op ac]; cbn in *. destruct st.
  - destruct (I3 eq_refl) as (-> & -> & ->). by destruct ev as [| | |[|]|].
  - destruct ev as [| | |[|]|]; cbn; lia.
Qed.

Lemma advance_work src e k k' :
  parses date_parse e = true -> task_ok src k -> timer_ok k -> advance' src e k = Some k' ->
  timer_ok k' /\ (work k' + hit e <= work k)%nat.
Proof.
  intros Hp Hi Ht Ha. destruct src, k as [t1 st| |nonce req st|r], e as [ev|found nonce'|ev]; try done; cbn in Ha.
  - destruct (HTTPS.enabled ev st) eqn:En; [|done]. injection Ha as <-. by apply https_work.
  - injection Ha as <-. unfold after_lookup. destruct found; cbn; [|split; [done|lia]].
    destruct (buildRoughtimeRequest _ _ _); cbn; (split; [done|lia]).
  - destruct (Source.enabled ev st) eqn:En; [|done]. injection Ha as <-. split; [done|].
    by apply exchange_work; [apply source_inv|].
Qed.

(** A pending task has a deadline ahead. *)
Lemma pending_deadline src k :
  task_ok src k -> timer_ok k -> outcome' src k = None ->
  exists e, deadline e = true /\ parses date_parse e = true /\ is_Some (advance' src e k).
Proof.
  intros Hi Ht Ho. destruct src, k as [t1 st| |nonce req st|r]; try done.
  - exists (OnHttps HTTPS.Timeout). cbn. rewrite (proj1 Ht Ho). eauto.
  - exists (OnLookup false []). cbn. eauto.
  - exists (OnExchange Source.Timeout). split_and!; [done|done|]. cbn.
    apply source_inv in Hi as (I1 & I2 & _).
    destruct (Source.settled st) eqn:Es.
    + destruct (proj1 I1 eq_refl) as [r Hr]. cbn in Ho. by rewrite Hr in Ho.
    + rewrite (I2 eq_refl). eauto.
Qed.

(** A settled promise keeps its value. *)
Lemma outcome_stable src e k k' r :
  task_ok src k -> outcome' src k = Some r -> advance' src e k = Some k' -> outcome' src k' = Some r.
Proof.
  intros Hi Ho Ha. destruct src, k as [t1 st| |nonce req st|r'], e as [ev|found nonce'|ev]; try done; cbn in Ha.
  - destruct (HTTPS.enabled ev st); [|done]. injection Ha as <-. destruct st as [r0 tm ac fl un]; cbn in *.
    subst r0. destruct ev as [|t4 d|]; cbn; [done| |done]. by destruct (HTTPS.parse_response _ _ _ _ _).
  - destruct (Source.enabled ev st) eqn:En; [|done]. injection Ha as <-.
    apply source_inv in Hi as (I1 & _). destruct st as [r0 stt tm op ac]; cbn in *. destruct r0 as [r0|]; [|done].
    assert (stt = true) as -> by (apply I1; eauto).
    by destruct ev as [| | |[|]|].
Qed.

(** *** The whole round *)

Definition total_work (ts : list task) : nat := sum_list_with work ts.
Definition hits (evs : list (nat * event)) : nat := sum_list_with (fun ie => hit ie.2) evs.

Definition tasks_ok (srcs : list TimeSource) (ts : list task) : Prop := Forall2 task_ok srcs ts.

Lemma launch_all_ok srcs clock :
  tasks_ok srcs (launch_all srcs clock) /\ Forall timer_ok (launch_all srcs clock)
  /\ (total_work (launch_all srcs clock) <= 2 * length srcs)%nat.
Proof.
  unfold launch_all. split_and!.
  - apply Forall2_same_length_lookup. split; [by rewrite length_imap|].
    intros i src k Hs. rewrite list_lookup_imap, Hs. intros [= <-]. apply launch_ok.
  - apply Forall_lookup. intros i k. rewrite list_lookup_imap. destruct (srcs !! i); [|done].
    intros [= <-]. apply (launch_ok clock i).
  - revert clock. induction srcs as [|src srcs IH]; intros clock; [done|]. rewrite imap_cons.
    specialize (IH (fun i => clock (S i))). unfold total_work in *. cbn [sum_list_with length].
    assert (work (launch clock 0 src) <= 2)%nat by (destruct src; cbn; lia).
    change (imap (launch clock ∘ S) srcs) with (imap (launch (fun i => clock (S i))) srcs). lia.
Qed.

Lemma total_work_insert ts i k k' :
  ts !! i = Some k -> (total_work (<[i := k']> ts) + work k = total_work ts + work k')%nat.
Proof.
  revert i. induction ts as [|x ts IH]; intros [|i] H; try done.
  - injection H as ->. unfold total_work. cbn. lia.
  - specialize (IH i H). change ((work x + total_work (<[i := k']> ts) + work k = work x + total_work ts + work k')%nat).
    lia.
Qed.

Lemma step_ok srcs ie ts ts' :
  tasks_ok srcs ts -> step' srcs ie ts = Some ts' ->
  tasks_ok srcs ts'
  /\ (Forall timer_ok ts -> parses date_parse ie.2 = true ->
      Forall timer_ok ts' /\ (total_work ts' + hit ie.2 <= total_work ts)%nat).
Proof.
  intros Hok Hs. apply round_step_inv in Hs as (src & k & k' & Hs & Hk & Ha & ->).
  pose proof (Forall2_lookup_lr _ _ _ _ _ _ Hok Hs Hk) as Hi. split.
  - replace srcs with (<[ie.1 := src]> srcs) by by apply list_insert_id.
    apply Forall2_insert; [done|]. by eapply advance_ok.
  - intros Ht Hp. pose proof (Forall_lookup_1 _ _ _ _ Ht Hk) as Hik.
    destruct (advance_work _ _ _ _ Hp Hi Hik Ha) as [Ht' Hw]. split; [by apply Forall_insert|].
    pose proof (total_work_insert ts ie.1 k k' Hk). lia.
Qed.

Lemma run_ok srcs evs ts ts' :
  tasks_ok srcs ts -> run' srcs evs ts = Some ts' ->
  tasks_ok srcs ts'
  /\ (Forall timer_ok ts -> Forall (fun ie => parses date_parse ie.2 = true) evs ->
      Forall timer_ok ts' /\ (total_work ts' + hits evs <= total_work ts)%nat).
Proof.
  revert ts. induction evs as [|ie evs IH]; intros ts Hok Hr; simpl in Hr.
  - injection Hr as <-. split; [done|]. intros Ht _. split; [done|]. unfold hits. simpl. lia.
  - destruct (step' srcs ie ts) as [ts1|] eqn:E; [|done].
    destruct (step_ok _ _ _ _ Hok E) as [Hok1 Hw]. destruct (IH _ Hok1 Hr) as [Hok2 Hw2].
    split; [done|]. intros Ht Hp. apply Forall_cons in Hp as [Hp1 Hp2].
    destruct (Hw Ht Hp1) as [Ht1 Hl1]. destruct (Hw2 Ht1 Hp2) as [Ht2 Hl2]. split; [done|].
    unfold hits in *. simpl. lia.
Qed.

Lemma settled_stable srcs evs ts ts' rs :
  tasks_ok srcs ts -> settled' srcs ts = Some rs -> run' srcs evs ts = Some ts' -> settled' srcs ts' = Some rs.
Proof.
  revert ts. induction evs as [|ie evs IH]; intros ts Hok Hset Hr; simpl in Hr; [by injection Hr as <-|].
  destruct (step' srcs ie ts) as [ts1|] eqn:E; [|done].
  destruct (step_ok _ _ _ _ Hok E) as [Hok1 _]. apply (IH ts1); [done| |done].
  apply round_step_inv in E as (src & k & k' & Hs & Hk & Ha & ->).
  pose proof (Forall2_length _ _ _ Hok) as Hl.
  apply all_settled_Some in Hset as [H1 H2]; [|done].
  apply all_settled_Some; [by rewrite length_insert|]. split; [done|].
  intros i src0 k0 Hs0. rewrite list_lookup_insert_Some. intros [(<- & <- & _)|[Hne Hk0]]; [|by apply H2].
  replace src0 with src by congruence. pose proof (H2 _ _ _ Hs Hk) as Ho.
  destruct (rs !! ie.1) as [r|] eqn:Er.
  - eapply outcome_stable; [exact (Forall2_lookup_lr _ _ _ _ _ _ Hok Hs Hk)|exact Ho|exact Ha].
  - apply lookup_ge_None in Er. apply lookup_lt_Some in Hs. lia.
Qed.

(** *** Provenance *)

Abbreviation vouched' := (vouched date_parse sha512 createPublicKey crypto_verify).

(** What a task's state says about the events of its source. *)
Definition traced (clock : nat -> Z) (evs : list (nat * event)) (i : nat) (src : TimeSource) (k : task) : Prop :=
  match k with
  | HttpsTask t1 st =>
      t1 = clock i /\ forall r, HTTPS.result_ st = Some (Ok r) -> vouched' clock evs i src r
  | LookupTask => True
  | ExchangeTask nonce request st =>
      (i, OnLookup true nonce) ∈ evs
      /\ buildRoughtimeRequest sha512 nonce (server_key src) = Ok request
      /\ forall msg, Source.result_ st = Some (Ok msg) -> (i, OnExchange (Source.Message msg)) ∈ evs
  | DoneTask r => exists e, r = Throw e
  end.

Lemma vouched_mono clock l l' i src r : vouched' clock l i src r -> vouched' clock (l ++ l') i src r.
Proof.
  intros [t4 d ms name url H1 H2 H3 H4 H5|cfg nonce req resp v H1 H2 H3 H4 H5 H6].
  - eapply vouched_https; try done. set_solver.
  - eapply vouched_roughtime; try done; set_solver.
Qed.

Lemma traced_mono clock l l' i src k : traced clock l i src k -> traced clock (l ++ l') i src k.
Proof.
  destruct k as [t1 st| |nonce req st|r]; cbn; [|done| |done].
  - intros [H1 H2]. split; [done|]. intros r Hr. by apply vouched_mono, H2.
  - intros (H1 & H2 & H3). split_and!; [set_solver|done|]. intros msg Hm. apply H3 in Hm. set_solver.
Qed.

Lemma last_event (l : list (nat * event)) ie : ie ∈ l ++ [ie].
Proof. set_solver. Qed.

Lemma advance_traced clock l i src e k k' :
  task_ok src k -> traced clock l i src k -> advance' src e k = Some k' -> traced clock (l ++ [(i, e)]) i src k'.
Proof.
  intros Hi Ht Ha. pose proof (traced_mono _ l [(i, e)] _ _ _ Ht) as Hm.
  destruct src as [name url|cfg], k as [t1 st| |nonce req st|r0], e as [ev|found nonce'|ev]; try done; cbn in Ha.
  - destruct (HTTPS.enabled ev st); [|done]. injection Ha as <-. destruct Hm as [-> Hv]. split; [done|].
    intros r. destruct st as [[r0|] tm ac fl un]; cbn in Hv |- *.
    + intros Hr. apply Hv. rewrite <- Hr.
      destruct ev as [|t4 d|]; cbn; [done| |done]. by destruct (HTTPS.parse_response _ _ _ _ _).
    + destruct ev as [|t4 [[|c d]|]|]; cbn; try done.
      destruct (date_parse (c :: d)) as [ms|] eqn:Ed; [|done]. intros [= <-].
      eapply (vouched_https _ _ _ _ _ _ _ _ _ t4 (c :: d) ms); [done|apply last_event|done|done|done].
  - injection Ha as <-. unfold after_lookup. destruct found; [|by eexists].
    destruct (buildRoughtimeRequest _ _ _) eqn:Eb; cbn; [|by eexists].
    split_and!; [apply last_event|done|done].
  - destruct (Source.enabled ev st) eqn:En; [|done]. injection Ha as <-.
    destruct Hm as (H1 & H2 & H3). split_and!; [done|done|]. intros msg.
    destruct st as [r stt tm op ac]; cbn in *.
    destruct ev as [| |m|[|]|]; destruct stt; cbn; try (by intros Hr; apply H3);
      destruct r; cbn; try (by intros Hr; apply H3); try done.
    intros [= ->]. apply last_event.
Qed.

Lemma run_traced srcs clock evs ts :
  run' srcs evs (launch_all srcs clock) = Some ts ->
  forall i src k, srcs !! i = Some src -> ts !! i = Some k -> task_ok src k /\ traced clock evs i src k.
Proof.
  intros Hr. change evs with ([] ++ evs).
  eapply (run_tasks srcs (fun l i src k => task_ok src k /\ traced clock l i src k)); [| | |exact Hr].
  - intros l l' i src k [H1 H2]. split; [done|]. by apply traced_mono.
  - intros l i src e k k' _ [H1 H2] Ha. split; [by eapply advance_ok|by eapply advance_traced].
  - intros i src k Hs Hk. rewrite (launch_lookup srcs clock i src k Hs Hk). by destruct src.
Qed.

Lemma traced_vouched clock evs i src k r :
  task_ok src k -> traced clock evs i src k -> outcome' src k = Some (Ok r) -> vouched' clock evs i src r.
Proof.
  intros Hok Ht Ho. destruct src as [name url|cfg], k as [t1 st| |nonce req st|r0]; try done; cbn in Ho.
  - by apply Ht.
  - destruct Ht as (H1 & H2 & H3). destruct (Source.result_ st) as [[msg|e]|] eqn:Er; try done.
    injection Ho as Ho. cbn in Ho.
    destruct (validateRoughtimeResponse _ _ _ _ _ _ _) as [v|e] eqn:Ev; [|done]. injection Ho as <-.
    eapply vouched_roughtime; [done|done|done|by apply H3|by apply validate_sound|done].
  - destruct Ht as [e ->]. done.
Qed.

End RoundLemmas.

(** *** The readings and their sources *)

Lemma fulfilled_indices (rs : list (res TimeReading)) n :
  exists l : list (nat * TimeReading),
    l.*2 = fulfilled rs /\ NoDup l.*1 /\ Forall (fun ir => (n <= ir.1)%nat /\ rs !! (ir.1 - n)%nat = Some (Ok ir.2)) l.
Proof.
  revert n. induction rs as [|[r|e] rs IH]; intros n; [by exists []; repeat constructor| |].
  - destruct (IH (S n)) as (l & H1 & H2 & H3). exists ((n, r) :: l). split_and!.
    + cbn. by rewrite H1.
    + cbn. constructor; [|done]. intros Hin. apply list_elem_of_fmap in Hin as ([i r'] & Hi & Hin).
      rewrite Forall_forall in H3. destruct (H3 _ Hin) as [Hle _]. simpl in *. lia.
    + constructor; [split; [done|]; simpl; by rewrite Nat.sub_diag|].
      eapply Forall_impl; [exact H3|]. intros [i r']; simpl. intros [Hle Hi]. split; [lia|].
      by replace (i - n)%nat with (S (i - S n)) by lia.
  - destruct (IH (S n)) as (l & H1 & H2 & H3). exists l. split_and!; [done|done|].
    eapply Forall_impl; [exact H3|]. intros [i r']; simpl. intros [Hle Hi]. split; [lia|].
    by replace (i - n)%nat with (S (i - S n)) by lia.
Qed.

(** The sorted readings of a settled round, each with the index of its source. *)
Lemma sorted_indices (rs : list (res TimeReading)) :
  exists l : list (nat * TimeReading),
    l.*2 = sort_readings (fulfilled rs) /\ NoDup l.*1 /\ forall i r, (i, r) ∈ l -> rs !! i = Some (Ok r).
Proof.
  destruct (fulfilled_indices rs 0) as (l & H1 & H2 & H3).
  destruct (Permutation_map_inv snd l (l1 := sort_readings (fulfilled rs))) as (l' & E & Hp).
  { change (map snd l) with (l.*2). rewrite H1. apply sort_readings_perm. }
  exists l'. split_and!; [done| |].
  - by rewrite <- (fmap_Permutation fst _ _ Hp).
  - intros i r Hin. rewrite <- Hp in Hin. rewrite Forall_forall in H3. destruct (H3 _ Hin) as [_ Hr].
    simpl in Hr. by rewrite Nat.sub_0_r in Hr.
Qed.

(** ** Properties *)

Section RoundProperties.
Context (date_parse : jsstr -> option Z) (sha512 : Buffer -> Buffer) {K : Type}
  (createPublicKey : Buffer -> res K) (crypto_verify : Buffer -> K -> Buffer -> res bool).

(** C12: A round ends under every interleaving of its sources' events in which
    every Date header parses: while the await is pending, a timer or the
    callback of a DNS lookup can still fire for some source, at most two such
    events per source happen in any run, and once all promises are settled
    their values never change. *)
Theorem round_ends srcs clock evs ts :
  run date_parse sha512 srcs evs (launch_all srcs clock) = Some ts ->
  Forall (fun ie => parses date_parse ie.2 = true) evs ->
  (hits evs <= 2 * length srcs)%nat
  /\ match all_settled sha512 createPublicKey crypto_verify srcs ts with
     | None => exists i e, deadline e = true /\ parses date_parse e = true
                 /\ is_Some (step date_parse sha512 srcs (i, e) ts)
     | Some rs => forall evs' ts', run date_parse sha512 srcs evs' ts = Some ts' ->
                    all_settled sha512 createPublicKey crypto_verify srcs ts' = Some rs
     end.
Proof.
  intros Hr Hp. destruct (launch_all_ok srcs clock) as (H1 & H2 & H3).
  destruct (run_ok _ _ _ _ _ _ H1 Hr) as [Hok Hw]. destruct (Hw H2 Hp) as [Ht Hl]. split; [lia|].
  destruct (all_settled _ _ _ _ _) as [rs|] eqn:Es.
  - intros evs' ts' Hr'. by eapply settled_stable.
  - apply all_settled_None in Es as (i & src & k & Hs & Hk & Ho).
    destruct (pending_deadline date_parse sha512 createPublicKey crypto_verify src k
      (Forall2_lookup_lr _ _ _ _ _ _ Hok Hs Hk) (Forall_lookup_1 _ _ _ _ Ht Hk) Ho) as (e & Hd & He & [k' Ha]).
    exists i, e. split_and!; [done|done|]. unfold step. cbn. rewrite Hs, Hk. cbn. rewrite Ha. by eexists.
Qed.

(** C3: Every reading of a proof was made of an answer of its own source in
    this round.  The readings belong to distinct configured sources; each is
    the Date header its HTTPS server sent, half the round trip later, or the
    midpoint of a Roughtime response to the request of this round that
    authenticates under the server's configured key; and the proof's time lies
    between two of them. *)
Theorem proof_readings_vouched s clock evs ts nonce now0 now1 now2 s' pot :
  run date_parse sha512 (sources s) evs (launch_all (sources s) clock) = Some ts ->
  generate_round sha512 createPublicKey crypto_verify s nonce now0 now1 now2 ts = Some (s', Ok pot) ->
  exists l : list (nat * TimeReading),
    NoDup l.*1 /\ pot_sourceReadings pot = reading_of <$> l.*2
    /\ (forall i r, (i, r) ∈ l -> exists src, sources s !! i = Some src
          /\ vouched date_parse sha512 createPublicKey crypto_verify clock evs i src r)
    /\ Exists (fun ir => tr_timestamp ir.2 <= pot_timestamp pot) l
    /\ Exists (fun ir => pot_timestamp pot <= tr_timestamp ir.2) l.
Proof.
  intros Hr Hg. unfold generate_round in Hg.
  destruct (all_settled _ _ _ _ _) as [rs|] eqn:Es; [|done]. injection Hg as Hg.
  pose proof (run_length _ _ _ _ _ _ Hr) as Hl. rewrite launch_length in Hl.
  apply all_settled_Some in Es as [Hn Ho]; [|done].
  apply generate_ok in Hg as [Hm _]. unfold readings in Hm. rewrite settled_fetch in Hm by done.
  apply make_pot_fields in Hm as (_ & _ & _ & Hrs & unc & str & Hc & _).
  destruct (sorted_indices rs) as (l & H1 & H2 & H3). exists l. rewrite H1. split_and!; [done|done| | |].
  - intros i r Hin. specialize (H3 _ _ Hin).
    destruct (lookup_lt_is_Some_2 (sources s) i) as [src Hs]; [apply lookup_lt_Some in H3; lia|].
    destruct (lookup_lt_is_Some_2 ts i) as [k Hk]; [apply lookup_lt_Some in Hs; lia|].
    exists src. split; [done|].
    destruct (run_traced _ _ createPublicKey crypto_verify _ _ _ _ Hr i src k Hs Hk) as [Hok Ht].
    eapply traced_vouched; [exact Hok|exact Ht|]. rewrite (Ho _ _ _ Hs Hk). done.
  - rewrite <- H1 in Hc. apply combine_between in Hc as [Hc _]. exact (proj1 (List.Exists_map _ _ _) Hc).
  - rewrite <- H1 in Hc. apply combine_between in Hc as [_ Hc]. exact (proj1 (List.Exists_map _ _ _) Hc).
Qed.

(** A Date header that does not parse stops the round for good: whatever
    happens afterwards, [synthesize] and [generateProofOfTime] never return. *)
Lemma round_stuck srcs ts i t1 st t4 c d ts1 evs ts2 :
  length ts = length srcs ->
  ts !! i = Some (HttpsTask t1 st) -> HTTPS.result_ st = None -> date_parse (c :: d) = None ->
  step date_parse sha512 srcs (i, OnHttps (HTTPS.Response t4 (Some (c :: d)))) ts = Some ts1 ->
  run date_parse sha512 srcs evs ts1 = Some ts2 ->
  all_settled sha512 createPublicKey crypto_verify srcs ts2 = None.
Proof.
  intros Hl Hk Hres Hd Hs Hr.
  apply round_step_inv in Hs as (src & k & k' & Hsrc & Hk' & Ha & ->). simpl in *.
  rewrite Hk in Hk'. injection Hk' as <-. cbn in Ha. destruct (HTTPS.in_flight st) eqn:Ef; [|done].
  rewrite Hd in Ha. injection Ha as <-.
  destruct (all_settled _ _ _ _ _) as [rs|] eqn:Es; [|done]. exfalso.
  pose proof (run_length _ _ _ _ _ _ Hr) as Hl2. rewrite length_insert in Hl2.
  apply all_settled_Some in Es as [Hn Ho]; [|lia].
  assert (i < length srcs)%nat as Hi by by apply lookup_lt_Some in Hsrc.
  destruct (lookup_lt_is_Some_2 ts2 i) as [k Hk2]; [lia|]. specialize (Ho _ _ _ Hsrc Hk2).
  assert (i = i -> exists u st', k = HttpsTask u st' /\ HTTPS.result_ st' = None
            /\ HTTPS.timer st' = false /\ HTTPS.in_flight st' = false) as Hstuck.
  { eapply (run_tasks date_parse sha512 srcs
      (fun _ j _ k => j = i -> exists u st', k = HttpsTask u st' /\ HTTPS.result_ st' = None
         /\ HTTPS.timer st' = false /\ HTTPS.in_flight st' = false) [] evs); [done| | |exact Hr|exact Hsrc|exact Hk2].
    - intros l j src0 e k0 k1 _ IH Ha Hj. destruct (IH Hj) as (u & st' & -> & H1 & H2 & H3).
      destruct e as [ev| |ev]; try done. cbn in Ha. destruct ev; cbn in Ha; rewrite ?H2, ?H3 in Ha; done.
    - intros j src0 k0 Hs0. rewrite list_lookup_insert_Some. intros [(<- & <- & _)|[Hne _]] Hj; [|done].
      eexists _, _. split; [done|]. by cbn. }
  destruct (Hstuck eq_refl) as (u & st' & -> & H1 & _). cbn in Ho. rewrite H1 in Ho.
  symmetry in Ho. apply lookup_ge_None in Ho. lia.
Qed.

(** A settled exchange is a call of [RoughtimeSource.getTime]. *)
Lemma exchange_outcome_getTime cfg nonce request st answer :
  buildRoughtimeRequest sha512 nonce (server_key (RoughtimeSource cfg)) = Ok request ->
  Source.result_ st = Some answer ->
  outcome sha512 createPublicKey crypto_verify (RoughtimeSource cfg) (ExchangeTask nonce request st)
  = Some (Source.getTime sha512 createPublicKey crypto_verify (rs_name cfg) (server_key (RoughtimeSource cfg)) nonce
            (Ok tt) (fun _ => answer)).
Proof. intros H1 H2. unfold Source.getTime. rewrite H1. cbn in *. by rewrite H2. Qed.

End RoundProperties.

(** Every configured key decodes to 32 bytes: [new TimeSynthesis()] does not
    throw in [new RoughtimeSource(...)], for any list of names. *)
Lemma configured_keys_ok config :
  Forall (fun src => match src with
                     | RoughtimeSource cfg => Source.check_key (server_key src) = Ok (server_key src)
                     | HTTPSTimeSource _ _ => True
                     end) (sources (make config)).
Proof.
  assert (Forall (fun cfg => Source.check_key (server_key (RoughtimeSource cfg)) = Ok (server_key (RoughtimeSource cfg)))
            ROUGHTIME_SERVERS) as Hk.
  { repeat constructor; vm_compute; reflexivity. }
  apply Forall_bind. apply Forall_true. intros name. unfold compose, sources_of_name. cbv beta.
  repeat (case_bool_decide; [first [by apply Forall_fmap|by repeat constructor]|]). cbn [orb].
  destruct (list_find _ _) as [[j cfg]|] eqn:Ef; [|constructor]. apply list_find_Some in Ef as (Hj & _ & _).
  constructor; [|constructor]. by eapply (Forall_lookup_1 _ _ _ _ Hk).
Qed.

(** ** Witnesses

    An HTTPS and a Roughtime source; the Roughtime answer comes first. *)
Definition ex_object : t := make (Some [js "nist"; js "roughtime-int08h"]).
Definition ex_date (_ : jsstr) : option Z := Some 1710412800000.
Definition ex_clock (_ : nat) : Z := 1710412800100.
Definition ex_request : Buffer :=
  ok_or_empty (buildRoughtimeRequest ex_sha (zeros 32) (server_key (nth 1 (sources ex_object) (HTTPSTimeSource [] [])))).
Definition ex_answer : Buffer :=
  let msg p := ok_or_empty (buildMessage p) in
  datagram (msg
    [(tagU32 "SIG", zeros 64); (tagU32 "NONC", zeros 32); (tagU32 "TYPE", le_bytes 4 1);
     (tagU32 "PATH", []); (tagU32 "INDX", le_bytes 4 0);
     (tagU32 "SREP", msg [(tagU32 "RADI", le_bytes 4 3); (tagU32 "MIDP", le_bytes 8 1710412800);
                          (tagU32 "ROOT", rtHash ex_sha [[bofZ 0]; ex_request])]);
     (tagU32 "CERT", msg [(tagU32 "SIG", zeros 64);
        (tagU32 "DELE", msg [(tagU32 "PUBK", zeros 32); (tagU32 "MINT", le_bytes 8 1710000000);
                             (tagU32 "MAXT", le_bytes 8 1720000000)])])]).
Definition ex_events : list (nat * event) :=
  [(1%nat, OnLookup true (zeros 32)); (1%nat, OnExchange (Source.SendCallback false));
   (1%nat, OnExchange (Source.Message ex_answer));
   (0%nat, OnHttps (HTTPS.Response 1710412800140 (Some (js "Thu, 14 Mar 2024 10:40:00 GMT"))))].
Definition ex_tasks : list task :=
  default [] (run ex_date ex_sha (sources ex_object) ex_events (launch_all (sources ex_object) ex_clock)).
Definition ex_generated : option (t * res ProofOfTime) :=
  generate_round ex_sha ex_key ex_verify ex_object (js "n") 1710412800150 1710412800150 1710412800150 ex_tasks.
Definition ex_issued : t * ProofOfTime :=
  match ex_generated with Some (s', Ok pot) => (s', pot) | _ => (ex_object, {| pot_timestamp := 0; pot_uncertainty := num_0; pot_sources := 0; pot_stratum := 0; pot_confidence := num_0; pot_sourceReadings := []; pot_nonce := []; pot_expiresAt := 0; pot_issuerSignature := None |}) end.

Lemma ex_run : run ex_date ex_sha (sources ex_object) ex_events (launch_all (sources ex_object) ex_clock) = Some ex_tasks.
Proof. vm_compute. reflexivity. Qed.

Lemma ex_round_generates : ex_generated = Some (ex_issued.1, Ok ex_issued.2).
Proof. vm_compute. reflexivity. Qed.

Lemma round_ends_witness :
  (hits ex_events <= 2 * 2)%nat
  /\ match all_settled ex_sha ex_key ex_verify (sources ex_object) ex_tasks with
     | None => exists i e, deadline e = true /\ parses ex_date e = true
                 /\ is_Some (step ex_date ex_sha (sources ex_object) (i, e) ex_tasks)
     | Some rs => forall evs' ts', run ex_date ex_sha (sources ex_object) evs' ex_tasks = Some ts' ->
                    all_settled ex_sha ex_key ex_verify (sources ex_object) ts' = Some rs
     end.
Proof.
  apply (round_ends ex_date ex_sha ex_key ex_verify (sources ex_object) ex_clock ex_events ex_tasks ex_run).
  repeat constructor.
Defined.

(** The proof holds the Roughtime reading and the HTTPS reading. *)
Lemma proof_readings_vouched_witness :
  length (pot_sourceReadings ex_issued.2) = 2%nat
  /\ exists l : list (nat * TimeReading),
    NoDup l.*1 /\ pot_sourceReadings ex_issued.2 = reading_of <$> l.*2
    /\ (forall i r, (i, r) ∈ l -> exists src, sources ex_object !! i = Some src
          /\ vouched ex_date ex_sha ex_key ex_verify ex_clock ex_events i src r)
    /\ Exists (fun ir => tr_timestamp ir.2 <= pot_timestamp ex_issued.2) l
    /\ Exists (fun ir => pot_timestamp ex_issued.2 <= tr_timestamp ir.2) l.
Proof.
  split; [vm_compute; reflexivity|].
  apply (proof_readings_vouched ex_date ex_sha ex_key ex_verify ex_object ex_clock ex_events ex_tasks (js "n")
    1710412800150 1710412800150 1710412800150 ex_issued.1 ex_issued.2 ex_run ex_round_generates).
Defined.

(** After a Date header the engine cannot read, even the timers are gone. *)
Lemma round_stuck_witness :
  let date (_ : jsstr) : option Z := None in
  let srcs := sources (make (Some [js "nist"])) in
  let bad := (0%nat, OnHttps (HTTPS.Response 5 (Some (js "yesterday")))) in
  exists ts1, step date ex_sha srcs bad (launch_all srcs (fun _ => 0)) = Some ts1
    /\ step date ex_sha srcs (0%nat, OnHttps HTTPS.Timeout) ts1 = None
    /\ all_settled ex_sha ex_key ex_verify srcs ts1 = None.
Proof.
  eexists. split; [reflexivity|]. split; [reflexivity|].
  eapply (round_stuck (fun _ => None) ex_sha ex_key ex_verify (sources (make (Some [js "nist"])))
    (launch_all (sources (make (Some [js "nist"]))) (fun _ => 0)) 0 0 HTTPS.start 5 121 (js "esterday") _ []);
    reflexivity.
Defined.
