(* ===== verification/AdaptiveSwitch.v ===== *)
(** * AdaptiveSwitch (src/src/adaptive_switch.ts)

    The client-side mode switch: a window of the last twenty block checks
    decides between TURBO and FULL with two thresholds.  The file proves that
    the floating-point rate comparisons are integer thresholds, that the object
    refines an automaton over the history of outcomes, and that the penalty
    counters the documentation describes never leave zero. *)
From Stdlib Require Import ZArith Lia String Floats.SpecFloat.
From stdpp Require Import base list numbers option strings.
From S2P Require Import Prelude JSString Errors Bytes JSNum Json.

Module Adaptive.

Inductive AdaptiveMode : Set := TURBO | FULL.

#[global] Instance AdaptiveMode_eq_dec : EqDecision AdaptiveMode.
Proof. solve_decision. Defined.

Record TTTRecord := { rec_time : num; txOrder : list jsstr; grgPayload : list Buffer }.
Record Block := { blk_timestamp : num; blk_txs : list jsstr; blk_data : Buffer }.

(** [TIER_TOLERANCE_MS[tier]]: its own keys, then the properties every object
    inherits, whose comparison with a Number is a comparison with NaN. *)
Definition object_prototype_keys : list string :=
  ["constructor"; "toString"; "toLocaleString"; "valueOf"; "hasOwnProperty"; "isPrototypeOf";
   "propertyIsEnumerable"; "__proto__"; "__defineGetter__"; "__defineSetter__";
   "__lookupGetter__"; "__lookupSetter__"].

Definition TIER_TOLERANCE_MS (tier : jsstr) : option num :=
  if bool_decide (tier = js "T0_epoch") then Some (num_of_Z 2000)
  else if bool_decide (tier = js "T1_block") then Some (num_of_Z 200)
  else if bool_decide (tier = js "T2_slot") then Some (num_of_Z 500)
  else if bool_decide (tier = js "T3_micro") then Some (num_of_Z 10)
  else if bool_decide (tier ∈ js <$> object_prototype_keys) then Some S754_nan
  else None.

Definition windowSize : nat := 20.
Definition minBlocks : nat := 20.
Definition turboEntryThreshold : num := num_lit 95 100.
Definition turboMaintainThreshold : num := num_lit 85 100.

Record t := {
  history : list bool;
  currentMode : AdaptiveMode;
  penaltyCooldown : Z;
  consecutiveFailures : Z;
  tolerance : num;
}.

(** [new AdaptiveSwitch(options)] *)
Definition make (opt_tolerance : option num) : t :=
  {| history := []; currentMode := FULL; penaltyCooldown := 0; consecutiveFailures := 0;
     tolerance := default (num_of_Z 100) opt_tolerance |}.

Fixpoint compareTransactionOrder (blockTxs expectedOrder : list jsstr) : bool :=
  match blockTxs, expectedOrder with
  | [], [] => true
  | a :: l, b :: l' => bool_decide (a = b) && compareTransactionOrder l l'
  | _, _ => false
  end.

(** [tier ? (TIER_TOLERANCE_MS[tier] ?? this.tolerance) : this.tolerance] *)
Definition block_tolerance (tier : option jsstr) (s : t) : num :=
  match tier with
  | None | Some [] => tolerance s
  | Some tr => default (tolerance s) (TIER_TOLERANCE_MS tr)
  end.

Definition sequence_ok (block : Block) (r : TTTRecord) (tier : option jsstr) (s : t) : bool :=
  compareTransactionOrder (blk_txs block) (txOrder r)
  && nlt (nabs (nsub (blk_timestamp block) (rec_time r))) (block_tolerance tier s).

Definition matchCount (h : list bool) : nat := length (bfilter (fun b => b) h).
Definition matchRate (h : list bool) : num :=
  if (0 <? length h)%nat then ndiv (num_of_Z (Z.of_nat (matchCount h))) (num_of_Z (Z.of_nat (length h)))
  else num_0.

(** The body of [verifyBlock] after the check: [ok] is pushed. *)
Definition observe (ok : bool) (s : t) : t :=
  let h := push_bounded windowSize (history s) ok in
  let pc := if 0 <? penaltyCooldown s then penaltyCooldown s - 1 else penaltyCooldown s in
  let threshold := match currentMode s with
                   | TURBO => turboMaintainThreshold
                   | FULL => turboEntryThreshold
                   end in
  if (minBlocks <=? length h)%nat && nle threshold (matchRate h) && (pc =? 0)
  then {| history := h; currentMode := TURBO; penaltyCooldown := pc; consecutiveFailures := 0;
          tolerance := tolerance s |}
  else {| history := h; currentMode := FULL; penaltyCooldown := pc;
          consecutiveFailures := consecutiveFailures s; tolerance := tolerance s |}.

Definition verifyBlock (block : Block) (r : TTTRecord) (tier : option jsstr) (s : t) : t * AdaptiveMode :=
  let s' := observe (sequence_ok block r tier s) s in (s', currentMode s').

Definition getFeeDiscount (s : t) : num :=
  match currentMode s with TURBO => num_lit 2 10 | FULL => num_0 end.

Definition reset (s : t) : t :=
  {| history := []; currentMode := FULL; penaltyCooldown := 0; consecutiveFailures := 0;
     tolerance := tolerance s |}.

(** *** Serialization *)

Definition mode_name (m : AdaptiveMode) : jsstr :=
  match m with TURBO => js "TURBO" | FULL => js "FULL" end.

Definition serialize (s : t) : json :=
  JObj [(js "history", JArr (JBool <$> history s));
        (js "currentMode", JStr (mode_name (currentMode s)));
        (js "consecutiveFailures", json_num (num_of_Z (consecutiveFailures s)));
        (js "penaltyCooldown", json_num (num_of_Z (penaltyCooldown s)));
        (js "tolerance", json_num (tolerance s))].

(** [deserialize] copies the parsed fields into the object as they are. *)
Record raw := {
  raw_tolerance : json;
  raw_history : option json;
  raw_currentMode : option json;
  raw_consecutiveFailures : option json;
  raw_penaltyCooldown : option json;
}.

Definition deserialize (text : json_text) : res raw :=
  data ← JSON_parse text;
  tol ← get_field data "tolerance";
  h ← get_field data "history";
  m ← get_field data "currentMode";
  cf ← get_field data "consecutiveFailures";
  pc ← get_field data "penaltyCooldown";
  Ok {| raw_tolerance := match tol with
                         | None | Some JNull => JNum (num_of_Z 100)
                         | Some v => v
                         end;
        raw_history := h; raw_currentMode := m; raw_consecutiveFailures := cf;
        raw_penaltyCooldown := pc |}.

(** The object as its class types it. *)
Definition json_bool (j : json) : option bool := match j with JBool b => Some b | _ => None end.

Definition typed (r : raw) : option t :=
  tol ← match raw_tolerance r with JNum x => Some x | _ => None end;
  h ← match raw_history r with
      | Some (JArr l) => mapM json_bool l
      | _ => None
      end;
  m ← match raw_currentMode r with
      | Some (JStr s) => if bool_decide (s = js "TURBO") then Some TURBO
                         else if bool_decide (s = js "FULL") then Some FULL else None
      | _ => None
      end;
  cf ← match raw_consecutiveFailures r with
       | Some (JNum x) => match bigint_of_num x with Ok z => Some z | _ => None end
       | _ => None
       end;
  pc ← match raw_penaltyCooldown r with
       | Some (JNum x) => match bigint_of_num x with Ok z => Some z | _ => None end
       | _ => None
       end;
  Some {| history := h; currentMode := m; penaltyCooldown := pc; consecutiveFailures := cf;
          tolerance := tol |}.

(** ** The specification: an automaton over the outcomes *)

(** All outcomes since the start, and the mode. *)
Record spec := { outcomes : list bool; mode : AdaptiveMode }.

Definition entry_matches (m : AdaptiveMode) : nat := match m with TURBO => 17 | FULL => 19 end.

Definition spec_step (s : spec) (ok : bool) : spec :=
  let os := outcomes s ++ [ok] in
  {| outcomes := os;
     mode := if (20 <=? length os)%nat
                && (entry_matches (mode s) <=? matchCount (last_n 20 os))%nat
             then TURBO else FULL |}.

Definition abs (tol : num) (s : spec) : t :=
  {| history := last_n 20 (outcomes s); currentMode := mode s; penaltyCooldown := 0;
     consecutiveFailures := 0; tolerance := tol |}.

(** A run of the object over a list of blocks, and the outcomes it sees. *)
Abbreviation input := (Block * TTTRecord * option jsstr)%type.
Definition run (l : list input) (s : t) : t :=
  foldl (fun s i => (verifyBlock i.1.1 i.1.2 i.2 s).1) s l.

(** Only the tolerance of the object enters the outcome of a block. *)
Definition outcome (tol : num) (i : input) : bool := sequence_ok i.1.1 i.1.2 i.2 (make (Some tol)).

(** ** Lemmas *)

(** The rate comparisons on a full window, for every count. *)
Lemma thresholds_20 :
  forallb (fun n =>
      Bool.eqb (nle turboEntryThreshold (ndiv (num_of_Z (Z.of_nat n)) (num_of_Z 20))) (19 <=? n)%nat
      && Bool.eqb (nle turboMaintainThreshold (ndiv (num_of_Z (Z.of_nat n)) (num_of_Z 20))) (17 <=? n)%nat)
    (seq 0 21) = true.
Proof. vm_compute. reflexivity. Qed.

Lemma rate_threshold h m :
  length h = 20%nat ->
  nle (match m with TURBO => turboMaintainThreshold | FULL => turboEntryThreshold end) (matchRate h)
  = (entry_matches m <=? matchCount h)%nat.
Proof.
  intros Hl. pose proof thresholds_20 as H. rewrite forallb_forall in H.
  pose proof (bfilter_length (fun b : bool => b) h) as Hc.
  specialize (H (matchCount h)). rewrite in_seq in H. unfold matchCount in *.
  specialize (H ltac:(lia)). apply andb_prop in H as [H1 H2].
  apply Bool.eqb_prop in H1, H2. unfold matchRate, matchCount. rewrite Hl.
  cbn [Nat.ltb Nat.leb]. change (Z.of_nat 20) with 20. by destruct m.
Qed.

Lemma sequence_ok_outcome b r tr s : sequence_ok b r tr s = outcome (tolerance s) (b, r, tr).
Proof. unfold sequence_ok, outcome, sequence_ok. by destruct tr as [[|c l]|]. Qed.

(** One block of the object is one step of the automaton. *)
Lemma observe_abs tol s ok : observe ok (abs tol s) = abs tol (spec_step s ok).
Proof.
  unfold observe, abs, spec_step. cbn [history currentMode penaltyCooldown consecutiveFailures tolerance outcomes mode].
  rewrite push_bounded_last_n; [|rewrite last_n_length; unfold windowSize; lia|unfold windowSize; lia].
  change windowSize with 20%nat. rewrite last_n_app. set (os := outcomes s ++ [ok]).
  change (0 <? 0) with false. cbn [Z.eqb].
  destruct (Nat.leb_spec 20 (length os)) as [Hge|Hlt].
  - assert (length (last_n 20 os) = 20%nat) as Hl by (rewrite last_n_length; lia).
    rewrite (rate_threshold _ (mode s) Hl), Hl. cbn [minBlocks Nat.leb andb].
    destruct (_ <=? _)%nat; done.
  - replace (minBlocks <=? length (last_n 20 os))%nat with false; [done|].
    symmetry. apply Nat.leb_gt. rewrite last_n_length. unfold minBlocks. lia.
Qed.

Lemma run_abs tol l s : run l (abs tol s) = abs tol (foldl spec_step s (outcome tol <$> l)).
Proof.
  revert s. induction l as [|[[b r] tr] l IH]; intros s; [done|].
  csimpl. unfold verifyBlock. cbn [fst snd]. rewrite sequence_ok_outcome, observe_abs. apply IH.
Qed.

Lemma make_abs o : make o = abs (default (num_of_Z 100) o) {| outcomes := []; mode := FULL |}.
Proof. done. Qed.

Lemma foldl_spec_outcomes os s : outcomes (foldl spec_step s os) = outcomes s ++ os.
Proof.
  revert s. induction os as [|o os IH]; intros s; simpl; [by rewrite app_nil_r|].
  rewrite IH. simpl. by rewrite <- app_assoc.
Qed.

Lemma deserialize_serialize s :
  deserialize (Some (serialize s))
  = Ok {| raw_tolerance := match json_num (tolerance s) with JNull => JNum (num_of_Z 100) | v => v end;
          raw_history := Some (JArr (JBool <$> history s));
          raw_currentMode := Some (JStr (mode_name (currentMode s)));
          raw_consecutiveFailures := Some (json_num (num_of_Z (consecutiveFailures s)));
          raw_penaltyCooldown := Some (json_num (num_of_Z (penaltyCooldown s))) |}.
Proof. unfold serialize. by destruct (json_num (tolerance s)). Qed.

Lemma mapM_json_bool h : mapM json_bool (JBool <$> h) = Some h.
Proof. by apply mapM_fmap_Some. Qed.

Lemma typed_raw tol h m :
  typed {| raw_tolerance := JNum tol; raw_history := Some (JArr (JBool <$> h));
           raw_currentMode := Some (JStr (mode_name m));
           raw_consecutiveFailures := Some (json_num (num_of_Z 0));
           raw_penaltyCooldown := Some (json_num (num_of_Z 0)) |}
  = Some {| history := h; currentMode := m; penaltyCooldown := 0; consecutiveFailures := 0;
            tolerance := tol |}.
Proof.
  unfold typed. cbn [raw_tolerance raw_history raw_currentMode raw_consecutiveFailures raw_penaltyCooldown mbind option_bind].
  rewrite mapM_json_bool. by destruct m.
Qed.

(** ** Properties *)

(** C30: The switch refines the automaton over the outcomes: after any sequence
    of blocks its window is the last twenty outcomes and its mode is the one
    of the automaton, which enters TURBO with 19 matches out of the last 20,
    stays there with 17 and is in FULL during the first 19 blocks; the
    floating-point rates 0.95 and 0.85 decide exactly these integer
    thresholds.  The penalty counters stay zero. *)
Theorem adaptive_refines_automaton o (l : list input) :
  let tol := default (num_of_Z 100) o in
  run l (make o) = abs tol (foldl spec_step {| outcomes := []; mode := FULL |} (outcome tol <$> l)).
Proof. cbv zeta. rewrite make_abs. apply run_abs. Qed.

(** There is no backoff: whatever happened before, twenty consecutive
    matching blocks bring the switch back to TURBO and its full discount. *)
Lemma adaptive_no_backoff o (l good : list input) :
  length good = 20%nat -> Forall (fun i => outcome (default (num_of_Z 100) o) i = true) good ->
  currentMode (run (l ++ good) (make o)) = TURBO
  /\ getFeeDiscount (run (l ++ good) (make o)) = num_lit 2 10.
Proof.
  intros Hl Hg. assert (currentMode (run (l ++ good) (make o)) = TURBO) as Hm.
  { rewrite make_abs, run_abs. cbn [abs currentMode]. set (tol := default _ o) in *.
    assert (outcome tol <$> good = replicate 19 true ++ [true]) as E.
    { change (replicate 19 true ++ [true]) with (replicate 20 true). symmetry.
      apply replicate_as_elem_of. split; [by rewrite length_fmap|].
      intros x (i & -> & Hi)%list_elem_of_fmap. by apply (proj1 (Forall_forall _ _) Hg). }
    rewrite fmap_app, E, app_assoc, foldl_app. cbn [foldl]. unfold spec_step at 1. cbn [mode].
    rewrite foldl_spec_outcomes. cbn [outcomes app].
    rewrite <- app_assoc. change (replicate 19 true ++ [true]) with (replicate 20 true).
    set (os := outcome tol <$> l).
    replace (20 <=? _)%nat with true by (symmetry; apply Nat.leb_le; rewrite length_app, length_replicate; lia).
    unfold last_n. rewrite length_app, length_replicate.
    replace (length os + 20 - 20)%nat with (length os) by lia. rewrite drop_app_length.
    by destruct (mode _). }
  split; [done|]. unfold getFeeDiscount. by rewrite Hm.
Qed.

(** [deserialize] inverts [serialize] on every reachable switch with a
    finite tolerance. *)
Lemma adaptive_serialize_roundtrip o (l : list input) :
  json_safe (default (num_of_Z 100) o) = true ->
  typed <$> deserialize (Some (serialize (run l (make o)))) = Ok (Some (run l (make o))).
Proof.
  intros Hsafe. rewrite make_abs, run_abs. set (s := foldl _ _ _). set (tol := default _ o) in *.
  rewrite deserialize_serialize. cbn [abs tolerance history currentMode consecutiveFailures penaltyCooldown].
  rewrite (json_num_safe tol Hsafe). cbn [fmap result_fmap]. f_equal. by apply typed_raw.
Qed.

(** ** Witnesses *)

Definition ex_block (ts : Z) : input :=
  ({| blk_timestamp := num_of_Z ts; blk_txs := [js "0xa"]; blk_data := [] |},
   {| rec_time := num_of_Z 1710412800000; txOrder := [js "0xa"]; grgPayload := [] |}, Some (js "T1_block")).
Definition ex_bad : list input := replicate 40 (ex_block 1710412800200).
Definition ex_good : list input := replicate 20 (ex_block 1710412800199).

Lemma adaptive_no_backoff_witness :
  currentMode (run (ex_bad ++ ex_good) (make None)) = TURBO
  /\ getFeeDiscount (run (ex_bad ++ ex_good) (make None)) = num_lit 2 10.
Proof. apply (adaptive_no_backoff None ex_bad ex_good); [reflexivity|repeat constructor]. Defined.

Lemma adaptive_serialize_roundtrip_witness :
  typed <$> deserialize (Some (serialize (run ex_good (make None)))) = Ok (Some (run ex_good (make None))).
Proof. apply (adaptive_serialize_roundtrip None ex_good). vm_compute. reflexivity. Defined.

End Adaptive.
