(* ===== verification/PotFrame.v ===== *)
(** * PoT frames (src/src/pot_frame.ts)

    The 175-byte frame: a 32-byte binding key and a 143-byte signed record.
    Encoding, decoding and the structural validation, with the round trips
    between frames, records and their fields. *)
From Stdlib Require Import ZArith Lia String Strings.Byte.
From stdpp Require Import base list numbers option strings.
From S2P Require Import Prelude JSString Errors Bytes.

Definition POT_RECORD_SIZE : nat := 143.
Definition POT_WITHOUT_SIG_SIZE : nat := 79.
Definition BINDING_KEY_SIZE : nat := 32.
Definition POT_FRAME_SIZE : nat := 175.

Record PotFrame := {
  pf_bindingKey : Buffer;
  pf_potRecord : Buffer;
  pf_version : Z;
  pf_tier : Z;
  pf_reserved : Z;
  pf_timestamp : Z;
  pf_confidence : Z;
  pf_nonce : Buffer;
  pf_grgCommit : Buffer;
  pf_ed25519Sig : Buffer;
}.

Definition encodePotFrame (bindingKey potRecord : Buffer) : res Buffer :=
  if negb (length bindingKey =? BINDING_KEY_SIZE)%nat then Throw PotFrameError
  else if negb (length potRecord =? POT_RECORD_SIZE)%nat then Throw PotFrameError
  else
    let frame := zeros POT_FRAME_SIZE in
    Ok (overwrite (overwrite frame 0 bindingKey) BINDING_KEY_SIZE potRecord).

Definition decodePotFrame (frame : Buffer) : res PotFrame :=
  if negb (length frame =? POT_FRAME_SIZE)%nat then Throw PotFrameError
  else
    let bindingKey := subarray frame 0 BINDING_KEY_SIZE in
    let potRecord := subarray frame BINDING_KEY_SIZE POT_FRAME_SIZE in
    versionTier ← readUInt8 potRecord 0;
    let version := Z.land (Z.shiftr versionTier 4) 15 in
    let tier := Z.land versionTier 15 in
    _ ← readUInt8 potRecord 1;
    reserved ← readUInt8 potRecord 2;
    timestamp ← readBigUInt64BE potRecord 3;
    confidence ← readUInt32BE potRecord 11;
    Ok {| pf_bindingKey := bindingKey; pf_potRecord := potRecord; pf_version := version;
          pf_tier := tier; pf_reserved := reserved; pf_timestamp := timestamp;
          pf_confidence := confidence; pf_nonce := subarray potRecord 15 47;
          pf_grgCommit := subarray potRecord 47 79; pf_ed25519Sig := subarray potRecord 79 143 |}.

Definition potRecordWithoutSig (potRecord : Buffer) : res Buffer :=
  if negb (length potRecord =? POT_RECORD_SIZE)%nat then Throw PotFrameError
  else Ok (subarray potRecord 0 POT_WITHOUT_SIG_SIZE).

Definition validatePotFrameStructure (frame : Buffer) : res unit :=
  if negb (length frame =? POT_FRAME_SIZE)%nat then Throw PotFrameError
  else
    parsed ← decodePotFrame frame;
    if negb (pf_version parsed =? 1) then Throw PotFrameError
    else if 3 <? pf_tier parsed then Throw PotFrameError
    else if negb (pf_reserved parsed =? 0) then Throw PotFrameError
    else Ok tt.

(** ** The record layout *)

(** The bytes of a record with the given fields. *)
Definition record_bytes (version tier sources reserved timestamp confidence : Z)
    (nonce grg sig : Buffer) : Buffer :=
  [bofZ (16 * version + tier)] ++ [bofZ sources] ++ [bofZ reserved]
  ++ be_bytes 8 timestamp ++ be_bytes 4 confidence ++ nonce ++ grg ++ sig.

(** ** Lemmas *)

Lemma encode_ok bk rec :
  length bk = 32%nat -> length rec = 143%nat -> encodePotFrame bk rec = Ok (bk ++ rec).
Proof.
  intros H1 H2. unfold encodePotFrame. rewrite H1, H2. cbn -[overwrite zeros]. f_equal.
  assert (overwrite (zeros POT_FRAME_SIZE) 0 bk = bk ++ zeros 143) as ->
    by (apply (overwrite_fits [] (zeros 32) (zeros 143) bk); done).
  pose proof (overwrite_fits bk (zeros 143) [] rec) as E. rewrite !app_nil_r, H1 in E.
  apply E. by rewrite H2.
Qed.

(** Decoding a frame whose two parts are known. *)
Lemma decode_parts bk rec :
  length bk = 32%nat -> length rec = 143%nat ->
  exists f, decodePotFrame (bk ++ rec) = Ok f
    /\ pf_bindingKey f = bk /\ pf_potRecord f = rec
    /\ pf_version f = Z.land (Z.shiftr (be_val (take 1 rec)) 4) 15
    /\ pf_tier f = Z.land (be_val (take 1 rec)) 15
    /\ pf_reserved f = be_val (take 1 (drop 2 rec))
    /\ pf_timestamp f = be_val (take 8 (drop 3 rec))
    /\ pf_confidence f = be_val (take 4 (drop 11 rec))
    /\ pf_nonce f = subarray rec 15 47
    /\ pf_grgCommit f = subarray rec 47 79
    /\ pf_ed25519Sig f = subarray rec 79 143.
Proof.
  intros H1 H2. unfold decodePotFrame. rewrite length_app, H1, H2. cbn [Nat.add Nat.eqb POT_FRAME_SIZE negb].
  assert (subarray (bk ++ rec) 0 BINDING_KEY_SIZE = bk) as ->.
  { rewrite subarray_take by (rewrite length_app; unfold BINDING_KEY_SIZE; lia).
    unfold BINDING_KEY_SIZE. by rewrite <- H1, take_app_length. }
  assert (subarray (bk ++ rec) BINDING_KEY_SIZE POT_FRAME_SIZE = rec) as ->.
  { replace POT_FRAME_SIZE with (length (bk ++ rec)) by (rewrite length_app; unfold POT_FRAME_SIZE; lia).
    rewrite subarray_drop. unfold BINDING_KEY_SIZE. by rewrite <- H1, drop_app_length. }
  unfold readUInt8, readBigUInt64BE, readUInt32BE, read_bytes. rewrite H2.
  cbn -[be_val subarray take drop Z.land Z.shiftr]. rewrite drop_0. eexists. split; [done|]. by split_and!.
Qed.

Lemma frame_split (frame : Buffer) :
  length frame = 175%nat ->
  exists bk rec, frame = bk ++ rec /\ length bk = 32%nat /\ length rec = 143%nat.
Proof.
  intros H. exists (take 32 frame), (drop 32 frame).
  rewrite take_drop, length_take, length_drop. split_and!; [done|lia|lia].
Qed.

Lemma decode_length (frame : Buffer) f : decodePotFrame frame = Ok f -> length frame = 175%nat.
Proof.
  unfold decodePotFrame. destruct (Nat.eqb_spec (length frame) POT_FRAME_SIZE) as [H|]; [done|done].
Qed.

(** A frame of the right length always decodes, to its two parts. *)
Lemma decode_total (frame : Buffer) :
  length frame = 175%nat -> exists f, decodePotFrame frame = Ok f /\ frame = pf_bindingKey f ++ pf_potRecord f
    /\ length (pf_bindingKey f) = 32%nat /\ length (pf_potRecord f) = 143%nat.
Proof.
  intros H. destruct (frame_split frame H) as (bk & rec & -> & H1 & H2).
  destruct (decode_parts bk rec H1 H2) as (f & E & E1 & E2 & _). exists f. by rewrite E1, E2.
Qed.

Lemma nibbles v t : 0 <= v < 16 -> 0 <= t < 16 ->
  Z.land (Z.shiftr (16 * v + t) 4) 15 = v /\ Z.land (16 * v + t) 15 = t.
Proof.
  intros Hv Ht. change 15 with (Z.ones 4). rewrite !Z.land_ones, Z.shiftr_div_pow2 by lia.
  change (2 ^ 4) with 16. split; zdiv.
Qed.

Lemma take_drop_mid (l1 l2 l3 : Buffer) k n :
  k = length l1 -> n = length l2 -> take n (drop k (l1 ++ l2 ++ l3)) = l2.
Proof. intros -> ->. by rewrite drop_app_length, take_app_length. Qed.

(** The record as three parts around a field. *)
Ltac record_parts l1 l2 l3 :=
  match goal with
  | |- context [record_bytes ?a ?b ?c ?d ?e ?f ?g ?h ?i] =>
      replace (record_bytes a b c d e f g h i) with (l1 ++ l2 ++ l3)
        by (unfold record_bytes; rewrite <- ?app_assoc, ?app_nil_r; reflexivity)
  end.

Lemma length_record version tier sources reserved timestamp confidence nonce grg sig :
  length nonce = 32%nat -> length grg = 32%nat -> length sig = 64%nat ->
  length (record_bytes version tier sources reserved timestamp confidence nonce grg sig) = 143%nat.
Proof.
  intros Hn Hg Hs. unfold record_bytes. rewrite !length_app, !length_be_bytes. simpl. lia.
Qed.

Lemma record_fields version tier sources reserved timestamp confidence nonce grg sig :
  0 <= version < 16 -> 0 <= tier < 16 -> 0 <= reserved < 256 ->
  0 <= timestamp < 2 ^ 64 -> 0 <= confidence < 2 ^ 32 ->
  length nonce = 32%nat -> length grg = 32%nat -> length sig = 64%nat ->
  let rec := record_bytes version tier sources reserved timestamp confidence nonce grg sig in
  be_val (take 1 rec) = 16 * version + tier /\ be_val (take 1 (drop 2 rec)) = reserved
  /\ be_val (take 8 (drop 3 rec)) = timestamp /\ be_val (take 4 (drop 11 rec)) = confidence
  /\ subarray rec 15 47 = nonce /\ subarray rec 47 79 = grg /\ subarray rec 79 143 = sig.
Proof.
  intros Hv Ht Hr Hts Hc Hn Hg Hs rec. subst rec.
  set (h1 := [bofZ (16 * version + tier)]). set (h2 := [bofZ sources]). set (h3 := [bofZ reserved]).
  set (t8 := be_bytes 8 timestamp). set (c4 := be_bytes 4 confidence).
  assert (length t8 = 8%nat) as Ht8 by apply length_be_bytes.
  assert (length c4 = 4%nat) as Hc4 by apply length_be_bytes.
  split_and!.
  - cbn. rewrite bval_bofZ, Z.mod_small; lia.
  - cbn. rewrite bval_bofZ, Z.mod_small; lia.
  - record_parts (h1 ++ h2 ++ h3) t8 (c4 ++ nonce ++ grg ++ sig).
    rewrite take_drop_mid by done. unfold t8. rewrite be_val_be_bytes. by apply Z.mod_small.
  - record_parts (h1 ++ h2 ++ h3 ++ t8) c4 (nonce ++ grg ++ sig).
    rewrite take_drop_mid by (rewrite ?length_app, ?Ht8; done).
    unfold c4. rewrite be_val_be_bytes. by apply Z.mod_small.
  - record_parts (h1 ++ h2 ++ h3 ++ t8 ++ c4) nonce (grg ++ sig).
    apply subarray_app; rewrite ?length_app, ?Ht8, ?Hc4, ?Hn; done.
  - record_parts (h1 ++ h2 ++ h3 ++ t8 ++ c4 ++ nonce) grg sig.
    apply subarray_app; rewrite ?length_app, ?Ht8, ?Hc4, ?Hn, ?Hg; done.
  - record_parts (h1 ++ h2 ++ h3 ++ t8 ++ c4 ++ nonce ++ grg) sig ([] : Buffer).
    apply subarray_app; rewrite ?length_app, ?Ht8, ?Hc4, ?Hn, ?Hg, ?Hs; done.
Qed.

(** ** Properties *)

(** A record written field by field (nibbles, 64-bit nanoseconds, 32-bit
    confidence, nonce, commitment, signature), framed by [encodePotFrame] and
    decoded by [decodePotFrame], gives back every field. *)
Lemma frame_fields_roundtrip bk version tier sources reserved timestamp confidence nonce grg sig :
  length bk = 32%nat -> 0 <= version < 16 -> 0 <= tier < 16 -> 0 <= reserved < 256 ->
  0 <= timestamp < 2 ^ 64 -> 0 <= confidence < 2 ^ 32 ->
  length nonce = 32%nat -> length grg = 32%nat -> length sig = 64%nat ->
  let rec := record_bytes version tier sources reserved timestamp confidence nonce grg sig in
  encodePotFrame bk rec ≫= decodePotFrame
  = Ok {| pf_bindingKey := bk; pf_potRecord := rec; pf_version := version; pf_tier := tier;
          pf_reserved := reserved; pf_timestamp := timestamp; pf_confidence := confidence;
          pf_nonce := nonce; pf_grgCommit := grg; pf_ed25519Sig := sig |}.
Proof.
  intros Hbk Hv Ht Hr Hts Hc Hn Hg Hs rec.
  assert (length rec = 143%nat) as Hrec by by apply length_record.
  destruct (record_fields version tier sources reserved timestamp confidence nonce grg sig)
    as (F1 & F2 & F3 & F4 & F5 & F6 & F7); [done..|]. fold rec in F1, F2, F3, F4, F5, F6, F7.
  clearbody rec. rewrite encode_ok by done. cbn [mbind result_bind].
  destruct (decode_parts bk rec Hbk Hrec) as (f & -> & E). f_equal.
  rewrite F1, F2, F3, F4, F5, F6, F7 in E. destruct (nibbles version tier Hv Ht) as [N1 N2].
  rewrite N1, N2 in E. destruct f. simpl in E. by destruct E as (-> & -> & -> & -> & -> & -> & -> & -> & -> & ->).
Qed.

(** Decoding succeeds exactly on buffers of 175 bytes, and re-encoding the
    binding key and the record of a decoded frame gives the frame back. *)
Lemma frame_decode_encode (frame : Buffer) :
  (length frame = 175%nat <-> exists f, decodePotFrame frame = Ok f)
  /\ forall f, decodePotFrame frame = Ok f ->
       encodePotFrame (pf_bindingKey f) (pf_potRecord f) = Ok frame.
Proof.
  split; [split|].
  - intros H. destruct (decode_total frame H) as (f & E & _). eauto.
  - intros (f & E). by eapply decode_length.
  - intros f E. destruct (decode_total frame (decode_length _ _ E)) as (f' & E' & Hf & H1 & H2).
    rewrite E in E'. injection E' as <-. rewrite Hf. by apply encode_ok.
Qed.

(** The structural validation accepts exactly the 175-byte frames whose
    first record byte is 0x10 to 0x13 (version 1, tier 0 to 3) and whose third
    record byte is zero; otherwise it throws a [PotFrameError]. *)
Lemma validate_frame_spec (frame : Buffer) :
  (length frame = 175%nat /\ 16 <= be_val (take 1 (drop 32 frame)) <= 19
     /\ be_val (take 1 (drop 34 frame)) = 0 ->
   validatePotFrameStructure frame = Ok tt)
  /\ (~ (length frame = 175%nat /\ 16 <= be_val (take 1 (drop 32 frame)) <= 19
         /\ be_val (take 1 (drop 34 frame)) = 0) ->
      validatePotFrameStructure frame = Throw PotFrameError).
Proof.
  unfold validatePotFrameStructure.
  destruct (Nat.eqb_spec (length frame) POT_FRAME_SIZE) as [H|H]; cbn [negb];
    [|split; [by intros (? & _)|done]].
  destruct (frame_split frame H) as (bk & rec & -> & H1 & H2).
  destruct (decode_parts bk rec H1 H2) as (f & -> & _ & _ & Ev & Et & Er & _).
  cbn [mbind result_bind]. rewrite Ev, Et, Er, H.
  assert (drop 32 (bk ++ rec) = rec) as E32 by (rewrite <- H1; apply drop_app_length).
  assert (drop 34 (bk ++ rec) = drop 2 rec) as E34
    by (change 34%nat with (32 + 2)%nat; by rewrite <- drop_drop, E32).
  rewrite E32, E34.
  pose proof (be_val_range (take 1 rec)) as Hb. rewrite length_take, H2 in Hb.
  change (256 ^ Z.of_nat (1 `min` 143)) with 256 in Hb.
  set (b := be_val (take 1 rec)) in *. set (rv := be_val (take 1 (drop 2 rec))) in *.
  change 15 with (Z.ones 4). rewrite !Z.land_ones, Z.shiftr_div_pow2 by lia. change (2 ^ 4) with 16.
  destruct (Z.eqb_spec (b / 16 mod 16) 1); cbn [negb]; [|split; [intros (_ & ? & ?); exfalso; zdiv|done]].
  destruct (Z.ltb_spec 3 (b mod 16)); [split; [intros (_ & ? & ?); exfalso; zdiv|done]|].
  destruct (Z.eqb_spec rv 0); cbn [negb]; [|split; [intros (_ & ? & ?); exfalso; zdiv|done]].
  split; [done|]. intros Hneg. exfalso. apply Hneg. split_and!; [done|zdiv..].
Qed.

(** ** Witnesses *)

Definition ex_record : Buffer :=
  record_bytes 1 2 3 0 1710412800123456789 999000 (zeros 32) (replicate 32 Byte.x07) (replicate 64 Byte.xff).

Lemma frame_fields_roundtrip_witness :
  encodePotFrame (replicate 32 Byte.xaa) ex_record ≫= decodePotFrame
  = Ok {| pf_bindingKey := replicate 32 Byte.xaa; pf_potRecord := ex_record; pf_version := 1; pf_tier := 2;
          pf_reserved := 0; pf_timestamp := 1710412800123456789; pf_confidence := 999000;
          pf_nonce := zeros 32; pf_grgCommit := replicate 32 Byte.x07;
          pf_ed25519Sig := replicate 64 Byte.xff |}.
Proof.
  apply (frame_fields_roundtrip (replicate 32 Byte.xaa) 1 2 3 0 1710412800123456789 999000
           (zeros 32) (replicate 32 Byte.x07) (replicate 64 Byte.xff)); (reflexivity || lia).
Defined.

Lemma frame_decode_encode_witness :
  decodePotFrame (replicate 32 Byte.xaa ++ ex_record) ≫= (fun f => encodePotFrame (pf_bindingKey f) (pf_potRecord f))
  = Ok (replicate 32 Byte.xaa ++ ex_record).
Proof.
  destruct (frame_decode_encode (replicate 32 Byte.xaa ++ ex_record)) as [H1 H2].
  destruct (proj1 H1 eq_refl) as [f E]. rewrite E. exact (H2 f E).
Defined.

Lemma validate_frame_spec_witness :
  validatePotFrameStructure (replicate 32 Byte.xaa ++ ex_record) = Ok tt.
Proof.
  apply (validate_frame_spec (replicate 32 Byte.xaa ++ ex_record)).
  split_and!; vm_compute; done.
Defined.
