(* ===== verification/PotVerifier.v ===== *)
(** * TLS binding and PotVerifier (src/src/tls_binding.ts, src/src/pot_verifier.ts)

    The verifier of PoT frames received over TLS.  The TLS exporter is a field
    of the socket, [crypto.verify] on Ed25519 keys is a parameter; the nonce
    cache is anything that implements the [NonceCache] interface.  The replay
    theorems are proved against the laws of that interface and instantiated
    with [MemoryNonceCache]. *)
From Stdlib Require Import ZArith Lia String Strings.Byte.
From stdpp Require Import base list numbers option strings.
From S2P Require Import Prelude JSString Errors Bytes JSMap NonceCache PotFrame.

(** ** tls_binding.ts *)

Record TLSSocket := {
  encrypted : bool;
  exportKeyingMaterial : nat -> string -> Buffer -> Buffer;
}.

Definition TTTPS_EXPORTER_LABEL : string := "EXPORTER-tttps-pot-binding".
Definition TTTPS_BINDING_KEY_LENGTH : nat := 32.

Definition computeBindingKey (socket : TLSSocket) (potWithoutSig : Buffer) : res Buffer :=
  if negb (encrypted socket) then Throw TLSBindingError
  else Ok (exportKeyingMaterial socket TTTPS_BINDING_KEY_LENGTH TTTPS_EXPORTER_LABEL potWithoutSig).

Definition timingSafeEqual (a b : Buffer) : bool :=
  if negb (length a =? length b)%nat then false else bool_decide (a = b).

Definition verifyBindingKey (socket : TLSSocket) (potWithoutSig received : Buffer) : res bool :=
  if negb (length received =? TTTPS_BINDING_KEY_LENGTH)%nat then Ok false
  else expected ← computeBindingKey socket potWithoutSig; Ok (timingSafeEqual expected received).

(** ** pot_verifier.ts *)

Definition TTTPS_TIER_TOLERANCE_MS (tier : Z) : option Z :=
  if tier =? 0 then Some 60000 else if tier =? 1 then Some 2000
  else if tier =? 2 then Some 12000 else if tier =? 3 then Some 100 else None.

Inductive VerifyError : Set :=
| UNKNOWN_VERSION | BINDING_KEY_MISMATCH | HMAC_CONTEXT_FAILURE | SIGNATURE_INVALID
| SUBMISSION_OUTSIDE_TOLERANCE | NONCE_REPLAY | FRAME_MALFORMED.

Record VerifyResult := {
  valid : bool;
  error : option VerifyError;
  frame_ : option PotFrame;
  latencyMs : option Z;
}.

Definition rejected (e : VerifyError) (f : option PotFrame) : VerifyResult :=
  {| valid := false; error := Some e; frame_ := f; latencyMs := None |}.

(** The window of a frame: an unknown tier has the one of tier 1. *)
Definition tier_tolerance (tier : Z) : Z :=
  default (default 0 (TTTPS_TIER_TOLERANCE_MS 1)) (TTTPS_TIER_TOLERANCE_MS tier).

(** [Number(timestamp / 1_000_000n)]: below 2^45, hence exact. *)
Definition pot_ms (f : PotFrame) : Z := pf_timestamp f / 1000000.

Section PotVerifier.
(** [crypto.verify(null, data, key, signature)] with a DER public key. *)
Variable crypto_verify : Buffer -> Buffer -> Buffer -> res bool.
Context {C : Type} `{NonceCache C}.

Definition verifyEd25519 (issuerPubKey data signature : Buffer) : bool :=
  match crypto_verify issuerPubKey data signature with Ok b => b | Throw _ => false end.

(** The constructor's key: a string is read as hex. *)
Definition issuer_key (k : jsstr + Buffer) : Buffer :=
  match k with inl s => from_hex s | inr b => b end.

(** [verify(socket, frame, nowMs)]; [h], [a1], [a2] are the clock readings of
    the nonce cache. *)
Definition verify (issuerPubKey : Buffer) (socket : TLSSocket) (frame : Buffer) (nowMs h a1 a2 : Z)
    (cache : C) : C * res VerifyResult :=
  if negb (length frame =? POT_FRAME_SIZE)%nat then (cache, Ok (rejected FRAME_MALFORMED None))
  else match decodePotFrame frame with
  | Throw _ => (cache, Ok (rejected FRAME_MALFORMED None))
  | Ok parsed =>
      if negb (pf_version parsed =? 1) then (cache, Ok (rejected UNKNOWN_VERSION None))
      else match (w ← potRecordWithoutSig (pf_potRecord parsed);
                  verifyBindingKey socket w (pf_bindingKey parsed)) with
      | Throw e => (cache, Throw e)
      | Ok false => (cache, Ok (rejected BINDING_KEY_MISMATCH (Some parsed)))
      | Ok true =>
          if negb (verifyEd25519 issuerPubKey (subarray (pf_potRecord parsed) 0 79) (pf_ed25519Sig parsed))
          then (cache, Ok (rejected SIGNATURE_INVALID (Some parsed)))
          else
            let latency := nowMs - pot_ms parsed in
            if tier_tolerance (pf_tier parsed) <? latency
            then (cache, Ok {| valid := false; error := Some SUBMISSION_OUTSIDE_TOLERANCE;
                               frame_ := Some parsed; latencyMs := Some latency |})
            else
              let nonceHex := to_hex (pf_nonce parsed) in
              let '(cache1, seen) := nc_has h nonceHex cache in
              if seen then (cache1, Ok (rejected NONCE_REPLAY (Some parsed)))
              else (nc_add a1 a2 nonceHex cache1,
                    Ok {| valid := true; error := None; frame_ := Some parsed; latencyMs := Some latency |})
      end
  end.

Definition accepts (r : res VerifyResult) : bool :=
  match r with Ok v => valid v | Throw _ => false end.

(** ** What an authentic frame is *)

Definition authentic (issuerPubKey : Buffer) (socket : TLSSocket) (frame : Buffer) (f : PotFrame) : Prop :=
  decodePotFrame frame = Ok f
  /\ pf_version f = 1
  /\ encrypted socket = true
  /\ exportKeyingMaterial socket 32 TTTPS_EXPORTER_LABEL (take 79 (pf_potRecord f)) = pf_bindingKey f
  /\ crypto_verify issuerPubKey (take 79 (pf_potRecord f)) (pf_ed25519Sig f) = Ok true.

(** ** Lemmas *)

Lemma timingSafeEqual_spec a b : timingSafeEqual a b = true <-> a = b.
Proof.
  unfold timingSafeEqual. destruct (Nat.eqb_spec (length a) (length b)); cbn [negb].
  - apply bool_decide_eq_true.
  - split; [done|congruence].
Qed.

Lemma binding_spec socket w received :
  length received = 32%nat ->
  verifyBindingKey socket w received
  = if encrypted socket
    then Ok (bool_decide (exportKeyingMaterial socket 32 TTTPS_EXPORTER_LABEL w = received))
    else Throw TLSBindingError.
Proof.
  intros Hl. unfold verifyBindingKey, computeBindingKey. rewrite Hl. cbn [Nat.eqb negb TTTPS_BINDING_KEY_LENGTH].
  destruct (encrypted socket); [|done]. cbn. f_equal. apply eq_true_iff_eq.
  by rewrite timingSafeEqual_spec, bool_decide_eq_true.
Qed.

Lemma verify_accepts key socket frame nowMs h a1 a2 c :
  accepts (verify key socket frame nowMs h a1 a2 c).2 = true
  <-> exists f, authentic key socket frame f
        /\ nowMs - pot_ms f <= tier_tolerance (pf_tier f)
        /\ (nc_has h (to_hex (pf_nonce f)) c).2 = false.
Proof.
  unfold verify, authentic. destruct (Nat.eqb_spec (length frame) POT_FRAME_SIZE) as [Hl|Hl]; cbn [negb].
  2: { split; [done|]. intros (f & (E & _) & _). by apply decode_length in E. }
  destruct (decode_total frame Hl) as (f & E & Hf & Hbk & Hrec). rewrite E. cbn [mbind result_bind].
  unfold potRecordWithoutSig. rewrite Hrec. cbn [Nat.eqb negb POT_RECORD_SIZE mbind result_bind].
  rewrite (binding_spec _ _ _ Hbk).
  rewrite !subarray_take by (rewrite Hrec; unfold POT_WITHOUT_SIG_SIZE; lia).
  change POT_WITHOUT_SIG_SIZE with 79%nat.
  transitivity ((pf_version f = 1 /\ encrypted socket = true
     /\ exportKeyingMaterial socket 32 TTTPS_EXPORTER_LABEL (take 79 (pf_potRecord f)) = pf_bindingKey f
     /\ crypto_verify key (take 79 (pf_potRecord f)) (pf_ed25519Sig f) = Ok true)
     /\ nowMs - pot_ms f <= tier_tolerance (pf_tier f)
     /\ (nc_has h (to_hex (pf_nonce f)) c).2 = false).
  2: { split; [intros (HA & HB & HC); exists f; naive_solver|].
       intros (f' & (E' & HA) & HB). injection E' as <-. done. }
  destruct (Z.eqb_spec (pf_version f) 1); cbn [negb]; [|naive_solver].
  destruct (encrypted socket); [|naive_solver].
  case_bool_decide; [|naive_solver].
  unfold verifyEd25519. destruct (crypto_verify _ _ _) as [[|]|]; cbn [negb]; [|naive_solver..].
  destruct (Z.ltb_spec (tier_tolerance (pf_tier f)) (nowMs - pot_ms f)); [naive_solver lia|].
  destruct (nc_has h _ c) as [c1 [|]]; cbn; naive_solver.
Qed.

(** What a verification does to the cache. *)
Lemma verify_cache key socket frame nowMs h a1 a2 c :
  let r := verify key socket frame nowMs h a1 a2 c in
  r.1 = c
  \/ (exists f, decodePotFrame frame = Ok f /\ r.1 = (nc_has h (to_hex (pf_nonce f)) c).1)
  \/ (exists f, decodePotFrame frame = Ok f /\ (nc_has h (to_hex (pf_nonce f)) c).2 = false
      /\ r.1 = nc_add a1 a2 (to_hex (pf_nonce f)) (nc_has h (to_hex (pf_nonce f)) c).1).
Proof.
  cbv zeta. unfold verify. destruct (negb (length frame =? _)%nat); [by left|].
  destruct (decodePotFrame frame) as [f|]; [|by left].
  destruct (negb (pf_version f =? 1)); [by left|].
  destruct (_ ≫= _) as [[|]|]; [|by left..].
  destruct (negb _); [by left|]. destruct (_ <? _); [by left|].
  destruct (nc_has h _ c) as [c1 [|]] eqn:E; cbn; right; [left|right]; exists f; by rewrite E.
Qed.

(** ** Runs of verifications

    One call of [verify] with all its clock readings: [r_now] is the argument
    [nowMs] (a default [Date.now()], or whatever the caller passes), [r_has],
    [r_sweep] and [r_add] are the cache's own. *)
Record request := {
  r_socket : TLSSocket; r_frame : Buffer; r_now : Z; r_has : Z; r_sweep : Z; r_add : Z;
}.

Definition serve (key : Buffer) (r : request) (c : C) : C * res VerifyResult :=
  verify key (r_socket r) (r_frame r) (r_now r) (r_has r) (r_sweep r) (r_add r) c.

Definition serve_all (key : Buffer) (l : list request) (c : C) : C :=
  foldl (fun c r => (serve key r c).1) c l.

(** The cache's clock has not passed [now'] during a request. *)
Definition cache_before (now' : Z) (r : request) : Prop := r_has r <= now' /\ r_sweep r <= now'.

Context `{!NonceCacheLaws C}.

Lemma serve_keeps key r c now' n :
  nc_inv c -> cache_before now' r -> nc_live now' n c -> nc_live now' n (serve key r c).1.
Proof.
  intros Hi [Hh Hs] Hlive. unfold serve.
  destruct (verify_cache key (r_socket r) (r_frame r) (r_now r) (r_has r) (r_sweep r) (r_add r) c)
    as [->|[(f & _ & ->)|(f & _ & Hf & ->)]].
  - done.
  - by apply nc_has_keeps.
  - apply nc_add_keeps; [by apply nc_has_inv|done| |by apply nc_has_keeps].
    intros ->. apply (nc_live_mono (r_has r) now') in Hlive; [|done]. apply nc_has_spec in Hlive. congruence.
Qed.

Lemma serve_inv key r c : nc_inv c -> nc_inv (serve key r c).1.
Proof.
  intros Hi. unfold serve.
  destruct (verify_cache key (r_socket r) (r_frame r) (r_now r) (r_has r) (r_sweep r) (r_add r) c)
    as [->|[(f & _ & ->)|(f & _ & Hf & ->)]].
  - done.
  - by apply nc_has_inv.
  - by apply nc_add_inv, nc_has_inv.
Qed.

Lemma serve_all_keeps key l c now' n :
  nc_inv c -> Forall (cache_before now') l -> nc_live now' n c -> nc_live now' n (serve_all key l c).
Proof.
  intros Hi Hl. revert c Hi. induction Hl as [|r l Hle _ IH]; intros c Hi Hlive; [done|].
  apply IH; [by apply serve_inv|by apply serve_keeps].
Qed.

(** An accepted nonce is live for the cache's lifetime after the reading of its
    [add]. *)
Lemma accepted_live key r c now' f :
  accepts (serve key r c).2 = true -> decodePotFrame (r_frame r) = Ok f ->
  nc_live now' (to_hex (pf_nonce f)) (serve key r c).1 <-> now' <= r_add r + nc_ttl c.
Proof.
  intros Ha E. unfold serve in *. revert Ha. unfold verify.
  destruct (negb (length (r_frame r) =? _)%nat); [done|]. rewrite E.
  destruct (negb (pf_version f =? 1)); [done|].
  destruct (_ ≫= _) as [[|]|]; [|done..].
  destruct (negb _); [done|]. destruct (_ <? _); [done|].
  pose proof (nc_has_ttl (r_has r) (to_hex (pf_nonce f)) c) as Ht.
  destruct (nc_has (r_has r) _ c) as [c1 [|]]; cbn in *; [done|]. intros _.
  by rewrite nc_add_live, Ht.
Qed.

(** Which requests of a frame with the nonce of [f] are accepted. *)
Lemma serve_accepts key r c f :
  decodePotFrame (r_frame r) = Ok f ->
  accepts (serve key r c).2 = true
  <-> authentic key (r_socket r) (r_frame r) f /\ r_now r - pot_ms f <= tier_tolerance (pf_tier f)
      /\ ~ nc_live (r_has r) (to_hex (pf_nonce f)) c.
Proof.
  intros E. unfold serve. rewrite verify_accepts. split.
  - intros (g & Hg & Hlat & Hs). assert (g = f) as -> by (destruct Hg; congruence).
    split_and!; [done|done|]. rewrite <- nc_has_spec. congruence.
  - intros (Hg & Hlat & Hs). exists f. split_and!; [done|done|].
    by rewrite <- nc_has_spec, not_true_iff_false in Hs.
Qed.

(** ** Properties *)

(** C18: The verifier accepts exactly the frames that decode with version 1,
    carry the TLS exporter value of this socket for their first 79 record
    bytes, are signed by the issuer, are not older than their tier's window
    (2 s for the tiers 4 to 15 that no table lists) and have an unseen nonce. *)
Theorem verifier_accepts_iff key socket frame nowMs h a1 a2 c :
  accepts (verify key socket frame nowMs h a1 a2 c).2 = true
  <-> exists f, authentic key socket frame f
        /\ nowMs - pot_ms f <= tier_tolerance (pf_tier f)
        /\ ~ nc_live h (to_hex (pf_nonce f)) c.
Proof.
  rewrite verify_accepts. apply exist_proper. intros f.
  by rewrite <- nc_has_spec, not_true_iff_false.
Qed.

(** Replay protection, for every nonce cache that meets the interface: an
    accepted nonce is refused again during the cache's lifetime, on any socket,
    whatever frames are verified in between and whatever [nowMs] is passed. *)
Lemma verifier_replay_refused key r0 c l r f f' :
  nc_inv c -> accepts (serve key r0 c).2 = true ->
  decodePotFrame (r_frame r0) = Ok f -> decodePotFrame (r_frame r) = Ok f' -> pf_nonce f' = pf_nonce f ->
  Forall (cache_before (r_has r)) l -> r_has r <= r_add r0 + nc_ttl c ->
  accepts (serve key r (serve_all key l (serve key r0 c).1)).2 = false.
Proof.
  intros Hi Ha E E' Hn Hl Hnow. apply not_true_iff_false. rewrite (serve_accepts _ _ _ _ E'), Hn.
  intros (_ & _ & Hs). apply Hs, serve_all_keeps; [by apply serve_inv|done|by eapply accepted_live].
Qed.

(** C19: When a frame is accepted a second time.  A frame accepted once (its
    nonce added when the cache's clock read [r_add r0]) is refused again on
    every socket, for good, whatever is verified in between (the cache's clock
    not running backwards), as long as the lag of the caller's [nowMs] behind the cache's clock, plus the tier's
    window, is at most the cache's lifetime plus the age of the frame at the
    [add]: then it is too old once its nonce is forgotten.  (One clock, a
    lifetime of 60 s, the longest window, and a frame not dated in the future
    meet this.)  With no verification in between, it is accepted again exactly
    when it is authentic on the new socket, still in the window at [nowMs],
    and the cache's clock has passed the nonce's expiry: this happens when
    [nowMs] lags and when the frame is dated ahead. *)
Theorem verifier_never_twice key r0 c r f :
  nc_inv c -> accepts (serve key r0 c).2 = true ->
  decodePotFrame (r_frame r0) = Ok f -> r_frame r = r_frame r0 ->
  (r_has r - r_now r + tier_tolerance (pf_tier f) <= nc_ttl c + (r_add r0 - pot_ms f) ->
   forall l, Forall (cache_before (r_has r)) l ->
   accepts (serve key r (serve_all key l (serve key r0 c).1)).2 = false)
  /\ (accepts (serve key r (serve key r0 c).1).2 = true
      <-> authentic key (r_socket r) (r_frame r) f
          /\ r_now r - pot_ms f <= tier_tolerance (pf_tier f)
          /\ r_add r0 + nc_ttl c < r_has r).
Proof.
  intros Hi Ha E Er. assert (decodePotFrame (r_frame r) = Ok f) as E' by congruence. split.
  - intros Hlag l Hl. apply not_true_iff_false. rewrite (serve_accepts _ _ _ _ E'). intros (_ & Hlat & Hs).
    apply Hs, serve_all_keeps; [by apply serve_inv|done|]. eapply accepted_live; [done..|lia].
  - by rewrite (serve_accepts _ _ _ _ E'), (accepted_live _ _ _ _ _ Ha E), Z.nle_gt.
Qed.

End PotVerifier.

(** The verifier has no check against timestamps in the future: with the
    in-memory cache, a frame dated far enough ahead is accepted, and accepted
    again as soon as its nonce has expired from the cache, with one clock for
    everything.  [at_time] is a request with all readings equal. *)
Definition at_time (now : Z) (socket : TLSSocket) (frame : Buffer) : request :=
  {| r_socket := socket; r_frame := frame; r_now := now; r_has := now; r_sweep := now; r_add := now |}.

Lemma future_frame_replayed crypto_verify key socket frame f t0 ttl :
  0 <= ttl -> authentic crypto_verify key socket frame f ->
  t0 + ttl + 1 - pot_ms f <= tier_tolerance (pf_tier f) ->
  let v1 := serve crypto_verify key (at_time t0 socket frame) (Memory.make (Some ttl)) in
  accepts v1.2 = true
  /\ accepts (serve crypto_verify key (at_time (t0 + ttl + 1) socket frame) v1.1).2 = true.
Proof.
  intros Httl Ha Hlat v1. pose proof Ha as (Ef & _).
  assert (accepts v1.2 = true) as H1.
  { apply (serve_accepts _ _ (at_time t0 socket frame) _ _ Ef). split_and!; [done|simpl; lia|].
    by intros (? & [=] & _). }
  split; [done|]. apply (serve_accepts _ _ (at_time _ socket frame) _ _ Ef). split_and!; [done|done|].
  unfold v1. rewrite (accepted_live _ _ (at_time t0 socket frame) _ _ _ H1 Ef). simpl. lia.
Qed.

(** ** Witnesses *)

Definition ex_socket : TLSSocket :=
  {| encrypted := true; exportKeyingMaterial := fun n _ _ => replicate n Byte.xaa |}.
Definition ex_crypto : Buffer -> Buffer -> Buffer -> res bool := fun _ _ _ => Ok true.
Definition ex_frame : Buffer := replicate 32 Byte.xaa ++ ex_record.
Definition ex_parsed : PotFrame :=
  match decodePotFrame ex_frame with Ok f => f | Throw _ => Build_PotFrame [] [] 0 0 0 0 0 [] [] [] end.
Definition ex_cache : Memory.t := Memory.make None.

Lemma ex_parsed_ok : decodePotFrame ex_frame = Ok ex_parsed.
Proof. vm_compute. reflexivity. Qed.

Lemma ex_authentic : authentic ex_crypto [] ex_socket ex_frame ex_parsed.
Proof. split_and!; vm_compute; reflexivity. Qed.

Lemma ex_cache_inv : nc_inv ex_cache.
Proof. constructor. Qed.

Lemma verifier_accepts_iff_witness :
  exists f, authentic ex_crypto [] ex_socket ex_frame f
    /\ 1710412801000 - pot_ms f <= tier_tolerance (pf_tier f)
    /\ ~ nc_live 1710412801000 (to_hex (pf_nonce f)) ex_cache.
Proof.
  apply (verifier_accepts_iff ex_crypto [] ex_socket ex_frame 1710412801000 1710412801000 1710412801000 1710412801000
    ex_cache).
  vm_compute. reflexivity.
Defined.

Lemma verifier_replay_refused_witness :
  accepts (serve ex_crypto [] (at_time 1710412801000 ex_socket ex_frame)
    (serve_all ex_crypto [] [at_time 1710412800900 ex_socket (zeros 175)]
       (serve ex_crypto [] (at_time 1710412800500 ex_socket ex_frame) ex_cache).1)).2 = false.
Proof.
  apply (verifier_replay_refused ex_crypto [] (at_time 1710412800500 ex_socket ex_frame) ex_cache
           [at_time 1710412800900 ex_socket (zeros 175)] (at_time 1710412801000 ex_socket ex_frame)
           ex_parsed ex_parsed).
  - exact ex_cache_inv.
  - vm_compute. reflexivity.
  - exact ex_parsed_ok.
  - exact ex_parsed_ok.
  - reflexivity.
  - repeat constructor; simpl; lia.
  - simpl. lia.
Defined.

(** The same frame much later, and with a clock of the caller that lags: in a
    cache of 2 s, [nowMs] = 1710412802000 when the cache's clock is at
    1710412802501. *)
Definition ex_cache2 : Memory.t := Memory.make (Some 2000).
Definition ex_lagging : request :=
  {| r_socket := ex_socket; r_frame := ex_frame; r_now := 1710412802000;
     r_has := 1710412802501; r_sweep := 1710412802501; r_add := 1710412802501 |}.

Lemma verifier_never_twice_witness :
  (forall l, Forall (cache_before 1710422801000) l ->
   accepts (serve ex_crypto [] (at_time 1710422801000 ex_socket ex_frame)
     (serve_all ex_crypto [] l (serve ex_crypto [] (at_time 1710412800500 ex_socket ex_frame) ex_cache).1)).2 = false)
  /\ accepts (serve ex_crypto [] ex_lagging
       (serve ex_crypto [] (at_time 1710412800500 ex_socket ex_frame) ex_cache2).1).2 = true.
Proof.
  split.
  - intros l Hl.
    apply (verifier_never_twice ex_crypto [] (at_time 1710412800500 ex_socket ex_frame) ex_cache
             (at_time 1710422801000 ex_socket ex_frame) ex_parsed); [exact ex_cache_inv|vm_compute; reflexivity
             |exact ex_parsed_ok|reflexivity|vm_compute; discriminate|exact Hl].
  - apply (verifier_never_twice ex_crypto [] (at_time 1710412800500 ex_socket ex_frame) ex_cache2
             ex_lagging ex_parsed); [constructor|vm_compute; reflexivity|exact ex_parsed_ok|reflexivity|].
    split_and!; [exact ex_authentic|vm_compute; discriminate|vm_compute; reflexivity].
Defined.

Lemma future_frame_replayed_witness :
  let v1 := serve ex_crypto [] (at_time 1710412600000 ex_socket ex_frame) (Memory.make (Some 120000)) in
  accepts v1.2 = true
  /\ accepts (serve ex_crypto [] (at_time (1710412600000 + 120000 + 1) ex_socket ex_frame) v1.1).2 = true.
Proof.
  apply (future_frame_replayed ex_crypto [] ex_socket ex_frame ex_parsed 1710412600000 120000).
  - lia.
  - exact ex_authentic.
  - vm_compute. discriminate.
Defined.
