(* ===== verification/HttpClient.v ===== *)
(** * HttpOnlyClient and the x402 facilitator
    (src/src/http_client.ts, src/mcp/packages/x402-pot/src/index.ts)

    Proofs of time over HTTPS with an HMAC instead of a chain.  The MAC is a
    parameter; so is the parsing of a Date header.  The x402 facilitator wraps
    the client: it strips the readings from the proof it attaches to a payment
    and rebuilds them from the synthesized time when it verifies. *)
From Stdlib Require Import ZArith Lia String Strings.Byte.
From stdpp Require Import base list numbers option sorting strings.
From S2P Require Import Prelude JSString Errors Bytes JSNum JSMap NonceCache Types Median TimeSources TimeSynthesis.

Record HttpPoT := {
  hp_timestamp : Z;
  hp_confidence : num;
  hp_stratum : Z;
  hp_sources : Z;
  hp_sourceReadings : list SourceReading;
  hp_nonce : jsstr;
  hp_expiresAt : Z;
  hp_hmac : jsstr;
}.

Definition SOURCES : list (jsstr * jsstr) :=
  [(js "nist", js "https://time.nist.gov/"); (js "apple", js "https://time.apple.com/");
   (js "google", js "https://time.google.com/"); (js "cloudflare", js "https://time.cloudflare.com/")].

(** ** fetchHttpsDate *)

Inductive fetch_event := FTimeout | FResponse (t4 : Z) (date : option jsstr) | FError.

(** What an event settles the promise with; clocks in ms. *)
Definition fetch_outcome (date_parse : jsstr -> option Z) (name : jsstr) (t1 : Z) (e : fetch_event)
    : res TimeReading :=
  match e with
  | FTimeout => throw_plain "[httpOnly] Timeout"
  | FError => throw_plain "[httpOnly] Request error"
  | FResponse t4 date =>
      match date with
      | None | Some [] => throw_plain "[httpOnly] No Date header"
      | Some d =>
          match date_parse d with
          | None => throw_plain "[httpOnly] Invalid Date header"
          | Some parsed =>
              let rttNs := t4 * 1000000 - t1 * 1000000 in
              Ok {| tr_timestamp := parsed * 1000000 + Z.quot rttNs 2;
                    tr_uncertainty := nadd (ndiv (ms_of_ns rttNs) (num_of_Z 2)) (num_of_Z 500);
                    tr_stratum := 2; tr_source := name |}
          end
      end
  end.

(** The promise after a sequence of events: the first one settles it. *)
Definition fetchHttpsDate (date_parse : jsstr -> option Z) (name : jsstr) (t1 : Z) (es : list fetch_event)
    : promise TimeReading :=
  foldl (fun p e => settle p (fetch_outcome date_parse name t1 e)) None es.

(** ** The client *)

Definition SANDBOX_HMAC_SECRET : jsstr :=
  js "openttt-sandbox:chainId=0:address=0x0000000000000000000000000000000000000000".

Record client := {
  hmacSecret : jsstr;
  expirySeconds : num;
  toleranceNs : Z;
  hc_usedNonces : jsmap jsstr Z;
}.

Definition make_client (secret : option jsstr) (expiry : option num) (tolerance : option Z) : client :=
  {| hmacSecret := default SANDBOX_HMAC_SECRET secret;
     expirySeconds := default (num_of_Z 60) expiry;
     toleranceNs := default 2000000000 tolerance;
     hc_usedNonces := [] |}.

(** The canonical message of the MAC. *)
Definition hmac_message (timestamp : Z) (nonce : jsstr) (expiresAt sources : Z) : jsstr :=
  z_to_dec timestamp ++ [58] ++ nonce ++ [58] ++ z_to_dec expiresAt ++ [58] ++ z_to_dec sources.

Inductive reason := PotExpired | HmacMismatch | DuplicateNonce | SourceDiverges (source : jsstr).
Inductive HttpPoTVerifyResult := HValid | HInvalid (r : reason).

Section Client.
(** HMAC-SHA256 under a secret. *)
Variable hmac_sha256 : jsstr -> jsstr -> Buffer.

Definition computeHmac (timestamp : Z) (nonce : jsstr) (expiresAt sources : Z) (secret : jsstr) : jsstr :=
  to_hex (hmac_sha256 secret (hmac_message timestamp nonce expiresAt sources)).

(** [generatePoT]: [results] are the settled fetches, [now] the clock of the
    expiry. *)
Definition generatePoT (results : list (res TimeReading)) (nonce : jsstr) (now : Z) (c : client) : res HttpPoT :=
  let readings := sort_readings (fulfilled results) in
  match combine readings with
  | None => throw_plain "[httpOnly] All HTTPS time sources failed. Check network connectivity."
  | Some (finalTs, finalUnc, finalStratum) =>
      window ← bigint_of_num (nmul (expirySeconds c) (num_of_Z 1000));
      let expiresAt := now + window in
      let n := Z.of_nat (length readings) in
      Ok {| hp_timestamp := finalTs; hp_confidence := ndiv (num_of_Z n) (num_of_nat (length SOURCES));
            hp_stratum := finalStratum; hp_sources := n; hp_sourceReadings := reading_of <$> readings;
            hp_nonce := nonce; hp_expiresAt := expiresAt;
            hp_hmac := computeHmac finalTs nonce expiresAt n (hmacSecret c) |}
  end.

(** [crypto.timingSafeEqual] throws on buffers of different lengths. *)
Definition timing_safe_equal (a b : Buffer) : res bool :=
  if negb (length a =? length b)%nat then Throw RangeError else Ok (bool_decide (a = b)).

Fixpoint check_divergence (ts tolerance : Z) (l : list SourceReading) : HttpPoTVerifyResult :=
  match l with
  | [] => HValid
  | r :: l' =>
      if tolerance <? abs_diff (sr_timestamp r) ts then HInvalid (SourceDiverges (sr_source r))
      else check_divergence ts tolerance l'
  end.

(** [verifyPoT]; [now1], [now2] are the two clock readings. *)
Definition verifyPoT (now1 now2 : Z) (pot : HttpPoT) (c : client) : client * res HttpPoTVerifyResult :=
  if hp_expiresAt pot <? now1 then (c, Ok (HInvalid PotExpired))
  else
    let expected := computeHmac (hp_timestamp pot) (hp_nonce pot) (hp_expiresAt pot) (hp_sources pot) (hmacSecret c) in
    match timing_safe_equal (from_hex expected) (from_hex (hp_hmac pot)) with
    | Throw e => (c, Throw e)
    | Ok false => (c, Ok (HInvalid HmacMismatch))
    | Ok true =>
        let '(m, fresh) := Bounded.check MAX_NONCE_CACHE NONCE_TTL_MS now2 (hp_nonce pot) (hc_usedNonces c) in
        let c' := {| hmacSecret := hmacSecret c; expirySeconds := expirySeconds c;
                     toleranceNs := toleranceNs c; hc_usedNonces := m |} in
        if fresh then (c', Ok (check_divergence (hp_timestamp pot) (toleranceNs c) (hp_sourceReadings pot)))
        else (c', Ok (HInvalid DuplicateNonce))
    end.

(** The calls on one client; only [verifyPoT] changes its state. *)
Inductive client_call :=
| HGenerate (results : list (res TimeReading)) (nonce : jsstr) (now : Z)
| HVerify (now1 now2 : Z) (pot : HttpPoT).

Definition client_step (x : client_call) (c : client) : client :=
  match x with HGenerate _ _ _ => c | HVerify now1 now2 pot => (verifyPoT now1 now2 pot c).1 end.

Definition client_run (l : list client_call) (c : client) : client := foldl (fun c x => client_step x c) c l.

(** [HttpOnlyClient.toProofOfTime]: the mean uncertainty, left to right. *)
Definition toProofOfTime (pot : HttpPoT) : ProofOfTime :=
  {| pot_timestamp := hp_timestamp pot;
     pot_uncertainty :=
       if (0 <? length (hp_sourceReadings pot))%nat
       then ndiv (foldl (fun s r => nadd s (sr_uncertainty r)) num_0 (hp_sourceReadings pot))
                 (num_of_nat (length (hp_sourceReadings pot)))
       else num_of_Z 500;
     pot_sources := hp_sources pot; pot_stratum := hp_stratum pot; pot_confidence := hp_confidence pot;
     pot_sourceReadings := hp_sourceReadings pot; pot_nonce := hp_nonce pot;
     pot_expiresAt := hp_expiresAt pot; pot_issuerSignature := None |}.

(** ** x402 *)

Record X402BasePayment := {
  xp_scheme : jsstr; xp_network : jsstr; xp_maxAmountRequired : jsstr; xp_resource : jsstr;
}.
Record X402Pot := {
  xt_timestamp : jsstr; xt_expiresAt : jsstr; xt_hmac : jsstr; xt_nonce : jsstr;
  xt_confidence : num; xt_sources : Z; xt_sourceNames : list jsstr;
}.
Record X402PotPayment := { xp_base : X402BasePayment; xp_pot : option X402Pot }.

Definition attach (payment : X402BasePayment) (pot : HttpPoT) : X402PotPayment :=
  {| xp_base := payment;
     xp_pot := Some {| xt_timestamp := z_to_dec (hp_timestamp pot); xt_expiresAt := z_to_dec (hp_expiresAt pot);
                       xt_hmac := hp_hmac pot; xt_nonce := hp_nonce pot; xt_confidence := hp_confidence pot;
                       xt_sources := hp_sources pot; xt_sourceNames := sr_source <$> hp_sourceReadings pot |} |}.

Definition createPaymentWithPoT (results : list (res TimeReading)) (nonce : jsstr) (now : Z)
    (payment : X402BasePayment) (c : client) : res X402PotPayment :=
  pot ← generatePoT results nonce now c; Ok (attach payment pot).

Inductive x402_reason := NoPot | InvalidBigint | Verifier (r : reason).
Inductive X402PotVerifyResult := XValid | XInvalid (r : x402_reason).

(** The proof rebuilt from a payment: every reading gets the synthesized time. *)
Definition reconstruct (p : X402Pot) (timestamp expiresAt : Z) : HttpPoT :=
  {| hp_timestamp := timestamp; hp_confidence := xt_confidence p; hp_stratum := 2; hp_sources := xt_sources p;
     hp_sourceReadings :=
       (fun name => {| sr_source := name; sr_timestamp := timestamp; sr_uncertainty := num_of_Z 500;
                       sr_stratum := Some 2 |}) <$> xt_sourceNames p;
     hp_nonce := xt_nonce p; hp_expiresAt := expiresAt; hp_hmac := xt_hmac p |}.

Definition verifyPaymentPoT (now1 now2 : Z) (payment : X402PotPayment) (c : client)
    : client * res X402PotVerifyResult :=
  match xp_pot payment with
  | None => (c, Ok (XInvalid NoPot))
  | Some p =>
      match bigint_of_string (xt_timestamp p), bigint_of_string (xt_expiresAt p) with
      | Some timestamp, Some expiresAt =>
          let '(c', r) := verifyPoT now1 now2 (reconstruct p timestamp expiresAt) c in
          (c', match r with
               | Ok HValid => Ok XValid
               | Ok (HInvalid why) => Ok (XInvalid (Verifier why))
               | Throw e => Throw e
               end)
      | _, _ => (c, Ok (XInvalid InvalidBigint))
      end
  end.

(** ** Lemmas *)

Lemma check_divergence_valid ts tol l :
  check_divergence ts tol l = HValid <-> Forall (fun r => Z.abs (sr_timestamp r - ts) <= tol) l.
Proof.
  induction l as [|r l IH]; simpl; [done|]. rewrite abs_diff_abs, Forall_cons, <- IH.
  destruct (Z.ltb_spec tol (Z.abs (sr_timestamp r - ts))); [split; [done|lia]|]. tauto.
Qed.

Lemma timing_safe_true a b : timing_safe_equal a b = Ok true <-> a = b.
Proof.
  unfold timing_safe_equal. destruct (Nat.eqb_spec (length a) (length b)); cbn [negb].
  - split; [intros [= H]; by apply bool_decide_eq_true in H|intros ->; by rewrite bool_decide_eq_true_2].
  - split; [done|congruence].
Qed.

Definition mac_of (c : client) (pot : HttpPoT) : Buffer :=
  hmac_sha256 (hmacSecret c) (hmac_message (hp_timestamp pot) (hp_nonce pot) (hp_expiresAt pot) (hp_sources pot)).

Lemma verifyPoT_valid now1 now2 pot c :
  (verifyPoT now1 now2 pot c).2 = Ok HValid
  <-> now1 <= hp_expiresAt pot /\ from_hex (hp_hmac pot) = mac_of c pot
      /\ (Bounded.check MAX_NONCE_CACHE NONCE_TTL_MS now2 (hp_nonce pot) (hc_usedNonces c)).2 = true
      /\ Forall (fun r => Z.abs (sr_timestamp r - hp_timestamp pot) <= toleranceNs c) (hp_sourceReadings pot).
Proof.
  unfold verifyPoT. destruct (Z.ltb_spec (hp_expiresAt pot) now1); [split; [done|lia]|].
  unfold computeHmac. rewrite from_hex_to_hex. fold (mac_of c pot).
  assert (forall b, timing_safe_equal (mac_of c pot) (from_hex (hp_hmac pot)) = b ->
    (b = Ok true <-> from_hex (hp_hmac pot) = mac_of c pot)) as Heq.
  { intros b <-. rewrite timing_safe_true. split; congruence. }
  destruct (timing_safe_equal _ _) as [[|]|e]; specialize (Heq _ eq_refl).
  - destruct (Bounded.check _ _ _ _ _) as [m [|]]; cbn [snd].
    + rewrite <- check_divergence_valid. split; [intros [= ->]; tauto|]. intros (_ & _ & _ & ->). done.
    + split; [done|]. intros (_ & _ & ? & _). done.
  - split; [done|]. intros (_ & Hx & _). apply Heq in Hx. done.
  - split; [done|]. intros (_ & Hx & _). apply Heq in Hx. done.
Qed.

(** A verification changes nothing but the cache, by at most one check of the
    nonce, which an accepted proof has made. *)
Definition with_cache (m : jsmap jsstr Z) (c : client) : client :=
  {| hmacSecret := hmacSecret c; expirySeconds := expirySeconds c; toleranceNs := toleranceNs c; hc_usedNonces := m |}.

Lemma verifyPoT_state now1 now2 pot c :
  let v := verifyPoT now1 now2 pot c in
  let m := (Bounded.check MAX_NONCE_CACHE NONCE_TTL_MS now2 (hp_nonce pot) (hc_usedNonces c)).1 in
  (v.1 = c /\ v.2 <> Ok HValid) \/ v.1 = with_cache m c.
Proof.
  cbv zeta. unfold verifyPoT. destruct (_ <? _); [by left|].
  destruct (timing_safe_equal _ _) as [[|]|]; [|by left..].
  right. by destruct (Bounded.check _ _ _ _ _) as [m [|]].
Qed.

Lemma verifyPoT_secret now1 now2 pot c : hmacSecret (verifyPoT now1 now2 pot c).1 = hmacSecret c.
Proof. by destruct (verifyPoT_state now1 now2 pot c) as [[-> _]| ->]. Qed.

Lemma client_run_checks l c (b : Z) :
  Forall (fun x => match x with HVerify _ now2 _ => now2 <= b | HGenerate _ _ _ => True end) l ->
  exists checks, Forall (fun e => e.1 <= b) checks /\ (length checks <= length l)%nat
    /\ client_run l c = with_cache (Bounded.run MAX_NONCE_CACHE NONCE_TTL_MS checks (hc_usedNonces c)) c.
Proof.
  intros Hl. revert c. induction Hl as [|x l Hx _ IH]; intros c.
  - exists []. split_and!; [done|done|]. by destruct c.
  - destruct x as [results nonce now|now1 now2 p]; cbn [client_run foldl client_step].
    + destruct (IH c) as (ch & H1 & H2 & E). exists ch. split_and!; [done|simpl; lia|exact E].
    + destruct (verifyPoT_state now1 now2 p c) as [[-> _]| ->].
      * destruct (IH c) as (ch & H1 & H2 & E). exists ch. split_and!; [done|simpl; lia|exact E].
      * edestruct IH as (ch & H1 & H2 & E). exists ((now2, hp_nonce p) :: ch).
        split_and!; [by constructor|simpl; lia|exact E].
Qed.

(** Once a proof was accepted, the cache refuses its nonce for the lifetime,
    after any fewer than 10,000 calls. *)
Lemma accepted_nonce_seen now1 now2 pot c calls now2' :
  Bounded.inv MAX_NONCE_CACHE (hc_usedNonces c) -> (verifyPoT now1 now2 pot c).2 = Ok HValid ->
  Forall (fun x => match x with HVerify _ n _ => n <= now2' | HGenerate _ _ _ => True end) calls ->
  Z.of_nat (length calls) < 10000 -> now2' - now2 <= 300000 ->
  let c' := client_run calls (verifyPoT now1 now2 pot c).1 in
  (Bounded.check MAX_NONCE_CACHE NONCE_TTL_MS now2' (hp_nonce pot) (hc_usedNonces c')).2 = false.
Proof.
  intros Hinv Hv Hc Hlen Hnow c'. unfold c'.
  destruct (verifyPoT_state now1 now2 pot c) as [[_ []]| ->]; [done|].
  apply verifyPoT_valid in Hv as (_ & _ & Hf & _).
  destruct (client_run_checks calls (with_cache (Bounded.check MAX_NONCE_CACHE NONCE_TTL_MS now2 (hp_nonce pot)
    (hc_usedNonces c)).1 c) now2' Hc) as (ch & H1 & H2 & ->). cbn [with_cache hc_usedNonces].
  apply Bounded.replay_rejected; [done|done| |unfold MAX_NONCE_CACHE; lia|done].
  eapply Forall_impl; [exact H1|]. intros e He. cbv beta in *. unfold NONCE_TTL_MS. lia.
Qed.

Lemma client_run_secret calls c : hmacSecret (client_run calls c) = hmacSecret c.
Proof.
  revert c. induction calls as [|x calls IH]; intros c; [done|]. cbn [client_run foldl]. unfold client_run in IH.
  rewrite IH. destruct x as [|now1 now2 p]; [done|]. apply verifyPoT_secret.
Qed.

(** Two verifications in a row. *)
Lemma verified_once now1 now2 pot c now1' now2' pot' :
  Bounded.inv MAX_NONCE_CACHE (hc_usedNonces c) -> hp_nonce pot' = hp_nonce pot ->
  (verifyPoT now1 now2 pot c).2 = Ok HValid -> now2' - now2 <= 300000 ->
  (verifyPoT now1' now2' pot' (verifyPoT now1 now2 pot c).1).2 <> Ok HValid.
Proof.
  intros Hinv Hn Hv Hnow H2. apply verifyPoT_valid in H2 as (_ & _ & Hf2 & _). rewrite Hn in Hf2.
  pose proof (accepted_nonce_seen now1 now2 pot c [] now2' Hinv Hv (List.Forall_nil _) ltac:(done) Hnow) as Hs.
  cbn [client_run foldl] in Hs. congruence.
Qed.

(** A proof with its own MAC is refused for its nonce or its age only. *)
Lemma verifyPoT_seen now1 now2 pot c :
  from_hex (hp_hmac pot) = mac_of c pot ->
  (Bounded.check MAX_NONCE_CACHE NONCE_TTL_MS now2 (hp_nonce pot) (hc_usedNonces c)).2 = false ->
  (verifyPoT now1 now2 pot c).2 = Ok (HInvalid (if hp_expiresAt pot <? now1 then PotExpired else DuplicateNonce)).
Proof.
  intros Hm Hf. unfold verifyPoT. destruct (_ <? _); [done|]. unfold computeHmac.
  rewrite from_hex_to_hex. fold (mac_of c pot). rewrite (proj2 (timing_safe_true _ _)) by done.
  destruct (Bounded.check _ _ _ _ _) as [m fresh]. cbn in Hf. by subst fresh.
Qed.

(** A proof with its own MAC is answered, one with another MAC is refused. *)
Lemma verifyPoT_authentic now1 now2 pot c :
  from_hex (hp_hmac pot) = mac_of c pot -> exists r, (verifyPoT now1 now2 pot c).2 = Ok r.
Proof.
  intros Hm. unfold verifyPoT. destruct (_ <? _); [by eexists|]. unfold computeHmac.
  rewrite from_hex_to_hex. fold (mac_of c pot). rewrite (proj2 (timing_safe_true _ _)) by done.
  destruct (Bounded.check _ _ _ _ _) as [m [|]]; by eexists.
Qed.

Lemma verifyPoT_forged now1 now2 pot c :
  length (from_hex (hp_hmac pot)) = length (mac_of c pot) -> from_hex (hp_hmac pot) <> mac_of c pot ->
  (verifyPoT now1 now2 pot c).2
  = Ok (HInvalid (if hp_expiresAt pot <? now1 then PotExpired else HmacMismatch)).
Proof.
  intros Hl Hm. unfold verifyPoT. destruct (_ <? _); [done|]. unfold computeHmac.
  rewrite from_hex_to_hex. fold (mac_of c pot). unfold timing_safe_equal. rewrite Hl, Nat.eqb_refl. cbn [negb].
  by rewrite bool_decide_eq_false_2.
Qed.

Lemma app_sep_inj (c : Z) (l1 l2 r1 r2 : jsstr) :
  c ∉ l1 -> c ∉ l2 -> l1 ++ c :: r1 = l2 ++ c :: r2 -> l1 = l2 /\ r1 = r2.
Proof.
  revert l2. induction l1 as [|a l1 IH]; intros [|b l2] H1 H2 E; cbn [app] in E.
  - by injection E as E.
  - injection E as E1 _. exfalso. apply H2. rewrite <- E1. left.
  - injection E as E1 _. exfalso. apply H1. rewrite E1. left.
  - injection E as E1 E2. apply not_elem_of_cons in H1 as [_ H1]. apply not_elem_of_cons in H2 as [_ H2].
    destruct (IH l2 H1 H2 E2) as [-> ->]. by rewrite E1.
Qed.

Lemma colon_not_dec z : 58 ∉ z_to_dec z.
Proof. intros H. apply z_to_dec_units in H as [H|H]; discriminate H. Qed.

Lemma app_sep_inj_r (c : Z) (l1 l2 r1 r2 : jsstr) :
  c ∉ r1 -> c ∉ r2 -> l1 ++ c :: r1 = l2 ++ c :: r2 -> l1 = l2 /\ r1 = r2.
Proof.
  intros H1 H2 E. apply (f_equal reverse) in E. rewrite !reverse_app, !reverse_cons, <- !app_assoc in E.
  cbn [app] in E. apply app_sep_inj in E as [E1 E2]; [|by rewrite elem_of_reverse..].
  split; by apply (inj reverse).
Qed.

Lemma generatePoT_ok results nonce now c pot :
  generatePoT results nonce now c = Ok pot ->
  exists window, bigint_of_num (nmul (expirySeconds c) (num_of_Z 1000)) = Ok window
    /\ hp_expiresAt pot = now + window /\ hp_nonce pot = nonce
    /\ hp_sources pot = Z.of_nat (length (fulfilled results))
    /\ hp_sourceReadings pot = reading_of <$> sort_readings (fulfilled results)
    /\ from_hex (hp_hmac pot) = mac_of c pot
    /\ exists unc str, combine (sort_readings (fulfilled results)) = Some (hp_timestamp pot, unc, str).
Proof.
  unfold generatePoT. destruct (combine _) as [[[ts unc] str]|]; [|done].
  destruct (bigint_of_num _) as [w|]; [|done]. cbn [mbind result_bind]. intros [= <-]. exists w.
  unfold mac_of, computeHmac. cbn. rewrite from_hex_to_hex, length_sort_readings. split_and!; eauto.
Qed.

(** ** Properties *)

(** The message under the MAC determines the four fields it covers: the
    separators cannot be forged from the nonce. *)
Lemma hmac_message_injective t1 n1 e1 s1 t2 n2 e2 s2 :
  hmac_message t1 n1 e1 s1 = hmac_message t2 n2 e2 s2 -> t1 = t2 /\ n1 = n2 /\ e1 = e2 /\ s1 = s2.
Proof.
  assert (forall t n e s, hmac_message t n e s
            = z_to_dec t ++ 58 :: ((n ++ 58 :: z_to_dec e) ++ 58 :: z_to_dec s)) as Hm.
  { intros. unfold hmac_message. by rewrite <- !app_assoc. }
  rewrite !Hm. intros E. apply app_sep_inj in E as [Et E]; [|apply colon_not_dec..].
  apply app_sep_inj_r in E as [E Es]; [|apply colon_not_dec..].
  apply app_sep_inj_r in E as [En Ee]; [|apply colon_not_dec..].
  apply (inj z_to_dec) in Et, Ee, Es. done.
Qed.

(** [verifyPoT] accepts exactly the proofs that are not expired, carry the
    MAC of their four fields under the client's secret, have an unseen nonce
    and whose readings lie within the tolerance; accepting consumes the nonce. *)
Lemma http_verify_accepts_iff now1 now2 pot c :
  (verifyPoT now1 now2 pot c).2 = Ok HValid
  <-> now1 <= hp_expiresAt pot /\ from_hex (hp_hmac pot) = mac_of c pot
      /\ jm_has (Bounded.sweep MAX_NONCE_CACHE NONCE_TTL_MS now2 (hc_usedNonces c)) (hp_nonce pot) = false
      /\ Forall (fun r => Z.abs (sr_timestamp r - hp_timestamp pot) <= toleranceNs c) (hp_sourceReadings pot).
Proof.
  rewrite verifyPoT_valid, <- not_false_iff_true, Bounded.check_seen, not_true_iff_false. done.
Qed.

(** C20: A proof the client issues verifies with the same client and secret
    within its window, if its nonce is new and its readings agree within the
    tolerance; and it verifies only once: after any fewer than 10,000 further
    calls on the client, other verifications of the same proof included (the
    clock not running backwards), every verification within five minutes, and
    every one after its expiry, answers "expired" or "duplicate nonce". *)
Theorem http_generate_then_verify results nonce now c pot now1 now2 :
  generatePoT results nonce now c = Ok pot -> Bounded.inv MAX_NONCE_CACHE (hc_usedNonces c) ->
  jm_has (hc_usedNonces c) nonce = false ->
  Forall (fun r => Z.abs (tr_timestamp r - hp_timestamp pot) <= toleranceNs c) (fulfilled results) ->
  now1 <= hp_expiresAt pot ->
  let v := verifyPoT now1 now2 pot c in
  v.2 = Ok HValid
  /\ forall calls now1' now2',
       Forall (fun x => match x with HVerify _ n _ => n <= now2' | HGenerate _ _ _ => True end) calls ->
       Z.of_nat (length calls) < 10000 -> now2' - now2 <= 300000 \/ hp_expiresAt pot < now1' ->
       (verifyPoT now1' now2' pot (client_run calls v.1)).2
       = Ok (HInvalid (if hp_expiresAt pot <? now1' then PotExpired else DuplicateNonce)).
Proof.
  intros E Hinv Hnew Htol Hexp v. apply generatePoT_ok in E as (w & _ & He & Hn & Hs & Hr & Hm & _).
  assert (v.2 = Ok HValid) as Hv.
  { apply verifyPoT_valid. split_and!; [done|done|apply Bounded.check_fresh; by rewrite Hn|].
    rewrite Hr. apply Forall_fmap. rewrite <- (sort_readings_perm (fulfilled results)) in Htol. exact Htol. }
  split; [done|]. intros calls now1' now2' Hc Hlen [Hnow|Hnow].
  - apply verifyPoT_seen; [|by apply accepted_nonce_seen]. unfold mac_of. rewrite client_run_secret.
    unfold v. by rewrite verifyPoT_secret.
  - apply Z.ltb_lt in Hnow. unfold verifyPoT. by rewrite Hnow.
Qed.

(** An x402 payment round-trips: a proof the client issued, attached to a
    payment, is accepted from the payment within its window when its nonce is
    new, whatever its readings were: the divergence check is vacuous, because
    the readings are rebuilt from the synthesized time. *)
Lemma x402_roundtrip results nonce now payment p c now1 now2 :
  createPaymentWithPoT results nonce now payment c = Ok p ->
  jm_has (hc_usedNonces c) nonce = false -> 0 <= toleranceNs c ->
  (forall pot, generatePoT results nonce now c = Ok pot -> now1 <= hp_expiresAt pot) ->
  (verifyPaymentPoT now1 now2 p c).2 = Ok XValid.
Proof.
  unfold createPaymentWithPoT. destruct (generatePoT results nonce now c) as [pot|] eqn:E; [|done].
  cbn [mbind result_bind]. intros [= <-] Hnew Htol Hexp. specialize (Hexp pot eq_refl).
  apply generatePoT_ok in E as (w & _ & He & Hn & Hs & Hr & Hm & _).
  unfold verifyPaymentPoT, attach. cbn [xp_pot xt_timestamp xt_expiresAt]. rewrite !bigint_of_z_to_dec.
  set (q := reconstruct _ _ _).
  assert ((verifyPoT now1 now2 q c).2 = Ok HValid) as Hv.
  { apply verifyPoT_valid. split_and!.
    - done.
    - exact Hm.
    - apply Bounded.check_fresh. unfold q. cbn. by rewrite Hn.
    - unfold q. cbn. rewrite Forall_fmap. apply Forall_forall. intros x _. cbn. lia. }
  destruct (verifyPoT now1 now2 q c) as [c' r]. cbn in Hv. by subst r.
Qed.

End Client.

(** ** Witnesses *)

Definition ex_mac (secret msg : jsstr) : Buffer := take 32 (ascii_bytes msg ++ zeros 32).
Definition ex_client : client := make_client None None None.
Definition ex_results : list (res TimeReading) :=
  [Ok (ex_reading 1710412800000000000 "nist"); throw_plain "down"; Ok (ex_reading 1710412800400000000 "google");
   Ok (ex_reading 1710412800300000000 "cloudflare")].
Definition ex_http_pot : HttpPoT :=
  match generatePoT ex_mac ex_results (js "ab") 1710412800000 ex_client with
  | Ok p => p
  | Throw _ => Build_HttpPoT 0 num_0 0 0 [] [] 0 []
  end.

Lemma ex_http_pot_ok : generatePoT ex_mac ex_results (js "ab") 1710412800000 ex_client = Ok ex_http_pot.
Proof. vm_compute. reflexivity. Qed.

Lemma hmac_message_injective_witness :
  5 = 5 /\ js "a:b" = js "a:b" /\ 7 = 7 /\ 3 = 3.
Proof. apply (hmac_message_injective 5 (js "a:b") 7 3 5 (js "a:b") 7 3). reflexivity. Defined.

Lemma http_generate_then_verify_witness :
  let v := verifyPoT ex_mac 1710412800001 1710412800001 ex_http_pot ex_client in
  v.2 = Ok HValid
  /\ (verifyPoT ex_mac 1710412800003 1710412800003 ex_http_pot
        (client_run ex_mac [HVerify 1710412800002 1710412800002 ex_http_pot] v.1)).2 = Ok (HInvalid DuplicateNonce).
Proof.
  destruct (http_generate_then_verify ex_mac ex_results (js "ab") 1710412800000 ex_client ex_http_pot
              1710412800001 1710412800001) as [H1 H2].
  - exact ex_http_pot_ok.
  - split; [constructor|done].
  - reflexivity.
  - repeat (apply Forall_cons; split; [vm_compute; discriminate|]). constructor.
  - vm_compute. discriminate.
  - split; [exact H1|].
    refine (H2 [HVerify 1710412800002 1710412800002 ex_http_pot] 1710412800003 1710412800003 _ _ _).
    + repeat constructor. lia.
    + simpl. lia.
    + left. lia.
Defined.

Definition ex_payment : X402BasePayment :=
  {| xp_scheme := js "exact"; xp_network := js "base"; xp_maxAmountRequired := js "1"; xp_resource := js "/" |}.

Lemma x402_roundtrip_witness :
  (verifyPaymentPoT ex_mac 1710412800001 1710412800001 (attach ex_payment ex_http_pot) ex_client).2 = Ok XValid.
Proof.
  apply (x402_roundtrip ex_mac ex_results (js "ab") 1710412800000 ex_payment).
  - vm_compute. reflexivity.
  - reflexivity.
  - vm_compute. discriminate.
  - rewrite ex_http_pot_ok. intros pot [= <-]. vm_compute. discriminate.
Defined.
