(* ===== verification/PoolRegistry.v ===== *)
(** * PoolRegistry (src/src/pool_registry.ts)

    The registry of pools with their mint and burn totals and the bounded map
    from token ids to pools.  [ethers.isAddress], [keccak256] and the ABI
    encoder are parameters.  The properties: the capacities and the key
    discipline hold after any history, the totals are the sums of the recorded
    amounts, and the serialization restores the registry. *)
From Stdlib Require Import ZArith Lia String Strings.Byte Floats.SpecFloat.
From stdpp Require Import base list numbers option strings.
From S2P Require Import Prelude JSString Errors Bytes JSNum JSMap Json.

Module Registry.

Record pool := { chainId : num; minted : Z; burned : Z }.

Record t := {
  pools : jsmap jsstr pool;
  tokenToPool : jsmap jsstr jsstr;
}.

Definition MAX_POOLS : Z := 10000.
Definition MAX_TOKEN_MAPPINGS : Z := 100000.

Definition empty : t := {| pools := []; tokenToPool := [] |}.

Section Operations.
Variable isAddress : jsstr -> bool.
Variable keccak256 : Buffer -> jsstr.
(** ABI encoding of (uint256, address, uint64, uint32). *)
Variable abi_encode : Z -> jsstr -> Z -> Z -> res Buffer.

(** [!poolAddress || !ethers.isAddress(poolAddress.toLowerCase())], negated. *)
Definition valid_address (a : jsstr) : bool :=
  match a with [] => false | _ => isAddress (to_lower a) end.

Definition registerPool (chain : num) (poolAddress : jsstr) (s : t) : t * res unit :=
  if negb (valid_address poolAddress) then (s, throw_plain "[PoolRegistry] Invalid pool address")
  else
    let key := to_lower poolAddress in
    if jm_has (pools s) key then (s, Ok tt)
    else if MAX_POOLS <=? jm_size (pools s) then (s, throw_plain "[PoolRegistry] Registry full")
    else ({| pools := jm_set (pools s) key {| chainId := chain; minted := 0; burned := 0 |};
             tokenToPool := tokenToPool s |}, Ok tt).

(** [slotIndex < 0 || slotIndex > 0xFFFFFFFF || !Number.isInteger(slotIndex)] *)
Definition slot_of (slotIndex : num) : option Z :=
  match bigint_of_num slotIndex with
  | Ok z => if (z <? 0) || (4294967295 <? z) then None else Some z
  | Throw _ => None
  end.

Definition remember_token (tokenId pool : jsstr) (m : jsmap jsstr jsstr) : jsmap jsstr jsstr :=
  let m := if MAX_TOKEN_MAPPINGS <=? jm_size m
           then match jm_oldest m with Some k => jm_delete m k | None => m end
           else m in
  jm_set m tokenId pool.

Definition getTokenId (chain : num) (poolAddress : jsstr) (timestamp : Z) (slotIndex : num) (s : t)
    : t * res jsstr :=
  if negb (valid_address poolAddress) then (s, throw_plain "[PoolRegistry] Invalid pool address")
  else match slot_of slotIndex with
  | None => (s, throw_plain "[PoolRegistry] slotIndex must be integer")
  | Some slot =>
      if 18446744073709551615 <? timestamp then (s, throw_plain "[PoolRegistry] Timestamp overflow")
      else
        let normalized := to_lower poolAddress in
        match (c ← bigint_of_num chain; abi_encode c normalized timestamp slot) with
        | Throw e => (s, Throw e)
        | Ok enc =>
            let tokenId := keccak256 enc in
            ({| pools := pools s; tokenToPool := remember_token tokenId normalized (tokenToPool s) |}, Ok tokenId)
        end
  end.

Definition isValidForPool (tokenId poolAddress : jsstr) (s : t) : bool :=
  if negb (valid_address poolAddress) then false
  else bool_decide (jm_get (tokenToPool s) tokenId = Some (to_lower poolAddress)).

Definition getPoolStats (poolAddress : jsstr) (s : t) : option (Z * Z) :=
  if negb (valid_address poolAddress) then None
  else match jm_get (pools s) (to_lower poolAddress) with
       | Some p => Some (minted p, burned p)
       | None => None
       end.

Definition update_pool (f : pool -> pool) (poolAddress : jsstr) (s : t) : t :=
  if negb (valid_address poolAddress) then s
  else let key := to_lower poolAddress in
       match jm_get (pools s) key with
       | Some p => {| pools := jm_set (pools s) key (f p); tokenToPool := tokenToPool s |}
       | None => s
       end.

Definition recordMint (poolAddress : jsstr) (amount : Z) : t -> t :=
  update_pool (fun p => {| chainId := chainId p; minted := minted p + amount; burned := burned p |}) poolAddress.
Definition recordBurn (poolAddress : jsstr) (amount : Z) : t -> t :=
  update_pool (fun p => {| chainId := chainId p; minted := minted p; burned := burned p + amount |}) poolAddress.

Definition listPools (s : t) : list jsstr := jm_keys (pools s).

(** ** Histories *)

Inductive op :=
| Register (chain : num) (a : jsstr)
| Token (chain : num) (a : jsstr) (ts : Z) (slot : num)
| Mint (a : jsstr) (amount : Z)
| Burn (a : jsstr) (amount : Z).

Definition step (o : op) (s : t) : t :=
  match o with
  | Register chain a => (registerPool chain a s).1
  | Token chain a ts slot => (getTokenId chain a ts slot s).1
  | Mint a amount => recordMint a amount s
  | Burn a amount => recordBurn a amount s
  end.

Definition run (l : list op) (s : t) : t := foldl (fun s o => step o s) s l.

Definition inv (s : t) : Prop :=
  jm_ok (pools s) /\ jm_ok (tokenToPool s)
  /\ jm_size (pools s) <= MAX_POOLS /\ jm_size (tokenToPool s) <= MAX_TOKEN_MAPPINGS
  /\ Forall (fun a => isAddress a = true /\ to_lower a = a) (jm_keys (pools s)).

(** What a history mints to an address. *)
Definition mint_to (a : jsstr) (o : op) : Z :=
  match o with
  | Mint b amount => if valid_address b && bool_decide (to_lower b = a) then amount else 0
  | _ => 0
  end.
Definition burn_to (a : jsstr) (o : op) : Z :=
  match o with
  | Burn b amount => if valid_address b && bool_decide (to_lower b = a) then amount else 0
  | _ => 0
  end.
Definition total (f : op -> Z) (l : list op) : Z := foldr (fun o acc => f o + acc) 0 l.

(** ** Lemmas *)

Lemma jm_size_set_same {V} (m : jsmap jsstr V) k v v0 : jm_get m k = Some v0 -> jm_size (jm_set m k v) = jm_size m.
Proof. intros H. rewrite jm_size_set. unfold jm_has. by rewrite H. Qed.

Lemma jm_keys_set_same {V} (m : jsmap jsstr V) k v v0 : jm_get m k = Some v0 -> jm_keys (jm_set m k v) = jm_keys m.
Proof. intros H. rewrite jm_keys_set. unfold jm_has. by rewrite H. Qed.

Lemma remember_token_ok tok p m :
  jm_ok m -> jm_size m <= MAX_TOKEN_MAPPINGS ->
  jm_ok (remember_token tok p m) /\ jm_size (remember_token tok p m) <= MAX_TOKEN_MAPPINGS.
Proof.
  intros Hok Hsz. unfold remember_token. rewrite jm_size_set.
  destruct (Z.leb_spec MAX_TOKEN_MAPPINGS (jm_size m)) as [Hle|Hlt].
  - destruct m as [|[k v] m]; [unfold MAX_TOKEN_MAPPINGS, jm_size in *; simpl in *; lia|].
    unfold jm_oldest. csimpl. rewrite jm_delete_head by done.
    assert (jm_ok m) as Hm by (unfold jm_ok, jm_keys in *; csimpl in Hok; by apply NoDup_cons in Hok as [_ ?]).
    split; [by apply jm_ok_set|]. assert (jm_size ((k, v) :: m) = jm_size m + 1) by (unfold jm_size; simpl; lia).
    destruct (jm_has m tok); lia.
  - split; [by apply jm_ok_set|]. destruct (jm_has m tok); lia.
Qed.

Lemma valid_address_lower a : valid_address a = true -> isAddress (to_lower a) = true.
Proof. by destruct a. Qed.

Lemma registry_step_inv o s : inv s -> inv (step o s).
Proof.
  intros (H1 & H2 & H3 & H4 & H5).
  assert (forall f a, inv (update_pool f a s)) as Hup.
  { intros f a. unfold update_pool. destruct (negb _); [by split_and!|].
    destruct (jm_get (pools s) (to_lower a)) as [p|] eqn:E; [|by split_and!].
    split_and!; cbn [pools tokenToPool fst]; [by apply jm_ok_set|done|by erewrite jm_size_set_same|done|by erewrite jm_keys_set_same]. }
  destruct o as [chain a|chain a ts slot|a amount|a amount]; cbn [step]; [| |apply Hup..].
  - unfold registerPool. destruct (valid_address a) eqn:Ev; [|by split_and!]. cbn [negb].
    destruct (jm_has (pools s) (to_lower a)) eqn:Eh; [by split_and!|].
    destruct (Z.leb_spec MAX_POOLS (jm_size (pools s))); [by split_and!|].
    split_and!; cbn [pools tokenToPool fst]; [by apply jm_ok_set|done| |done|].
    + rewrite jm_size_set, Eh. lia.
    + rewrite jm_keys_set, Eh. apply Forall_app. split; [done|]. constructor; [|constructor].
      split; [by apply valid_address_lower|apply to_lower_idemp].
  - unfold getTokenId. destruct (valid_address a); [|by split_and!]. cbn [negb].
    destruct (slot_of slot); [|by split_and!]. destruct (_ <? ts); [by split_and!|].
    destruct (_ ≫= _) as [enc|]; [|by split_and!].
    destruct (remember_token_ok (keccak256 enc) (to_lower a) _ H2 H4) as [K1 K2]. by split_and!.
Qed.

Lemma update_pool_get f a b s p :
  jm_get (pools s) b = Some p ->
  jm_get (pools (update_pool f a s)) b
  = Some (if valid_address a && bool_decide (to_lower a = b) then f p else p).
Proof.
  intros Hp. unfold update_pool. destruct (valid_address a); [|done]. cbn [negb andb].
  case_bool_decide as E.
  - subst b. rewrite Hp. apply jm_get_set_eq.
  - destruct (jm_get (pools s) (to_lower a)); [|done]. cbn. by rewrite jm_get_set_ne.
Qed.

(** A registered pool stays registered; one operation moves its totals by what
    the operation records for it. *)
Lemma step_totals o s b p :
  jm_get (pools s) b = Some p ->
  exists p', jm_get (pools (step o s)) b = Some p' /\ chainId p' = chainId p
    /\ minted p' = minted p + mint_to b o /\ burned p' = burned p + burn_to b o.
Proof.
  intros Hp. destruct o as [chain a|chain a ts slot|a amount|a amount]; cbn [step mint_to burn_to].
  - exists p. rewrite !Z.add_0_r. split_and!; [|done..]. unfold registerPool.
    destruct (negb _); [done|]. destruct (jm_has (pools s) (to_lower a)) eqn:Eh; [done|].
    destruct (_ <=? _); [done|]. cbn. rewrite jm_get_set_ne; [done|].
    intros <-. unfold jm_has in Eh. by rewrite Hp in Eh.
  - exists p. rewrite !Z.add_0_r. split_and!; [|done..]. unfold getTokenId.
    destruct (negb _); [done|]. destruct (slot_of slot); [|done]. destruct (_ <? ts); [done|].
    by destruct (_ ≫= _).
  - eexists. unfold recordMint. rewrite (update_pool_get _ a b s p Hp). split; [done|].
    destruct (_ && _); split_and!; cbn; (done || lia).
  - eexists. unfold recordBurn. rewrite (update_pool_get _ a b s p Hp). split; [done|].
    destruct (_ && _); split_and!; cbn; (done || lia).
Qed.

End Operations.

(** ** Serialization *)

Definition json_of_pool (e : jsstr * pool) : json :=
  JObj [(js "address", JStr e.1); (js "chainId", json_num (chainId e.2));
        (js "minted", JStr (z_to_dec (minted e.2))); (js "burned", JStr (z_to_dec (burned e.2)))].
Definition json_of_token (e : jsstr * jsstr) : json :=
  JObj [(js "tokenId", JStr e.1); (js "poolAddress", JStr e.2)].

Definition serialize (s : t) : json :=
  JObj [(js "pools", JArr (json_of_pool <$> pools s));
        (js "tokenMappings", JArr (json_of_token <$> tokenToPool s))].

(** [for (const x of v)]: arrays and strings are iterable. *)
Definition json_iter (v : option json) : res (list json) :=
  match v with
  | Some (JArr l) => Ok l
  | Some (JStr s) => Ok ((fun c => JStr [c]) <$> s)
  | _ => Throw TypeError
  end.

Definition truthy (v : option json) : bool :=
  match v with
  | None | Some JNull | Some (JBool false) | Some (JStr []) | Some (JNum (S754_zero _)) => false
  | _ => true
  end.

(** The loops of [deserialize]; [None] when a key or a chain id does not have
    its declared type, an object the class does not describe. *)
Fixpoint load_pools (l : list json) (m : jsmap jsstr pool) : res (option (jsmap jsstr pool)) :=
  match l with
  | [] => Ok (Some m)
  | p :: l' =>
      address ← get_field p "address";
      chain ← get_field p "chainId";
      f ← get_field p "minted"; mintedZ ← bigint_of_json f;
      f ← get_field p "burned"; burnedZ ← bigint_of_json f;
      match address, chain with
      | Some (JStr a), Some (JNum c) => load_pools l' (jm_set m a {| chainId := c; minted := mintedZ; burned := burnedZ |})
      | _, _ => Ok None
      end
  end.

Fixpoint load_tokens (l : list json) (m : jsmap jsstr jsstr) : res (option (jsmap jsstr jsstr)) :=
  match l with
  | [] => Ok (Some m)
  | x :: l' =>
      tokenId ← get_field x "tokenId";
      pool ← get_field x "poolAddress";
      match tokenId, pool with
      | Some (JStr k), Some (JStr p) => load_tokens l' (jm_set m k p)
      | _, _ => Ok None
      end
  end.

Definition deserialize (text : json_text) : res (option t) :=
  data ← JSON_parse text;
  f ← get_field data "pools";
  ps ← json_iter f;
  pm ← load_pools ps [];
  g ← get_field data "tokenMappings";
  tm ← (if truthy g then ts ← json_iter g; load_tokens ts [] else Ok (Some []));
  Ok (match pm, tm with Some p, Some k => Some {| pools := p; tokenToPool := k |} | _, _ => None end).

Lemma json_pool_fields a p :
  json_safe (chainId p) = true ->
  get_field (json_of_pool (a, p)) "address" = Ok (Some (JStr a))
  /\ get_field (json_of_pool (a, p)) "chainId" = Ok (Some (JNum (chainId p)))
  /\ get_field (json_of_pool (a, p)) "minted" = Ok (Some (JStr (z_to_dec (minted p))))
  /\ get_field (json_of_pool (a, p)) "burned" = Ok (Some (JStr (z_to_dec (burned p)))).
Proof. intros Hs. rewrite <- (json_num_safe _ Hs). done. Qed.

Lemma load_pools_ok l m :
  NoDup (jm_keys (m ++ l)) -> Forall (fun e => json_safe (chainId e.2) = true) l ->
  load_pools (json_of_pool <$> l) m = Ok (Some (m ++ l)).
Proof.
  intros Hnd Hl. revert m Hnd. induction Hl as [|[a p] l Hs _ IH]; intros m Hnd.
  - by rewrite app_nil_r.
  - change (json_of_pool <$> (a, p) :: l) with (json_of_pool (a, p) :: (json_of_pool <$> l)).
    cbn [load_pools]. cbn [snd] in Hs. destruct (json_pool_fields a p Hs) as (-> & -> & -> & ->).
    cbn [mbind result_bind]. rewrite !bigint_of_json_dec. cbn [mbind result_bind].
    replace {| chainId := chainId p; minted := minted p; burned := burned p |} with p by by destruct p.
    rewrite jm_set_new.
    + rewrite IH by by rewrite <- app_assoc. by rewrite <- app_assoc.
    + apply jm_has_false. unfold jm_keys in *. rewrite fmap_app in Hnd. csimpl in Hnd.
      apply NoDup_app in Hnd as (_ & Hd & _). intros Hin. apply (Hd a Hin). left.
Qed.

Lemma load_tokens_ok l m :
  NoDup (jm_keys (m ++ l)) -> load_tokens (json_of_token <$> l) m = Ok (Some (m ++ l)).
Proof.
  revert m. induction l as [|[k p] l IH]; intros m Hnd.
  - by rewrite app_nil_r.
  - change (json_of_token <$> (k, p) :: l) with (json_of_token (k, p) :: (json_of_token <$> l)).
    cbn [load_tokens].
    change (get_field (json_of_token (k, p)) "tokenId") with (Ok (E := exn) (Some (JStr k))).
    change (get_field (json_of_token (k, p)) "poolAddress") with (Ok (E := exn) (Some (JStr p))).
    cbn [mbind result_bind]. rewrite jm_set_new.
    + rewrite IH by by rewrite <- app_assoc. by rewrite <- app_assoc.
    + apply jm_has_false. unfold jm_keys in *. rewrite fmap_app in Hnd. csimpl in Hnd.
      apply NoDup_app in Hnd as (_ & Hd & _). intros Hin. apply (Hd k Hin). left.
Qed.

(** ** Properties *)

(** After any history of calls the registry holds at most 10,000 pools and
    100,000 token mappings, one entry per key, and every pool key is a valid
    address in lower case. *)
Lemma registry_bounded isAddress keccak256 abi_encode l :
  inv isAddress (run isAddress keccak256 abi_encode l empty).
Proof.
  assert (inv isAddress empty) as Hinv by (split_and!; first [constructor|done]).
  revert Hinv. generalize empty. induction l as [|o l IH]; intros s Hinv; [done|].
  apply IH. by apply registry_step_inv.
Qed.

(** The totals of a registered pool are exact: after any further history
    they have grown by exactly the amounts recorded for its address, in any
    letter case, and its chain id is unchanged. *)
Lemma registry_ledger isAddress keccak256 abi_encode l s b p :
  jm_get (pools s) b = Some p ->
  exists p', jm_get (pools (run isAddress keccak256 abi_encode l s)) b = Some p'
    /\ chainId p' = chainId p
    /\ minted p' = minted p + total (mint_to isAddress b) l
    /\ burned p' = burned p + total (burn_to isAddress b) l.
Proof.
  revert s p. induction l as [|o l IH]; intros s p Hp.
  - exists p. cbn. by rewrite !Z.add_0_r.
  - destruct (step_totals isAddress keccak256 abi_encode o s b p Hp) as (p1 & H1 & Hc & Hm & Hb).
    destruct (IH _ _ H1) as (p2 & H2 & Hc2 & Hm2 & Hb2). exists p2. cbn [run foldl total foldr] in *.
    split_and!; [done|congruence|unfold total in *; lia..].
Qed.

(** [deserialize] restores what [serialize] saved: every reachable
    registry whose chain ids are finite Numbers comes back unchanged, with the
    order its eviction depends on. *)
Lemma registry_roundtrip isAddress keccak256 abi_encode l :
  let s := run isAddress keccak256 abi_encode l empty in
  Forall (fun e => json_safe (chainId e.2) = true) (pools s) ->
  deserialize (Some (serialize s)) = Ok (Some s).
Proof.
  cbv zeta. assert (inv isAddress (run isAddress keccak256 abi_encode l empty)) as (H1 & H2 & _).
  { assert (inv isAddress empty) as Hinv by (split_and!; first [constructor|done]).
    revert Hinv. generalize empty. induction l as [|o l IH]; intros s Hinv; [done|].
    apply IH. by apply registry_step_inv. }
  set (s := run _ _ _ l empty) in *. intros Hs.
  assert (get_field (serialize s) "pools" = Ok (Some (JArr (json_of_pool <$> pools s)))) as E1 by done.
  assert (get_field (serialize s) "tokenMappings" = Ok (Some (JArr (json_of_token <$> tokenToPool s)))) as E2 by done.
  unfold deserialize. cbn [JSON_parse mbind result_bind]. rewrite E1. cbn [mbind result_bind json_iter].
  rewrite (load_pools_ok (pools s) []) by done. cbn [mbind result_bind]. rewrite E2.
  cbn [mbind result_bind truthy json_iter]. rewrite (load_tokens_ok (tokenToPool s) []) by done.
  cbn [mbind result_bind app]. by destruct s.
Qed.

(** ** Witnesses *)

Definition ex_ops : list op :=
  [Register (num_of_Z 8453) (js "0xAB"); Mint (js "0xaB") 5; Token (num_of_Z 8453) (js "0xab") 7 (num_of_Z 1)].
Definition ex_state : t := run (fun _ => true) to_hex (fun _ _ _ _ => Ok [bofZ 1]) ex_ops empty.

Lemma registry_ledger_witness :
  exists p', jm_get (pools (run (fun _ => true) to_hex (fun _ _ _ _ => Ok [])
                              [Mint (js "0XAB") 10; Burn (js "0xab") 3; Mint (js "0xcd") 8] ex_state)) (js "0xab") = Some p'
    /\ chainId p' = num_of_Z 8453 /\ minted p' = 5 + 10 /\ burned p' = 0 + 3.
Proof.
  apply (registry_ledger (fun _ => true) to_hex (fun _ _ _ _ => Ok [])
           [Mint (js "0XAB") 10; Burn (js "0xab") 3; Mint (js "0xcd") 8] ex_state (js "0xab")
           {| chainId := num_of_Z 8453; minted := 5; burned := 0 |}).
  vm_compute. reflexivity.
Defined.

Lemma registry_roundtrip_witness : deserialize (Some (serialize ex_state)) = Ok (Some ex_state).
Proof.
  apply (registry_roundtrip (fun _ => true) to_hex (fun _ _ _ _ => Ok [bofZ 1]) ex_ops).
  repeat constructor.
Defined.

End Registry.
