(* ===== verification/EvmConnector.v ===== *)
(** * EVMConnector (src/src/evm_connector.ts)

    The chain connector: the connection state machine, the contracts attached
    to it, the event listeners it registers on them and the transactions it
    sends.  Everything of ethers is a parameter: providers, wallets, signers
    and contracts are abstract, a network answer is an argument of the call
    that awaits it, and the calls with an effect outside the connector are
    recorded in a trace. *)
From Stdlib Require Import ZArith Lia String Strings.Byte.
From stdpp Require Import base list numbers option relations strings.
From S2P Require Import Prelude JSString Errors Bytes JSNum AdaptiveSwitch.

Module Evm.

(** ** Errors

    An error of the SDK with the four arguments of its constructor, or a value
    thrown by a call into ethers. *)
Record sdk_error := {
  se_class : error_class; se_key : error_key; se_message : jsstr; se_reason : jsstr; se_fix : jsstr;
}.
Inductive thrown := Sdk (e : sdk_error) | Foreign (e : exn).

(** The [message] property [TTTBaseError] builds. *)
Definition error_message (e : sdk_error) : jsstr :=
  js "[" ++ js (ERROR_CODES (se_key e)) ++ js "] " ++ se_message e ++ js " (Reason: " ++ se_reason e
  ++ js ". Fix: " ++ se_fix e ++ js ")".

Lemma js_app s1 s2 : js (s1 +:+ s2) = js s1 ++ js s2.
Proof. induction s1 as [|a s1 IH]; simpl; [done|]. by rewrite IH. Qed.

Lemma error_message_base cls k m r f :
  error_message {| se_class := cls; se_key := k; se_message := js m; se_reason := js r; se_fix := js f |}
  = js (te_message (TTTBaseError cls (ERROR_CODES k) m r (Some f))).
Proof. unfold error_message, TTTBaseError. cbn -[js String.append]. by rewrite !js_app. Qed.

Definition err (cls : error_class) (k : error_key) (m r f : jsstr) : thrown :=
  Sdk {| se_class := cls; se_key := k; se_message := m; se_reason := r; se_fix := f |}.

(** [error instanceof TTTNetworkError || error instanceof TTTContractError] *)
Definition is_network_or_contract (e : thrown) : bool :=
  match e with
  | Sdk e => bool_decide (se_class e = TTTNetworkError) || bool_decide (se_class e = TTTContractError)
  | Foreign (TTTErr cls _ _) => bool_decide (cls = TTTNetworkError) || bool_decide (cls = TTTContractError)
  | Foreign _ => false
  end.

Section Connector.
Context {Prov Sgn Ctr Tx : Type} `{!EqDecision Ctr}.

(** What a signer option is: a private key or a signer object. *)
Inductive key := PrivateKey (s : jsstr) | SignerObject (g : Sgn).

(** The constructors of ethers and [signer.connect], which may be missing. *)
Variable JsonRpcProvider : jsstr -> res Prov.
Variable Wallet : jsstr -> Prov -> res Sgn.
Variable signer_connect : Sgn -> option (Prov -> res Sgn).
Variable isAddress : jsstr -> bool.
Variable Contract : jsstr -> Sgn -> res Ctr.
(** [String(error)] and [error.message] of a value thrown by other code. *)
Variable String_of : exn -> jsstr.
Variable message_of : exn -> jsstr.

(** ** State *)

Inductive event_name := TTTMinted | TTTBurned | FeeCollected.
#[export] Instance event_name_eq_dec : EqDecision event_name.
Proof. solve_decision. Defined.

(** An entry of [eventListeners]: the closure knows its contract, its event and
    its handler; every handler is a new function, named by the length of the
    trace when it was made. *)
Record listener := { l_contract : Ctr; l_event : event_name; l_handler : nat }.
#[export] Instance listener_eq_dec : EqDecision listener.
Proof. solve_decision. Defined.

Inductive effect := On (l : listener) | Off (l : listener) | Destroy (p : Prov).

Record t := {
  provider : option Prov;
  signer : option Sgn;
  tttContract : option Ctr;
  protocolFeeContract : option Ctr;
  eventListeners : list listener;
  primaryRpcUrl : jsstr;
  fallbackRpcUrls : list jsstr;
  signerOrKey : option key;
  maxReconnectAttempts : Z;
  connected : bool;
  trace : list effect;
}.

Definition make (fallbacks : option (list jsstr)) (attempts : option Z) : t :=
  {| provider := None; signer := None; tttContract := None; protocolFeeContract := None;
     eventListeners := []; primaryRpcUrl := []; fallbackRpcUrls := default [] fallbacks;
     signerOrKey := None; maxReconnectAttempts := default 3 attempts; connected := false; trace := [] |}.

Definition set_provider (p : Prov) (s : t) : t :=
  {| provider := Some p; signer := signer s; tttContract := tttContract s;
     protocolFeeContract := protocolFeeContract s; eventListeners := eventListeners s;
     primaryRpcUrl := primaryRpcUrl s; fallbackRpcUrls := fallbackRpcUrls s; signerOrKey := signerOrKey s;
     maxReconnectAttempts := maxReconnectAttempts s; connected := connected s; trace := trace s |}.
Definition set_signer (g : Sgn) (s : t) : t :=
  {| provider := provider s; signer := Some g; tttContract := tttContract s;
     protocolFeeContract := protocolFeeContract s; eventListeners := eventListeners s;
     primaryRpcUrl := primaryRpcUrl s; fallbackRpcUrls := fallbackRpcUrls s; signerOrKey := signerOrKey s;
     maxReconnectAttempts := maxReconnectAttempts s; connected := connected s; trace := trace s |}.
Definition set_connected (b : bool) (s : t) : t :=
  {| provider := provider s; signer := signer s; tttContract := tttContract s;
     protocolFeeContract := protocolFeeContract s; eventListeners := eventListeners s;
     primaryRpcUrl := primaryRpcUrl s; fallbackRpcUrls := fallbackRpcUrls s; signerOrKey := signerOrKey s;
     maxReconnectAttempts := maxReconnectAttempts s; connected := b; trace := trace s |}.
Definition set_credentials (url : jsstr) (k : key) (s : t) : t :=
  {| provider := provider s; signer := signer s; tttContract := tttContract s;
     protocolFeeContract := protocolFeeContract s; eventListeners := eventListeners s;
     primaryRpcUrl := url; fallbackRpcUrls := fallbackRpcUrls s; signerOrKey := Some k;
     maxReconnectAttempts := maxReconnectAttempts s; connected := connected s; trace := trace s |}.
Definition set_contracts (c1 c2 : option Ctr) (s : t) : t :=
  {| provider := provider s; signer := signer s; tttContract := c1;
     protocolFeeContract := c2; eventListeners := eventListeners s;
     primaryRpcUrl := primaryRpcUrl s; fallbackRpcUrls := fallbackRpcUrls s; signerOrKey := signerOrKey s;
     maxReconnectAttempts := maxReconnectAttempts s; connected := connected s; trace := trace s |}.
Definition set_listeners (l : list listener) (tr : list effect) (s : t) : t :=
  {| provider := provider s; signer := signer s; tttContract := tttContract s;
     protocolFeeContract := protocolFeeContract s; eventListeners := l;
     primaryRpcUrl := primaryRpcUrl s; fallbackRpcUrls := fallbackRpcUrls s; signerOrKey := signerOrKey s;
     maxReconnectAttempts := maxReconnectAttempts s; connected := connected s; trace := tr |}.

(** ** Connecting *)

(** [typeof signerOrKey === "string" ? new Wallet(k, provider) :
     signerOrKey.connect ? signerOrKey.connect(provider) : signerOrKey] *)
Definition make_signer (k : key) (p : Prov) : res Sgn :=
  match k with
  | PrivateKey s => Wallet s p
  | SignerObject g => match signer_connect g with Some f => f p | None => Ok g end
  end.

(** [signerOrKey.startsWith("0x") && signerOrKey.length === 66], for a key. *)
Definition key_format_ok (k : key) : bool :=
  match k with
  | PrivateKey s => starts_with (js "0x") s && (length s =? 66)%nat
  | SignerObject _ => true
  end.

Definition invalid_key : thrown :=
  err TTTContractError CONTRACT_INVALID_KEY_FORMAT (js "[EVM] Invalid Private Key format")
    (js "Private key must be 0x + 64 hex characters") (js "Provide a valid 32-byte hex private key.").

(** One attempt: new provider, key check where the code makes it, signer, and
    the answer of [getNetwork]. *)
Definition attempt (check_key : bool) (url : jsstr) (k : key) (network : res Z) (s : t)
    : t * result thrown unit :=
  match JsonRpcProvider url with
  | Throw e => (s, Throw (Foreign e))
  | Ok p =>
      let s := set_provider p s in
      if check_key && negb (key_format_ok k) then (s, Throw invalid_key)
      else match make_signer k p with
           | Throw e => (s, Throw (Foreign e))
           | Ok g =>
               let s := set_signer g s in
               match network with
               | Throw e => (s, Throw (Foreign e))
               | Ok _ => (set_connected true s, Ok tt)
               end
           end
  end.

(** The fallback loop of [connect]; [networks i] answers the i-th fallback. *)
Fixpoint try_fallbacks (urls : list jsstr) (k : key) (i : nat) (networks : nat -> res Z) (s : t) : t * bool :=
  match urls with
  | [] => (s, false)
  | url :: urls' =>
      let '(s, r) := attempt false url k (networks i) s in
      match r with Ok _ => (s, true) | Throw _ => try_fallbacks urls' k (S i) networks s end
  end.

(** [error instanceof Error ? error.message : String(error)] *)
Definition text_of (e : thrown) : jsstr :=
  match e with Sdk e => error_message e | Foreign e => message_of e end.

Definition connect (rpcUrl : jsstr) (k : key) (network : res Z) (networks : nat -> res Z) (s : t)
    : t * result thrown unit :=
  match rpcUrl with
  | [] => (s, Throw (err TTTNetworkError NETWORK_INVALID_RPC (js "[EVM] Invalid RPC URL")
               (js "The provided RPC URL is empty or not a string")
               (js "Pass a valid RPC URL (e.g., https://mainnet.base.org)")))
  | _ =>
      let '(s, r) := attempt true rpcUrl k network (set_credentials rpcUrl k s) in
      match r with
      | Ok _ => (s, Ok tt)
      | Throw e =>
          if is_network_or_contract e then (s, Throw e)
          else
            let '(s, found) := try_fallbacks (fallbackRpcUrls s) k 0 networks s in
            if found then (s, Ok tt)
            else (s, Throw (err TTTNetworkError NETWORK_CONNECTION_FAILED (js "[EVM] Connection failed")
                       (text_of e) (js "Verify your RPC URL and network connectivity.")))
      end
  end.

(** ** Listeners and disconnecting *)

(** [try { unsub() } catch {}] for every listener, then an empty list. *)
Definition unsubscribeAll (s : t) : t :=
  set_listeners [] (trace s ++ (Off <$> eventListeners s)) s.

Definition disconnect (s : t) : t :=
  let s := unsubscribeAll s in
  let s := set_listeners (eventListeners s)
             (trace s ++ match provider s with Some p => [Destroy p] | None => [] end) s in
  {| provider := None; signer := None; tttContract := None; protocolFeeContract := None;
     eventListeners := eventListeners s; primaryRpcUrl := primaryRpcUrl s;
     fallbackRpcUrls := fallbackRpcUrls s; signerOrKey := signerOrKey s;
     maxReconnectAttempts := maxReconnectAttempts s; connected := false; trace := trace s |}.

Definition isConnected (s : t) : bool :=
  connected s && match provider s with Some _ => true | None => false end.

Definition subscribe_one (c : option Ctr) (wanted : bool) (ev : event_name) (s : t) : t :=
  match c with
  | Some c =>
      if wanted then
        let l := {| l_contract := c; l_event := ev; l_handler := length (trace s) |} in
        set_listeners (eventListeners s ++ [l]) (trace s ++ [On l]) s
      else s
  | None => s
  end.

(** The three flags: whether the callback is given. *)
Definition subscribeToEvents (onMinted onBurned onFeeCollected : bool) (s : t) : t :=
  let s := if (0 <? length (eventListeners s))%nat then unsubscribeAll s else s in
  let s := subscribe_one (tttContract s) onMinted TTTMinted s in
  let s := subscribe_one (tttContract s) onBurned TTTBurned s in
  subscribe_one (protocolFeeContract s) onFeeCollected FeeCollected s.

(** ** Reconnecting *)

(** [for (attempt = i; attempt < bound; attempt++)] with [n] rounds left;
    [networks i] answers the i-th attempt. *)
Fixpoint reconnect_loop (n i : nat) (urls : list jsstr) (k : key) (networks : nat -> res Z) (s : t)
    : t * bool :=
  match n with
  | O => (s, false)
  | S n' =>
      match urls !! (i mod length urls)%nat with
      | Some url =>
          let '(s, r) := attempt false url k (networks i) s in
          match r with
          | Ok _ => (s, true)
          | Throw _ => reconnect_loop n' (S i) urls k networks s
          end
      | None => (s, false)
      end
  end.

(** [[primary, ...fallbacks].filter(Boolean)] *)
Definition all_urls (s : t) : list jsstr :=
  bfilter (fun u => match u with [] => false | _ => true end) (primaryRpcUrl s :: fallbackRpcUrls s).

Definition reconnect_bound (s : t) : nat :=
  Z.to_nat (Z.min (maxReconnectAttempts s) (Z.of_nat (length (all_urls s)))).

(** [!this.signerOrKey]: nothing stored, or the empty string. *)
Definition stored_credentials (s : t) : option key :=
  match signerOrKey s with Some (PrivateKey []) => None | k => k end.

Definition reconnect (networks : nat -> res Z) (s : t) : t * result thrown unit :=
  match stored_credentials s with
  | None => (s, Throw (err TTTNetworkError NETWORK_CANNOT_RECONNECT (js "[EVM] Cannot reconnect")
               (js "No previous connection credentials stored") (js "Call connect() first.")))
  | Some k =>
      let s := disconnect s in
      let '(s, found) := reconnect_loop (reconnect_bound s) 0 (all_urls s) k networks s in
      if found then (s, Ok tt)
      else (set_connected false s,
            Throw (err TTTNetworkError NETWORK_RECONNECTION_EXHAUSTED (js "[EVM] Reconnection failed")
              (js "All " ++ z_to_dec (maxReconnectAttempts s) ++ js " attempts exhausted")
              (js "Check RPC provider status and network connectivity.")))
  end.

(** ** Contracts *)

Definition check_attach (address : jsstr) (s : t) : result thrown Sgn :=
  match signer s with
  | None => Throw (err TTTContractError CONTRACT_SIGNER_NOT_CONNECTED (js "Not connected to signer")
              (js "EVMConnector.connect() must be called first")
              (js "Initialize connection before attaching contracts."))
  | Some g =>
      if match address with [] => true | _ => negb (isAddress address) end
      then Throw (err TTTContractError CONTRACT_INVALID_ADDRESS (js "[EVM] Invalid contract address")
              (js "Address '" ++ address ++ js "' is not a valid EVM address")
              (js "Check your config and provide a valid checksummed address."))
      else Ok g
  end.

(** [new Contract(address, abi, signer)]; the ABI is inside the parameter. *)
Definition new_contract (address : jsstr) (s : t) : result thrown Ctr :=
  g ← check_attach address s;
  match Contract address g with Ok c => Ok c | Throw e => Throw (Foreign e) end.

Definition attachContract (address : jsstr) (s : t) : t * result thrown unit :=
  match new_contract address s with
  | Ok c => (set_contracts (Some c) (protocolFeeContract s) s, Ok tt)
  | Throw e => (s, Throw e)
  end.
Definition attachProtocolFeeContract (address : jsstr) (s : t) : t * result thrown unit :=
  match new_contract address s with
  | Ok c => (set_contracts (tttContract s) (Some c) s, Ok tt)
  | Throw e => (s, Throw e)
  end.

(** ** Transactions *)

(** [withTimeout]: [None] when the five seconds elapse first. *)
Definition withTimeout {A} (p : option (res A)) : result thrown A :=
  match p with
  | Some (Ok a) => Ok a
  | Some (Throw e) => Throw (Foreign e)
  | None => Throw (err TTTNetworkError NETWORK_CONNECTION_FAILED (js "[EVM] Operation timed out")
              (js "RPC did not respond within 5000ms") (js "Check your RPC provider status or increase timeout."))
  end.

Definition lift {A} (r : res A) : result thrown A :=
  match r with Ok a => Ok a | Throw e => Throw (Foreign e) end.

(** [extractRevertReason] *)
Definition revert_reason (e : exn) : jsstr :=
  match e with
  | ForeignError (Some r) _ _ => r
  | ForeignError None (Some m) _ => m
  | ForeignError None None (Some m) => m
  | ForeignError None None None => String_of e
  | _ => message_of e
  end.
Definition extractRevertReason (e : thrown) : jsstr :=
  match e with Sdk e => error_message e | Foreign e => revert_reason e end.

Record Receipt := { rc_hash : jsstr }.

(** What the calls of one operation answer: an estimate may be late, a call
    may throw, and [wait] gives [None] for a dropped transaction. *)
Record chain_calls := {
  burn_estimateGas : Z -> jsstr -> Z -> option (res Z);
  burn : Z -> jsstr -> Z -> option Z -> res Tx;
  mint_estimateGas : jsstr -> Z -> jsstr -> option (res Z);
  mint : jsstr -> Z -> jsstr -> option Z -> res Tx;
  balanceOf : jsstr -> Z -> res Z;
  swap_estimateGas : jsstr -> jsstr -> Z -> Z -> option (res Z);
  router_swap : jsstr -> jsstr -> Z -> Z -> option Z -> res Tx;
  wait : Tx -> res (option Receipt);
}.

(** [(gasLimit * 120n) / 100n] *)
Definition with_buffer (gasLimit : Z) : Z := Z.quot (gasLimit * 120) 100.

Definition not_attached {A} (fix_ : string) : result thrown A :=
  Throw (err TTTContractError CONTRACT_NOT_ATTACHED (js "Contract not attached")
           (js "TTT contract instance is null") (js fix_)).

(** [if (!receipt) throw new TTTNetworkError(NETWORK_TX_DROPPED, ...)] *)
Definition receipt_or (m r f : string) (o : option Receipt) : result thrown Receipt :=
  match o with
  | Some rc => Ok rc
  | None => Throw (err TTTNetworkError NETWORK_TX_DROPPED (js m) (js r) (js f))
  end.

(** The [catch] blocks: a failure becomes an error of the given code whose
    reason is the revert reason; [keep] lets the SDK's own errors through. *)
Definition catch_tx {A} (keep : bool) (k : error_key) (m f : string) (r : result thrown A) : result thrown A :=
  match r with
  | Ok a => Ok a
  | Throw e =>
      if keep && is_network_or_contract e then Throw e
      else Throw (err TTTContractError k (js m) (extractRevertReason e) (js f))
  end.

Section Calls.
Variable calls : chain_calls.
Variable keccak256 : Buffer -> jsstr.

Definition submitTTTRecord (record : Adaptive.TTTRecord) (amount tier : Z) (s : t) : result thrown Receipt :=
  match tttContract s with
  | None => not_attached "Call attachContract() with valid TTT address before burning."
  | Some _ =>
      let grgHash := keccak256 (concat (Adaptive.grgPayload record)) in
      catch_tx true CONTRACT_BURN_FAILED "[EVM] Burn failed" "Verify your TTT balance and tier parameters."
        (gasLimit ← withTimeout (burn_estimateGas calls amount grgHash tier);
         tx ← lift (burn calls amount grgHash tier (Some (with_buffer gasLimit)));
         receipt ← lift (wait calls tx);
         receipt_or "[EVM] Transaction failed" "Transaction was dropped from mempool or null receipt"
           "Check block explorer for tx status." receipt)
  end.

Definition mintTTT (to : jsstr) (amount : Z) (grgHash : jsstr) (s : t) : result thrown Receipt :=
  match tttContract s with
  | None => not_attached "Call attachContract() before minting."
  | Some _ =>
      if match to with [] => true | _ => negb (isAddress to) end
      then Throw (err TTTContractError CONTRACT_INVALID_ADDRESS (js "[EVM] Invalid recipient address")
             (js "Address '" ++ to ++ js "' is not a valid EVM address") (js "Provide a valid destination address."))
      else
        catch_tx false CONTRACT_MINT_FAILED "[EVM] Mint failed" "Ensure operator has minter role and sufficient gas."
          (gasLimit ← withTimeout (mint_estimateGas calls to amount grgHash);
           tx ← lift (mint calls to amount grgHash (Some (with_buffer gasLimit)));
           receipt ← lift (wait calls tx);
           receipt_or "[EVM] Mint TX dropped" "Transaction was dropped from mempool"
             "Check operator account for nonce collisions." receipt)
  end.

Definition burnTTT (amount : Z) (grgHash : jsstr) (tierLevel : Z) (s : t) : result thrown jsstr :=
  match tttContract s with
  | None => not_attached "Call attachContract() before burning."
  | Some _ =>
      catch_tx false CONTRACT_BURN_FAILED "[EVM] Burn failed" "Check TTT balance."
        (tx ← lift (burn calls amount grgHash tierLevel None);
         receipt ← lift (wait calls tx);
         rc_hash <$> receipt_or "[EVM] Burn TX dropped" "Transaction was dropped from mempool"
                       "Verify account balance." receipt)
  end.

Definition getTTTBalance (user : jsstr) (tokenId : Z) (s : t) : result thrown Z :=
  match tttContract s with
  | None => not_attached "Call attachContract() before querying balance."
  | Some _ =>
      catch_tx false CONTRACT_BALANCE_QUERY_FAILED "[EVM] Balance query failed"
        "Check RPC connection and contract address." (lift (balanceOf calls user tokenId))
  end.

(** The router contract is built before the [try]: a failure there is not
    caught. *)
Definition swap (routerAddress tokenIn tokenOut : jsstr) (amountIn minAmountOut : Z) (s : t) : result thrown Receipt :=
  match signer s with
  | None => Throw (err TTTContractError CONTRACT_SIGNER_NOT_CONNECTED (js "Not connected to signer")
              (js "Signer is null") (js "Initialize connection."))
  | Some g =>
      if match routerAddress with [] => true | _ => negb (isAddress routerAddress) end
      then Throw (err TTTContractError CONTRACT_INVALID_ADDRESS (js "[EVM] Invalid router address")
             (js "Address '" ++ routerAddress ++ js "' is invalid") (js "Provide valid V4 SwapRouter address."))
      else
        _ ← lift (Contract routerAddress g);
        catch_tx true CONTRACT_SWAP_FAILED "[EVM] Swap failed" "Verify slippage and token balances."
          (gasLimit ← withTimeout (swap_estimateGas calls tokenIn tokenOut amountIn minAmountOut);
           tx ← lift (router_swap calls tokenIn tokenOut amountIn minAmountOut (Some (with_buffer gasLimit)));
           receipt ← lift (wait calls tx);
           receipt_or "[EVM] Swap TX dropped" "Transaction dropped" "Check gas price." receipt)
  end.

End Calls.

(** ** Queries *)

Definition provider_or_throw (s : t) : result thrown Prov :=
  match provider s with
  | Some p => Ok p
  | None => Throw (err TTTNetworkError NETWORK_PROVIDER_NOT_CONNECTED (js "Provider not connected")
              (js "RPC provider is null") (js "Call connect() first."))
  end.
Definition getProvider (s : t) : result thrown Prov := provider_or_throw s.
Definition getSigner (s : t) : result thrown Sgn :=
  match signer s with
  | Some g => Ok g
  | None => Throw (err TTTContractError CONTRACT_SIGNER_NOT_CONNECTED (js "Signer not connected")
              (js "Signer is null") (js "Call connect() first."))
  end.

Record VerificationResult := { vr_valid : bool; vr_blockNumber : Z; vr_timestamp : Z; vr_txCount : Z; vr_latency : Z }.

(** [block]: what [getBlock] answers, the block's timestamp in seconds and its
    transactions; [now] in ms. *)
Definition verifyBlock (blockNum : Z) (block : res (option (Z * list jsstr))) (now : Z) (s : t)
    : result thrown VerificationResult :=
  _ ← provider_or_throw s;
  b ← lift block;
  match b with
  | None => Throw (err TTTNetworkError NETWORK_BLOCK_NOT_FOUND (js "Block not found")
              (js "RPC returned null for block " ++ z_to_dec blockNum) (js "Verify if block number exists on chain."))
  | Some (timestamp, txs) =>
      Ok {| vr_valid := true; vr_blockNumber := blockNum; vr_timestamp := timestamp;
            vr_txCount := Z.of_nat (length txs); vr_latency := now / 1000 - timestamp |}
  end.

Definition getPendingTransactions (answer : res (option (list jsstr))) (s : t) : result thrown (list jsstr) :=
  _ ← provider_or_throw s;
  b ← lift answer;
  Ok (default [] b).

(** ** Histories *)

Inductive op :=
| Connect (url : jsstr) (k : key) (network : res Z) (networks : nat -> res Z)
| Reconnect (networks : nat -> res Z)
| Disconnect
| Attach (address : jsstr)
| AttachFee (address : jsstr)
| Subscribe (onMinted onBurned onFeeCollected : bool)
| Unsubscribe.

Definition step (o : op) (s : t) : t :=
  match o with
  | Connect url k n ns => (connect url k n ns s).1
  | Reconnect ns => (reconnect ns s).1
  | Disconnect => disconnect s
  | Attach a => (attachContract a s).1
  | AttachFee a => (attachProtocolFeeContract a s).1
  | Subscribe b1 b2 b3 => subscribeToEvents b1 b2 b3 s
  | Unsubscribe => unsubscribeAll s
  end.
Definition run (l : list op) (s : t) : t := foldl (fun s o => step o s) s l.

(** The handlers that the calls of a trace leave registered. *)
Definition live_step (acc : list listener) (e : effect) : list listener :=
  match e with
  | On l => acc ++ [l]
  | Off l => bfilter (fun x => negb (bool_decide (x = l))) acc
  | Destroy _ => acc
  end.
Definition live (tr : list effect) : list listener := foldl live_step [] tr.

(** The first of the URLs that gives a provider, a signer and an answer. *)
Definition usable (k : key) (url : jsstr) (network : res Z) : option (Prov * Sgn) :=
  match JsonRpcProvider url with
  | Ok p => match make_signer k p, network with Ok g, Ok _ => Some (p, g) | _, _ => None end
  | Throw _ => None
  end.
Fixpoint first_usable (k : key) (i : nat) (urls : list jsstr) (networks : nat -> res Z) : option (Prov * Sgn) :=
  match urls with
  | [] => None
  | url :: urls' =>
      match usable k url (networks i) with
      | Some x => Some x
      | None => first_usable k (S i) urls' networks
      end
  end.

Definition inv (s : t) : Prop :=
  live (trace s) = eventListeners s
  /\ (length (eventListeners s) <= 3)%nat
  /\ (connected s = true -> provider s <> None).

(** ** Lemmas *)

Lemma live_app tr1 tr2 : live (tr1 ++ tr2) = foldl live_step (live tr1) tr2.
Proof. apply foldl_app. Qed.

Lemma live_all_off acc ls :
  (forall x, x ∈ acc -> x ∈ ls) -> foldl live_step acc (Off <$> ls) = [].
Proof.
  revert acc. induction ls as [|l ls IH]; intros acc H.
  - destruct acc as [|x acc]; [done|]. specialize (H x (list_elem_of_here _ _)). inversion H.
  - apply IH. intros x Hx. apply elem_of_bfilter in Hx as [Hn Hx]. zbool.
    apply H, elem_of_cons in Hx as [->|Hx]; done.
Qed.

(** The part of the state an attempt to connect leaves alone. *)
Definition same_rest (s s' : t) : Prop :=
  trace s' = trace s /\ eventListeners s' = eventListeners s
  /\ tttContract s' = tttContract s /\ protocolFeeContract s' = protocolFeeContract s
  /\ maxReconnectAttempts s' = maxReconnectAttempts s /\ fallbackRpcUrls s' = fallbackRpcUrls s
  /\ (provider s <> None -> provider s' <> None).

#[export] Instance same_rest_refl : Reflexive same_rest.
Proof. intros s. unfold same_rest. tauto. Qed.
#[export] Instance same_rest_trans : Transitive same_rest.
Proof. unfold same_rest. intros s1 s2 s3 H1 H2. intuition congruence. Qed.

Lemma attempt_spec b url k n s s' r :
  attempt b url k n s = (s', r) ->
  same_rest s s'
  /\ match r with
     | Ok _ => exists p g, usable k url n = Some (p, g) /\ provider s' = Some p /\ signer s' = Some g
                 /\ connected s' = true
     | Throw _ => connected s' = connected s
                  /\ (b = false \/ key_format_ok k = true -> usable k url n = None)
     end.
Proof.
  unfold attempt, usable. destruct (JsonRpcProvider url) as [p|e].
  - destruct (b && negb (key_format_ok k)) eqn:Eb.
    + intros [= <- <-]. split; [unfold same_rest; split_and!; done|]. split; [done|].
      destruct b, (key_format_ok k); intuition discriminate.
    + destruct (make_signer k p) as [g|e]; [|intros [= <- <-]; split; [unfold same_rest; split_and!|]; done].
      destruct n; intros [= <- <-]; (split; [unfold same_rest; split_and!; done|]); [|done].
      exists p, g. done.
  - intros [= <- <-]. split; [reflexivity|done].
Qed.

Lemma fallbacks_spec urls k i ns s s' b :
  try_fallbacks urls k i ns s = (s', b) ->
  same_rest s s'
  /\ if b then exists p g, first_usable k i urls ns = Some (p, g) /\ provider s' = Some p /\ signer s' = Some g
                          /\ connected s' = true
     else connected s' = connected s /\ first_usable k i urls ns = None.
Proof.
  revert i s. induction urls as [|url urls IH]; intros i s; cbn [try_fallbacks first_usable].
  - intros [= <- <-]. split; [reflexivity|done].
  - destruct (attempt false url k (ns i) s) as [s1 r] eqn:E. apply attempt_spec in E as [Hs Hr].
    destruct r as [u|e].
    + intros [= <- <-]. destruct Hr as (p & g & -> & ?). split; [done|]. by exists p, g.
    + destruct Hr as [Hc Hu]. rewrite Hu by (by left). intros H. apply IH in H as [Hs2 H2].
      split; [by etransitivity|]. destruct b; [done|]. by rewrite <- Hc.
Qed.

Lemma reconnect_loop_fallbacks urls pre k ns s n :
  (n <= length urls)%nat ->
  reconnect_loop n (length pre) (pre ++ urls) k ns s = try_fallbacks (take n urls) k (length pre) ns s.
Proof.
  revert pre s n. induction urls as [|url urls IH]; intros pre s n Hn; [by destruct n; simpl in *; [|lia]|].
  destruct n as [|n]; [done|]. cbn [reconnect_loop firstn].
  change (take (S n) (url :: urls)) with (url :: take n urls). cbn [try_fallbacks].
  rewrite Nat.mod_small by (rewrite length_app; simpl; lia).
  rewrite list_lookup_middle by done. destruct (attempt false url k (ns (length pre)) s) as [s1 [u|e]]; [done|].
  specialize (IH (pre ++ [url]) s1 n ltac:(simpl in Hn; lia)).
  rewrite <- app_assoc in IH. rewrite length_app in IH. cbn [app length] in IH.
  by replace (length pre + 1)%nat with (S (length pre)) in IH by lia.
Qed.

Lemma connect_rest url k n ns s s' r :
  connect url k n ns s = (s', r) -> same_rest s s' /\ (connected s = true -> connected s' = true)
  /\ (connected s' = true -> connected s = true \/ provider s' <> None).
Proof.
  unfold connect. destruct url as [|c url]; [intros [= <- <-]; split; [reflexivity|tauto]|].
  destruct (attempt true (c :: url) k n _) as [s1 r1] eqn:E. apply attempt_spec in E as [Hs Hr].
  change (same_rest s s1) in Hs. change (connected (set_credentials _ _ s)) with (connected s) in Hr.
  destruct r1 as [u|e].
  - intros [= <- <-]. destruct Hr as (p & g & _ & Hp & _ & Hc). split; [done|]. split; [done|].
    intros _. right. congruence.
  - destruct Hr as [Hc _]. destruct (is_network_or_contract e); [intros [= <- <-]; intuition congruence|].
    destruct (try_fallbacks _ _ _ _ s1) as [s2 b] eqn:E2. apply fallbacks_spec in E2 as [Hs2 H2].
    assert (same_rest s s2) as Hs3 by (by etransitivity).
    destruct b; intros [= <- <-]; (split; [done|]).
    + destruct H2 as (p & g & _ & Hp & _ & Hc2). split; [done|]. intros _. right. congruence.
    + destruct H2 as [Hc2 _]. split; intros; [|left]; congruence.
Qed.

Lemma unsubscribe_inv s : inv s -> inv (unsubscribeAll s).
Proof.
  intros (H1 & H2 & H3). split_and!; [|cbn; lia|done].
  change (live (trace s ++ (Off <$> eventListeners s)) = []).
  rewrite live_app, H1. by apply live_all_off.
Qed.

Lemma disconnect_inv s : inv s -> inv (disconnect s).
Proof.
  intros H. apply unsubscribe_inv in H as (H1 & _ & _). split_and!; [|cbn; lia|done].
  change (live (trace (unsubscribeAll s) ++ match provider s with Some p => [Destroy p] | None => [] end) = []).
  rewrite live_app, H1. by destruct (provider s).
Qed.

Lemma subscribe_one_live c w ev s :
  live (trace s) = eventListeners s ->
  let s' := subscribe_one c w ev s in
  live (trace s') = eventListeners s' /\ (length (eventListeners s') <= S (length (eventListeners s)))%nat
  /\ provider s' = provider s /\ connected s' = connected s.
Proof.
  intros H. unfold subscribe_one. destruct c; [|by split_and!; [|lia|..]].
  destruct w; [|by split_and!; [|lia|..]]. cbn [set_listeners trace eventListeners provider connected].
  rewrite live_app, H, length_app. split_and!; [done|cbn; lia|done..].
Qed.

Lemma subscribe_inv b1 b2 b3 s : inv s -> inv (subscribeToEvents b1 b2 b3 s).
Proof.
  intros H. unfold subscribeToEvents.
  set (s0 := if (0 <? length (eventListeners s))%nat then unsubscribeAll s else s).
  assert (inv s0 /\ eventListeners s0 = []) as [(H1 & _ & H3) E].
  { unfold s0. destruct (Nat.ltb_spec 0 (length (eventListeners s))); [by split; [apply unsubscribe_inv|]|].
    split; [done|]. destruct (eventListeners s); [done|simpl in *; lia]. }
  destruct (subscribe_one_live (tttContract s0) b1 TTTMinted s0 H1) as (K1 & L1 & P1 & C1).
  set (s1 := subscribe_one _ b1 _ s0) in *.
  destruct (subscribe_one_live (tttContract s1) b2 TTTBurned s1 K1) as (K2 & L2 & P2 & C2).
  set (s2 := subscribe_one _ b2 _ s1) in *.
  destruct (subscribe_one_live (protocolFeeContract s2) b3 FeeCollected s2 K2) as (K3 & L3 & P3 & C3).
  rewrite E in L1. cbn in L1. split_and!; [done|lia|]. rewrite P3, P2, P1, C3, C2, C1. done.
Qed.

Lemma connected_after_loop s s1 b urls k ns :
  inv s -> try_fallbacks urls k 0 ns (disconnect s) = (s1, b) ->
  inv (if b then s1 else set_connected false s1).
Proof.
  intros H E. apply disconnect_inv in H as (H1 & H2 & H3).
  apply fallbacks_spec in E as [(Ht & Hl & _) Hb].
  destruct b; split_and!; cbn [trace eventListeners connected provider set_connected];
    rewrite ?Ht, ?Hl; try done.
  destruct Hb as (p & g & _ & -> & _). done.
Qed.

Lemma reconnect_eq ns s k :
  stored_credentials s = Some k ->
  reconnect ns s
  = let '(s', found) := try_fallbacks (take (reconnect_bound s) (all_urls s)) k 0 ns (disconnect s) in
    if found then (s', Ok tt)
    else (set_connected false s',
          Throw (err TTTNetworkError NETWORK_RECONNECTION_EXHAUSTED (js "[EVM] Reconnection failed")
            (js "All " ++ z_to_dec (maxReconnectAttempts s') ++ js " attempts exhausted")
            (js "Check RPC provider status and network connectivity."))).
Proof.
  intros Hk. unfold reconnect. rewrite Hk.
  change (reconnect_bound (disconnect s)) with (reconnect_bound s).
  change (all_urls (disconnect s)) with (all_urls s).
  pose proof (reconnect_loop_fallbacks (all_urls s) [] k ns (disconnect s) (reconnect_bound s)) as E.
  cbn [length app] in E. rewrite E by (unfold reconnect_bound; lia).
  by destruct (try_fallbacks _ _ _ _ _) as [s1 [|]].
Qed.

Lemma evm_step_inv o s : inv s -> inv (step o s).
Proof.
  intros H. destruct o as [url k n ns|ns| |a|a|b1 b2 b3|]; cbn [step].
  - destruct (connect url k n ns s) as [s' r] eqn:E. apply connect_rest in E as ((Ht & Hl & _ & _ & _ & _ & Hp) & _ & Hc).
    destruct H as (H1 & H2 & H3). cbn [fst]. split_and!; rewrite ?Ht, ?Hl; [done..|].
    intros Hd. destruct (Hc Hd); auto.
  - destruct (stored_credentials s) as [k|] eqn:Ek; [|unfold reconnect; by rewrite Ek].
    rewrite (reconnect_eq ns s k Ek). destruct (try_fallbacks _ _ _ _ _) as [s1 b] eqn:E.
    apply (connected_after_loop s) in E; [|done]. by destruct b.
  - by apply disconnect_inv.
  - unfold attachContract. destruct (new_contract a s); [|done]. exact H.
  - unfold attachProtocolFeeContract. destruct (new_contract a s); [|done]. exact H.
  - by apply subscribe_inv.
  - by apply unsubscribe_inv.
Qed.

Lemma catch_tx_Ok {A} b k m f (r : result thrown A) a : catch_tx b k m f r = Ok a <-> r = Ok a.
Proof. destruct r as [x|e]; [done|]. cbn. by destruct (b && _). Qed.

Lemma catch_tx_class {A} b k m f (r : result thrown A) e :
  catch_tx b k m f r = Throw e -> is_network_or_contract e = true.
Proof.
  destruct r as [x|e']; [done|]. cbn. destruct b; cbn [andb]; [|intros [= <-]; done].
  destruct (is_network_or_contract e') eqn:E; intros [= <-]; done.
Qed.

Lemma withTimeout_Ok {A} (p : option (res A)) a : withTimeout p = Ok a -> p = Some (Ok a).
Proof. destruct p as [[|]|]; [|done..]. by intros [= ->]. Qed.

Lemma lift_Ok {A} (r : res A) a : lift r = Ok a -> r = Ok a.
Proof. destruct r; [|done]. by intros [= ->]. Qed.

(** A dropped burn is reported as a failed burn, whose reason is the whole
    message of the NETWORK_TX_DROPPED error it replaces. *)
Lemma dropped_burn_reported_as_failed calls amount h tier s c tx :
  tttContract s = Some c -> burn calls amount h tier None = Ok tx -> wait calls tx = Ok None ->
  burnTTT calls amount h tier s
  = Throw (err TTTContractError CONTRACT_BURN_FAILED (js "[EVM] Burn failed")
      (js (te_message (TTTBaseError TTTNetworkError (ERROR_CODES NETWORK_TX_DROPPED) "[EVM] Burn TX dropped"
         "Transaction was dropped from mempool" (Some "Verify account balance."))))
      (js "Check TTT balance.")).
Proof.
  intros Hc Hb Hw. unfold burnTTT. rewrite Hc, Hb. cbn [lift mbind result_bind]. rewrite Hw.
  by rewrite <- error_message_base.
Qed.

(** ** Properties *)

(** C35: No listener leaks: after any history of calls the handlers left
    registered on contracts are exactly the ones the connector will remove, at
    most three, and a connector that says it is connected has a provider. *)
Theorem evm_no_listener_leak fallbacks attempts l :
  inv (run l (make fallbacks attempts)).
Proof.
  assert (inv (make fallbacks attempts)) as H by (split_and!; [done|cbn; lia|done]).
  revert H. generalize (make fallbacks attempts). induction l as [|o l IH]; intros s H; [done|].
  apply IH. by apply evm_step_inv.
Qed.

(** [reconnect] tries the primary and the fallback URLs in order, each
    once and at most [maxReconnectAttempts] of them; it succeeds with the
    provider and signer of the first usable one, with the contracts detached
    and the listeners removed, and otherwise throws
    NETWORK_RECONNECTION_EXHAUSTED and leaves the connector disconnected. *)
Lemma evm_reconnect_spec ns s k :
  stored_credentials s = Some k ->
  let '(s', r) := reconnect ns s in
  match first_usable k 0 (take (reconnect_bound s) (all_urls s)) ns with
  | Some (p, g) => r = Ok tt /\ provider s' = Some p /\ signer s' = Some g /\ isConnected s' = true
  | None => isConnected s' = false
            /\ exists m f, r = Throw (err TTTNetworkError NETWORK_RECONNECTION_EXHAUSTED m
                  (js "All " ++ z_to_dec (maxReconnectAttempts s) ++ js " attempts exhausted") f)
  end
  /\ tttContract s' = None /\ protocolFeeContract s' = None /\ eventListeners s' = [].
Proof.
  intros Hk. rewrite (reconnect_eq ns s k Hk). destruct (try_fallbacks _ _ _ _ _) as [s1 b] eqn:E.
  apply fallbacks_spec in E as [(_ & Hl & Hc1 & Hc2 & Hm & _) Hb].
  cbn [disconnect eventListeners tttContract protocolFeeContract maxReconnectAttempts] in Hl, Hc1, Hc2, Hm.
  destruct b.
  - destruct Hb as (p & g & -> & Hp & Hg & Hc). unfold isConnected. rewrite Hc, Hp. by split_and!.
  - destruct Hb as [_ ->]. rewrite Hm. split_and!; [done| |done..]. by eexists _, _.
Qed.

(** A failed [connect] does not disconnect: called on a connected
    connector with a URL and fallbacks of which none is usable, it throws and
    leaves [isConnected] true. *)
Lemma evm_failed_connect_stays_connected url k n ns s :
  isConnected s = true -> key_format_ok k = true ->
  usable k url n = None -> first_usable k 0 (fallbackRpcUrls s) ns = None ->
  let '(s', r) := connect url k n ns s in
  (exists e, r = Throw e) /\ isConnected s' = true.
Proof.
  intros Hs Hk Hu Hf. destruct (connect url k n ns s) as [s' r] eqn:E. pose proof E as E'.
  apply connect_rest in E as ((_ & _ & _ & _ & _ & _ & Hp) & Hc & _). split.
  - revert E'. unfold connect. destruct url as [|c url]; [intros [= _ <-]; by eexists|].
    destruct (attempt true (c :: url) k n _) as [s1 r1] eqn:Ea.
    apply attempt_spec in Ea as [(_ & _ & _ & _ & _ & Hfb & _) Hr].
    destruct r1 as [u|e]; [destruct Hr as (p & g & Hx & _); congruence|].
    destruct (is_network_or_contract e); [intros [= _ <-]; by eexists|].
    destruct (try_fallbacks _ _ _ _ s1) as [s2 b] eqn:Et. apply fallbacks_spec in Et as [_ Hb].
    rewrite Hfb in Hb. cbn [set_credentials fallbackRpcUrls] in Hb.
    destruct b; [destruct Hb as (p & g & Hx & _); congruence|]. intros [= _ <-]. by eexists.
  - unfold isConnected in *. apply andb_prop in Hs as [H1 H2]. rewrite (Hc H1). destruct (provider s); [|done].
    by destruct (provider s'); [|destruct (Hp ltac:(done))].
Qed.

(** [submitTTTRecord] returns a receipt exactly when a contract is
    attached, the gas estimate arrives in time, the burn is sent with that
    estimate plus a fifth and its receipt is not dropped; every other outcome
    is one of the SDK's network or contract errors. *)
Lemma evm_submit_spec calls keccak record amount tier s :
  let r := submitTTTRecord calls keccak record amount tier s in
  let grgHash := keccak (concat (Adaptive.grgPayload record)) in
  (forall rc, r = Ok rc <->
     tttContract s <> None
     /\ exists gas tx, burn_estimateGas calls amount grgHash tier = Some (Ok gas)
          /\ burn calls amount grgHash tier (Some (Z.quot (gas * 120) 100)) = Ok tx
          /\ wait calls tx = Ok (Some rc))
  /\ (forall e, r = Throw e -> is_network_or_contract e = true).
Proof.
  cbv zeta. unfold submitTTTRecord. destruct (tttContract s) as [c|].
  - set (h := keccak _). split.
    + intros rc. rewrite catch_tx_Ok. split.
      * intros H. split; [done|]. apply result_bind_Ok in H as (gas & H1 & H).
        apply result_bind_Ok in H as (tx & H2 & H). apply result_bind_Ok in H as (o & H3 & H).
        apply withTimeout_Ok in H1. apply lift_Ok in H2, H3. destruct o as [rc'|]; [|done].
        unfold with_buffer in H2. injection H as ->. exists gas, tx. by split_and!.
      * intros [_ (gas & tx & H1 & H2 & H3)]. rewrite H1. cbn [withTimeout mbind result_bind].
        unfold with_buffer. rewrite H2. cbn [lift mbind result_bind]. by rewrite H3.
    + intros e. apply catch_tx_class.
  - split; [|intros e [= <-]; done]. intros rc. split; [done|]. by intros [? _].
Qed.

End Connector.

(** ** Witnesses *)

(** Providers are URLs, signers keys, contracts addresses. *)
Definition ex_provider (u : jsstr) : res jsstr := if bool_decide (u = js "bad") then throw_plain "bad url" else Ok u.
Definition ex_wallet (k p : jsstr) : res jsstr := Ok k.
Definition ex_key : key (Sgn := jsstr) := PrivateKey (js "0x" ++ replicate 64 49).
Definition ex_connected : t (Prov := jsstr) (Sgn := jsstr) (Ctr := jsstr) :=
  (connect ex_provider ex_wallet (fun _ => None) (fun _ => []) (js "rpc") ex_key (Ok 8453) (fun _ => Ok 1)
     (make (Some [js "bad"; js "spare"]) None)).1.
Definition only_second (i : nat) : res Z := if (i =? 2)%nat then Ok 8453 else throw_plain "down".

Lemma evm_reconnect_spec_witness :
  let '(s', r) := reconnect ex_provider ex_wallet (fun _ => None) only_second ex_connected in
  (r = Ok tt /\ provider s' = Some (js "spare") /\ signer s' = Some (js "0x" ++ replicate 64 49)
   /\ isConnected s' = true)
  /\ tttContract s' = None /\ protocolFeeContract s' = None /\ eventListeners s' = [].
Proof.
  exact (evm_reconnect_spec ex_provider ex_wallet (fun _ => None) (fun _ => true) (fun a _ => Ok a) only_second ex_connected ex_key eq_refl).
Defined.

Lemma evm_failed_connect_stays_connected_witness :
  let '(s', r) := connect ex_provider ex_wallet (fun _ => None) (fun _ => js "bad url") (js "bad") ex_key (Ok 1)
                    (fun _ => throw_plain "down") ex_connected in
  (exists e, r = Throw e) /\ isConnected s' = true.
Proof.
  apply (evm_failed_connect_stays_connected ex_provider ex_wallet (fun _ => None) (fun _ => true) (fun a _ => Ok a)
    (fun _ => js "bad url") (js "bad") ex_key (Ok 1) (fun _ => throw_plain "down") ex_connected); reflexivity.
Defined.

End Evm.
