(* ===== verification/V4Hook.v ===== *)
(** * UniswapV4Hook (src/src/v4_hook.ts)

    The SDK-side hook: a balance check before a swap and a fee burn through the
    EVMConnector after it, with four statistics.  The connector and the fee
    collector are seen through the interface [Burner], which EVMConnector
    implements; ethers (contracts, keccak, unit formatting) is a parameter. *)
From Stdlib Require Import ZArith Lia String Strings.Byte.
From stdpp Require Import base list numbers option strings.
From S2P Require Import Prelude JSString Errors Bytes JSNum Types EvmConnector.

Module Hook.

(** ** What the hook asks of its connector *)

Class Burner (Conn Prov : Type) := {
  conn_getProvider : Conn -> result Evm.thrown Prov;
  conn_burn : Conn -> Z -> jsstr -> Z -> result Evm.thrown jsstr;
}.

(** EVMConnector with what the chain answers is such a connector. *)
#[export] Instance evm_burner {Prov Sgn Ctr Tx} (String_of message_of : exn -> jsstr)
    (calls : Evm.chain_calls (Tx := Tx)) : Burner (Evm.t (Prov := Prov) (Sgn := Sgn) (Ctr := Ctr)) Prov := {|
  conn_getProvider := Evm.getProvider;
  conn_burn s amount grgHash tier := Evm.burnTTT String_of message_of calls amount grgHash tier s;
|}.

Record stats := {
  totalSwaps : Z;
  totalFeesCollected : Z;
  lastSwapTimestamp : Z;
  failedBurns : Z;
}.

Record FeeCalculation := { feeAmount : Z; fee_tier : jsstr }.

Inductive hook_error :=
| InsufficientBalance (sender : jsstr) (required actual : Z)
| CheckFailed (message : jsstr)
| Rethrown (e : Evm.thrown).

Section Operations.
Context {Conn Prov Ctr : Type} `{!Burner Conn Prov}.

(** [new ethers.Contract(tttTokenAddress, abi, provider)] *)
Variable Contract : jsstr -> Prov -> res Ctr.
Variable keccak256 : Buffer -> jsstr.
Variable formatEther : Z -> jsstr.
(** [error.message], or [String(error)]. *)
Variable message_of : exn -> jsstr.

Record t := {
  hookAddress : jsstr;
  tttTokenAddress : jsstr;
  minTTTBalance : Z;
  swapFeeTTT : Z;
  hookContract : option Ctr;
  feeCollector : bool;            (* whether there is one *)
  st : stats;
}.

Definition make (hook token : jsstr) (minBalance fee : option Z)
    (collector : bool) : t :=
  {| hookAddress := hook; tttTokenAddress := token; minTTTBalance := default (10 ^ 18) minBalance;
     swapFeeTTT := default (10 ^ 17) fee; hookContract := None; feeCollector := collector;
     st := {| totalSwaps := 0; totalFeesCollected := 0; lastSwapTimestamp := 0; failedBurns := 0 |} |}.

Definition with_contract (c : Ctr) (s : t) : t :=
  {| hookAddress := hookAddress s; tttTokenAddress := tttTokenAddress s; minTTTBalance := minTTTBalance s;
     swapFeeTTT := swapFeeTTT s; hookContract := Some c; feeCollector := feeCollector s; st := st s |}.
Definition with_stats (x : stats) (s : t) : t :=
  {| hookAddress := hookAddress s; tttTokenAddress := tttTokenAddress s; minTTTBalance := minTTTBalance s;
     swapFeeTTT := swapFeeTTT s; hookContract := hookContract s; feeCollector := feeCollector s; st := x |}.

(** The lazily built balance contract. *)
Definition get_contract (p : Prov) (s : t) : t * res Ctr :=
  match hookContract s with
  | Some c => (s, Ok c)
  | None => match Contract (tttTokenAddress s) p with
            | Ok c => (with_contract c s, Ok c)
            | Throw e => (s, Throw e)
            end
  end.

(** [balance]: what [balanceOf(sender, 0)] answers.  An answer that throws is
    rethrown when its message contains the marker of the hook's own error. *)
Definition beforeSwap (conn : Conn) (params : BeforeSwapParams) (balance : Ctr -> jsstr -> res Z) (s : t)
    : t * result hook_error unit :=
  match conn_getProvider conn with
  | Throw e => (s, Throw (Rethrown e))
  | Ok p =>
      let '(s, c) := get_contract p s in
      match c with
      | Throw e => (s, Throw (Rethrown (Evm.Foreign e)))
      | Ok c =>
          match balance c (bs_sender params) with
          | Ok b =>
              if b <? minTTTBalance s
              then (s, Throw (InsufficientBalance (bs_sender params) (minTTTBalance s) b))
              else (with_stats {| totalSwaps := totalSwaps (st s);
                                  totalFeesCollected := totalFeesCollected (st s) + swapFeeTTT s;
                                  lastSwapTimestamp := lastSwapTimestamp (st s);
                                  failedBurns := failedBurns (st s) |} s, Ok tt)
          | Throw e =>
              if includes (js "Insufficient TTT balance") (message_of e)
              then (s, Throw (Rethrown (Evm.Foreign e)))
              else (s, Throw (CheckFailed (js "[UniswapV4Hook] Failed to check TTT balance: " ++ message_of e)))
          end
      end
  end.

(** A call of [collectBurnFee]: fee, signature, payer, nonce, deadline. *)
Record collect_call := {
  cc_fee : FeeCalculation; cc_signature : jsstr; cc_payer : jsstr; cc_nonce : Z; cc_deadline : Z;
}.

(** The call made when there is a collector and its four arguments are given
    (an empty signature is not). *)
Definition collects (s : t) (payer : jsstr) (calc : option FeeCalculation) (signature : option jsstr)
    (nonce deadline : option Z) : option collect_call :=
  match feeCollector s, calc, signature, nonce, deadline with
  | true, Some f, Some (u :: sig), Some n, Some d =>
      Some {| cc_fee := f; cc_signature := u :: sig; cc_payer := payer; cc_nonce := n; cc_deadline := d |}
  | _, _, _, _, _ => None
  end.

(** [afterSwap] with the collector call it makes, whose failure is only
    logged; [now1] is the clock of the burn hash, [now2] the clock of the
    record. *)
Definition afterSwap (conn : Conn) (params : AfterSwapParams) (calc : option FeeCalculation)
    (signature : option jsstr) (nonce deadline : option Z) (now1 now2 : Z) (s : t) : t * option collect_call :=
  let grgHash := keccak256 (utf8_encode (js "burn-" ++ as_sender params ++ js "-" ++ z_to_dec now1)) in
  let '(failed, collected) :=
    match conn_burn conn (swapFeeTTT s) grgHash 1 with
    | Ok _ => (0, collects s (as_sender params) calc signature nonce deadline)
    | Throw _ => (1, None)
    end in
  (with_stats {| totalSwaps := totalSwaps (st s) + 1;
                 totalFeesCollected := totalFeesCollected (st s);
                 lastSwapTimestamp := now2 / 1000;
                 failedBurns := failedBurns (st s) + failed |} s, collected).

Definition getHookAddress (s : t) : jsstr := hookAddress s.

Definition getStats (s : t) : Z * jsstr * Z * Z :=
  (totalSwaps (st s), formatEther (totalFeesCollected (st s)), lastSwapTimestamp (st s), failedBurns (st s)).

(** ** Histories *)

Inductive call :=
| Before (conn : Conn) (params : BeforeSwapParams) (balance : Ctr -> jsstr -> res Z)
| After (conn : Conn) (params : AfterSwapParams) (calc : option FeeCalculation) (signature : option jsstr)
    (nonce deadline : option Z) (now1 now2 : Z).

Definition step (c : call) (s : t) : t :=
  match c with
  | Before conn p b => (beforeSwap conn p b s).1
  | After conn p f sig n d n1 n2 => (afterSwap conn p f sig n d n1 n2 s).1
  end.
Definition run (l : list call) (s : t) : t := foldl (fun s c => step c s) s l.

Definition one (b : bool) : Z := if b then 1 else 0.

(** How many of the calls of a history admit a swap, record one, and record a
    failed burn. *)
Fixpoint admitted (l : list call) (s : t) : Z :=
  match l with
  | [] => 0
  | c :: l' => one (match c with Before conn p b => is_ok (beforeSwap conn p b s).2 | _ => false end)
               + admitted l' (step c s)
  end.
Definition recorded (l : list call) : Z :=
  foldr (fun c n => one (match c with After _ _ _ _ _ _ _ _ => true | _ => false end) + n) 0 l.
Definition burn_fails (fee : Z) (c : call) : bool :=
  match c with
  | After conn p _ _ _ _ n1 _ =>
      negb (is_ok (conn_burn conn fee (keccak256 (utf8_encode (js "burn-" ++ as_sender p ++ js "-" ++ z_to_dec n1))) 1))
  | _ => false
  end.
Definition failing (fee : Z) (l : list call) : Z := foldr (fun c n => one (burn_fails fee c) + n) 0 l.

(** ** Lemmas *)

Lemma beforeSwap_stats conn p b s :
  let '(s', r) := beforeSwap conn p b s in
  swapFeeTTT s' = swapFeeTTT s /\ minTTTBalance s' = minTTTBalance s
  /\ totalSwaps (st s') = totalSwaps (st s) /\ failedBurns (st s') = failedBurns (st s)
  /\ lastSwapTimestamp (st s') = lastSwapTimestamp (st s)
  /\ totalFeesCollected (st s') = totalFeesCollected (st s) + swapFeeTTT s * one (is_ok r).
Proof.
  unfold beforeSwap, get_contract.
  destruct (conn_getProvider conn) as [pr|e]; [|cbn; by split_and!; [..|lia]].
  destruct (hookContract s) as [c|]; [|destruct (Contract _ pr) as [c|e]];
    [destruct (b c _) as [z|e]..|]; [destruct (z <? _)|destruct (includes _ _)|destruct (z <? _)|destruct (includes _ _)|];
    cbn -[Z.mul Z.add]; split_and!; (done || lia).
Qed.

(** ** Properties *)

(** [beforeSwap] admits a swap exactly when the connector has a provider,
    the balance contract can be built and it reports at least the minimum. *)
Lemma before_swap_admits_iff conn p balance s :
  (beforeSwap conn p balance s).2 = Ok tt
  <-> exists pr c b, conn_getProvider conn = Ok pr /\ (get_contract pr s).2 = Ok c
        /\ balance c (bs_sender p) = Ok b /\ minTTTBalance s <= b.
Proof.
  unfold beforeSwap. destruct (conn_getProvider conn) as [pr|e].
  2: { split; [done|]. by intros (? & ? & ? & ? & _). }
  assert (minTTTBalance (get_contract pr s).1 = minTTTBalance s) as Hm.
  { unfold get_contract. destruct (hookContract s); [done|]. by destruct (Contract _ _). }
  destruct (get_contract pr s) as [s1 [c|e]] eqn:Eg; cbn [fst snd] in *.
  2: { split; [done|]. intros (pr' & c & b & [= <-] & Hc & _). by rewrite Eg in Hc. }
  destruct (balance c (bs_sender p)) as [b|e] eqn:Eb; rewrite ?Hm.
  - destruct (Z.ltb_spec b (minTTTBalance s)).
    + split; [done|]. intros (pr' & c' & b' & [= <-] & Hc & Hb & Hle). rewrite Eg in Hc. injection Hc as <-.
      rewrite Eb in Hb. injection Hb as <-. lia.
    + split; [|done]. intros _. exists pr, c, b. by rewrite Eg.
  - split; [by destruct (includes _ _)|]. intros (pr' & c' & b' & [= <-] & Hc & Hb & _). rewrite Eg in Hc.
    injection Hc as <-. congruence.
Qed.

(** The statistics are exact: over any history of calls the fees collected
    are the fee times the admitted swaps (burnt or not), every recorded swap is
    counted, and the failed burns are those the connector refused. *)
Lemma hook_stats_ledger l s :
  let s' := run l s in
  totalFeesCollected (st s') = totalFeesCollected (st s) + swapFeeTTT s * admitted l s
  /\ totalSwaps (st s') = totalSwaps (st s) + recorded l
  /\ failedBurns (st s') = failedBurns (st s) + failing (swapFeeTTT s) l
  /\ 0 <= failing (swapFeeTTT s) l <= recorded l.
Proof.
  revert s. induction l as [|c l IH]; intros s; cbn [run foldl admitted recorded failing foldr]; [lia|].
  destruct (IH (step c s)) as (H1 & H2 & H3 & H4).
  fold (recorded l). fold (failing (swapFeeTTT s) l). unfold run in *.
  destruct c as [conn p b|conn p f sig n d n1 n2]; cbn [step burn_fails one] in *.
  - pose proof (beforeSwap_stats conn p b s) as Hb. destruct (beforeSwap conn p b s) as [s1 r].
    cbn [fst snd] in *. destruct Hb as (E1 & _ & E3 & E4 & _ & E6).
    rewrite E1 in *. unfold one in *. destruct (is_ok r); lia.
  - unfold afterSwap in *. cbn [with_stats st totalFeesCollected totalSwaps failedBurns swapFeeTTT] in *.
    destruct (conn_burn conn (swapFeeTTT s) _ 1); cbn [is_ok negb one fst] in *;
      cbn [with_stats st totalFeesCollected totalSwaps failedBurns swapFeeTTT] in *; lia.
Qed.

End Operations.

End Hook.
