(* ===== verification/Signer.v ===== *)
(** * Signers (src/src/signer.ts)

    The DER readers of the KMS signers, with JavaScript's 32-bit shifts,
    out-of-range reads and negative slice ends; the KMS signing routine with
    its recovery loop; and the signer factory.  ethers and the cloud clients
    are parameters.  The properties: both readers invert the DER encoding, a
    key that is read has the shape the address computation needs, and a KMS
    signature recovers to the signer's own address. *)
From Stdlib Require Import ZArith Lia String Strings.Byte.
From stdpp Require Import base list numbers option strings.
From S2P Require Import Prelude JSString Errors Bytes.

Module Der.

(** ** Reading bytes *)

(** [buf[i]]: [None] is [undefined]. *)
Definition at_ (buf : Buffer) (i : Z) : option Z :=
  if i <? 0 then None else bval <$> buf !! Z.to_nat i.

(** [buf.slice(s, e)] for [0 <= s]: a negative end counts from the back. *)
Definition slice (buf : Buffer) (s e : Z) : Buffer :=
  let n := Z.of_nat (length buf) in
  let e := if e <? 0 then Z.max 0 (n + e) else Z.min e n in
  take (Z.to_nat (e - s)) (drop (Z.to_nat s) buf).

(** The value of a 32-bit operation. *)
Definition int32 (z : Z) : Z := (z + 2147483648) mod 4294967296 - 2147483648.

(** [pos >= der.length] *)
Definition at_end (der : Buffer) (pos : Z) : bool := Z.of_nat (length der) <=? pos.

(** ** extractPublicKeyFromDER

    A reader returns its value with the next position. *)
Definition readTag (der : Buffer) (pos : Z) : res (option Z * Z) :=
  if at_end der pos then throw_plain "DER parse error: unexpected end of data while reading tag"
  else Ok (at_ der pos, pos + 1).

Fixpoint length_bytes (n : nat) (der : Buffer) (pos acc : Z) : res (Z * Z) :=
  match n with
  | O => Ok (acc, pos)
  | S n' =>
      if at_end der pos then throw_plain "DER parse error: unexpected end of data in multi-byte length"
      else length_bytes n' der (pos + 1) (Z.lor (int32 (Z.shiftl acc 8)) (default 0 (at_ der pos)))
  end.

Definition readLength (der : Buffer) (pos : Z) : res (Z * Z) :=
  if at_end der pos then throw_plain "DER parse error: unexpected end of data while reading length"
  else
    let first := at_ der pos in
    if match first with Some b => b <? 128 | None => false end then Ok (default 0 first, pos + 1)
    else
      let numBytes := Z.land (default 0 first) 127 in
      if (numBytes =? 0) || (4 <? numBytes) then throw_plain "DER parse error: unsupported length encoding"
      else length_bytes (Z.to_nat numBytes) der (pos + 1) 0.

(** [if (tag !== x) throw new Error(`... ${tag.toString(16)}`)]: an undefined
    tag has no [toString]. *)
Definition expect_tag (x : Z) (tag : option Z) (message : string) : res unit :=
  match tag with
  | Some b => if b =? x then Ok tt else throw_plain message
  | None => Throw TypeError
  end.

Definition extractPublicKeyFromDER (der : Buffer) : res Buffer :=
  '(outerTag, pos) ← readTag der 0;
  _ ← expect_tag 48 outerTag "DER parse error: expected SEQUENCE (0x30)";
  '(_, pos) ← readLength der pos;
  '(innerTag, pos) ← readTag der pos;
  _ ← expect_tag 48 innerTag "DER parse error: expected inner SEQUENCE (0x30)";
  '(innerLen, pos) ← readLength der pos;
  let pos := pos + innerLen in
  '(bsTag, pos) ← readTag der pos;
  _ ← expect_tag 3 bsTag "DER parse error: expected BITSTRING (0x03)";
  '(bsLen, pos) ← readLength der pos;
  let unusedBits := at_ der pos in
  let pos := pos + 1 in
  if negb (bool_decide (unusedBits = Some 0))
  then throw_plain "DER parse error: expected 0 unused bits in BITSTRING"
  else
    let keyBytes := slice der pos (pos + bsLen - 1) in
    if negb (length keyBytes =? 65)%nat || negb (bool_decide (at_ keyBytes 0 = Some 4))
    then throw_plain "DER parse error: expected 65-byte uncompressed secp256k1 key (04||X||Y)"
    else Ok keyBytes.

(** ** parseDERSignature *)

(** [sig.slice(pos, pos + len)], empty when [len] is undefined. *)
Definition slice_len (sig : Buffer) (pos : Z) (len : option Z) : Buffer :=
  match len with Some n => slice sig pos (pos + n) | None => [] end.

Definition drop_zero (l : Buffer) : Buffer :=
  match l with b :: l' => if bval b =? 0 then l' else l | [] => [] end.

(** [s.padStart(64, '0')] *)
Definition pad_start (s : jsstr) : jsstr := replicate (64 - length s) 48 ++ s.

Definition hex_field (l : Buffer) : jsstr := js "0x" ++ pad_start (to_hex l).

Record RS := { sig_r : jsstr; sig_s : jsstr }.

Definition parseDERSignature (sig : Buffer) : res RS :=
  if negb (bool_decide (at_ sig 0 = Some 48)) then throw_plain "Invalid DER signature: not a sequence"
  else
    let pos := 2 in
    if negb (bool_decide (at_ sig pos = Some 2)) then throw_plain "Invalid DER signature: expected integer for R"
    else
      let rLen := at_ sig (pos + 1) in
      let pos := pos + 2 in
      let r := drop_zero (slice_len sig pos rLen) in
      (* [pos += undefined] is NaN and [sig[NaN]] undefined *)
      let tagS := match rLen with Some n => at_ sig (pos + n) | None => None end in
      if negb (bool_decide (tagS = Some 2)) then throw_plain "Invalid DER signature: expected integer for S"
      else
        let pos := pos + default 0 rLen in
        let sLen := at_ sig (pos + 1) in
        let pos := pos + 2 in
        let s := drop_zero (slice_len sig pos sLen) in
        Ok {| sig_r := hex_field r; sig_s := hex_field s |}.

(** ** The DER encoding the readers are meant for *)

Definition tlv (tag : Z) (content : Buffer) : Buffer :=
  bofZ tag :: bofZ (Z.of_nat (length content)) :: content.

(** A 256-bit unsigned integer: its shortest big-endian bytes, with a leading
    zero when the top bit is set or nothing is left. *)
Fixpoint strip_zeros (l : Buffer) : Buffer :=
  match l with b :: l' => if bval b =? 0 then strip_zeros l' else l | [] => [] end.
Definition der_integer (z : Z) : Buffer :=
  match strip_zeros (be_bytes 32 z) with
  | b :: l => if bval b <? 128 then b :: l else bofZ 0 :: b :: l
  | [] => [bofZ 0]
  end.
Definition der_signature (r s : Z) : Buffer := tlv 48 (tlv 2 (der_integer r) ++ tlv 2 (der_integer s)).

(** SubjectPublicKeyInfo with any algorithm identifier. *)
Definition der_spki (algorithm key : Buffer) : Buffer :=
  tlv 48 (tlv 48 algorithm ++ tlv 3 (bofZ 0 :: key)).

(** ** Lemmas *)

Lemma at_app (l1 l2 : Buffer) b n : n = Z.of_nat (length l1) -> at_ (l1 ++ b :: l2) n = Some (bval b).
Proof.
  intros ->. unfold at_. destruct (Z.ltb_spec (Z.of_nat (length l1)) 0); [lia|].
  rewrite Nat2Z.id, list_lookup_middle by done. done.
Qed.

Lemma slice_app (l1 l2 l3 : Buffer) s e :
  s = Z.of_nat (length l1) -> e = s + Z.of_nat (length l2) -> slice (l1 ++ l2 ++ l3) s e = l2.
Proof.
  intros -> ->. unfold slice. rewrite !length_app.
  destruct (Z.ltb_spec (Z.of_nat (length l1) + Z.of_nat (length l2)) 0); [lia|].
  replace (Z.to_nat _) with (length l2) by lia.
  rewrite Nat2Z.id, drop_app_length, take_app_length. done.
Qed.

Lemma bval_len (l : Buffer) : (length l < 256)%nat -> bval (bofZ (Z.of_nat (length l))) = Z.of_nat (length l).
Proof. intros H. rewrite bval_bofZ. apply Z.mod_small. lia. Qed.

Lemma strip_zeros_zeros l : l = zeros (length l - length (strip_zeros l)) ++ strip_zeros l.
Proof.
  induction l as [|b l IH]; [done|]. cbn [strip_zeros].
  destruct (Z.eqb_spec (bval b) 0) as [E|E]; [|by rewrite Nat.sub_diag].
  assert (length (strip_zeros l) <= length l)%nat as Hle.
  { rewrite IH at 2. rewrite length_app. lia. }
  cbn [length]. rewrite Nat.sub_succ_l by done. cbn [zeros replicate app]. f_equal; [|done].
  rewrite <- (bofZ_bval b), E. done.
Qed.

Lemma strip_zeros_head l b l' : strip_zeros l = b :: l' -> bval b <> 0.
Proof.
  induction l as [|c l IH]; [done|]. cbn [strip_zeros].
  destruct (Z.eqb_spec (bval c) 0); [done|]. by intros [= <- _].
Qed.

Lemma to_hex_zeros n : to_hex (zeros n) = replicate (2 * n) 48.
Proof.
  induction n as [|n IH]; [done|]. change (to_hex (zeros (S n))) with (48 :: 48 :: to_hex (zeros n)).
  rewrite IH. by replace (2 * S n)%nat with (S (S (2 * n))) by lia.
Qed.

(** Stripping and padding give back the 32 bytes. *)
Lemma hex_field_integer z :
  hex_field (drop_zero (der_integer z)) = js "0x" ++ to_hex (be_bytes 32 z).
Proof.
  assert (drop_zero (der_integer z) = strip_zeros (be_bytes 32 z)) as ->.
  { unfold der_integer. destruct (strip_zeros _) as [|b l] eqn:E; [done|].
    pose proof (strip_zeros_head _ _ _ E) as Hb. destruct (_ <? 128); cbn [drop_zero]; [|done].
    destruct (Z.eqb_spec (bval b) 0); done. }
  unfold hex_field, pad_start. f_equal. pose proof (strip_zeros_zeros (be_bytes 32 z)) as E.
  rewrite E at 3. unfold to_hex. rewrite bind_app. fold (to_hex (strip_zeros (be_bytes 32 z))).
  fold (to_hex (zeros (length (be_bytes 32 z) - length (strip_zeros (be_bytes 32 z))))).
  rewrite to_hex_zeros, length_to_hex, length_be_bytes. do 2 f_equal. lia.
Qed.

Lemma length_der_integer z : (1 <= length (der_integer z) <= 33)%nat.
Proof.
  assert (length (strip_zeros (be_bytes 32 z)) <= 32)%nat as H.
  { rewrite <- (length_be_bytes 32 z) at 2. rewrite (strip_zeros_zeros (be_bytes 32 z)) at 2. rewrite length_app. lia. }
  unfold der_integer. destruct (strip_zeros _) as [|b l]; [simpl; lia|].
  destruct (_ <? 128); cbn [length] in *; lia.
Qed.

Lemma at_0 (b : byte) l : at_ (b :: l) 0 = Some (bval b).
Proof. done. Qed.

(** [parseDERSignature] on a sequence of two short integers. *)
Lemma parse_two_integers (len : byte) (R S rest : Buffer) :
  (length R < 256)%nat -> (length S < 256)%nat ->
  parseDERSignature (bofZ 48 :: len :: tlv 2 R ++ tlv 2 S ++ rest)
  = Ok {| sig_r := hex_field (drop_zero R); sig_s := hex_field (drop_zero S) |}.
Proof.
  intros HR HS. unfold parseDERSignature. set (sig := _ :: _).
  assert (at_ sig 2 = Some 2) as E2 by done.
  assert (at_ sig 3 = Some (Z.of_nat (length R))) as E3 by (rewrite <- (bval_len R HR); done).
  assert (slice sig 4 (4 + Z.of_nat (length R)) = R) as ER.
  { exact (slice_app [bofZ 48; len; bofZ 2; bofZ (Z.of_nat (length R))] R _ _ _ eq_refl eq_refl). }
  assert (at_ sig (4 + Z.of_nat (length R)) = Some 2) as ES.
  { apply (at_app (bofZ 48 :: len :: tlv 2 R) _ (bofZ 2)). cbn [length tlv]. lia. }
  assert (at_ sig (4 + Z.of_nat (length R) + 1) = Some (Z.of_nat (length S))) as EL.
  { rewrite <- (bval_len S HS). unfold sig, tlv.
    replace (bofZ 48 :: len :: (bofZ 2 :: bofZ (Z.of_nat (length R)) :: R) ++ (bofZ 2 :: bofZ (Z.of_nat (length S)) :: S) ++ rest)
      with ((bofZ 48 :: len :: bofZ 2 :: bofZ (Z.of_nat (length R)) :: R ++ [bofZ 2])
              ++ bofZ (Z.of_nat (length S)) :: S ++ rest) by (cbn [app]; by rewrite <- app_assoc).
    apply at_app. cbn [length]. rewrite length_app. cbn [length]. lia. }
  assert (slice sig (4 + Z.of_nat (length R) + 2) (4 + Z.of_nat (length R) + 2 + Z.of_nat (length S)) = S) as EX.
  { unfold sig, tlv.
    replace (bofZ 48 :: len :: (bofZ 2 :: bofZ (Z.of_nat (length R)) :: R) ++ (bofZ 2 :: bofZ (Z.of_nat (length S)) :: S) ++ rest)
      with ((bofZ 48 :: len :: bofZ 2 :: bofZ (Z.of_nat (length R)) :: R ++ [bofZ 2; bofZ (Z.of_nat (length S))])
              ++ S ++ rest) by (cbn [app]; by rewrite <- app_assoc).
    apply slice_app; [|done]. cbn [length]. rewrite length_app. cbn [length]. lia. }
  change (at_ sig 0) with (Some 48). rewrite E2. cbn [negb]. rewrite !bool_decide_eq_true_2 by done. cbn [negb].
  change (2 + 1) with 3. change (2 + 2) with 4. rewrite E3. cbn [slice_len from_option id].
  rewrite ES, bool_decide_eq_true_2 by done. cbn [negb]. rewrite EL. cbn [slice_len]. by rewrite ER, EX.
Qed.

Lemma readLength_short (l1 l2 : Buffer) n pos :
  (n < 128)%nat -> pos = Z.of_nat (length l1) ->
  readLength (l1 ++ bofZ (Z.of_nat n) :: l2) pos = Ok (Z.of_nat n, pos + 1).
Proof.
  intros Hn ->. unfold readLength, at_end. rewrite (at_app l1 l2) by done.
  rewrite length_app. cbn [length]. destruct (Z.leb_spec (Z.of_nat (length l1 + S (length l2))) (Z.of_nat (length l1))); [lia|].
  rewrite bval_bofZ, Z.mod_small by lia. cbn [default]. by destruct (Z.ltb_spec (Z.of_nat n) 128); [|lia].
Qed.

Lemma readTag_at (l1 l2 : Buffer) b pos :
  pos = Z.of_nat (length l1) -> readTag (l1 ++ b :: l2) pos = Ok (Some (bval b), pos + 1).
Proof.
  intros ->. unfold readTag, at_end. rewrite (at_app l1 l2) by done. rewrite length_app. cbn [length].
  by destruct (Z.leb_spec (Z.of_nat (length l1 + S (length l2))) (Z.of_nat (length l1))); [lia|].
Qed.

(** The four reads of the two sequence headers. *)
Lemma read_headers (n : nat) (algorithm tail : Buffer) :
  (n < 128)%nat -> (length algorithm < 128)%nat ->
  let der := bofZ 48 :: bofZ (Z.of_nat n) :: bofZ 48 :: bofZ (Z.of_nat (length algorithm)) :: algorithm ++ tail in
  readTag der 0 = Ok (Some 48, 1) /\ readLength der 1 = Ok (Z.of_nat n, 2)
  /\ readTag der 2 = Ok (Some 48, 3) /\ readLength der 3 = Ok (Z.of_nat (length algorithm), 4).
Proof.
  intros Hn Ha der. split_and!.
  - apply (readTag_at []). done.
  - apply (readLength_short [bofZ 48]); done.
  - apply (readTag_at [bofZ 48; bofZ (Z.of_nat n)]). done.
  - apply (readLength_short [bofZ 48; bofZ (Z.of_nat n); bofZ 48]); done.
Qed.

(** The reads of the bit string after a prefix. *)
Lemma read_bitstring (pre key rest : Buffer) pos :
  (length key < 127)%nat -> pos = Z.of_nat (length pre) ->
  let der := pre ++ bofZ 3 :: bofZ (Z.of_nat (S (length key))) :: bofZ 0 :: key ++ rest in
  readTag der pos = Ok (Some 3, pos + 1)
  /\ readLength der (pos + 1) = Ok (Z.of_nat (S (length key)), pos + 1 + 1)
  /\ at_ der (pos + 1 + 1) = Some 0
  /\ slice der (pos + 1 + 1 + 1) (pos + 1 + 1 + 1 + Z.of_nat (S (length key)) - 1) = key.
Proof.
  intros Hk Hp der.
  set (len := bofZ (Z.of_nat (S (length key)))) in *. split_and!.
  - by apply readTag_at.
  - change der with (pre ++ [bofZ 3] ++ len :: bofZ 0 :: key ++ rest). rewrite app_assoc.
    apply readLength_short; [lia|]. rewrite length_app. cbn [length]. lia.
  - change der with (pre ++ [bofZ 3; len] ++ bofZ 0 :: key ++ rest). rewrite app_assoc.
    apply (at_app _ _ (bofZ 0)). rewrite length_app. cbn [length]. lia.
  - change der with (pre ++ [bofZ 3; len; bofZ 0] ++ key ++ rest). rewrite app_assoc.
    apply slice_app; [rewrite length_app; cbn [length]|]; lia.
Qed.

(** ** Properties *)

(** [parseDERSignature] inverts DER: from the encoding of two 256-bit
    integers it returns their 64 hex digits each, leading zeros included. *)
Lemma der_signature_roundtrip r s :
  parseDERSignature (der_signature r s)
  = Ok {| sig_r := js "0x" ++ to_hex (be_bytes 32 r); sig_s := js "0x" ++ to_hex (be_bytes 32 s) |}.
Proof.
  pose proof (length_der_integer r). pose proof (length_der_integer s).
  unfold der_signature. unfold tlv at 1.
  rewrite <- (app_nil_r (tlv 2 (der_integer s))) at 2.
  rewrite parse_two_integers by lia. by rewrite !hex_field_integer.
Qed.

(** [extractPublicKeyFromDER] inverts SubjectPublicKeyInfo: it returns the
    65-byte uncompressed key whatever the algorithm identifier and whatever
    follows. *)
Lemma der_public_key_roundtrip (algorithm xy rest : Buffer) :
  (length algorithm <= 57)%nat -> length xy = 64%nat ->
  extractPublicKeyFromDER (der_spki algorithm (bofZ 4 :: xy) ++ rest) = Ok (bofZ 4 :: xy).
Proof.
  intros Ha Hxy. set (key := bofZ 4 :: xy).
  assert (length key = 65%nat) as Hk by (cbn [key length]; lia).
  set (n := length (tlv 48 algorithm ++ tlv 3 (bofZ 0 :: key))).
  assert (n < 128)%nat as Hn by (unfold n, tlv; rewrite length_app; cbn [length]; lia).
  set (tail := bofZ 3 :: bofZ (Z.of_nat (S (length key))) :: bofZ 0 :: key ++ rest).
  set (der := bofZ 48 :: bofZ (Z.of_nat n) :: bofZ 48 :: bofZ (Z.of_nat (length algorithm)) :: algorithm ++ tail).
  assert (der_spki algorithm key ++ rest = der) as ->.
  { unfold der_spki. unfold tlv at 1. fold n. unfold tlv. cbn [app length]. by rewrite <- !app_assoc. }
  destruct (read_headers n algorithm tail Hn ltac:(lia)) as (E1 & E2 & E3 & E4).
  destruct (read_bitstring (bofZ 48 :: bofZ (Z.of_nat n) :: bofZ 48 :: bofZ (Z.of_nat (length algorithm)) :: algorithm)
    key rest (4 + Z.of_nat (length algorithm)) ltac:(lia) ltac:(cbn [length]; lia)) as (E5 & E6 & E7 & E8).
  fold der in E1, E2, E3, E4. change (_ ++ bofZ 3 :: _) with der in E5, E6, E7, E8.
  unfold extractPublicKeyFromDER. rewrite E1. cbn [mbind result_bind expect_tag Z.eqb Pos.eqb].
  rewrite E2. cbn [mbind result_bind]. rewrite E3. cbn [mbind result_bind expect_tag Z.eqb Pos.eqb].
  rewrite E4. cbn [mbind result_bind]. rewrite E5. cbn [mbind result_bind expect_tag Z.eqb Pos.eqb].
  rewrite E6. cbn [mbind result_bind]. rewrite E7, E8, Hk. by rewrite bool_decide_eq_true_2.
Qed.

Lemma der_public_key_roundtrip_witness :
  extractPublicKeyFromDER (der_spki (replicate 16 (bofZ 7)) (bofZ 4 :: replicate 64 (bofZ 9)) ++ [bofZ 1])
  = Ok (bofZ 4 :: replicate 64 (bofZ 9)).
Proof. apply der_public_key_roundtrip; [cbn; lia|reflexivity]. Defined.

End Der.

(** ** The KMS signers *)

Module Kms.

Section Operations.
(** [computeAddress] of the hex public key, and [recoverAddress] of a digest
    and a serialized signature; [Signature.from({r, s, v}).serialized] may
    throw on a value that is not a signature. *)
Variable computeAddress : jsstr -> res jsstr.
Variable Signature_from : jsstr -> jsstr -> Z -> res jsstr.
Variable recoverAddress : jsstr -> jsstr -> res jsstr.
(** [Buffer.from(text, "base64")] *)
Variable base64_decode : jsstr -> Buffer.

(** The cached address. *)
Record t := { address : option jsstr }.

(** [if (this.address)]: an empty string is no address. *)
Definition cached (s : t) : option jsstr :=
  match address s with Some [] => None | a => a end.

(** [getAddress] from the DER key the service answers with. *)
Definition getAddress (publicKeyDer : res Buffer) (s : t) : t * res jsstr :=
  match cached s with
  | Some a => (s, Ok a)
  | None =>
      match (der ← publicKeyDer; k ← Der.extractPublicKeyFromDER der; computeAddress (js "0x" ++ to_hex k)) with
      | Ok a => ({| address := Some a |}, Ok a)
      | Throw e => (s, Throw e)
      end
  end.

(** [pem.replace(/BEGIN.../|/END.../|\n|\r/g, '')]: a left-to-right scan that
    drops the matches; [skip] counts what is left of a match. *)
Definition pem_begin : jsstr := js "-----BEGIN PUBLIC KEY-----".
Definition pem_end : jsstr := js "-----END PUBLIC KEY-----".
Fixpoint strip_pem (skip : nat) (s : jsstr) : jsstr :=
  match s with
  | [] => []
  | c :: s' =>
      match skip with
      | S n => strip_pem n s'
      | O =>
          if starts_with pem_begin s then strip_pem (length pem_begin - 1) s'
          else if starts_with pem_end s then strip_pem (length pem_end - 1) s'
          else if (c =? 10) || (c =? 13) then strip_pem 0 s'
          else c :: strip_pem 0 s'
      end
  end.

(** GCP answers with a PEM text. *)
Definition gcp_public_key (pem : res jsstr) : res Buffer := (fun p => base64_decode (strip_pem 0 p)) <$> pem.

(** [for (const v of [27, 28])]: the first recovery id whose signature recovers
    to the address. *)
Fixpoint try_recovery (vs : list Z) (digest r s addr : jsstr) : res (option jsstr) :=
  match vs with
  | [] => Ok None
  | v :: vs' =>
      sig ← Signature_from r s v;
      a ← recoverAddress digest sig;
      if bool_decide (to_lower a = to_lower addr) then Ok (Some sig) else try_recovery vs' digest r s addr
  end.

(** [_signDigest] with the DER signature the service answers with. *)
Definition signDigest (name : string) (publicKeyDer derSig : res Buffer) (digest : jsstr) (st : t) : t * res jsstr :=
  match (d ← derSig; Der.parseDERSignature d) with
  | Throw e => (st, Throw e)
  | Ok rs =>
      let '(st, addr) := getAddress publicKeyDer st in
      (st, addr ← addr;
           found ← try_recovery [27; 28] digest (Der.sig_r rs) (Der.sig_s rs) addr;
           match found with
           | Some sig => Ok sig
           | None => throw_plain ("Failed to recover recovery param V for " +:+ name +:+ " KMS signature")
           end)
  end.

Definition aws_sign (publicKeyDer derSig : res Buffer) (digest : jsstr) : t -> t * res jsstr :=
  signDigest "AWS" publicKeyDer derSig digest.
Definition gcp_sign (pem : res jsstr) (derSig : res Buffer) (digest : jsstr) : t -> t * res jsstr :=
  signDigest "GCP" (gcp_public_key pem) derSig digest.

(** *** The signing methods

    Both classes have the same three methods over their [_signDigest], here
    [sign]; what ethers computes on requests, transactions and typed data is a
    parameter. *)
Section Methods.
Context {Req Tx Sig Typed : Type}.
Variable hashMessage : Buffer -> jsstr.
Variable resolve : Req -> res Tx.                  (* Transaction.from(await resolveProperties(tx)) *)
Variable unsignedHash : Tx -> res jsstr.
Variable Signature_of : jsstr -> res Sig.          (* Signature.from(serialized) *)
Variable serialized : Tx -> Sig -> res jsstr.      (* baseTx.signature = signature; baseTx.serialized *)
Variable typed_hash : Typed -> res jsstr.          (* TypedDataEncoder.hash *)
Variable sign : jsstr -> t -> t * res jsstr.

Definition signMessage (message : Buffer) (st : t) : t * res jsstr := sign (hashMessage message) st.

Definition signTransaction (tx : Req) (st : t) : t * res jsstr :=
  match (baseTx ← resolve tx; digest ← unsignedHash baseTx; Ok (baseTx, digest)) with
  | Throw e => (st, Throw e)
  | Ok (baseTx, digest) =>
      let '(st, sig) := sign digest st in
      (st, sig ← sig; signature ← Signature_of sig; serialized baseTx signature)
  end.

Definition signTypedData (value : Typed) (st : t) : t * res jsstr :=
  match typed_hash value with
  | Throw e => (st, Throw e)
  | Ok digest => sign digest st
  end.

(** [connect(provider)]: a new object, without the cached address. *)
Definition connect (st : t) : t := {| address := None |}.

End Methods.

(** ** Lemmas *)

Lemma getAddress_cached k s s' a :
  getAddress k s = (s', Ok a) -> a <> [] -> forall k', getAddress k' s' = (s', Ok a).
Proof.
  unfold getAddress. destruct (cached s) as [b|] eqn:Ec.
  - intros [= <- <-] _ k'. by rewrite Ec.
  - destruct (mbind _ _) as [b|e]; intros [= <- <-]. intros Hne k'.
    unfold cached. cbn. by destruct b.
Qed.

Lemma try_recovery_ok vs digest r s addr sig :
  try_recovery vs digest r s addr = Ok (Some sig) ->
  (exists v, v ∈ vs /\ Signature_from r s v = Ok sig)
  /\ exists a, recoverAddress digest sig = Ok a /\ to_lower a = to_lower addr.
Proof.
  induction vs as [|v vs IH]; [done|]. cbn [try_recovery]. intros H.
  apply result_bind_Ok in H as (sg & Hs & H). apply result_bind_Ok in H as (a & Ha & H).
  case_bool_decide as E.
  - injection H as <-. split; [exists v; split; [left|done]|by exists a].
  - destruct (IH H) as [(v' & Hv & ?) ?]. split; [exists v'; split; [by right|done]|done].
Qed.

(** ** Properties *)

(** A KMS signature is the signer's own: what [_signDigest] returns is
    built from the service's r and s with recovery id 27 or 28 and recovers,
    for the digest asked, to the address the signer reports. *)
Lemma kms_signature_recovers name key derSig digest st st' sig :
  signDigest name key derSig digest st = (st', Ok sig) ->
  exists addr a d rs v,
    (getAddress key st) = (st', Ok addr)
    /\ derSig = Ok d /\ Der.parseDERSignature d = Ok rs /\ (v = 27 \/ v = 28)
    /\ Signature_from (Der.sig_r rs) (Der.sig_s rs) v = Ok sig
    /\ recoverAddress digest sig = Ok a /\ to_lower a = to_lower addr.
Proof.
  unfold signDigest. destruct (mbind _ derSig) as [rs|e] eqn:Ed; [|done].
  apply result_bind_Ok in Ed as (d & Hd & Hp). destruct (getAddress key st) as [s1 [addr|e]]; [|done].
  cbn [mbind result_bind]. destruct (try_recovery _ _ _ _ _) as [[sg|]|e] eqn:Et; [|done..].
  intros [= <- <-]. apply try_recovery_ok in Et as [(v & Hv & Hf) (a & Ha & Hl)].
  exists addr, a, d, rs, v. split_and!; try done.
  apply elem_of_cons in Hv as [->|Hv]; [by left|]. apply list_elem_of_singleton in Hv as ->. by right.
Qed.

(** The signature [sig] for [digest] is that of the key the signer reports. *)
Definition signed_by_signer (key : res Buffer) (st : t) (digest sig : jsstr) : Prop :=
  exists addr a, (getAddress key st).2 = Ok addr /\ recoverAddress digest sig = Ok a /\ to_lower a = to_lower addr.

Lemma signDigest_recovers name key derSig digest st st' sig :
  signDigest name key derSig digest st = (st', Ok sig) -> signed_by_signer key st digest sig.
Proof.
  unfold signDigest, signed_by_signer. destruct (mbind _ derSig) as [rs|e]; [|done].
  destruct (getAddress key st) as [s1 [addr|e]]; [|done].
  cbn [mbind result_bind]. destruct (try_recovery _ _ _ _ _) as [[sg|]|e] eqn:Et; [|done..].
  intros [= <- <-]. apply try_recovery_ok in Et as [_ (a & Ha & Hl)]. exists addr, a. done.
Qed.

(** What a KMS signer signs is signed by its own key: for every request
    that [signTransaction] answers, the result is the serialization of the
    transaction asked for with a signature that recovers, over its unsigned
    hash, to the address the signer reports; and likewise for messages and
    typed data over their hashes. *)
Lemma kms_methods_sign_as_signer {Req Tx Sig Typed : Type} (hashMessage : Buffer -> jsstr) (resolve : Req -> res Tx)
    (unsignedHash : Tx -> res jsstr) (Signature_of : jsstr -> res Sig) (serialized : Tx -> Sig -> res jsstr)
    (typed_hash : Typed -> res jsstr) name key derSig st :
  let sign := signDigest name key derSig in
  (forall tx st' out, signTransaction resolve unsignedHash Signature_of serialized sign tx st = (st', Ok out) ->
    exists baseTx digest sig signature, resolve tx = Ok baseTx /\ unsignedHash baseTx = Ok digest
      /\ signed_by_signer key st digest sig /\ Signature_of sig = Ok signature /\ serialized baseTx signature = Ok out)
  /\ (forall m st' sig, signMessage hashMessage sign m st = (st', Ok sig) -> signed_by_signer key st (hashMessage m) sig)
  /\ (forall v st' sig, signTypedData typed_hash sign v st = (st', Ok sig) ->
      exists digest, typed_hash v = Ok digest /\ signed_by_signer key st digest sig).
Proof.
  cbv zeta. split_and!.
  - intros tx st' out. unfold signTransaction. destruct (mbind _ (resolve tx)) as [[b d]|e] eqn:Eb; [|done].
    apply result_bind_Ok in Eb as (b' & Hb & Eb). apply result_bind_Ok in Eb as (d' & Hd & [= -> ->]).
    destruct (signDigest name key derSig d st) as [s1 r] eqn:Es. intros [= -> E].
    apply result_bind_Ok in E as (sig & -> & E). apply result_bind_Ok in E as (sg & Hsg & E).
    exists b, d, sig, sg. split_and!; [done|done| |done|done]. by eapply signDigest_recovers.
  - intros m st' sig. apply signDigest_recovers.
  - intros v st' sig. unfold signTypedData. destruct (typed_hash v) as [d|e]; [|done].
    intros E. exists d. split; [done|]. by eapply signDigest_recovers.
Qed.

End Operations.

(** ** Witness *)

Definition ex_key : Buffer := Der.der_spki (replicate 16 (bofZ 7)) (bofZ 4 :: replicate 64 (bofZ 9)).
Definition ex_recover (digest sig : jsstr) : res jsstr := Ok (if bool_decide (last sig = Some 28) then js "0xAB" else js "0x00").

Lemma kms_signature_recovers_witness :
  exists addr a d rs v,
    getAddress (fun _ => Ok (js "0xab")) (Ok ex_key) {| address := None |} = ({| address := Some (js "0xab") |}, Ok addr)
    /\ Ok (Der.der_signature 5 6) = Ok (E := exn) d /\ Der.parseDERSignature d = Ok rs /\ (v = 27 \/ v = 28)
    /\ Ok (Der.sig_r rs ++ [v]) = Ok (E := exn) (Der.hex_field [bofZ 5] ++ [28])
    /\ ex_recover (js "d") (Der.hex_field [bofZ 5] ++ [28]) = Ok a /\ to_lower a = to_lower addr.
Proof.
  apply (kms_signature_recovers (fun _ => Ok (js "0xab")) (fun r s v => Ok (r ++ [v])) ex_recover "AWS" (Ok ex_key)
    (Ok (Der.der_signature 5 6)) (js "d") {| address := None |} {| address := Some (js "0xab") |}
    (Der.hex_field [bofZ 5] ++ [28])).
  vm_compute. reflexivity.
Defined.

Lemma kms_methods_sign_as_signer_witness :
  exists addr a, (getAddress (fun _ => Ok (js "0xab")) (Ok ex_key) {| address := None |}).2 = Ok addr
    /\ ex_recover (js "hash") (Der.hex_field [bofZ 5] ++ [28]) = Ok a /\ to_lower a = to_lower addr.
Proof.
  destruct (kms_methods_sign_as_signer (fun _ => Ok (js "0xab")) (fun r s v => Ok (r ++ [v])) ex_recover
    (fun _ => js "msg") (fun tx : jsstr => Ok tx) (fun _ => Ok (js "hash")) (fun s => Ok s) (fun tx sg => Ok (tx ++ sg))
    (fun v : jsstr => Ok v) "AWS" (Ok ex_key) (Ok (Der.der_signature 5 6)) {| address := None |}) as (H & _ & _).
  destruct (H (js "tx") {| address := Some (js "0xab") |} (js "tx" ++ Der.hex_field [bofZ 5] ++ [28]))
    as (b & d & sig & sg & [= <-] & [= <-] & Hsig & [= <-] & [= E]).
  - vm_compute. reflexivity.
  - rewrite E in Hsig. exact Hsig.
Defined.

End Kms.

(** ** createSigner *)

Module Factory.

Inductive SignerConfig :=
| privateKey (key envVar : option jsstr)
| turnkey (apiBaseUrl organizationId privateKeyId apiPublicKey apiPrivateKey : jsstr)
| privy (appId appSecret : jsstr) (walletId : option jsstr)
| kms (provider keyId : jsstr) (region projectId locationId keyRingId keyVersionId : option jsstr)
| other_type (type : jsstr).

(** The wrapper made and what it wraps. *)
Inductive Made (Wal Tk : Type) :=
| PrivateKeySigner (w : Wal)
| TurnkeySignerWrapper (s : Tk)
| AwsKmsSigner (region keyId : jsstr)
| GcpKmsSigner (name : jsstr).
Arguments PrivateKeySigner {Wal Tk} w.
Arguments TurnkeySignerWrapper {Wal Tk} s.
Arguments AwsKmsSigner {Wal Tk} region keyId.
Arguments GcpKmsSigner {Wal Tk} name.

Section Operations.
Context {Wal Tk : Type}.
Variable isHexString : jsstr -> Z -> bool.
Variable Wallet : jsstr -> res Wal.
Variable env : jsstr -> option jsstr.
(** The dynamic imports and the constructors of the service clients. *)
Variable new_turnkey : jsstr -> jsstr -> jsstr -> jsstr -> jsstr -> res Tk.
Variable load_aws : jsstr -> res unit.
Variable load_gcp : jsstr -> jsstr -> jsstr -> jsstr -> jsstr -> res jsstr.

Definition nonempty (o : option jsstr) : option jsstr := match o with Some [] => None | _ => o end.

(** [let key = config.key; if (!key && config.envVar) key = env[envVar]] *)
Definition resolve_key (key envVar : option jsstr) : option jsstr :=
  match nonempty key with
  | Some k => Some k
  | None => match nonempty envVar with Some v => nonempty (env v) | None => None end
  end.

Definition with_prefix (key : jsstr) : jsstr := if starts_with (js "0x") key then key else js "0x" ++ key.

Definition createSigner (config : SignerConfig) : res (Made Wal Tk) :=
  match config with
  | privateKey key envVar =>
      match resolve_key key envVar with
      | None => throw4 TTTSignerError SIGNER_MISSING_KEY "[Signer] Private key missing"
      | Some k =>
          let k := with_prefix k in
          if isHexString k 32 then PrivateKeySigner <$> Wallet k
          else throw4 TTTSignerError SIGNER_INVALID_KEY_FORMAT "[Signer] Invalid private key format"
      end
  | turnkey url org pk apub apriv => TurnkeySignerWrapper <$> new_turnkey apub apriv url org pk
  | privy _ _ _ =>
      throw4 TTTSignerError SIGNER_PRIVY_NOT_IMPLEMENTED
        "[Signer] Privy signer is not yet implemented. Use 'privateKey' or 'turnkey' instead."
  | kms provider keyId region projectId locationId keyRingId keyVersionId =>
      if bool_decide (provider = js "aws") then
        let region := default (js "us-east-1") (nonempty region) in
        match load_aws region with
        | Ok _ => Ok (AwsKmsSigner region keyId)
        | Throw _ => throw4 TTTSignerError SIGNER_KMS_AWS_INIT_FAILED "[Signer] AWS KMS initialization failed"
        end
      else if bool_decide (provider = js "gcp") then
        match nonempty projectId, nonempty locationId, nonempty keyRingId, nonempty keyVersionId with
        | Some p, Some l, Some r, Some v =>
            match load_gcp p l r keyId v with
            | Ok name => Ok (GcpKmsSigner name)
            | Throw _ => throw4 TTTSignerError SIGNER_KMS_GCP_INIT_FAILED "[Signer] GCP KMS initialization failed"
            end
        | _, _, _, _ => throw4 TTTSignerError SIGNER_KMS_GCP_MISSING_FIELDS "[Signer] GCP KMS missing required fields"
        end
      else throw4 TTTSignerError SIGNER_KMS_UNSUPPORTED_PROVIDER "[Signer] Unsupported KMS provider"
  | other_type _ => throw4 TTTSignerError SIGNER_UNSUPPORTED_TYPE "[Signer] Unsupported signer type"
  end.

(** ** Properties *)

(** [createSigner] makes a private-key signer exactly from a key (given, or
    read from the environment when none is given) that is 32 bytes of hex once
    prefixed and that the wallet accepts. *)
Lemma create_signer_private_key key envVar w :
  createSigner (privateKey key envVar) = Ok (PrivateKeySigner w)
  <-> exists k, resolve_key key envVar = Some k /\ isHexString (with_prefix k) 32 = true
        /\ Wallet (with_prefix k) = Ok w.
Proof.
  unfold createSigner. destruct (resolve_key key envVar) as [k|].
  2: { split; [done|]. by intros (? & ? & _). }
  destruct (isHexString (with_prefix k) 32) eqn:Eh.
  - split.
    + intros H. exists k. destruct (Wallet (with_prefix k)); [|done]. by injection H as ->.
    + intros (k' & [= <-] & _ & Hw). by rewrite Hw.
  - split; [done|]. intros (k' & [= <-] & Hx & _). congruence.
Qed.

End Operations.

End Factory.
