(* ===== verification/PotSigner.v ===== *)
(** * PotSigner (src/src/pot_signer.ts)

    Ed25519 signatures over PoT hashes and the file that keeps the key.  The
    key objects of Node's crypto are abstract; what the signer relies on are the
    laws of [Ed25519]: keys survive export and import, and a signature made
    with a key verifies under its public key.  The file system is the map from
    paths to texts. *)
From Stdlib Require Import ZArith Lia String Strings.Byte.
From stdpp Require Import base list numbers option strings.
From S2P Require Import Prelude JSString Errors Bytes JSMap Types.

Module Signing.

(** The operations of Node's crypto on key objects. *)
Class Ed25519 (Priv Pub : Type) := {
  import_pkcs8 : Buffer -> res Priv;        (* createPrivateKey *)
  public_of : Priv -> Pub;                  (* createPublicKey(privateKey) *)
  export_pkcs8 : Priv -> Buffer;
  export_spki : Pub -> Buffer;
  import_spki : Buffer -> res Pub;          (* createPublicKey(spki) *)
  sign : Buffer -> Priv -> Buffer;
  crypto_verify : Buffer -> Pub -> Buffer -> res bool;
}.

(** What the signer relies on. *)
Class Ed25519Laws (Priv Pub : Type) `{Ed25519 Priv Pub} : Prop := {
  pkcs8_roundtrip k : import_pkcs8 (export_pkcs8 k) = Ok k;
  spki_roundtrip p : import_spki (export_spki p) = Ok p;
  sign_verifies d k : crypto_verify d (public_of k) (sign d k) = Ok true;
  pkcs8_nonempty k : export_pkcs8 k <> [];
}.

(** The file system: the text of each file. *)
Abbreviation files := (jsmap jsstr jsstr).

(** [Buffer.from(h.startsWith('0x') ? h.slice(2) : h, 'hex')] *)
Definition hash_bytes (potHash : jsstr) : Buffer :=
  from_hex (if starts_with (js "0x") potHash then drop 2 potHash else potHash).

Section Operations.
Context {Priv Pub : Type} `{Ed25519 Priv Pub}.

Record t := { privateKey : Priv; publicKey : Pub; pubKeyHex : jsstr }.

(** The constructor: an empty string is no key; [generated] is the fresh key
    pair it would make. *)
Definition make (privateKeyHex : option jsstr) (generated : Priv) : res t :=
  k ← match privateKeyHex with
      | Some (c :: s) => import_pkcs8 (from_hex (c :: s))
      | _ => Ok generated
      end;
  Ok {| privateKey := k; publicKey := public_of k; pubKeyHex := to_hex (export_spki (public_of k)) |}.

Definition getPubKeyHex (s : t) : jsstr := pubKeyHex s.
Definition getPrivateKeyHex (s : t) : jsstr := to_hex (export_pkcs8 (privateKey s)).

(** [signPot], with the clock in ms. *)
Definition signPot (potHash : jsstr) (now : Z) (s : t) : PotSignature :=
  {| ps_issuerPubKey := pubKeyHex s; ps_signature := to_hex (sign (hash_bytes potHash) (privateKey s));
     ps_issuedAt := now / 1000 |}.

(** [verifyPotSignature]: everything inside the [try] that throws is a
    refusal; an empty expected key is none. *)
Definition verifyPotSignature (potHash : jsstr) (potSig : PotSignature) (expectedPubKey : option jsstr) : bool :=
  if match expectedPubKey with
     | Some (c :: e) => negb (bool_decide (ps_issuerPubKey potSig = c :: e))
     | _ => false
     end
  then false
  else match (p ← import_spki (from_hex (ps_issuerPubKey potSig));
              crypto_verify (hash_bytes potHash) p (from_hex (ps_signature potSig))) with
       | Ok b => b
       | Throw _ => false
       end.

(** ** Files *)

(** [readFileSync] of a missing file throws. *)
Definition fromFile (path : jsstr) (generated : Priv) (fs : files) : res t :=
  match jm_get fs path with
  | Some text => make (Some (trim text)) generated
  | None => Throw (ForeignError None None None)
  end.

Definition saveToFile (path : jsstr) (s : t) (fs : files) : files := jm_set fs path (getPrivateKeyHex s).

Definition createOrLoad (path : jsstr) (generated : Priv) (fs : files) : files * res t :=
  if jm_has fs path then (fs, fromFile path generated fs)
  else match make None generated with
       | Ok s => (saveToFile path s fs, Ok s)
       | Throw e => (fs, Throw e)
       end.

(** ** Lemmas *)

(** A signer as the constructor makes them. *)
Definition well_made (s : t) : Prop :=
  publicKey s = public_of (privateKey s) /\ pubKeyHex s = to_hex (export_spki (publicKey s)).

Lemma make_well_made o g s : make o g = Ok s -> well_made s.
Proof. unfold make. intros E. apply result_bind_Ok in E as (k & _ & [= <-]). done. Qed.

Lemma to_hex_units l c : c ∈ to_hex l -> is_space c = false.
Proof.
  intros (d & Hd & ->)%to_hex_digit.
  unfold is_space, hex_digit. destruct (Z.ltb_spec d 10).
  all: apply orb_false_intro; [apply bool_decide_eq_false; rewrite !elem_of_cons, elem_of_nil; lia|].
  all: apply andb_false_intro1; apply Z.leb_gt; lia.
Qed.

Lemma trim_hex l : trim (to_hex l) = to_hex l.
Proof. apply trim_fix, Forall_forall. intros c. apply to_hex_units. Qed.

(** Only the bytes of the hash count: hashes with the same bytes have the same
    valid signatures. *)
Lemma verify_bytes h h' sg e : hash_bytes h = hash_bytes h' -> verifyPotSignature h sg e = verifyPotSignature h' sg e.
Proof. intros E. unfold verifyPotSignature. by rewrite E. Qed.

(** Decoding stops at the first character that is not a hex digit, so anything
    may follow a whole hash. *)
Lemma from_hex_tail l s : from_hex (to_hex l ++ 122 :: s) = l.
Proof.
  induction l as [|b l IH]; [by destruct s|].
  change (to_hex (b :: l)) with (hex_of_byte b ++ to_hex l). pose proof (from_hex_to_hex [b]) as Hb.
  change (to_hex [b]) with (hex_of_byte b ++ []) in Hb. cbn [hex_of_byte app from_hex] in *.
  destruct (digit_val _) as [d1|]; [|done]. destruct (digit_val (hex_digit (bval b mod 16))) as [d2|]; [|done].
  rewrite IH. by injection Hb as ->.
Qed.

Context `{!Ed25519Laws Priv Pub}.

Lemma saved_key_loads s g : well_made s -> make (Some (trim (getPrivateKeyHex s))) g = Ok s.
Proof.
  intros [Hp Hh]. unfold getPrivateKeyHex. rewrite trim_hex. unfold make.
  destruct (to_hex (export_pkcs8 (privateKey s))) as [|c l] eqn:E.
  - apply (f_equal length) in E. rewrite length_to_hex in E.
    pose proof (pkcs8_nonempty (privateKey s)). destruct (export_pkcs8 (privateKey s)); [done|discriminate E].
  - rewrite <- E, from_hex_to_hex, pkcs8_roundtrip. cbn [mbind result_bind]. rewrite <- Hp, <- Hh. by destruct s.
Qed.

Lemma signed_verifies potHash now s :
  well_made s -> verifyPotSignature potHash (signPot potHash now s) None = true.
Proof.
  intros [Hp Hh]. unfold verifyPotSignature, signPot. cbn [ps_issuerPubKey ps_signature].
  rewrite Hh, !from_hex_to_hex, spki_roundtrip. cbn [mbind result_bind]. by rewrite Hp, sign_verifies.
Qed.

(** ** Properties *)

(** C23: Signatures verify: what [signPot] makes is accepted for the hash, with
    or without the 0x prefix, with no expected key or with the signer's own, and
    is refused when another issuer key is expected. *)
Theorem sign_then_verify o g s potHash now :
  make o g = Ok s ->
  let sg := signPot potHash now s in
  verifyPotSignature potHash sg None = true
  /\ verifyPotSignature potHash sg (Some (getPubKeyHex s)) = true
  /\ (starts_with (js "0x") potHash = false -> verifyPotSignature (js "0x" ++ potHash) sg None = true)
  /\ (forall e, e <> [] -> e <> getPubKeyHex s -> verifyPotSignature potHash sg (Some e) = false).
Proof.
  intros Hm sg. apply make_well_made in Hm.
  pose proof (signed_verifies potHash now s Hm) as Hv. fold sg in Hv.
  split_and!; [done| | |].
  - unfold verifyPotSignature in *. unfold getPubKeyHex. destruct (pubKeyHex s) as [|c l] eqn:E; [done|].
    rewrite bool_decide_eq_true_2; [done|]. cbn. by rewrite E.
  - intros Hx. rewrite (verify_bytes _ potHash); [done|]. unfold hash_bytes. rewrite Hx. done.
  - intros [|c e] Hne Hd; [done|]. unfold verifyPotSignature. cbn [ps_issuerPubKey sg signPot].
    rewrite bool_decide_eq_false_2; [done|]. intros Hq. by apply Hd.
Qed.

(** The key file is stable: when the file does not exist [createOrLoad]
    generates a signer and every later call on the same path, whatever it could
    have generated, gives back that same signer and leaves the files alone. *)
Lemma create_or_load_stable path g g' fs s fs' :
  jm_has fs path = false -> createOrLoad path g fs = (fs', Ok s) ->
  createOrLoad path g' fs' = (fs', Ok s).
Proof.
  intros Hf. unfold createOrLoad. rewrite Hf. destruct (make None g) as [s0|e] eqn:Em; [|done].
  intros [= <- <-]. apply make_well_made in Em. unfold saveToFile. unfold jm_has at 1. rewrite jm_get_set_eq.
  unfold fromFile. rewrite jm_get_set_eq. by rewrite saved_key_loads.
Qed.

(** An empty key file is no error: each load makes a new key. *)
Lemma empty_file_generates path g fs :
  jm_get fs path = Some [] -> createOrLoad path g fs = (fs, make None g).
Proof. intros E. unfold createOrLoad, jm_has, fromFile. by rewrite E. Qed.

End Operations.

(** ** Witnesses

    A toy scheme that meets the laws: a key is a byte, its exports are that
    byte, and a signature is the key followed by the data. *)
#[local] Instance toy : Ed25519 byte byte := {|
  import_pkcs8 b := match b with [k] => Ok k | _ => Throw TypeError end;
  public_of k := k;
  export_pkcs8 k := [k];
  export_spki k := [k];
  import_spki b := match b with [k] => Ok k | _ => Throw TypeError end;
  sign d k := k :: d;
  crypto_verify d k s := Ok (bool_decide (s = k :: d));
|}.
#[local] Instance toy_laws : Ed25519Laws byte byte.
Proof. split; try done. intros d k. cbn. by rewrite bool_decide_eq_true_2. Qed.

Definition ex_signer : t (Priv := byte) (Pub := byte) :=
  {| privateKey := bofZ 7; publicKey := bofZ 7; pubKeyHex := js "07" |}.

Lemma sign_then_verify_witness :
  verifyPotSignature (js "ab") (signPot (js "ab") 5000 ex_signer) None = true
  /\ verifyPotSignature (js "ab") (signPot (js "ab") 5000 ex_signer) (Some (js "07")) = true
  /\ (starts_with (js "0x") (js "ab") = false ->
      verifyPotSignature (js "0xab") (signPot (js "ab") 5000 ex_signer) None = true)
  /\ (forall e, e <> [] -> e <> js "07" -> verifyPotSignature (js "ab") (signPot (js "ab") 5000 ex_signer) (Some e) = false).
Proof. apply (sign_then_verify (Some (js "07")) (bofZ 0) ex_signer (js "ab") 5000). vm_compute. reflexivity. Defined.

Lemma create_or_load_stable_witness :
  createOrLoad (js "k") (bofZ 9) [(js "k", js "07")] = ([(js "k", js "07")], Ok ex_signer).
Proof. apply (create_or_load_stable (js "k") (bofZ 7) (bofZ 9) []); vm_compute; reflexivity. Defined.

End Signing.
