(* ===== verification/TrustStore.v ===== *)
(** * TTTTrustStore (src/src/trust_store.ts)

    The registry of trusted time sources with its quorum.  The properties: the
    store is keyed by name with one entry per name after any history, adding
    validates, and the quorum counts the active names. *)
From Stdlib Require Import ZArith Lia String Floats.SpecFloat.
From stdpp Require Import base list numbers option strings.
From S2P Require Import Prelude JSString Errors JSNum JSMap.

Module Trust.

Record TrustedSource := {
  src_name : jsstr; src_endpoint : jsstr; src_stratum : num; src_region : jsstr;
  src_active : bool; src_addedAt : Z;
}.
Record TrustStoreConfig := { cfg_sources : list TrustedSource; cfg_minSources : num; cfg_maxStratumDrift : num }.

Record t := { sources : jsmap jsstr TrustedSource; minSources : num; maxStratumDrift : num }.

(** The constructor stores the sources as they are given. *)
Definition make (config : TrustStoreConfig) : t :=
  {| sources := foldl (fun m s => jm_set m (src_name s) s) [] (cfg_sources config);
     minSources := cfg_minSources config; maxStratumDrift := cfg_maxStratumDrift config |}.

Definition getSources (s : t) : list TrustedSource := (sources s).*2.

(** [!source.name || !source.endpoint || stratum < 1 || stratum > 15] *)
Definition invalid (x : TrustedSource) : bool :=
  match src_name x, src_endpoint x with
  | [], _ | _, [] => true
  | _, _ => nlt (src_stratum x) (num_of_Z 1) || nlt (num_of_Z 15) (src_stratum x)
  end.

Definition addSource (x : TrustedSource) (now : Z) (s : t) : t * res unit :=
  if invalid x then (s, throw_plain "Invalid source configuration")
  else ({| sources := jm_set (sources s) (src_name x)
             {| src_name := src_name x; src_endpoint := src_endpoint x; src_stratum := src_stratum x;
                src_region := src_region x; src_active := src_active x; src_addedAt := now |};
           minSources := minSources s; maxStratumDrift := maxStratumDrift s |}, Ok tt).

Definition removeSource (name : jsstr) (s : t) : t * bool :=
  ({| sources := jm_delete (sources s) name; minSources := minSources s; maxStratumDrift := maxStratumDrift s |},
   jm_has (sources s) name).

Record quorum := { q_valid : bool; q_activeSources : Z; q_required : num }.

Definition validateSourceQuorum (s : t) : quorum :=
  let activeSources := Z.of_nat (length (bfilter src_active (getSources s))) in
  {| q_valid := nle (minSources s) (num_of_Z activeSources); q_activeSources := activeSources;
     q_required := minSources s |}.

Definition getSourcesByRegion (region : jsstr) (s : t) : list TrustedSource :=
  bfilter (fun x => bool_decide (src_region x = region)) (getSources s).

Definition default_source (name endpoint region : string) : TrustedSource :=
  {| src_name := js name; src_endpoint := js endpoint; src_stratum := num_of_Z 1; src_region := js region;
     src_active := true; src_addedAt := 1710412800000 |}.
Definition DEFAULT_TRUST_STORE : TrustStoreConfig :=
  {| cfg_sources := [default_source "NIST" "time.nist.gov" "US"; default_source "Apple" "time.apple.com" "US";
                     default_source "Google" "time.google.com" "Global"];
     cfg_minSources := num_of_Z 2; cfg_maxStratumDrift := num_of_Z 1 |}.

(** ** Histories *)

Inductive op := Add (x : TrustedSource) (now : Z) | Remove (name : jsstr).
Definition step (o : op) (s : t) : t :=
  match o with Add x now => (addSource x now s).1 | Remove n => (removeSource n s).1 end.
Definition run (l : list op) (s : t) : t := foldl (fun s o => step o s) s l.

Definition inv (config : TrustStoreConfig) (s : t) : Prop :=
  jm_ok (sources s)
  /\ Forall (fun e => e.1 = src_name e.2) (sources s)
  /\ Forall (fun x => invalid x = false \/ x ∈ cfg_sources config) (getSources s).

(** ** Lemmas *)

Lemma values_Forall {V} (P : V -> Prop) (m : jsmap jsstr V) : Forall P m.*2 <-> Forall (fun e => P e.2) m.
Proof. by rewrite Forall_fmap. Qed.

Lemma trust_make_inv config : inv config (make config).
Proof.
  unfold inv, make, getSources. cbn [sources].
  assert (forall l m, jm_ok m -> Forall (fun e => e.1 = src_name e.2) m ->
    Forall (fun x => invalid x = false \/ x ∈ cfg_sources config) m.*2 ->
    (forall x, x ∈ l -> x ∈ cfg_sources config) ->
    let m' := foldl (fun m s => jm_set m (src_name s) s) m l in
    jm_ok m' /\ Forall (fun e => e.1 = src_name e.2) m'
    /\ Forall (fun x => invalid x = false \/ x ∈ cfg_sources config) m'.*2) as H.
  { induction l as [|x l IH]; intros m H1 H2 H3 Hl; [done|]. cbn [foldl]. apply IH.
    - by apply jm_ok_set.
    - by apply jm_set_Forall.
    - rewrite values_Forall in *. apply jm_set_Forall; [done|]. right. apply Hl. left.
    - intros y Hy. apply Hl. by right. }
  apply H; [constructor..|done].
Qed.

Lemma trust_step_inv config o s : inv config s -> inv config (step o s).
Proof.
  intros (H1 & H2 & H3). unfold inv, getSources in *. rewrite values_Forall in H3. destruct o as [x now|n]; cbn [step].
  - unfold addSource. destruct (invalid x) eqn:E; [by rewrite values_Forall|]. cbn [fst sources].
    split_and!; [by apply jm_ok_set|by apply jm_set_Forall|].
    rewrite values_Forall. apply jm_set_Forall; [done|]. left. exact E.
  - cbn [removeSource fst sources]. split_and!; [by apply jm_ok_delete|by apply bfilter_Forall|].
    rewrite values_Forall. by apply bfilter_Forall.
Qed.

Lemma trust_run_inv config l : inv config (run l (make config)).
Proof.
  assert (forall s, inv config s -> inv config (run l s)) as H.
  { induction l as [|o l IH]; intros s Hs; [done|]. apply IH. by apply trust_step_inv. }
  apply H, trust_make_inv.
Qed.

(** ** Properties *)

(** After any history the store holds at most one source per name, each
    under its own name, and every source was either validated when it was added
    or given to the constructor, which validates nothing. *)
Lemma trust_store_invariant config l : inv config (run l (make config)).
Proof. apply trust_run_inv. Qed.

(** Removing an active source lowers the quorum count by one. *)
Lemma remove_active config l name x :
  let s := run l (make config) in
  jm_get (sources s) name = Some x -> src_active x = true ->
  q_activeSources (validateSourceQuorum (removeSource name s).1) = q_activeSources (validateSourceQuorum s) - 1.
Proof.
  cbv zeta. set (s := run l (make config)). intros Hg Ha.
  assert (jm_ok (sources s)) as Hok by apply (trust_run_inv config l).
  unfold validateSourceQuorum, getSources, removeSource. cbn [q_activeSources fst sources]. unfold jm_delete.
  assert (forall m : jsmap jsstr TrustedSource, jm_ok m -> jm_get m name = Some x ->
    length (bfilter src_active m.*2)
    = S (length (bfilter src_active (bfilter (fun p => negb (bool_decide (p.1 = name))) m).*2))) as H.
  { induction m as [|[k v] m IH]; intros Hm Hx; [done|]. unfold jm_ok, jm_keys in *. csimpl in Hm.
    apply NoDup_cons in Hm as [Hk Hm]. cbn [jm_get] in Hx. cbn [bfilter fst].
    destruct (decide (k = name)) as [->|Hne].
    - injection Hx as ->. rewrite bool_decide_eq_true_2 by done. cbn [negb].
      rewrite (bfilter_all _ m).
      + csimpl. rewrite Ha. done.
      + apply Forall_forall. intros [k v] Hin. cbn [fst]. apply negb_true_iff, bool_decide_eq_false.
        intros ->. apply Hk. by apply (list_elem_of_fmap_2 fst) in Hin.
    - rewrite bool_decide_eq_false_2 by done. cbn [negb]. csimpl. destruct (src_active v); cbn [length]; by rewrite IH. }
  rewrite (H _ Hok Hg). lia.
Qed.

End Trust.
