(* ===== verification/Demos.v ===== *)
(** * The end-to-end demos
    (src/examples/x402-pot/x402_pot_example.ts, src/examples/05-flashbots-protect.ts)

    Two example programs that run several parts of the SDK in one process.
    Module X402Demo: a payer attaches a proof to a payment header, the receiver
    checks it, an attacker replays it and another one moves its timestamp.
    Module FlashbotsDemo: phase B of the Flashbots demo, which synthesizes,
    issues, signs, checks the signature and verifies its own proof.  What is
    printed is not modelled beyond the values the demos report. *)
From Stdlib Require Import ZArith Lia String Strings.Byte.
From stdpp Require Import base list numbers option sorting strings.
From S2P Require Import Prelude JSString Errors Bytes JSNum JSMap NonceCache Types Median TimeSources TimeSynthesis.
From S2P Require Import HttpClient PotSigner.

Module X402Demo.

(** ** Payment headers *)

Record HeaderPot := {
  x_timestamp : jsstr; x_hmac : jsstr; x_nonce : jsstr; x_sources : Z; x_confidence : num; x_expiresAt : jsstr;
}.

Record X402PaymentHeader := {
  scheme : jsstr; network : jsstr; maxAmountRequired : jsstr; resource : jsstr; description : jsstr;
  mimeType : jsstr; payTo : jsstr; maxTimeoutSeconds : Z; asset : jsstr;
  extra_pot : option HeaderPot;   (* header.extra?.pot *)
}.

Definition buildPaymentHeader (pot : HttpPoT) (to : jsstr) : X402PaymentHeader :=
  {| scheme := js "exact"; network := js "base-mainnet"; maxAmountRequired := js "1000000";
     resource := js "https://api.example.com/v1/inference";
     description := js "AI inference call " ++ [8212] ++ js " PoT-attested payment";
     mimeType := js "application/json"; payTo := to; maxTimeoutSeconds := 30;
     asset := js "0x833589fCD6eDb6E08f4c7C32D4f71b54bdA02913";
     extra_pot := Some {| x_timestamp := z_to_dec (hp_timestamp pot); x_hmac := hp_hmac pot;
                          x_nonce := hp_nonce pot; x_sources := hp_sources pot;
                          x_confidence := hp_confidence pot; x_expiresAt := z_to_dec (hp_expiresAt pot) |} |}.

(** [BigInt(text)] of a string: a [SyntaxError] when it is no number. *)
Definition BigInt_of (s : jsstr) : res Z :=
  match bigint_of_string s with Some z => Ok z | None => Throw SyntaxError end.

(** The proof a receiver rebuilds: no readings. *)
Definition rebuild (raw : HeaderPot) : res HttpPoT :=
  timestamp ← BigInt_of (x_timestamp raw);
  expiresAt ← BigInt_of (x_expiresAt raw);
  Ok {| hp_timestamp := timestamp; hp_hmac := x_hmac raw; hp_nonce := x_nonce raw; hp_sources := x_sources raw;
        hp_confidence := x_confidence raw; hp_expiresAt := expiresAt; hp_stratum := 2; hp_sourceReadings := [] |}.

Section Demo.
Variable hmac_sha256 : jsstr -> jsstr -> Buffer.

Abbreviation verifyPoT := (HttpClient.verifyPoT hmac_sha256).

Definition verifyPaymentPoT (now1 now2 : Z) (header : X402PaymentHeader) (ttt : client) : client * res bool :=
  match extra_pot header with
  | None => (ttt, Ok false)
  | Some raw =>
      match rebuild raw with
      | Throw e => (ttt, Throw e)
      | Ok pot =>
          let '(ttt, r) := verifyPoT now1 now2 pot ttt in
          (ttt, match r with Ok HValid => Ok true | Ok (HInvalid _) => Ok false | Throw e => Throw e end)
      end
  end.

(** [structuredClone(header)] with the timestamp moved by one second. *)
Definition tamper (header : X402PaymentHeader) : res X402PaymentHeader :=
  match extra_pot header with
  | None => Throw TypeError
  | Some raw =>
      timestamp ← BigInt_of (x_timestamp raw);
      Ok {| scheme := scheme header; network := network header; maxAmountRequired := maxAmountRequired header;
            resource := resource header; description := description header; mimeType := mimeType header;
            payTo := payTo header; maxTimeoutSeconds := maxTimeoutSeconds header; asset := asset header;
            extra_pot := Some {| x_timestamp := z_to_dec (timestamp + 1000000000); x_hmac := x_hmac raw;
                                 x_nonce := x_nonce raw; x_sources := x_sources raw;
                                 x_confidence := x_confidence raw; x_expiresAt := x_expiresAt raw |} |}
  end.

(** The shared client and the fresh client of the last step. *)
Definition ttt : client := make_client None (Some (num_of_Z 60)) None.
Definition ttt2 : client := make_client None None None.

Definition demo_payTo : jsstr := js "0x1234567890abcdef1234567890abcdef12345678".

(** What the demo reports: the payment, the replay, the tampered proof. *)
Record report := { accepted : bool; replayAccepted : bool; tamperedResult : HttpPoTVerifyResult }.

(** [main]: the settled fetches, the nonce, the clock of the expiry, and the
    two clock readings of each of the three verifications. *)
Definition main (results : list (res TimeReading)) (nonce : jsstr) (now a1 a2 b1 b2 c1 c2 : Z) : res report :=
  pot ← generatePoT hmac_sha256 results nonce now ttt;
  let header := buildPaymentHeader pot demo_payTo in
  let '(ttt, accepted) := verifyPaymentPoT a1 a2 header ttt in
  accepted ← accepted;
  let '(ttt, replay) := verifyPaymentPoT b1 b2 header ttt in
  replay ← replay;
  tampered ← tamper header;
  match extra_pot tampered with
  | None => Throw TypeError
  | Some raw =>
      tamperedPot ← rebuild raw;
      result ← (verifyPoT c1 c2 tamperedPot ttt2).2;
      Ok {| accepted := accepted; replayAccepted := replay; tamperedResult := result |}
  end.

(** ** Lemmas *)

Lemma BigInt_of_dec z : BigInt_of (z_to_dec z) = Ok z.
Proof. unfold BigInt_of. by rewrite bigint_of_z_to_dec. Qed.

(** What the receiver sees of a proof: the readings are gone. *)
Definition received (pot : HttpPoT) (timestamp : Z) : HttpPoT :=
  {| hp_timestamp := timestamp; hp_hmac := hp_hmac pot; hp_nonce := hp_nonce pot; hp_sources := hp_sources pot;
     hp_confidence := hp_confidence pot; hp_expiresAt := hp_expiresAt pot; hp_stratum := 2;
     hp_sourceReadings := [] |}.

Lemma verify_header now1 now2 pot to c :
  verifyPaymentPoT now1 now2 (buildPaymentHeader pot to) c
  = (let '(c, r) := verifyPoT now1 now2 (received pot (hp_timestamp pot)) c in
     (c, match r with Ok HValid => Ok true | Ok (HInvalid _) => Ok false | Throw e => Throw e end)).
Proof. unfold verifyPaymentPoT, rebuild. cbn. by rewrite !BigInt_of_dec. Qed.

(** The bytes of the MAC over a proof with another timestamp. *)
Definition mac_at (pot : HttpPoT) (timestamp : Z) : Buffer :=
  hmac_sha256 SANDBOX_HMAC_SECRET (hmac_message timestamp (hp_nonce pot) (hp_expiresAt pot) (hp_sources pot)).

(** The first two steps: the payment and the replay. *)
Lemma pay_and_replay pot a1 a2 b1 b2 :
  from_hex (hp_hmac pot) = mac_at pot (hp_timestamp pot) -> a1 <= hp_expiresAt pot -> b2 - a2 <= 300000 ->
  let h := buildPaymentHeader pot demo_payTo in
  let v := verifyPaymentPoT a1 a2 h ttt in
  v.2 = Ok true /\ (verifyPaymentPoT b1 b2 h v.1).2 = Ok false.
Proof.
  intros Hm Ha Hb h v. subst h v. rewrite !verify_header. set (q := received pot (hp_timestamp pot)).
  assert ((verifyPoT a1 a2 q ttt).2 = Ok HValid) as Hv.
  { apply verifyPoT_valid. split_and!; [done|exact Hm|by apply Bounded.check_fresh|constructor]. }
  pose proof (verified_once hmac_sha256 a1 a2 q ttt b1 b2 q ltac:(split; [constructor|done]) eq_refl Hv Hb) as Hr.
  pose proof (verifyPoT_secret hmac_sha256 a1 a2 q ttt) as Hs.
  destruct (verifyPoT_authentic hmac_sha256 b1 b2 q (verifyPoT a1 a2 q ttt).1) as [r Hq].
  { unfold mac_of. rewrite Hs. exact Hm. }
  destruct (verifyPoT a1 a2 q ttt) as [c1 r1]. cbn [fst snd] in *. subst r1. split; [done|].
  destruct (verifyPoT b1 b2 q c1) as [c2 r2]. cbn [fst snd] in *. subst r2. by destruct r.
Qed.

(** ** Property *)

(** C22: The x402 demo reports what it announces, whatever the sources answer,
    when at least one does, the payment arrives before the expiry, the replay
    comes within five minutes of it and the MACs of the two messages are
    different byte strings of one length: the payment is accepted, the replay
    is rejected, and the proof with the moved timestamp is rejected by the
    fresh client, for its MAC or, after the expiry, as expired. *)
Theorem x402_demo_outcome results nonce now a1 a2 b1 b2 c1 c2 pot :
  generatePoT hmac_sha256 results nonce now ttt = Ok pot ->
  a1 <= hp_expiresAt pot -> b2 - a2 <= 300000 ->
  length (mac_at pot (hp_timestamp pot)) = length (mac_at pot (hp_timestamp pot + 1000000000)) ->
  mac_at pot (hp_timestamp pot) <> mac_at pot (hp_timestamp pot + 1000000000) ->
  hp_expiresAt pot = now + 60000
  /\ main results nonce now a1 a2 b1 b2 c1 c2
     = Ok {| accepted := true; replayAccepted := false;
             tamperedResult := HInvalid (if now + 60000 <? c1 then PotExpired else HmacMismatch) |}.
Proof.
  intros E Ha Hb Hl Hne. pose proof E as (w & Hw & He & Hn & _ & _ & Hm & _)%generatePoT_ok.
  injection Hw as <-. change (from_hex (hp_hmac pot) = mac_at pot (hp_timestamp pot)) in Hm.
  split; [done|]. unfold main. rewrite E. cbn [mbind result_bind].
  pose proof (pay_and_replay pot a1 a2 b1 b2 Hm Ha Hb) as [Hv Hr]. cbv zeta in Hv, Hr.
  destruct (verifyPaymentPoT a1 a2 _ _) as [s1 r1]. cbn [fst snd] in *. subst r1. cbn [mbind result_bind].
  destruct (verifyPaymentPoT b1 b2 _ _) as [s2 r2]. cbn [fst snd] in *. subst r2. cbn [mbind result_bind].
  unfold tamper, rebuild. cbn. rewrite !BigInt_of_dec. cbn. rewrite !BigInt_of_dec. cbn [mbind result_bind].
  change (Build_HttpPoT _ _ _ _ _ _ _ _) with (received pot (hp_timestamp pot + 1000000000)).
  rewrite verifyPoT_forged; [cbn; by rewrite He|..]; cbn [received hp_hmac]; rewrite Hm; done.
Qed.

End Demo.

(** ** Witness *)

(** A toy MAC: a polynomial hash of the message. *)
Definition ex_sum (secret msg : jsstr) : Buffer :=
  be_bytes 32 (foldl (fun n c => n * 131 + c) 7 msg mod 2 ^ 256).
Definition ex_demo_pot : HttpPoT :=
  match generatePoT ex_sum ex_results (js "ab") 1710412800000 ttt with Ok p => p | Throw _ => ex_http_pot end.

Lemma x402_demo_outcome_witness :
  hp_expiresAt ex_demo_pot = 1710412800000 + 60000
  /\ main ex_sum ex_results (js "ab") 1710412800000 1710412800001 1710412800001 1710412800002 1710412800002
       1710412800003 1710412800003
     = Ok {| accepted := true; replayAccepted := false; tamperedResult := HInvalid HmacMismatch |}.
Proof.
  apply (x402_demo_outcome ex_sum ex_results (js "ab") 1710412800000 1710412800001 1710412800001 1710412800002
           1710412800002 1710412800003 1710412800003 ex_demo_pot).
  - vm_compute. reflexivity.
  - vm_compute. discriminate.
  - lia.
  - vm_compute. reflexivity.
  - vm_compute. discriminate.
Defined.

End X402Demo.

(** ** 05-flashbots-protect.ts *)

Module FlashbotsDemo.

Section Demo.
Context {Priv Pub : Type} `{Crypto : Signing.Ed25519 Priv Pub, Laws : !Signing.Ed25519Laws Priv Pub}.
Variable keccak256 : Buffer -> jsstr.
Variable abi_encode : list Z -> list (Z + num) -> res Buffer.

(** What phase B prints: the hash, whether the signature verifies and whether
    the proof does; or the error its [catch] prints. *)
Inductive outcome :=
| Reported (potHash : jsstr) (sigValid potValid : bool)
| SourceError (e : exn).

(** The clocks of the run: three in [generateProofOfTime], one in [signPot],
    two in [verifyProofOfTime]. *)
Record clocks := { k_gen0 : Z; k_gen1 : Z; k_gen2 : Z; k_sign : Z; k_ver1 : Z; k_ver2 : Z }.

Definition demo_sources : list jsstr := [js "nist"; js "google"; js "cloudflare"; js "apple"].

(** The [try] block; [fetch1] and [fetch2] are the two rounds, [key] the key
    pair the signer generates. *)
Definition steps (fetch1 fetch2 : fetcher) (nonce : jsstr) (key : Priv) (k : clocks) (ts : TimeSynthesis.t)
    : TimeSynthesis.t * res outcome :=
  match synthesize fetch1 ts with
  | Throw e => (ts, Throw e)
  | Ok _ =>
      match generateProofOfTime fetch2 nonce (k_gen0 k) (k_gen1 k) (k_gen2 k) ts with
      | (ts, Throw e) => (ts, Throw e)
      | (ts, Ok pot) =>
          match (signer ← Signing.make None key;
                 potHash ← getOnChainHash keccak256 abi_encode pot;
                 Ok (potHash, Signing.verifyPotSignature potHash (Signing.signPot potHash (k_sign k) signer) None)) with
          | Throw e => (ts, Throw e)
          | Ok (potHash, sigValid) =>
              let '(ts, potValid) := verifyProofOfTime (k_ver1 k) (k_ver2 k) pot ts in
              (ts, Reported potHash sigValid <$> potValid)
          end
      end
  end.

(** [phaseB]: [try], [catch] and [finally { ts.close() }]. *)
Definition phaseB (fetch1 fetch2 : fetcher) (nonce : jsstr) (key : Priv) (k : clocks) : TimeSynthesis.t * outcome :=
  let '(ts, r) := steps fetch1 fetch2 nonce key k (TimeSynthesis.make (Some demo_sources)) in
  (TimeSynthesis.close ts, match r with Ok o => o | Throw e => SourceError e end).

(** Every run that gets that far prints PASS for the signature and FAIL for
    the integrity of the proof, because the proof was consumed when it was
    issued; the nonces are gone when the phase ends. *)
Lemma flashbots_demo_fails fetch1 fetch2 nonce key k :
  k_gen0 k <= k_gen2 k -> k_ver2 k - 240000 <= k_ver1 k ->
  let '(ts, o) := phaseB fetch1 fetch2 nonce key k in
  usedNonces ts = []
  /\ match o with Reported _ sigValid potValid => sigValid = true /\ potValid = false | SourceError _ => True end.
Proof.
  intros Hg Hv. unfold phaseB.
  destruct (steps fetch1 fetch2 nonce key k (TimeSynthesis.make (Some demo_sources))) as [ts r] eqn:E.
  split; [done|]. destruct r as [o|e]; [|done]. revert E. unfold steps.
  destruct (synthesize _ _); [|done].
  destruct (generateProofOfTime _ _ _ _ _ _) as [ts1 [pot|]] eqn:Eg; [|done].
  destruct (Signing.make None key) as [signer|] eqn:Es; [|done]. cbn [mbind result_bind].
  destruct (getOnChainHash _ _ _) as [potHash|]; [|done]. cbn [mbind result_bind].
  rewrite (Signing.signed_verifies _ _ _ (Signing.make_well_made _ _ _ Es)).
  pose proof (own_proof_refused _ _ _ _ _ _ _ _ [] (k_ver1 k) (k_ver2 k) (make_inv_ts _) Eg Hg
    (not_elem_of_nil _) (List.Forall_nil _) ltac:(done) Hv) as Hr.
  cbn [run_calls foldl] in Hr. destruct (verifyProofOfTime _ _ _ _) as [ts2 r2]. cbn in Hr. subst r2.
  by intros [= _ <-].
Qed.

End Demo.
End FlashbotsDemo.
