(* ===== verification/Ordering.v ===== *)
(** * The ordering and governance examples
    (src/examples/07-multi-agent-ordering/ordering_demo.ts, src/examples/09-governance-pot/governance_pot.ts)

    Three agents report the time of their proofs, one of them 50 ms early, and
    are sorted by what they report; a voter attaches a proof to a vote. *)
From Stdlib Require Import ZArith Lia String.
From stdpp Require Import base list numbers option sorting strings.
From S2P Require Import Prelude JSString Errors Bytes JSNum JSMap NonceCache Types Median TimeSynthesis.
From S2P Require Import AdaptiveSwitch HttpClient PotSigner.

Module OrderingDemo.

Record AgentResult := { name : jsstr; timestamp : Z; mode : Adaptive.AdaptiveMode; latencyMs : Z; tampered : bool }.

Section Demo.
Context {Priv Pub : Type} `{Crypto : Signing.Ed25519 Priv Pub}.
Variable keccak256 : Buffer -> jsstr.
Variable abi_encode : list Z -> list (Z + num) -> res Buffer.

(** What an agent's run depends on: the two rounds of its own TimeSynthesis,
    the random nonce and key pair, and the clock. *)
Record inputs := {
  i_fetch1 : fetcher; i_fetch2 : fetcher; i_nonce : jsstr; i_key : Priv;
  i_gen0 : Z; i_gen1 : Z; i_gen2 : Z; i_sign : Z;
}.

Definition agent_sources : list jsstr := [js "nist"; js "google"; js "cloudflare"].
Definition SHIFT : Z := 50000000.

(** [runAgent]; the signature it makes is dropped, and so is the switch. *)
Definition runAgent (agent : jsstr) (tampered : bool) (x : inputs) : res AgentResult :=
  let ts := TimeSynthesis.make (Some agent_sources) in
  _ ← synthesize (i_fetch1 x) ts;
  pot ← (generateProofOfTime (i_fetch2 x) (i_nonce x) (i_gen0 x) (i_gen1 x) (i_gen2 x) ts).2;
  let reportedTimestamp := if tampered then pot_timestamp pot - SHIFT else pot_timestamp pot in
  signer ← Signing.make None (i_key x);
  potHash ← getOnChainHash keccak256 abi_encode pot;
  let _ := Signing.signPot potHash (i_sign x) signer in
  let mode := if tampered then Adaptive.FULL else Adaptive.TURBO in
  Ok {| name := agent; timestamp := reportedTimestamp; mode := mode;
        latencyMs := match mode with Adaptive.TURBO => 50 | Adaptive.FULL => 127 end; tampered := tampered |}.

(** The results used when an agent fails. *)
Definition simulated (now : Z) : list AgentResult :=
  let base := now * 1000000 in
  [ {| name := js "Agent A"; timestamp := base + 1000000; mode := Adaptive.TURBO; latencyMs := 50; tampered := false |};
    {| name := js "Agent B"; timestamp := base + 3000000; mode := Adaptive.TURBO; latencyMs := 50; tampered := false |};
    {| name := js "Agent C"; timestamp := base - SHIFT; mode := Adaptive.FULL; latencyMs := 127; tampered := true |} ].

(** [Promise.all([...])] with its [catch]. *)
Definition results (a b c : inputs) (now : Z) : list AgentResult :=
  match runAgent (js "Agent A") false a, runAgent (js "Agent B") false b, runAgent (js "Agent C") true c with
  | Ok ra, Ok rb, Ok rc => [ra; rb; rc]
  | _, _, _ => simulated now
  end.

(** [[...results].sort(by timestamp)], which is stable. *)
Fixpoint insert_result (r : AgentResult) (l : list AgentResult) : list AgentResult :=
  match l with
  | [] => [r]
  | x :: l' => if timestamp r <=? timestamp x then r :: l else x :: insert_result r l'
  end.
Definition sort_results (l : list AgentResult) : list AgentResult := foldr insert_result [] l.
Definition ordered (a b c : inputs) (now : Z) : list AgentResult := sort_results (results a b c now).

(** ** Lemmas *)

Definition earlier (x y : AgentResult) : Prop := timestamp x <= timestamp y.

Lemma insert_result_perm r l : insert_result r l ≡ₚ r :: l.
Proof.
  induction l as [|x l IH]; simpl; [done|]. destruct (_ <=? _); [done|]. rewrite IH. by apply Permutation_swap.
Qed.

Lemma sort_results_perm l : sort_results l ≡ₚ l.
Proof. induction l as [|r l IH]; simpl; [done|]. by rewrite insert_result_perm, IH. Qed.

Lemma insert_result_sorted r l : StronglySorted earlier l -> StronglySorted earlier (insert_result r l).
Proof.
  induction 1 as [|x l Hl IH Hx]; simpl; [by repeat constructor|].
  destruct (Z.leb_spec (timestamp r) (timestamp x)) as [Hle|Hgt].
  - constructor; [by constructor|]. constructor; [done|]. eapply Forall_impl; [exact Hx|].
    unfold earlier. intros y Hy. lia.
  - constructor; [done|]. rewrite insert_result_perm. constructor; [unfold earlier; lia|done].
Qed.

Lemma sort_results_sorted l : StronglySorted earlier (sort_results l).
Proof. induction l as [|r l IH]; [constructor|]. by apply insert_result_sorted. Qed.

(** What an agent can report. *)
Lemma runAgent_Ok agent tam x r :
  runAgent agent tam x = Ok r ->
  name r = agent /\ tampered r = tam /\ mode r = (if tam then Adaptive.FULL else Adaptive.TURBO)
  /\ latencyMs r = (if tam then 127 else 50)
  /\ exists s' pot, generateProofOfTime (i_fetch2 x) (i_nonce x) (i_gen0 x) (i_gen1 x) (i_gen2 x)
                      (TimeSynthesis.make (Some agent_sources)) = (s', Ok pot)
       /\ timestamp r = pot_timestamp pot - if tam then SHIFT else 0.
Proof.
  unfold runAgent. destruct (synthesize _ _); [|done]. cbn [mbind result_bind].
  destruct (generateProofOfTime _ _ _ _ _ _) as [s' [pot|e]] eqn:Eg; [|done]. cbn [mbind result_bind snd].
  destruct (Signing.make _ _); [|done]. cbn [mbind result_bind]. destruct (getOnChainHash _ _ _); [|done].
  cbn [mbind result_bind]. intros [= <-]. destruct tam; cbn; split_and!; try done; eexists _, _; split; try done; lia.
Qed.

(** ** Properties *)

(** The demo's ordering is by what the agents say: the printed order is a
    sorted permutation of the results, with one full-mode agent; and the agent
    that reports 50 ms early comes first whenever the three proofs were made
    within 50 ms of each other, and always in the simulated run.  Nothing but
    its own flag gives it the full mode. *)
Lemma ordering_demo_outcome a b c now :
  let rs := results a b c now in
  ordered a b c now ≡ₚ rs /\ StronglySorted earlier (ordered a b c now)
  /\ (mode <$> rs) = [Adaptive.TURBO; Adaptive.TURBO; Adaptive.FULL] /\ (tampered <$> rs) = [false; false; true]
  /\ ((forall x y, x ∈ rs -> y ∈ rs -> timestamp x - (timestamp y + if tampered y then SHIFT else 0) > - SHIFT) ->
      exists first, head (ordered a b c now) = Some first /\ tampered first = true)
  /\ ((name <$> sort_results (simulated now)) = [js "Agent C"; js "Agent A"; js "Agent B"]).
Proof.
  intros rs.
  assert ((mode <$> rs) = [Adaptive.TURBO; Adaptive.TURBO; Adaptive.FULL] /\ (tampered <$> rs) = [false; false; true]) as [Hm Ht].
  { unfold rs, results. destruct (runAgent _ _ a) as [ra|] eqn:Ea; [|done].
    destruct (runAgent _ _ b) as [rb|] eqn:Eb; [|done]. destruct (runAgent _ _ c) as [rc|] eqn:Ec; [|done].
    apply runAgent_Ok in Ea as (_ & Ta & Ma & _), Eb as (_ & Tb & Mb & _), Ec as (_ & Tc & Mc & _).
    cbn. by rewrite Ta, Tb, Tc, Ma, Mb, Mc. }
  split_and!; [apply sort_results_perm|apply sort_results_sorted|done|done| |].
  - intros Hclose. unfold ordered. fold rs. pose proof (sort_results_perm rs) as Hp.
    pose proof (sort_results_sorted rs) as Hs. clearbody rs.
    destruct rs as [|ra [|rb [|rc [|]]]]; try done. injection Ht as Ta Tb Tc.
    destruct (sort_results [ra; rb; rc]) as [|f l] eqn:Ef; [by apply Permutation_nil_l in Hp|].
    exists f. split; [done|]. destruct (tampered f) eqn:Tf; [done|]. exfalso.
    assert (f ∈ [ra; rb; rc]) as Hf by (rewrite <- Hp; by left).
    assert (rc ∈ f :: l) as Hc by (rewrite Hp; right; right; by left).
    apply elem_of_cons in Hc as [->|Hc]; [congruence|].
    apply StronglySorted_inv in Hs as [_ Hs]. rewrite Forall_forall in Hs. specialize (Hs _ Hc). unfold earlier in Hs.
    specialize (Hclose f rc Hf ltac:(right; right; by left)). rewrite Tc in Hclose. lia.
  - unfold simulated, sort_results, SHIFT. cbn [foldr insert_result timestamp].
    repeat match goal with
           | |- context [Z.leb ?x ?y] => destruct (Z.leb_spec x y); try lia; cbn [insert_result timestamp]
           end. done.
Qed.

End Demo.
End OrderingDemo.

Module Governance.
Section Demo.
Variable hmac_sha256 : jsstr -> jsstr -> Buffer.

(** [castVoteWithPoT]: [pot.sources] is a number without a [join]; the lines
    printed before are dropped. *)
Definition castVoteWithPoT (results : list (res TimeReading)) (nonce : jsstr) (now : Z) : res unit :=
  let ttt := make_client None None None in
  _ ← generatePoT hmac_sha256 results nonce now ttt;
  Throw TypeError.

(** [main]: the second vote waits for the first. *)
Definition main (round1 round2 : list (res TimeReading)) (n1 n2 : jsstr) (now1 now2 : Z) : res unit :=
  _ ← castVoteWithPoT round1 n1 now1; castVoteWithPoT round2 n2 now2.

(** No run of the example gets to the comparison of the two votes. *)
Lemma governance_demo_never_ends_well round1 round2 n1 n2 now1 now2 :
  is_ok (main round1 round2 n1 n2 now1 now2) = false.
Proof. unfold main, castVoteWithPoT. by destruct (generatePoT hmac_sha256 round1 _ _ _). Qed.

End Demo.
End Governance.
