(* ===== verification/IntegrityClient.v ===== *)
(** * IntegrityClient (src/src/integrity_client.ts)

    The HTTP client of the remote integrity pipeline: the requests it builds,
    the exchange with its abort timer, and how it reads the answers.  The
    server is not code of the repository: [PipelineServer] states what the
    client expects of it, and the refinement theorem says that through such a
    server the client is the pipeline itself. *)
From Stdlib Require Import ZArith Lia String Strings.Byte Floats.SpecFloat.
From stdpp Require Import base list numbers option strings relations.
From S2P Require Import Prelude JSString Errors Bytes JSNum Json TimeSources.

Module Integrity.

(** ** The client *)

Record t := { baseUrl : jsstr; timeoutMs : num; apiKey : option jsstr }.

(** [baseUrl.replace(/\/$/, "")] *)
Definition strip_slash (s : jsstr) : jsstr :=
  match reverse s with 47 :: r => reverse r | _ => s end.

Definition DEFAULT_URL : jsstr := js "https://integrity.helmprotocol.com/api/v1".

(** The constructor; [env] is INTEGRITY_API_KEY of the process. *)
Definition make (base : option jsstr) (timeout : option num) (key env : option jsstr) : t :=
  {| baseUrl := strip_slash (default DEFAULT_URL base);
     timeoutMs := default (num_of_Z 5000) timeout;
     apiKey := match key with Some k => Some k | None => env end |}.

(** ** Requests *)

Record request := {
  rq_method : string; rq_url : jsstr; rq_headers : list (string * jsstr); rq_body : option json;
}.

(** The key header is left out for an empty key. *)
Definition key_header (c : t) : list (string * jsstr) :=
  match apiKey c with
  | Some (u :: k) => [("X-Integrity-Key"%string, u :: k)]
  | _ => []
  end.

Definition post (c : t) (path : string) (body : json) : request :=
  {| rq_method := "POST"; rq_url := baseUrl c ++ js path;
     rq_headers := ("Content-Type"%string, js "application/json") :: key_header c; rq_body := Some body |}.

Definition encode_request (c : t) (data : Buffer) (chainId : num) (poolAddress : jsstr) : request :=
  post c "/encode" (JObj [(js "data", JStr (to_hex data)); (js "chainId", json_num chainId);
                          (js "poolAddress", JStr poolAddress)]).

Definition verify_request (c : t) (data : Buffer) (originalShards : list Buffer) (chainId : num)
    (poolAddress : jsstr) : request :=
  post c "/verify" (JObj [(js "data", JStr (to_hex data));
                          (js "shards", JArr ((fun s => JStr (to_hex s)) <$> originalShards));
                          (js "chainId", json_num chainId); (js "poolAddress", JStr poolAddress)]).

Definition health_request (c : t) : request :=
  {| rq_method := "GET"; rq_url := baseUrl c ++ js "/health"; rq_headers := []; rq_body := None |}.

(** ** One exchange

    [fetch] settles with the head of the response, [resp.json()] with its
    body; the timer aborts whichever is pending; the [finally] clause clears
    it.  [ex_head] says what a head ends the call with, [None] when the body is
    read; [ex_catch] is the [catch] clause. *)
Record exchange (A : Type) := {
  ex_head : Z -> jsstr -> option (res A);
  ex_body : json_text -> res A;
  ex_catch : exn -> res A;
}.
Arguments ex_head {A} _. Arguments ex_body {A} _. Arguments ex_catch {A} _.

Inductive phase := WaitHead | WaitBody | Settled.
#[export] Instance phase_eq_dec : EqDecision phase.
Proof. solve_decision. Defined.

Record state (A : Type) := { ph : phase; outcome : promise A; timer : bool }.
Arguments Build_state {A} _ _ _. Arguments ph {A} _. Arguments outcome {A} _. Arguments timer {A} _.

Inductive event := Timeout | Head (status : Z) (statusText : jsstr) | Body (text : json_text) | NetworkError.

Definition enabled {A} (e : event) (s : state A) : bool :=
  match e with
  | Timeout => timer s
  | Head _ _ => bool_decide (ph s = WaitHead)
  | Body _ => bool_decide (ph s = WaitBody)
  | NetworkError => bool_decide (ph s <> Settled)
  end.

Definition start {A} : state A := {| ph := WaitHead; outcome := None; timer := true |}.

(** The call returns or throws [r]: [finally { clearTimeout(timer) }]. *)
Definition finish {A} (r : res A) (s : state A) : state A :=
  {| ph := Settled; outcome := settle (outcome s) r; timer := false |}.

Definition AbortError : exn := ForeignError None None (Some (js "This operation was aborted")).

Definition handle {A} (x : exchange A) (e : event) (s : state A) : state A :=
  match e with
  | Timeout => finish (ex_catch x AbortError) s
  | NetworkError => finish (ex_catch x TypeError) s
  | Head status text =>
      match ex_head x status text with
      | Some r => finish r s
      | None => {| ph := WaitBody; outcome := outcome s; timer := timer s |}
      end
  | Body text => finish (ex_body x text) s
  end.

Inductive step {A} (x : exchange A) : state A -> state A -> Prop :=
| step_event e s : enabled e s = true -> step x s (handle x e s).

(** A sequence of events, the ones that cannot occur being skipped. *)
Definition run {A} (x : exchange A) (es : list event) (s : state A) : state A :=
  foldl (fun s e => if enabled e s then handle x e s else s) s es.

(** ** The three calls *)

(** [resp.ok] *)
Definition is_ok_status (status : Z) : bool := (200 <=? status) && (status <=? 299).

Definition api_error (status : Z) (statusText : jsstr) : exn :=
  PlainError (js "Integrity API error: " ++ z_to_dec status ++ js " " ++ statusText).

Definition post_exchange {A} (read : json -> res A) : exchange A :=
  {| ex_head := fun status text => if is_ok_status status then None else Some (Throw (api_error status text));
     ex_body := fun text => j ← JSON_parse text; read j;
     ex_catch := Throw |}.

Section Answers.
(** [Buffer.from(v, "hex")] of an array or an object. *)
Variable buffer_of_object : json -> res Buffer.

Definition shard_bytes (v : json) : res Buffer :=
  match v with
  | JStr s => Ok (from_hex s)
  | JArr _ | JObj _ => buffer_of_object v
  | _ => Throw TypeError
  end.

(** [result.shards.map((hex) => Buffer.from(hex, "hex"))] *)
Definition encode_answer (j : json) : res (list Buffer) :=
  f ← get_field j "shards"; l ← json_array f; res_map shard_bytes l.

(** [result.valid]: whatever the field holds. *)
Definition verify_answer (j : json) : res (option json) := get_field j "valid".

Definition encode_exchange : exchange (list Buffer) := post_exchange encode_answer.
Definition verify_exchange : exchange (option json) := post_exchange verify_answer.

End Answers.

Definition isReachable_exchange : exchange bool :=
  {| ex_head := fun status _ => Some (Ok (is_ok_status status));
     ex_body := fun _ => Ok false;
     ex_catch := fun _ => Ok false |}.

(** ** The default client *)

Definition getDefaultIntegrityClient (env : option jsstr) (d : option t) : option t * t :=
  match d with Some c => (Some c, c) | None => let c := make None None None env in (Some c, c) end.
Definition setDefaultIntegrityClient (c : t) (d : option t) : option t := Some c.

(** ** The service the client expects

    A request asks for an operation when its method, path and JSON body say
    so. *)
Definition body_field (r : request) (k : string) : option json :=
  j ← rq_body r; match get_field j k with Ok f => f | Throw _ => None end.

Definition asks_encode (r : request) (data : Buffer) (chainId : num) (pool : jsstr) : Prop :=
  rq_method r = "POST"%string /\ js "/encode" `suffix_of` rq_url r
  /\ body_field r "data" = Some (JStr (to_hex data)) /\ body_field r "chainId" = Some (JNum chainId)
  /\ body_field r "poolAddress" = Some (JStr pool).

Definition asks_verify (r : request) (data : Buffer) (shards : list Buffer) (chainId : num) (pool : jsstr) : Prop :=
  rq_method r = "POST"%string /\ js "/verify" `suffix_of` rq_url r
  /\ body_field r "data" = Some (JStr (to_hex data))
  /\ body_field r "shards" = Some (JArr ((fun s => JStr (to_hex s)) <$> shards))
  /\ body_field r "chainId" = Some (JNum chainId) /\ body_field r "poolAddress" = Some (JStr pool).

(** What a server answers: the head and the body. *)
Record answer := { an_status : Z; an_text : jsstr; an_body : json_text }.
Definition answer_events (a : answer) : list event := [Head (an_status a) (an_text a); Body (an_body a)].

Definition shards_json (shards : list Buffer) : json :=
  JObj [(js "shards", JArr ((fun s => JStr (to_hex s)) <$> shards))].

(** The pipeline: [forward] splits data into shards, [valid] checks data
    against shards. *)
Class PipelineServer (server : request -> answer) (forward : Buffer -> num -> jsstr -> option (list Buffer))
    (valid : Buffer -> list Buffer -> num -> jsstr -> bool) : Prop := {
  serve_encode r d c p shards : asks_encode r d c p -> forward d c p = Some shards ->
    is_ok_status (an_status (server r)) = true /\ an_body (server r) = Some (shards_json shards);
  serve_encode_error r d c p : asks_encode r d c p -> forward d c p = None ->
    is_ok_status (an_status (server r)) = false;
  serve_verify r d shards c p : asks_verify r d shards c p ->
    is_ok_status (an_status (server r)) = true
    /\ an_body (server r) = Some (JObj [(js "valid", JBool (valid d shards c p))]);
}.

(** ** Lemmas *)

Definition inv {A} (s : state A) : Prop :=
  (ph s = Settled <-> is_Some (outcome s)) /\ timer s = negb (bool_decide (ph s = Settled)).

(** Events left at most. *)
Definition budget {A} (s : state A) : nat :=
  match ph s with WaitHead => 2 | WaitBody => 1 | Settled => 0 end.

Lemma start_inv {A} : inv (@start A).
Proof. split; [split; [done|by intros [? [=]]]|done]. Qed.

Lemma finish_inv {A} (r : res A) s : inv (finish r s).
Proof. split; [|done]. split; [|done]. intros _. cbn. destruct (outcome s); by eexists. Qed.

Lemma exchange_step_inv {A} (x : exchange A) s s' : inv s -> step x s s' -> inv s' /\ (budget s' < budget s)%nat.
Proof.
  intros Hi Hs. revert Hi. destruct Hs as [e s0 He]. intros [H1 H2]. unfold budget.
  assert (ph s0 <> Settled) as Hns.
  { destruct e; cbn [enabled] in He; [|apply bool_decide_eq_true in He..]; [|congruence|congruence|done].
    intros E. rewrite H2, bool_decide_eq_true_2 in He by done. done. }
  assert (forall r, inv (finish r s0) /\ (0 < match ph s0 with WaitHead => 2 | WaitBody => 1 | Settled => 0 end)%nat) as Hf.
  { intros r. split; [apply finish_inv|]. destruct (ph s0); [lia|lia|done]. }
  destruct e as [|status text|text|]; cbn [handle]; [apply Hf| |apply Hf|apply Hf].
  destruct (ex_head x status text) as [r|]; [apply Hf|]. cbn [enabled] in He. zbool. rewrite He in *. cbn.
  split; [|lia]. split; cbn; [|done]. split; [done|]. intros Ho. by apply H1 in Ho.
Qed.

Lemma reachable_inv {A} (x : exchange A) n s : nsteps (step x) n start s -> inv s.
Proof.
  intros H. apply (rtc_preserves (step x) inv start s start_inv); [|eapply rtc_nsteps; eauto].
  intros a b Ha Hs. by eapply exchange_step_inv.
Qed.

Lemma disabled_settled {A} (s : state A) e : inv s -> is_Some (outcome s) -> enabled e s = false.
Proof.
  intros [H1 H2] Ho. apply H1 in Ho. rewrite Ho in H2. destruct e; cbn [enabled]; rewrite ?Ho; done.
Qed.

(** An answered exchange. *)
Lemma run_answer_ok {A} (x : exchange A) a :
  ex_head x (an_status a) (an_text a) = None ->
  outcome (run x (answer_events a) start) = Some (ex_body x (an_body a)).
Proof. intros H. unfold run. cbn [foldl answer_events enabled start ph]. cbn. by rewrite H. Qed.

Lemma run_answer_error {A} (x : exchange A) a r :
  ex_head x (an_status a) (an_text a) = Some r -> outcome (run x (answer_events a) start) = Some r.
Proof. intros H. unfold run. cbn [foldl answer_events enabled start ph]. cbn. by rewrite H. Qed.

Lemma shards_roundtrip b (shards : list Buffer) :
  encode_answer b (shards_json shards) = Ok shards.
Proof.
  change (encode_answer b (shards_json shards)) with (res_map (shard_bytes b) ((fun s => JStr (to_hex s)) <$> shards)).
  rewrite res_map_fmap, (res_map_Ok _ id); [by rewrite list_fmap_id|].
  intros s _. cbn [shard_bytes]. by rewrite from_hex_to_hex.
Qed.

Lemma encode_request_asks c d chainId pool :
  json_safe chainId = true -> asks_encode (encode_request c d chainId pool) d chainId pool.
Proof.
  intros Hc. unfold asks_encode, encode_request. rewrite (json_num_safe _ Hc).
  split_and!; [done|by eexists|done..].
Qed.

Lemma verify_request_asks c d shards chainId pool :
  json_safe chainId = true -> asks_verify (verify_request c d shards chainId pool) d shards chainId pool.
Proof.
  intros Hc. unfold asks_verify, verify_request. rewrite (json_num_safe _ Hc).
  split_and!; [done|by eexists|done..].
Qed.

(** A request asks for one operation on one input. *)
Lemma asks_encode_inj r d1 c1 p1 d2 c2 p2 :
  asks_encode r d1 c1 p1 -> asks_encode r d2 c2 p2 -> d1 = d2 /\ c1 = c2 /\ p1 = p2.
Proof.
  intros (_ & _ & H1 & H2 & H3) (_ & _ & H4 & H5 & H6). simplify_eq.
  split_and!; [by apply (inj to_hex)|congruence..].
Qed.

(** ** Properties *)

(** C29: Every exchange ends, under every order of timer, network and server
    events: a run has at most two events, while the call is pending the abort
    timer is armed and firing it settles the call, and once it is settled the
    timer is cleared and nothing can happen any more. *)
Theorem integrity_exchange_ends {A} (x : exchange A) n s :
  nsteps (step x) n start s ->
  (n <= 2)%nat
  /\ (outcome s = None -> timer s = true /\ is_Some (outcome (handle x Timeout s)))
  /\ (is_Some (outcome s) -> timer s = false /\ forall e, enabled e s = false).
Proof.
  intros H. pose proof (reachable_inv x n s H) as Hi. split_and!.
  - pose proof (nsteps_measure _ inv budget n start s (exchange_step_inv x) start_inv H). cbn in *. lia.
  - intros Ho. destruct Hi as [H1 H2]. split; [|cbn; rewrite Ho; by eexists].
    rewrite H2. apply negb_true_iff, bool_decide_eq_false. intros E. apply H1 in E as [? E]. congruence.
  - intros Ho. split; [|intros e; by apply disabled_settled].
    pose proof (disabled_settled s Timeout Hi Ho). done.
Qed.

(** [isReachable] never rejects. *)
Lemma integrity_reachable_total n s r :
  nsteps (step isReachable_exchange) n start s -> outcome s = Some r -> is_ok r = true.
Proof.
  intros H. apply rtc_nsteps_2 in H.
  enough (forall r, outcome s = Some r -> is_ok r = true) as Hr by exact (Hr r).
  apply (rtc_preserves _ (fun s => forall r, outcome s = Some r -> is_ok r = true) _ _) with (3 := H); [done|].
  clear. intros a b Ha Hs. revert Ha. destruct Hs as [e s0 _]. intros Ha r. specialize (Ha r).
  destruct e as [|status text|text|]; cbn in *; destruct (outcome s0); try (by intros [= <-]); auto.
Qed.

(** C28: The client is a drop-in replacement of the pipeline: through a server
    that keeps the service's contract, [encode] returns exactly the shards the
    pipeline makes of the data (and throws when the pipeline refuses), and
    [verify] returns the pipeline's verdict, for every data, shards, chain id
    with a JSON form and pool. *)
Theorem integrity_client_refines_pipeline server forward valid b c d chainId pool :
  PipelineServer server forward valid -> json_safe chainId = true ->
  let encoded := outcome (run (encode_exchange b) (answer_events (server (encode_request c d chainId pool))) start) in
  (forall shards, forward d chainId pool = Some shards -> encoded = Some (Ok shards))
  /\ (forward d chainId pool = None -> exists e, encoded = Some (Throw e))
  /\ (forall shards,
        outcome (run verify_exchange (answer_events (server (verify_request c d shards chainId pool))) start)
        = Some (Ok (Some (JBool (valid d shards chainId pool))))).
Proof.
  intros Hs Hc. pose proof (encode_request_asks c d chainId pool Hc) as Hr. cbv zeta. split_and!.
  - intros shards Hf. destruct (serve_encode _ _ _ _ _ Hr Hf) as [Ho Hb].
    rewrite run_answer_ok by by cbn; rewrite Ho. rewrite Hb. cbn [encode_exchange post_exchange ex_body JSON_parse].
    f_equal. apply shards_roundtrip.
  - intros Hf. pose proof (serve_encode_error _ _ _ _ Hr Hf) as Ho.
    eexists. apply run_answer_error. cbn. by rewrite Ho.
  - intros shards. destruct (serve_verify _ _ _ _ _ (verify_request_asks c d shards chainId pool Hc)) as [Ho Hb].
    rewrite run_answer_ok by by cbn; rewrite Ho. by rewrite Hb.
Qed.

(** What [encode] makes of a malformed success: a body that is not JSON is a
    SyntaxError; a missing or non-array [shards] field a TypeError. *)
Lemma integrity_encode_malformed b j :
  ex_body (encode_exchange b) None = Throw SyntaxError
  /\ (get_field j "shards" = Ok None -> ex_body (encode_exchange b) (Some j) = Throw TypeError)
  /\ ex_body (encode_exchange b) (Some JNull) = Throw TypeError.
Proof. split_and!; [done| |done]. intros H. cbn. unfold encode_answer. by rewrite H. Qed.

(** ** Witnesses: a server of the pipeline with one shard *)

Definition ex_server (r : request) : answer :=
  if bool_decide (js "/encode" `suffix_of` rq_url r) then
    match body_field r "data" with
    | Some (JStr h) => {| an_status := 200; an_text := js "OK"; an_body := Some (shards_json [from_hex h]) |}
    | _ => {| an_status := 400; an_text := js "Bad Request"; an_body := None |}
    end
  else
    let same := match body_field r "data", body_field r "shards" with
                | Some (JStr h), Some (JArr [JStr h']) => bool_decide (h = h')
                | _, _ => false
                end in
    {| an_status := 200; an_text := js "OK"; an_body := Some (JObj [(js "valid", JBool same)]) |}.

Lemma ex_server_serves :
  PipelineServer ex_server (fun d _ _ => Some [d]) (fun d shards _ _ => bool_decide (shards = [d])).
Proof.
  split.
  - intros r d c p shards (_ & Hu & Hd & _) [= <-]. unfold ex_server. rewrite bool_decide_eq_true_2 by done.
    rewrite Hd. by rewrite from_hex_to_hex.
  - done.
  - intros r d shards c p (_ & Hu & Hd & Hs & _). unfold ex_server. rewrite bool_decide_eq_false_2.
    + split; [done|]. rewrite Hd, Hs. cbn [an_body]. do 5 f_equal.
      destruct shards as [|s [|s2 l]]; csimpl; [done| |symmetry; by apply bool_decide_eq_false_2].
      apply bool_decide_ext. split; [intros E; apply (inj to_hex) in E; congruence|congruence].
    + intros [l2 E2]. destruct Hu as [l1 E1]. rewrite E1 in E2. apply app_inj_2 in E2 as [_ E2]; [discriminate E2|done].
Qed.

Lemma integrity_exchange_ends_witness :
  let s := handle (encode_exchange (fun _ => Throw TypeError)) (Head 503 (js "Unavailable")) start in
  timer s = false /\ forall e, enabled e s = false.
Proof.
  destruct (integrity_exchange_ends (encode_exchange (fun _ => Throw TypeError)) 1
    (handle (encode_exchange (fun _ => Throw TypeError)) (Head 503 (js "Unavailable")) start)) as (_ & _ & H).
  - eapply nsteps_l; [|apply nsteps_O]. by constructor.
  - apply H. by eexists.
Defined.

Lemma integrity_client_refines_pipeline_witness :
  outcome (run (encode_exchange (fun _ => Throw TypeError))
    (answer_events (ex_server (encode_request (make None None None None) [bofZ 7; bofZ 9] (num_of_Z 84532) (js "0xP"))))
    start) = Some (Ok [[bofZ 7; bofZ 9]]).
Proof.
  destruct (integrity_client_refines_pipeline ex_server _ _ (fun _ => Throw TypeError) (make None None None None)
    [bofZ 7; bofZ 9] (num_of_Z 84532) (js "0xP") ex_server_serves) as (H & _ & _).
  - vm_compute. reflexivity.
  - exact (H _ eq_refl).
Defined.

End Integrity.
