(* ===== verification/CTLog.v ===== *)
(** * PoTCTLog (src/src/ct_log.ts)

    The client of the anchor log: the GraphQL documents it writes by string
    interpolation, and how it reads the answers.  What a document means is
    given by a lexer of GraphQL tokens: the properties say which documents the
    server reads for which filters, and that the answers come back unchanged
    but for the placeholder field. *)
From Stdlib Require Import ZArith Lia String Floats.SpecFloat.
From stdpp Require Import base list numbers option strings.
From S2P Require Import Prelude JSString Errors Bytes JSNum NumText Json.

Module CTLog.

(** ** The documents *)

Record filter := {
  f_startTime : option num; f_endTime : option num; f_stratum : option jsstr; f_limit : option num;
}.

(** [if (x)] on a Number. *)
Definition truthy_num (x : num) : bool := match x with S754_nan | S754_zero _ => false | _ => true end.

(** The clauses pushed, in order: the argument and its interpolated text. *)
Definition clauses (f : filter) : list (string * jsstr) :=
  (match f_startTime f with Some x => if truthy_num x then [("timestamp_gte"%string, num_to_string x)] else [] | None => [] end)
  ++ (match f_endTime f with Some x => if truthy_num x then [("timestamp_lte"%string, num_to_string x)] else [] | None => [] end)
  ++ (match f_stratum f with Some (u :: s) => [("stratum"%string, u :: s)] | _ => [] end).

(** [`key: "value"`] *)
Definition clause_text (c : string * jsstr) : jsstr := js c.1 ++ js ": " ++ [34] ++ c.2 ++ [34].

Definition limit_of (f : filter) : num := default (num_of_Z 100) (f_limit f).

Definition where_text (f : filter) : jsstr :=
  match clauses f with
  | [] => js "(first: " ++ num_to_string (limit_of f) ++ js ", orderBy: timestamp, orderDirection: desc)"
  | cs => js "(where: { " ++ join (js ", ") (clause_text <$> cs) ++ js " }, first: "
          ++ num_to_string (limit_of f) ++ js ", orderBy: timestamp, orderDirection: desc)"
  end.

(** The fixed ends of both documents. *)
Definition query_head : jsstr := js "
      query {
        poTAnchors".
Definition query_tail : jsstr := js " {
          id
          stratum
          grgHash
          potHash
          timestamp
          blockNumber
          txHash
        }
      }
    ".

Definition anchors_query (f : filter) : jsstr := query_head ++ where_text f ++ query_tail.
Definition audit_query (txHash : jsstr) : jsstr :=
  query_head ++ js "(where: { txHash: " ++ [34] ++ txHash ++ [34] ++ js " })" ++ query_tail.

(** ** The answers *)

(** The properties [...v] copies. *)
Definition spread (v : json) : list (jsstr * json) :=
  let indexed := imap (fun i x => (z_to_dec (Z.of_nat i), x)) in
  match v with
  | JObj fs => fs
  | JArr l => indexed l
  | JStr s => indexed ((fun c => JStr [c]) <$> s)
  | _ => []
  end.

(** [{ ...anchor, builderAddress: "0x" }] *)
Definition with_builder (v : json) : json := JObj (spread v ++ [(js "builderAddress", JStr (js "0x"))]).

(** [v.key] of a value that may be undefined. *)
Definition member (v : option json) (k : string) : res (option json) :=
  match v with None => Throw TypeError | Some j => get_field j k end.

Definition read_anchors (text : json_text) : res (option json) :=
  j ← JSON_parse text; data ← get_field j "data"; member data "poTAnchors".

(** [response] is what [fetch] settles with: a body, whatever the status. *)
Definition queryAnchors (f : filter) (fetch : jsstr -> res json_text) : res (list json) :=
  text ← fetch (anchors_query f);
  anchors ← read_anchors text;
  fmap (M:=list) with_builder <$> json_array anchors.

Section Audit.
(** ToNumber of a [length] property that is not a Number. *)
Variable to_number : json -> num.

(** [anchors.length > 0] and [anchors[0]] *)
Definition first_anchor (anchors : option json) : res (option json) :=
  match anchors with
  | None | Some JNull => Throw TypeError
  | Some (JArr l) => Ok (head l)
  | Some (JStr s) => Ok ((fun c => JStr [c]) <$> head s)
  | Some (JObj fs) =>
      match field_lookup (js "length") fs with
      | None => Ok None
      | Some v =>
          let n := match v with JNum x => x | _ => to_number v end in
          if nlt num_0 n then Ok (Some (default JNull (field_lookup (js "0") fs))) else Ok None
      end
  | Some _ => Ok None
  end.

Definition getAuditTrail (txHash : jsstr) (fetch : jsstr -> res json_text) : res (option json) :=
  text ← fetch (audit_query txHash);
  anchors ← read_anchors text;
  fmap (M:=option) with_builder <$> first_anchor anchors.

End Audit.

(** The statistics are constants. *)
Definition getBuilderScore (builderAddress : jsstr) : num * num * num :=
  (num_of_Z 1250, num_lit 94 100, num_of_Z 52).
Definition getNetworkStats : num * num * num := (num_of_Z 85420, num_of_Z 42, num_lit 89 100).

(** ** GraphQL tokens

    The lexical grammar of the GraphQL specification, one character at a
    time: punctuators, names, numbers and quoted strings; white space and
    commas separate. *)
Inductive token := Punct (c : Z) | Name (s : jsstr) | Num (s : jsstr) | Str (s : jsstr).
#[export] Instance token_eq_dec : EqDecision token.
Proof. solve_decision. Defined.

Inductive lexing :=
| Idle | InName (s : jsstr) | InNum (s : jsstr)
| InStr (s : jsstr)                   (* after the opening quote *)
| InEsc (s : jsstr)                   (* after a backslash *)
| InUni (s : jsstr) (n : nat) (v : Z) (* [n] hex digits to come *)
| EmptyStr                            (* after two quotes *)
| InComment.

Definition is_name_start (c : Z) : bool :=
  ((65 <=? c) && (c <=? 90)) || ((97 <=? c) && (c <=? 122)) || (c =? 95).
Definition is_ignored (c : Z) : bool := bool_decide (c ∈ [9; 10; 13; 32; 44; 65279]).
Definition is_punct (c : Z) : bool := bool_decide (c ∈ [33; 36; 38; 40; 41; 46; 58; 61; 64; 91; 93; 123; 124; 125]).

(** A character between tokens. *)
Definition fresh (c : Z) : option (lexing * list token) :=
  if is_ignored c then Some (Idle, [])
  else if c =? 34 then Some (InStr [], [])
  else if c =? 35 then Some (InComment, [])
  else if is_punct c then Some (Idle, [Punct c])
  else if is_name_start c then Some (InName [c], [])
  else if is_digit c || (c =? 45) then Some (InNum [c], [])
  else None.

Definition after (t : token) (c : Z) : option (lexing * list token) :=
  '(st, ts) ← fresh c; Some (st, t :: ts).

Definition escape (c : Z) : option Z :=
  if bool_decide (c ∈ [34; 92; 47]) then Some c
  else if c =? 98 then Some 8 else if c =? 102 then Some 12 else if c =? 110 then Some 10
  else if c =? 114 then Some 13 else if c =? 116 then Some 9 else None.

Definition lex_char (st : lexing) (c : Z) : option (lexing * list token) :=
  match st with
  | Idle => fresh c
  | InName s => if is_name_start c || is_digit c then Some (InName (s ++ [c]), []) else after (Name s) c
  | InNum s =>
      if is_digit c || bool_decide (c ∈ [43; 45; 46; 69; 101]) then Some (InNum (s ++ [c]), []) else after (Num s) c
  | InStr s =>
      if c =? 34 then (match s with [] => Some (EmptyStr, []) | _ => Some (Idle, [Str s]) end)
      else if c =? 92 then Some (InEsc s, [])
      else if (c =? 10) || (c =? 13) then None
      else Some (InStr (s ++ [c]), [])
  | InEsc s =>
      if c =? 117 then Some (InUni s 4 0, []) else v ← escape c; Some (InStr (s ++ [v]), [])
  | InUni s n v =>
      d ← digit_val c;
      match n with
      | S (S n') => Some (InUni s (S n') (v * 16 + d), [])
      | _ => Some (InStr (s ++ [v * 16 + d]), [])
      end
  | EmptyStr => if c =? 34 then None (* a block string *) else after (Str []) c
  | InComment => if (c =? 10) || (c =? 13) then Some (Idle, []) else Some (InComment, [])
  end.

Fixpoint lex_run (st : lexing) (s : jsstr) : option (lexing * list token) :=
  match s with
  | [] => Some (st, [])
  | c :: s' => '(st', ts) ← lex_char st c; '(st'', ts') ← lex_run st' s'; Some (st'', ts ++ ts')
  end.

(** The tokens of a document; [None] when it has none. *)
Definition tokens (s : jsstr) : option (list token) :=
  '(st, ts) ← lex_run Idle s;
  match st with
  | Idle | InComment => Some ts
  | InName n => Some (ts ++ [Name n])
  | InNum n => Some (ts ++ [Num n])
  | EmptyStr => Some (ts ++ [Str []])
  | _ => None
  end.

(** *** The documents meant *)

Definition P (c : string) : token := Punct (default 0 (head (js c))).
Definition N (s : string) : token := Name (js s).

Definition head_tokens : list token := [N "query"; P "{"; N "poTAnchors"].
Definition tail_tokens : list token :=
  [P "{"; N "id"; N "stratum"; N "grgHash"; N "potHash"; N "timestamp"; N "blockNumber"; N "txHash"; P "}"; P "}"].
Definition clause_tokens (c : string * jsstr) : list token := [N c.1; P ":"; Str c.2].
Definition where_tokens (cs : list (string * jsstr)) : list token :=
  match cs with
  | [] => []
  | _ => [N "where"; P ":"; P "{"] ++ (cs ≫= clause_tokens) ++ [P "}"]
  end.
Definition order_tokens (limit : Z) : list token :=
  [N "first"; P ":"; Num (z_to_dec limit); N "orderBy"; P ":"; N "timestamp"; N "orderDirection"; P ":"; N "desc"; P ")"].

Definition anchors_tokens (cs : list (string * jsstr)) (limit : Z) : list token :=
  head_tokens ++ [P "("] ++ where_tokens cs ++ order_tokens limit ++ tail_tokens.
Definition audit_tokens (txHash : jsstr) : list token :=
  head_tokens ++ [P "("] ++ where_tokens [("txHash"%string, txHash)] ++ [P ")"] ++ tail_tokens.

(** A text that means itself between quotes. *)
Definition plain (s : jsstr) : Prop := Forall (fun c => c ∉ [34; 92; 10; 13]) s.

(** ** Lemmas *)

Lemma lex_run_app st s1 s2 :
  lex_run st (s1 ++ s2)
  = '(st1, t1) ← lex_run st s1; '(st2, t2) ← lex_run st1 s2; Some (st2, t1 ++ t2).
Proof.
  revert st. induction s1 as [|c s1 IH]; intros st; cbn [app lex_run].
  - cbn [mbind option_bind]. by destruct (lex_run st s2) as [[? ?]|].
  - destruct (lex_char st c) as [[st1 t1]|]; [|done]. cbn [mbind option_bind]. rewrite IH.
    destruct (lex_run st1 s1) as [[st2 t2]|]; [|done]. cbn [mbind option_bind].
    destruct (lex_run st2 s2) as [[st3 t3]|]; [|done]. cbn [mbind option_bind]. by rewrite app_assoc.
Qed.

(** [s] is read as [ts] between tokens, whatever follows. *)
Definition reads (s : jsstr) (ts : list token) : Prop := lex_run Idle s = Some (Idle, ts).

Lemma reads_app s1 s2 t1 t2 : reads s1 t1 -> reads s2 t2 -> reads (s1 ++ s2) (t1 ++ t2).
Proof. unfold reads. intros H1 H2. rewrite lex_run_app, H1. cbn [mbind option_bind]. by rewrite H2. Qed.

Lemma reads_tokens s ts : reads s ts -> tokens s = Some ts.
Proof. unfold reads, tokens. by intros ->. Qed.

Lemma lex_plain a s : plain s -> lex_run (InStr a) s = Some (InStr (a ++ s), []).
Proof.
  intros Hs. revert a. induction Hs as [|c s Hc _ IH]; intros a; cbn [lex_run lex_char]; [by rewrite app_nil_r|].
  rewrite !elem_of_cons, elem_of_nil in Hc.
  destruct (Z.eqb_spec c 34); [naive_solver|]. destruct (Z.eqb_spec c 92); [naive_solver|].
  destruct (Z.eqb_spec c 10); [naive_solver|]. destruct (Z.eqb_spec c 13); [naive_solver|]. cbn [orb mbind option_bind].
  rewrite IH. cbn [mbind option_bind app]. by rewrite <- app_assoc.
Qed.

(** A quoted plain text and the separator after it. *)
Lemma reads_quoted s d : plain s -> is_ignored d = true -> reads ([34] ++ s ++ [34; d]) [Str s].
Proof.
  intros Hs Hd. unfold reads. rewrite lex_run_app. change (lex_run Idle [34]) with (Some (InStr [], @nil token)).
  cbn [mbind option_bind]. rewrite lex_run_app, lex_plain by done. cbn [mbind option_bind app lex_run lex_char Z.eqb Pos.eqb].
  destruct s as [|u s]; cbn [mbind option_bind app lex_run lex_char].
  - destruct (Z.eqb_spec d 34) as [->|]; [done|]. unfold after, fresh. by rewrite Hd.
  - unfold fresh. by rewrite Hd.
Qed.

Definition key_ok (k : string) : Prop := reads (js k ++ js ": ") [N k; P ":"].

Lemma reads_clause c d : key_ok c.1 -> plain c.2 -> is_ignored d = true -> reads (clause_text c ++ [d]) (clause_tokens c).
Proof.
  intros Hk Hp Hd. unfold clause_text, clause_tokens.
  replace ((js c.1 ++ js ": " ++ [34] ++ c.2 ++ [34]) ++ [d]) with ((js c.1 ++ js ": ") ++ [34] ++ c.2 ++ [34; d])
    by (rewrite <- !app_assoc; done).
  change [N c.1; P ":"; Str c.2] with ([N c.1; P ":"] ++ [Str c.2]). apply reads_app; [done|]. by apply reads_quoted.
Qed.

Lemma reads_clauses cs d :
  cs <> [] -> Forall (fun c => key_ok c.1 /\ plain c.2) cs -> is_ignored d = true ->
  reads (join (js ", ") (clause_text <$> cs) ++ [d]) (cs ≫= clause_tokens).
Proof.
  intros Hne H Hd. induction H as [|c cs [Hk Hp] H IH]; [done|]. destruct cs as [|c2 cs].
  - cbn [fmap list_fmap join]. change ([c] ≫= clause_tokens) with (clause_tokens c ++ []). rewrite app_nil_r.
    by apply reads_clause.
  - change (join (js ", ") (clause_text <$> c :: c2 :: cs))
      with (clause_text c ++ js ", " ++ join (js ", ") (clause_text <$> c2 :: cs)).
    change ((c :: c2 :: cs) ≫= clause_tokens) with (clause_tokens c ++ [] ++ ((c2 :: cs) ≫= clause_tokens)).
    replace ((clause_text c ++ js ", " ++ join (js ", ") (clause_text <$> c2 :: cs)) ++ [d])
      with ((clause_text c ++ [44]) ++ [32] ++ (join (js ", ") (clause_text <$> c2 :: cs) ++ [d]))
      by (rewrite <- !app_assoc; done).
    apply reads_app; [by apply reads_clause|]. apply reads_app; [done|]. by apply IH.
Qed.

Lemma lex_num a s : Forall (fun c => is_digit c = true \/ c = 45) s -> lex_run (InNum a) s = Some (InNum (a ++ s), []).
Proof.
  intros Hs. revert a. induction Hs as [|c s Hc _ IH]; intros a; cbn [lex_run lex_char]; [by rewrite app_nil_r|].
  assert (is_digit c || bool_decide (c ∈ [43; 45; 46; 69; 101]) = true) as ->.
  { destruct Hc as [->| ->]; [done|]. by rewrite (bool_decide_eq_true_2 (45 ∈ _)) by (rewrite !elem_of_cons; tauto). }
  cbn [mbind option_bind]. rewrite IH. cbn [mbind option_bind app]. by rewrite <- app_assoc.
Qed.

Lemma fresh_digit c : is_digit c = true \/ c = 45 -> fresh c = Some (InNum [c], []).
Proof.
  intros [Hc| ->]; [|done]. unfold is_digit in Hc. zbool. unfold fresh, is_ignored, is_punct, is_name_start, is_digit.
  rewrite !bool_decide_eq_false_2 by (rewrite !elem_of_cons, elem_of_nil; lia).
  replace (c =? 34) with false by (symmetry; apply Z.eqb_neq; lia).
  replace (c =? 35) with false by (symmetry; apply Z.eqb_neq; lia).
  replace (c =? 95) with false by (symmetry; apply Z.eqb_neq; lia).
  replace (65 <=? c) with false by (symmetry; apply Z.leb_gt; lia).
  replace (97 <=? c) with false by (symmetry; apply Z.leb_gt; lia).
  replace (48 <=? c) with true by (symmetry; apply Z.leb_le; lia).
  by replace (c <=? 57) with true by (symmetry; apply Z.leb_le; lia).
Qed.

Lemma z_to_dec_Forall n : Forall (fun c => is_digit c = true \/ c = 45) (z_to_dec n).
Proof. apply Forall_forall. intros c. apply z_to_dec_units. Qed.

Lemma reads_limit n : reads (z_to_dec n ++ js ", ") [Num (z_to_dec n)].
Proof.
  pose proof (z_to_dec_Forall n) as H. assert (z_to_dec n <> []) as Hne.
  { unfold z_to_dec. destruct (n <? 0); [done|apply nat_to_dec_nonempty]. }
  unfold reads. destruct (z_to_dec n) as [|c s]; [done|]. apply Forall_cons in H as [Hc Hs].
  cbn [app lex_run lex_char]. rewrite fresh_digit by done. cbn [mbind option_bind].
  rewrite lex_run_app, lex_num by done. done.
Qed.

Lemma num_char_plain c : is_digit c = true \/ c = 45 -> c ∉ [34; 92; 10; 13].
Proof. intros [H| ->]; [|by rewrite !elem_of_cons, elem_of_nil; intros [?|[?|[?|[?|?]]]]]. unfold is_digit in H. zbool. rewrite !elem_of_cons, elem_of_nil. lia. Qed.

Lemma plain_app s1 s2 : plain s1 -> plain s2 -> plain (s1 ++ s2).
Proof. intros. by apply Forall_app. Qed.
Lemma plain_dec z : plain (z_to_dec z).
Proof. eapply Forall_impl; [apply z_to_dec_Forall|apply num_char_plain]. Qed.
Lemma plain_js s : forallb (fun c => negb (bool_decide (c ∈ [34; 92; 10; 13]))) (js s) = true -> plain (js s).
Proof.
  intros H. apply Forall_forall. intros c Hc. rewrite List.forallb_forall in H.
  specialize (H c). apply list_elem_of_In in Hc. specialize (H Hc). zbool. done.
Qed.
#[local] Hint Resolve plain_app plain_dec : core.

Lemma plain_layout s k n : plain (layout s k n).
Proof.
  assert (forall c, bool_decide (c ∈ [34; 92; 10; 13]) = false -> plain [c]) as H1.
  { intros c Hc. zbool. by constructor. }
  assert (forall m, plain (replicate m 48)) as Hz.
  { intros m. apply Forall_replicate. by apply num_char_plain; left. }
  assert (forall m, plain (take m (z_to_dec s)) /\ plain (drop m (z_to_dec s))) as Ht.
  { intros m. split; [apply Forall_take|apply Forall_drop]; apply plain_dec. }
  unfold layout. repeat case_match; repeat apply plain_app; auto; try apply Ht; try (by apply H1);
    apply (plain_app [48] [46]); by apply H1.
Qed.

Lemma plain_number x : plain (num_to_string x).
Proof.
  assert (forall x p q, plain (positive_to_string x p q)) as Hp.
  { intros y p q. unfold positive_to_string. destruct (shortest _ _ _ _ _) as [s k].
    destruct (_ =? _); apply plain_layout. }
  assert (forall b : bool, plain (if b then [45] else [])) as Hs.
  { intros [|]; constructor; [by apply num_char_plain; right|constructor]. }
  destruct x as [s|s| |s m e]; cbn [num_to_string]; [by apply plain_js|destruct s; by apply plain_js|by apply plain_js|].
  destruct (bigint_of_num _) as [z|]; [destruct (_ <? _)|]; auto.
Qed.

Lemma num_to_string_int x z : bigint_of_num x = Ok z -> Z.abs z < 2 ^ 53 -> num_to_string x = z_to_dec z.
Proof.
  intros Hx Hz. destruct x as [s|s| |s m e]; [|done..|].
  - by injection Hx as <-.
  - unfold num_to_string. rewrite Hx. by replace (Z.abs z <? 2 ^ 53) with true by (symmetry; apply Z.ltb_lt; lia).
Qed.

Lemma clauses_ok f :
  plain (default [] (f_stratum f)) -> Forall (fun c => key_ok c.1 /\ plain c.2) (clauses f).
Proof.
  assert (forall k v, key_ok k -> plain v -> Forall (fun c : string * jsstr => key_ok c.1 /\ plain c.2) [(k, v)]) as H1
    by (intros; by repeat constructor).
  intros Hs. unfold clauses. repeat apply Forall_app_2.
  - destruct (f_startTime f) as [x|]; [|constructor]. destruct (truthy_num x); [|constructor].
    apply H1; [reflexivity|apply plain_number].
  - destruct (f_endTime f) as [x|]; [|constructor]. destruct (truthy_num x); [|constructor].
    apply H1; [reflexivity|apply plain_number].
  - destruct (f_stratum f) as [[|u s]|]; [constructor| |constructor]. by apply H1.
Qed.

(** *** A text that is not plain *)

(** The accumulated text and what is left of an escape. *)
Definition string_state (st : lexing) : option jsstr :=
  match st with InStr a | InEsc a | InUni a _ _ => Some a | _ => None end.

Definition no_newline (s : jsstr) : Prop := Forall (fun c => c <> 10 /\ c <> 13) s.

(** What a string token was read from: a raw text up to a quote, without line
    ends, at least as long as the token's value, and plain when as long. *)
Definition token_from (st : lexing) (a s : jsstr) (ts : list token) : Prop :=
  exists raw s2 w ts', s = raw ++ 34 :: s2 /\ ts = Str w :: ts' /\ no_newline raw
    /\ (length w <= length a + length raw)%nat
    /\ (st = InStr a -> length w = (length a + length raw)%nat -> w = a ++ raw /\ plain raw).

Lemma token_from_cons st st' a a' c s ts :
  (length a' <= S (length a))%nat -> c <> 10 -> c <> 13 ->
  (st = InStr a -> st' = InStr a' /\ a' = a ++ [c] /\ plain [c] \/ (length a' <= length a)%nat) ->
  token_from st' a' s ts -> token_from st a (c :: s) ts.
Proof.
  intros Hl H10 H13 Hstep (raw & s2 & w & ts' & -> & -> & Hn & Hw & He).
  exists (c :: raw), s2, w, ts'. split_and!; [done|done|by constructor|cbn; lia|].
  cbn [length]. intros Hst E. destruct (Hstep Hst) as [(-> & -> & Hc)|]; [|lia].
  rewrite length_app in He. cbn [length] in He. destruct He as (-> & Hp); [done|lia|].
  split; [by rewrite <- app_assoc|by apply (plain_app [c])].
Qed.

Lemma digit_val_newline c d : digit_val c = Some d -> c <> 10 /\ c <> 13.
Proof. intros H. split; intros ->; discriminate H. Qed.

(** The closing quote, seen right after the opening one or later. *)
Lemma lex_quote a s st1 t1 st' t2 :
  lex_char (InStr a) 34 = Some (st1, t1) -> lex_run st1 s = Some (st', t2) ->
  t1 ++ t2 = [] \/ token_from (InStr a) a (34 :: s) (t1 ++ t2).
Proof.
  assert (forall w ts, w = a -> token_from (InStr a) a (34 :: s) (Str w :: ts)) as Hq.
  { intros w ts ->. exists [], s, a, ts. split_and!; [done|done|constructor|cbn; lia|].
    intros _ _. by rewrite app_nil_r; repeat constructor. }
  cbn [lex_char Z.eqb Pos.eqb]. intros E1 E2.
  destruct a as [|u a]; injection E1 as <- <-; [|right; by apply Hq].
  destruct s as [|d s]; cbn [lex_run] in E2; [injection E2 as _ <-; by left|].
  cbn [lex_char] in E2. destruct (d =? 34); [done|]. unfold after in E2.
  destruct (fresh d) as [[? ?]|]; [|done]. cbn [mbind option_bind] in E2.
  destruct (lex_run _ s) as [[? ?]|]; [|done]. cbn [mbind option_bind] in E2. injection E2 as _ <-. right. by apply Hq.
Qed.

Lemma lex_string st a s st' ts :
  string_state st = Some a -> lex_run st s = Some (st', ts) -> ts = [] \/ token_from st a s ts.
Proof.
  revert st a ts. induction s as [|c s IH]; intros st a ts Ha H; cbn [lex_run] in H.
  { injection H as _ <-. by left. }
  destruct (lex_char st c) as [[st1 t1]|] eqn:E1; [|done]. cbn [mbind option_bind] in H.
  destruct (lex_run st1 s) as [[st2 t2]|] eqn:E2; [|done]. cbn [mbind option_bind] in H. injection H as -> <-.
  assert (forall a1, string_state st1 = Some a1 -> (length a1 <= S (length a))%nat -> c <> 10 -> c <> 13 -> t1 = [] ->
    (st = InStr a -> st1 = InStr a1 /\ a1 = a ++ [c] /\ plain [c] \/ (length a1 <= length a)%nat) ->
    t1 ++ t2 = [] \/ token_from st a (c :: s) (t1 ++ t2)) as Hgo.
  { intros a1 Hs Hl H10 H13 -> Hstep. destruct (IH _ _ _ Hs E2) as [->|Hf]; [by left|right].
    by eapply token_from_cons. }
  assert (forall v, (length (a ++ [v]) <= S (length a))%nat) as Hlen by (intros; rewrite length_app; cbn; lia).
  destruct st as [| | |a0|a0|a0 n v| |]; try discriminate Ha; injection Ha as ->; cbn [lex_char] in E1.
  - destruct (Z.eqb_spec c 34) as [->|H34]; [|destruct (Z.eqb_spec c 92) as [->|H92]].
    + destruct (lex_quote a s st1 t1 st' t2 E1 E2) as [->|Hf]; [by left|by right].
    + injection E1 as <- <-. apply (Hgo a); [done|lia|done|done|done|right; lia].
    + destruct (Z.eqb_spec c 10); [done|]. destruct (Z.eqb_spec c 13); [done|]. injection E1 as <- <-.
      apply (Hgo (a ++ [c])); [done|done|done|done|done|left]. split_and!; [done..|].
      constructor; [|constructor]. rewrite !elem_of_cons, elem_of_nil. tauto.
  - destruct (Z.eqb_spec c 117) as [->|].
    + injection E1 as <- <-. apply (Hgo a); [done|lia|done..].
    + destruct (escape c) as [v|] eqn:Ee; [|done]. injection E1 as <- <-.
      apply (Hgo (a ++ [v])); [done|done|by intros ->|by intros ->|done|done].
  - destruct (digit_val c) as [d|] eqn:Ed; [|done]. cbn [mbind option_bind] in E1.
    apply digit_val_newline in Ed as [? ?]. destruct n as [|[|n]]; injection E1 as <- <-.
    + apply (Hgo (a ++ [v * 16 + d])); done.
    + apply (Hgo (a ++ [v * 16 + d])); done.
    + apply (Hgo a); [done|lia|done..].
Qed.

(** ** Properties *)

(** The anchor query means the filter: whenever the stratum text is plain
    and the limit an integral Number, the server reads the document as the one
    query over the log with exactly the clauses of the filter and its limit,
    newest first. *)
Lemma anchors_query_means_filter f n :
  plain (default [] (f_stratum f)) -> bigint_of_num (limit_of f) = Ok n -> Z.abs n < 2 ^ 53 ->
  tokens (anchors_query f) = Some (anchors_tokens (clauses f) n).
Proof.
  intros Hs Hn Hb. apply reads_tokens. pose proof (clauses_ok f Hs) as Hc.
  unfold anchors_query, where_text, anchors_tokens. rewrite (num_to_string_int _ _ Hn Hb).
  assert (reads (z_to_dec n ++ js ", orderBy: timestamp, orderDirection: desc)")
            ([Num (z_to_dec n)] ++ drop 3 (order_tokens n))) as Ho.
  { change (js ", orderBy: timestamp, orderDirection: desc)")
      with (js ", " ++ js "orderBy: timestamp, orderDirection: desc)").
    rewrite app_assoc. apply reads_app; [apply reads_limit|reflexivity]. }
  assert (reads query_tail tail_tokens) as Ht by reflexivity.
  destruct (clauses f) as [|c cs].
  - change (head_tokens ++ [P "("] ++ where_tokens [] ++ order_tokens n ++ tail_tokens)
      with ((head_tokens ++ [P "("; N "first"; P ":"]) ++ ([Num (z_to_dec n)] ++ drop 3 (order_tokens n)) ++ tail_tokens).
    rewrite <- (app_assoc (js "(first: ")), app_assoc.
    apply reads_app; [reflexivity|]. by apply reads_app.
  - set (cs' := c :: cs) in *.
    replace (head_tokens ++ [P "("] ++ where_tokens cs' ++ order_tokens n ++ tail_tokens)
      with ((head_tokens ++ [P "("; N "where"; P ":"; P "{"]) ++ (cs' ≫= clause_tokens) ++ [P "}"; N "first"; P ":"]
            ++ ([Num (z_to_dec n)] ++ drop 3 (order_tokens n)) ++ tail_tokens)
      by (unfold where_tokens, cs'; rewrite <- !app_assoc; done).
    replace (query_head ++ (js "(where: { " ++ join (js ", ") (clause_text <$> cs') ++ js " }, first: "
               ++ z_to_dec n ++ js ", orderBy: timestamp, orderDirection: desc)") ++ query_tail)
      with ((query_head ++ js "(where: { ") ++ (join (js ", ") (clause_text <$> cs') ++ [32]) ++ js "}, first: "
               ++ (z_to_dec n ++ js ", orderBy: timestamp, orderDirection: desc)") ++ query_tail)
      by (rewrite <- !app_assoc; done).
    apply reads_app; [reflexivity|]. apply reads_app; [by apply reads_clauses|].
    apply reads_app; [reflexivity|]. by apply reads_app.
Qed.

Lemma audit_query_eq h :
  audit_query h = (query_head ++ js "(where: { txHash: ") ++ [34] ++ h ++ 34 :: (js " })" ++ query_tail).
Proof. unfold audit_query. rewrite <- !app_assoc. done. Qed.

(** The audit query means its hash exactly when the hash is plain: the
    server reads the document as the query for this one transaction if, and
    only if, the text holds no quote, backslash or line end.  Anything else is
    an injection or an invalid document. *)
Lemma audit_query_means_hash txHash :
  tokens (audit_query txHash) = Some (audit_tokens txHash) <-> plain txHash.
Proof.
  rewrite audit_query_eq. set (pre := query_head ++ js "(where: { txHash: "). set (post := js " })" ++ query_tail).
  assert (lex_run Idle pre = Some (Idle, take 9 (audit_tokens txHash))) as Hpre by reflexivity.
  split.
  - unfold tokens. rewrite lex_run_app, Hpre. cbn [mbind option_bind]. rewrite lex_run_app.
    change (lex_run Idle [34]) with (Some (InStr [], @nil token)). cbn [mbind option_bind].
    destruct (lex_run (InStr []) (txHash ++ 34 :: post)) as [[st ts]|] eqn:E; [|done]. cbn [mbind option_bind].
    intros H. apply (lex_string _ []) in E; [|done]. destruct E as [->|(raw & s2 & w & ts' & Hs & -> & Hn & Hw & He)].
    { destruct st; cbn in H; discriminate H. }
    assert (w = txHash) as -> by (destruct st; cbn in H; by simplify_eq).
    cbn [length app] in Hw, He.
    destruct (app_eq_inv _ _ _ _ Hs) as [(k & Hk & Hk2)|(k & Hk & Hk2)].
    + destruct k as [|c k]; [rewrite app_nil_r in Hk; subst; by apply He|].
      subst. rewrite length_app in Hw. cbn [length] in Hw. lia.
    + destruct k as [|c k]; [rewrite app_nil_r in Hk; subst; by apply He|].
      injection Hk2 as <- Hk2. exfalso.
      assert (34 ∈ post) as Hin by (rewrite Hk2; apply elem_of_app; right; left).
      assert (bool_decide (34 ∈ post) = false) as Hno by (vm_compute; reflexivity). zbool. done.
  - intros Hp. apply reads_tokens.
    replace (pre ++ [34] ++ txHash ++ 34 :: post) with (pre ++ ([34] ++ txHash ++ [34; 32]) ++ (js "})" ++ query_tail))
      by (rewrite <- !app_assoc; done).
    change (audit_tokens txHash) with (take 9 (audit_tokens txHash) ++ [Str txHash] ++ drop 10 (audit_tokens txHash)).
    apply reads_app; [done|]. apply reads_app; [by apply reads_quoted|]. reflexivity.
Qed.

(** The anchors come back with their fields unchanged and the placeholder as
    their builder. *)
Lemma with_builder_fields fs k :
  field_lookup k (spread (with_builder (JObj fs)))
  = if decide (k = js "builderAddress") then Some (JStr (js "0x")) else field_lookup k fs.
Proof.
  cbn [with_builder spread]. induction fs as [|[k' v] fs IH]; cbn [app field_lookup].
  - repeat case_decide; congruence.
  - rewrite IH. case_decide; [done|]. done.
Qed.

Lemma query_anchors_answer f fetch l :
  fetch (anchors_query f) = Ok (Some (JObj [(js "data", JObj [(js "poTAnchors", JArr l)])])) ->
  queryAnchors f fetch = Ok (with_builder <$> l).
Proof. intros H. unfold queryAnchors. by rewrite H. Qed.

(** A GraphQL error answer has no data: both queries end with a TypeError. *)
Lemma ct_error_answer f fetch tn h errors :
  (forall q, fetch q = Ok (Some (JObj [(js "errors", errors)]))) ->
  queryAnchors f fetch = Throw TypeError /\ getAuditTrail tn h fetch = Throw TypeError.
Proof. intros H. unfold queryAnchors, getAuditTrail. by rewrite !H. Qed.

(** An end time of 0 asks for everything instead of nothing. *)
Lemma zero_end_time_ignored f :
  clauses {| f_startTime := f_startTime f; f_endTime := Some num_0; f_stratum := f_stratum f; f_limit := f_limit f |}
  = clauses {| f_startTime := f_startTime f; f_endTime := None; f_stratum := f_stratum f; f_limit := f_limit f |}.
Proof. reflexivity. Qed.

(** A hash that closes the literal adds an alias of its own to the query. *)
Example audit_injection :
  exists ts, tokens (audit_query (js "a" ++ [34] ++ js " }) { id } all: poTAnchors(where: { stratum: " ++ [34] ++ js "1"))
             = Some (take 9 (audit_tokens []) ++ [Str (js "a"); P "}"; P ")"; P "{"; N "id"; P "}"; N "all"] ++ ts).
Proof. eexists. vm_compute. reflexivity. Qed.

Lemma anchors_query_means_filter_witness :
  let f := {| f_startTime := Some (num_of_Z 1710412800000); f_endTime := Some num_0; f_stratum := Some (js "2");
              f_limit := None |} in
  tokens (anchors_query f)
  = Some (anchors_tokens [("timestamp_gte"%string, js "1710412800000"); ("stratum"%string, js "2")] 100).
Proof.
  apply (anchors_query_means_filter {| f_startTime := Some (num_of_Z 1710412800000); f_endTime := Some num_0;
    f_stratum := Some (js "2"); f_limit := None |} 100).
  - apply plain_js. reflexivity.
  - vm_compute. reflexivity.
  - reflexivity.
Defined.

End CTLog.
