(* ===== verification/SetupPool.v ===== *)
(** * Pool setup (src/contracts/scripts/setup_pool.ts)

    The script that deploys the test token and the helper, initializes a
    Uniswap V4 pool, approves both tokens and adds liquidity, managing the
    nonces itself.  hardhat, ethers and the chain are the environment: what
    each awaited call answers.  The properties: the price written in
    fixed point, the canonical order of the two currencies, and the nonces of
    the transactions sent, on every path. *)
From Stdlib Require Import ZArith Lia String Floats.SpecFloat.
From stdpp Require Import base list numbers option strings.
From S2P Require Import Prelude JSString Errors Bytes JSNum.

Module Setup.

(** ** Constants *)

Definition POOL_MANAGER : jsstr := js "0x05E73354cFDd6745C338b50BcFDfA3Aa6fA03408".
Definition USDC_ADDRESS : jsstr := js "0x036CbD53842c5426634e7929541eC2318f3dCF7e".
Definition POOL_FEE : Z := 3000.
Definition TICK_SPACING : Z := 60.
Definition TICK_LOWER : Z := -887220.
Definition TICK_UPPER : Z := 887220.
Definition ZeroAddress : jsstr := js "0x0000000000000000000000000000000000000000".
Definition MaxUint256 : Z := 2 ^ 256 - 1.
Definition TTT_HOOK_SIMPLE : jsstr := js "0x8C633b05b833a476925F7d9818da6E215760F2c7".
Definition TTT_1155 : jsstr := js "0xde357135cA493e59680182CDE9E1c6A4dA400811".

(** [ethers.parseUnits(n, d)] of an integer. *)
Definition parse_units (n decimals : Z) : Z := n * 10 ^ decimals.

(** ** Helpers *)

(** The price as a Q64.96 square root: the root is scaled by 10^18 and
    floored before it becomes a BigInt. *)
Definition encodeSqrtPriceX96 (price : num) : res Z :=
  let sqrtPrice := nsqrt price in
  sqrtPriceScaled ← bigint_of_num (nfloor (nmul sqrtPrice (num_of_Z (10 ^ 18))));
  Ok (Z.quot (sqrtPriceScaled * 2 ^ 96) (10 ^ 18)).

Definition sortTokens (tokenA tokenB : jsstr) : jsstr * jsstr :=
  if str_lt (to_lower tokenA) (to_lower tokenB) then (tokenA, tokenB) else (tokenB, tokenA).

(** The literals [1e-14] and [1e14]. *)
Definition rawPrice (tttIsCurrency0 : bool) : num :=
  if tttIsCurrency0 then num_lit 1 (10 ^ 14) else num_of_Z (10 ^ 14).

Record PoolKey := { currency0 : jsstr; currency1 : jsstr; fee : Z; tickSpacing : Z; hooks : jsstr }.

Record DeploymentInfo := {
  di_network : jsstr; di_chainId : jsstr; di_deployer : jsstr;
  di_testTTT : jsstr; di_poolHelper : jsstr; di_poolManager : jsstr; di_usdc : jsstr;
  di_tttHookSimple : jsstr; di_ttt1155 : jsstr;
  di_poolKey : PoolKey; di_poolId : jsstr; di_timestamp : jsstr;
}.

(** ** The script *)

Inductive tx :=
| DeployTestTTT
| DeployPoolHelper (poolManager : jsstr)
| Initialize (key : PoolKey) (sqrtPriceX96 : Z)
| Approve (token spender : jsstr) (amount : Z)
| AddLiquidity (key : PoolKey) (lower upper liquidity : Z).

(** What the environment answers: [e_send i] is the outcome of the [i]-th
    transaction, sent and waited for (the address of a deployment). *)
Record env := {
  e_network : jsstr;
  e_deployer : option jsstr;
  e_balances : res unit;
  e_nonce : res Z;
  e_send : nat -> res jsstr;
  e_poolId : PoolKey -> jsstr;
  e_chainId : res Z;
  e_now : jsstr;
}.

(** The transactions sent with their nonces, and the file written. *)
Record t := { sent : list (tx * Z); file : option DeploymentInfo }.
Definition start : t := {| sent := []; file := None |}.

Section Script.
Variable e : env.

Definition lift {A} (r : res A) : comp exn t A := fun s => (s, r).

Definition send (x : tx) (nonce : Z) : comp exn t jsstr := fun s =>
  ({| sent := sent s ++ [(x, nonce)]; file := file s |}, e_send e (length (sent s))).

(** [try { await send } catch { console.error }] *)
Definition send_quietly (x : tx) (nonce : Z) : comp exn t unit := fun s =>
  ((send x nonce s).1, Ok ()).

Definition write (d : DeploymentInfo) : comp exn t unit := fun s =>
  ({| sent := sent s; file := Some d |}, Ok ()).

Definition main : comp exn t unit :=
  match e_deployer e with
  | None => lift (throw_plain "No deployer found. Set DEPLOYER_PRIVATE_KEY in .env")
  | Some deployer =>
      _ ← lift (e_balances e);
      currentNonce ← lift (e_nonce e);
      testTTTAddress ← send DeployTestTTT currentNonce;
      let currentNonce := currentNonce + 1 in
      poolHelperAddress ← send (DeployPoolHelper POOL_MANAGER) currentNonce;
      let currentNonce := currentNonce + 1 in
      let '(c0, c1) := sortTokens testTTTAddress USDC_ADDRESS in
      let tttIsCurrency0 := bool_decide (to_lower c0 = to_lower testTTTAddress) in
      sqrtPriceX96 ← lift (encodeSqrtPriceX96 (rawPrice tttIsCurrency0));
      let poolKey := {| currency0 := c0; currency1 := c1; fee := POOL_FEE; tickSpacing := TICK_SPACING;
                        hooks := ZeroAddress |} in
      _ ← send (Initialize poolKey sqrtPriceX96) currentNonce;
      let currentNonce := currentNonce + 1 in
      _ ← send (Approve testTTTAddress poolHelperAddress MaxUint256) currentNonce;
      let currentNonce := currentNonce + 1 in
      _ ← send (Approve USDC_ADDRESS poolHelperAddress MaxUint256) currentNonce;
      let currentNonce := currentNonce + 1 in
      _ ← send_quietly (AddLiquidity poolKey TICK_LOWER TICK_UPPER (parse_units 30000 0)) currentNonce;
      chainId ← lift (e_chainId e);
      write {| di_network := e_network e; di_chainId := z_to_dec chainId; di_deployer := deployer;
               di_testTTT := testTTTAddress; di_poolHelper := poolHelperAddress; di_poolManager := POOL_MANAGER;
               di_usdc := USDC_ADDRESS; di_tttHookSimple := TTT_HOOK_SIMPLE; di_ttt1155 := TTT_1155;
               di_poolKey := poolKey; di_poolId := e_poolId e poolKey; di_timestamp := e_now e |}
  end.

End Script.

(** ** Specification *)

(** Uniswap's bounds on the square root price. *)
Definition MIN_SQRT_PRICE : Z := 4295128739.
Definition MAX_SQRT_PRICE : Z := 1461446703485210103287273052203988822378723970342.

(** The transactions of a complete run, from nonce [n]. *)
Definition plan (n : Z) (ttt helper : jsstr) (key : PoolKey) (price : Z) : list (tx * Z) :=
  [(DeployTestTTT, n); (DeployPoolHelper POOL_MANAGER, n + 1); (Initialize key price, n + 1 + 1);
   (Approve ttt helper MaxUint256, n + 1 + 1 + 1); (Approve USDC_ADDRESS helper MaxUint256, n + 1 + 1 + 1 + 1);
   (AddLiquidity key TICK_LOWER TICK_UPPER 30000, n + 1 + 1 + 1 + 1 + 1)].

(** ** Lemmas *)

Lemma sortTokens_sym a b : to_lower a <> to_lower b -> sortTokens a b = sortTokens b a.
Proof.
  intros H. unfold sortTokens. destruct (str_lt_total (to_lower a) (to_lower b)) as [E|[E|E]]; [| |done].
  - by rewrite E, (str_lt_asym _ _ E).
  - by rewrite E, (str_lt_asym _ _ E).
Qed.

Lemma sortTokens_ordered a b :
  to_lower a <> to_lower b -> str_lt (to_lower (sortTokens a b).1) (to_lower (sortTokens a b).2) = true.
Proof.
  intros H. unfold sortTokens. destruct (str_lt (to_lower a) (to_lower b)) eqn:E; [done|]. cbn.
  destruct (str_lt_total (to_lower a) (to_lower b)) as [E'|[E'|E']]; [congruence|done|done].
Qed.

Lemma sqrt_prices :
  encodeSqrtPriceX96 (rawPrice true) = Ok (2 ^ 96 * 10 ^ 11 / 10 ^ 18)
  /\ encodeSqrtPriceX96 (rawPrice false) = Ok (2 ^ 96 * 10000000000000000905969664 / 10 ^ 18).
Proof. split; vm_compute; reflexivity. Qed.

Lemma encode_price_ok b : exists p, encodeSqrtPriceX96 (rawPrice b) = Ok p.
Proof. destruct b; eexists; apply sqrt_prices. Qed.

Lemma setup_spec e s r :
  main e start = (s, r) ->
  (exists n ttt helper key price, sent s `prefix_of` plan n ttt helper key price)
  /\ (is_ok r = true <-> is_Some (file s))
  /\ (forall d, file s = Some d -> exists n price,
        sent s = plan n (di_testTTT d) (di_poolHelper d) (di_poolKey d) price
        /\ sortTokens (di_testTTT d) USDC_ADDRESS = (currency0 (di_poolKey d), currency1 (di_poolKey d))
        /\ di_usdc d = USDC_ADDRESS).
Proof.
  unfold main, mbind, comp_bind, lift, send_quietly, send, write, start.
  assert (forall (l k : list (tx * Z)), l = take (length l) k -> l `prefix_of` k) as Hpre.
  { intros l k ->. apply prefix_take. }
  assert (forall n ttt helper key price (i : nat) (r : res unit), is_ok r = false ->
    let s := {| sent := take i (plan n ttt helper key price); file := None |} in
    (exists n ttt helper key price, sent s `prefix_of` plan n ttt helper key price)
    /\ (is_ok r = true <-> is_Some (file s))
    /\ forall d : DeploymentInfo, file s = Some d -> exists n price,
        sent s = plan n (di_testTTT d) (di_poolHelper d) (di_poolKey d) price
        /\ sortTokens (di_testTTT d) USDC_ADDRESS = (currency0 (di_poolKey d), currency1 (di_poolKey d))
        /\ di_usdc d = USDC_ADDRESS) as Hfail.
  { intros n ttt helper key price i r' Hr. cbn. split_and!; [|rewrite Hr; split; [done|by intros [? ?]]|done].
    exists n, ttt, helper, key, price. apply prefix_take. }
  set (k0 := {| currency0 := []; currency1 := []; fee := 0; tickSpacing := 0; hooks := [] |}).
  destruct (e_deployer e) as [deployer|]; [|intros [= <- <-]; by apply (Hfail 0 [] [] k0 0 0%nat)].
  destruct (e_balances e); [|intros [= <- <-]; by apply (Hfail 0 [] [] k0 0 0%nat)].
  destruct (e_nonce e) as [n|]; [|intros [= <- <-]; by apply (Hfail 0 [] [] k0 0 0%nat)].
  cbn [length app sent file].
  destruct (e_send e 0) as [ttt|]; [|intros [= <- <-]; by apply (Hfail n [] [] k0 0 1%nat)]. cbn [length app sent file].
  destruct (e_send e 1) as [helper|]; [|intros [= <- <-]; by apply (Hfail n ttt [] k0 0 2%nat)].
  destruct (sortTokens ttt USDC_ADDRESS) as [c0 c1] eqn:Es.
  set (key := {| currency0 := c0; currency1 := c1; fee := POOL_FEE; tickSpacing := TICK_SPACING; hooks := ZeroAddress |}).
  destruct (encode_price_ok (bool_decide (to_lower c0 = to_lower ttt))) as [price ->]. cbn [length app sent file].
  destruct (e_send e 2) as [h2|]; [|intros [= <- <-]; by apply (Hfail n ttt helper key price 3%nat)]. cbn [length app sent file].
  destruct (e_send e 3) as [h3|]; [|intros [= <- <-]; by apply (Hfail n ttt helper key price 4%nat)]. cbn [length app sent file].
  destruct (e_send e 4) as [h4|]; [|intros [= <- <-]; by apply (Hfail n ttt helper key price 5%nat)]. cbn [length app sent file fst].
  destruct (e_chainId e) as [c|]; [|intros [= <- <-]; by apply (Hfail n ttt helper key price 6%nat)].
  intros [= <- <-]. cbn. split_and!.
  - exists n, ttt, helper, key, price. done.
  - split; [|done]. intros _. by eexists.
  - intros d [= <-]. cbn. exists n, price. done.
Qed.

(** ** Properties *)

(** The initial price is right in both orders of the currencies: the
    Q64.96 square root lies within Uniswap's bounds, and its square is the
    price (10^-14 or 10^14 raw units) up to one part in 10^15. *)
Lemma setup_price_accurate (tttIsCurrency0 : bool) :
  let '(n, d) := if tttIsCurrency0 then (1, 10 ^ 14) else (10 ^ 14, 1) in
  exists p, encodeSqrtPriceX96 (rawPrice tttIsCurrency0) = Ok p
    /\ MIN_SQRT_PRICE <= p < MAX_SQRT_PRICE
    /\ 10 ^ 15 * Z.abs (p * p * d - n * 2 ^ 192) <= n * 2 ^ 192.
Proof.
  destruct tttIsCurrency0; (eexists; split; [apply sqrt_prices|]);
    (split; [split; [apply Z.leb_le|apply Z.ltb_lt]|apply Z.leb_le]); vm_compute; reflexivity.
Qed.

(** Whatever the chain answers, the script sends the transactions of its
    plan in order under consecutive nonces, without a gap or a reuse, stopping
    at the first that fails except for the liquidity, whose failure it
    survives; the deployment file is written exactly when the run succeeds,
    and then describes the pool that was initialized, with its currencies in
    address order. *)
Lemma setup_transactions e s r :
  main e start = (s, r) ->
  (exists n ttt helper key price, sent s `prefix_of` plan n ttt helper key price)
  /\ (is_ok r = true <-> is_Some (file s))
  /\ (forall d, file s = Some d -> exists n price,
        sent s = plan n (di_testTTT d) (di_poolHelper d) (di_poolKey d) price
        /\ sortTokens (di_testTTT d) USDC_ADDRESS = (currency0 (di_poolKey d), currency1 (di_poolKey d))
        /\ di_usdc d = USDC_ADDRESS).
Proof. apply setup_spec. Qed.

(** ** Witness: the liquidity is refused by the chain *)

Definition ex_env : env :=
  {| e_network := js "baseSepolia"; e_deployer := Some (js "0xD"); e_balances := Ok ();
     e_nonce := Ok 41;
     e_send := fun i => match i with
                        | 0%nat => Ok (js "0x9A") | 1%nat => Ok (js "0x9B") | 5%nat => throw_plain "reverted"
                        | _ => Ok (js "0x00") end;
     e_poolId := currency0; e_chainId := Ok 84532; e_now := js "2026-01-01T00:00:00.000Z" |}.

Lemma setup_transactions_witness :
  let '(s, r) := main ex_env start in is_Some (file s) /\ (sent s).*2 = [41; 42; 43; 44; 45; 46].
Proof.
  destruct (main ex_env start) as [s r] eqn:E.
  destruct (setup_transactions ex_env s r E) as (_ & Hr & _). split.
  - apply Hr. apply (f_equal (fun x => is_ok x.2)) in E. cbn [snd] in E. rewrite <- E. vm_compute. reflexivity.
  - apply (f_equal (fun x => (sent x.1).*2)) in E. cbn [fst] in E. rewrite <- E. vm_compute. reflexivity.
Defined.

End Setup.
