(* ===== verification/SwapBot.v ===== *)
(** * The swap bots (src/contracts/scripts/swap_bot.ts, verify_swap_bot.ts)

    The two scripts that produce swaps and [verifySwap] calls in a loop.  The
    contracts are the environment: what each awaited call answers.  The
    properties: how long the loops run and what they send, whatever the chain
    answers; in particular a failing cycle neither stops the swap bot nor
    leaves its direction unchanged. *)
From Stdlib Require Import ZArith Lia String.
From stdpp Require Import base list numbers option strings.
From S2P Require Import Prelude JSString Errors JSNum SetupPool.

(** ** Receipts *)

(** [logs.find(...)]: a log whose parsing throws does not match. *)
Section Events.
Context {L : Type}.
Variable parseLog : L -> res (option jsstr).

Definition is_event (name : jsstr) (l : L) : bool :=
  match parseLog l with Ok (Some n) => bool_decide (n = name) | _ => false end.
Definition find_event (name : jsstr) (logs : list L) : option L := head (bfilter (is_event name) logs).

Lemma find_event_spec name logs l :
  find_event name logs = Some l -> l ∈ logs /\ parseLog l = Ok (Some name).
Proof.
  unfold find_event. intros H. assert (l ∈ bfilter (is_event name) logs) as Hin.
  { destruct (bfilter _ logs); [done|]. injection H as ->. left. }
  apply elem_of_bfilter in Hin as [He Hin]. split; [done|]. unfold is_event in He.
  destruct (parseLog l) as [[n|]|]; try done. zbool. by subst.
Qed.

End Events.

(** ** swap_bot.ts *)

Module SwapBot.

Definition MAX_SWAPS : Z := 10.
Definition SWAP_AMOUNT : Z := Setup.parse_units 10 18.

Inductive action :=
| Approve (token spender : jsstr) (amount : Z)
| Swap (key : Setup.PoolKey) (zeroForOne : bool) (amountSpecified : Z)
| VerifySwap (sender pool : jsstr) (swapDelta : Z).

(** What a cycle is answered: the two transactions, each sent and waited for,
    and the statistics. *)
Record cycle := { c_swap : res unit; c_verify : res unit; c_stats : res (Z * Z * Z) }.

Record t := { swapCount : Z; direction : bool; sent : list action }.

Definition with_sent (a : action) (s : t) : t :=
  {| swapCount := swapCount s; direction := direction s; sent := sent s ++ [a] |}.

Section Bot.
Variable deployment : Setup.DeploymentInfo.
Variable deployer : jsstr.

Definition tttIsCurrency0 : bool :=
  bool_decide (to_lower (Setup.currency0 (Setup.di_poolKey deployment)) = to_lower (Setup.di_testTTT deployment)).

(** The [try] block: the statistics, or the error that is logged. *)
Definition attempt (zeroForOne : bool) (a : cycle) (s : t) : t * res (Z * Z * Z) :=
  let s := with_sent (Swap (Setup.di_poolKey deployment) zeroForOne (- SWAP_AMOUNT)) s in
  match c_swap a with
  | Throw e => (s, Throw e)
  | Ok _ =>
      let s := with_sent (VerifySwap deployer (Setup.di_poolId deployment) (- SWAP_AMOUNT)) s in
      match c_verify a with
      | Throw e => (s, Throw e)
      | Ok _ => (s, c_stats a)
      end
  end.

Definition executeSwapCycle (a : cycle) (s : t) : t :=
  let s := {| swapCount := swapCount s + 1; direction := direction s; sent := sent s |} in
  let zeroForOne := if tttIsCurrency0 then direction s else negb (direction s) in
  let s := (attempt zeroForOne a s).1 in
  {| swapCount := swapCount s; direction := negb (direction s); sent := sent s |}.

(** [for (let i = 0; i < (max || Infinity); i++)] with its [break]; [None]: the
    fuel is used up and the loop still runs. *)
Fixpoint swap_loop (fuel : nat) (max i : Z) (answers : nat -> cycle) (s : t) : option t :=
  if negb (max =? 0) && (max <=? i) then Some s
  else
    match fuel with
    | O => None
    | S fuel =>
        let s := executeSwapCycle (answers (Z.to_nat i)) s in
        if negb (max =? 0) && (max <=? swapCount s) then Some s
        else swap_loop fuel max (i + 1) answers s
    end.

(** The approvals before the loop: the two allowances and the outcomes of the
    transactions. *)
Definition approve_if (need : bool) (token : jsstr) (outcome : res unit) : comp exn t unit := fun s =>
  if need
  then (with_sent (Approve token (Setup.di_poolHelper deployment) Setup.MaxUint256) s, outcome)
  else (s, Ok ()).

Definition approvals (tttAllowance usdcAllowance : res Z) (ttt_tx usdc_tx : res unit) : comp exn t unit :=
  a ← (fun s => (s, tttAllowance));
  _ ← approve_if (a <? SWAP_AMOUNT * 100) (Setup.di_testTTT deployment) ttt_tx;
  b ← (fun s => (s, usdcAllowance));
  approve_if (b <? Setup.parse_units 10000 6) (Setup.di_usdc deployment) usdc_tx.

End Bot.

Definition initial : t := {| swapCount := 0; direction := true; sent := [] |}.

(** [main]: [account] is the deployer, [file] the deployment file. *)
Definition main (account : option jsstr) (file : option Setup.DeploymentInfo)
    (tttAllowance usdcAllowance : res Z) (ttt_tx usdc_tx : res unit) (answers : nat -> cycle)
    (final : res (Z * Z * Z)) : t * res (Z * Z * Z) :=
  match account with
  | None => (initial, throw_plain "No deployer found. Set DEPLOYER_PRIVATE_KEY in .env")
  | Some deployer =>
      match file with
      | None => (initial, throw_plain "deployment_base_sepolia.json not found. Run setup_pool.ts first.")
      | Some deployment =>
          match approvals deployment tttAllowance usdcAllowance ttt_tx usdc_tx initial with
          | (s, Throw e) => (s, Throw e)
          | (s, Ok _) =>
              match swap_loop deployment deployer (Z.to_nat MAX_SWAPS) MAX_SWAPS 0 answers s with
              | Some s => (s, final)
              | None => (s, Throw RangeError)
              end
          end
      end
  end.

(** ** Specification *)

(** The currency a swap takes in. *)
Definition input_currency (key : Setup.PoolKey) (zeroForOne : bool) : jsstr :=
  if zeroForOne then Setup.currency0 key else Setup.currency1 key.

Definition swap_inputs (l : list action) : list (jsstr * Z) :=
  omap (fun a => match a with Swap key z amount => Some (input_currency key z, amount) | _ => None end) l.

(** The deployments the setup script writes. *)
Definition set_up (d : Setup.DeploymentInfo) : Prop :=
  Setup.sortTokens (Setup.di_testTTT d) (Setup.di_usdc d)
  = (Setup.currency0 (Setup.di_poolKey d), Setup.currency1 (Setup.di_poolKey d))
  /\ to_lower (Setup.di_testTTT d) <> to_lower (Setup.di_usdc d).

(** The input of the [i]-th swap. *)
Definition input_of (d : Setup.DeploymentInfo) (i : nat) : jsstr * Z :=
  (if Nat.even i then Setup.di_testTTT d else Setup.di_usdc d, - SWAP_AMOUNT).

(** ** Lemmas *)

Lemma swap_inputs_app l1 l2 : swap_inputs (l1 ++ l2) = swap_inputs l1 ++ swap_inputs l2.
Proof. apply omap_app. Qed.

Lemma cycle_spec d account a s :
  let s' := executeSwapCycle d account a s in
  swapCount s' = swapCount s + 1 /\ direction s' = negb (direction s)
  /\ swap_inputs (sent s') = swap_inputs (sent s)
       ++ [(input_currency (Setup.di_poolKey d) (if tttIsCurrency0 d then direction s else negb (direction s)), - SWAP_AMOUNT)].
Proof.
  unfold executeSwapCycle, attempt. destruct (c_swap a) as [u|e1]; [destruct (c_verify a) as [u'|e2]|]; cbn;
    (split_and!; [done|done|]); rewrite ?swap_inputs_app; cbn; by rewrite ?app_nil_r.
Qed.

Lemma input_direction d b :
  set_up d ->
  input_currency (Setup.di_poolKey d) (if tttIsCurrency0 d then b else negb b)
  = if b then Setup.di_testTTT d else Setup.di_usdc d.
Proof.
  intros [Hs Hne]. unfold tttIsCurrency0, input_currency, Setup.sortTokens in *.
  destruct (str_lt _ _); injection Hs as H0 H1; rewrite <- H0, <- H1.
  - rewrite bool_decide_eq_true_2 by done. done.
  - rewrite bool_decide_eq_false_2 by done. by destruct b.
Qed.

Lemma swap_loop_bounded d account answers n i s :
  set_up d -> swapCount s = Z.of_nat i -> direction s = Nat.even i ->
  swap_inputs (sent s) = input_of d <$> seq 0 i ->
  exists s', swap_loop d account (S n) (Z.of_nat (S n + i)) (Z.of_nat i) answers s = Some s'
    /\ swapCount s' = Z.of_nat (S n + i) /\ swap_inputs (sent s') = input_of d <$> seq 0 (S n + i).
Proof.
  intros Hd. revert i s. induction n as [|n IH]; intros i s Hc Hdir Hs.
  all: cbn [swap_loop]; set (s1 := executeSwapCycle d account (answers (Z.to_nat (Z.of_nat i))) s);
    destruct (cycle_spec d account (answers (Z.to_nat (Z.of_nat i))) s) as (C1 & C2 & C3); fold s1 in C1, C2, C3;
    rewrite input_direction, Hdir, Hs in C3 by done;
    assert (swap_inputs (sent s1) = input_of d <$> seq 0 (S i)) as C4 by (rewrite seq_S, fmap_app, C3; done);
    set (max := Z.of_nat _);
    replace (negb (max =? 0)) with true by (symmetry; apply negb_true_iff, Z.eqb_neq; unfold max; lia);
    cbn [andb];
    replace (max <=? Z.of_nat i) with false by (symmetry; apply Z.leb_gt; unfold max; lia).
  - replace (max <=? swapCount s1) with true by (symmetry; apply Z.leb_le; unfold max; lia).
    exists s1. split_and!; [done|unfold max; lia|done].
  - replace (max <=? swapCount s1) with false by (symmetry; apply Z.leb_gt; unfold max; lia).
    replace (Z.of_nat i + 1) with (Z.of_nat (S i)) by lia.
    replace max with (Z.of_nat (S n + S i)) by (unfold max; lia).
    destruct (IH (S i) s1) as (s' & E1 & E2 & E3); [lia|by rewrite C2, Hdir, Nat.even_succ, Nat.negb_even|done|].
    exists s'. split_and!; [done|lia|]. rewrite E3. do 2 f_equal. lia.
Qed.

(** ** Properties *)

(** The swap loop terminates, whatever the chain answers: with a positive
    limit it returns after exactly that many cycles, failed ones included,
    having sent one swap per cycle that takes in the test token and the USDC
    in turn; with the limit 0 it never returns. *)
Lemma swap_loop_terminates d account answers (max : nat) :
  set_up d ->
  (max <> 0%nat ->
   exists s, swap_loop d account max (Z.of_nat max) 0 answers initial = Some s
     /\ swapCount s = Z.of_nat max /\ swap_inputs (sent s) = input_of d <$> seq 0 max)
  /\ forall fuel i s, swap_loop d account fuel 0 i answers s = None.
Proof.
  intros Hd. split.
  - intros Hm. destruct max as [|n]; [done|].
    destruct (swap_loop_bounded d account answers n 0 initial) as (s & E1 & E2 & E3); [done..|].
    rewrite Nat.add_0_r in E1, E2, E3. by exists s.
  - induction fuel as [|f IH]; intros i s; [done|]. cbn [swap_loop]. cbn [Z.eqb negb andb]. apply IH.
Qed.

(** Every second swap spends USDC, which has six decimals, by the amount of the
    18-decimal token: 10^13 USDC. *)
Lemma usdc_leg_amount d : (input_of d 1).1 = Setup.di_usdc d /\ - (input_of d 1).2 = Setup.parse_units (10 ^ 13) 6.
Proof. split; reflexivity. Qed.

Lemma approvals_inputs d a1 a2 t1 t2 s :
  let s' := (approvals d a1 a2 t1 t2 s).1 in
  swap_inputs (sent s') = swap_inputs (sent s) /\ swapCount s' = swapCount s /\ direction s' = direction s.
Proof.
  assert (forall need token o s, let s' := (approve_if d need token o s).1 in
    swap_inputs (sent s') = swap_inputs (sent s) /\ swapCount s' = swapCount s /\ direction s' = direction s) as Ha.
  { intros [|] token o s1; cbn; [|done]. by rewrite swap_inputs_app, app_nil_r. }
  unfold approvals, mbind, comp_bind. destruct a1 as [a|]; [|done].
  destruct (approve_if d _ _ t1 s) as [s1 r1] eqn:E1.
  pose proof (Ha (a <? SWAP_AMOUNT * 100) (Setup.di_testTTT d) t1 s) as H1. rewrite E1 in H1. cbn [fst] in H1.
  destruct r1 as [u|]; [|done]. destruct a2 as [b|]; [|done].
  destruct (approve_if d _ _ t2 s1) as [s2 r2] eqn:E2.
  pose proof (Ha (b <? Setup.parse_units 10000 6) (Setup.di_usdc d) t2 s1) as H2. rewrite E2 in H2. cbn [fst] in *.
  destruct H2 as (-> & -> & ->), H1 as (-> & -> & ->). done.
Qed.

(** The two scripts compose: from the deployment file the setup script
    wrote, the bot, once its approvals went through, makes its ten cycles
    whatever the swaps are answered, swapping in the two tokens in turn, and
    ends with the final statistics. *)
Lemma setup_then_swap e s0 r0 d account a1 a2 t1 t2 answers final :
  Setup.main e Setup.start = (s0, r0) -> Setup.file s0 = Some d ->
  to_lower (Setup.di_testTTT d) <> to_lower Setup.USDC_ADDRESS ->
  is_ok (approvals d a1 a2 t1 t2 initial).2 = true ->
  exists s, main (Some account) (Some d) a1 a2 t1 t2 answers final = (s, final)
    /\ swapCount s = 10 /\ swap_inputs (sent s) = input_of d <$> seq 0 10.
Proof.
  intros Hm Hf Hne Ha. destruct (Setup.setup_spec e s0 r0 Hm) as (_ & _ & H3).
  destruct (H3 d Hf) as (n & price & _ & Hsort & Hu).
  assert (set_up d) as Hd by (split; rewrite Hu; done).
  pose proof (approvals_inputs d a1 a2 t1 t2 initial) as (I1 & I2 & I3).
  unfold main. destruct (approvals d a1 a2 t1 t2 initial) as [s1 [u|err]]; [|done]. cbn [fst] in I1, I2, I3.
  destruct (swap_loop_bounded d account answers 9 0 s1) as (s & E1 & E2 & E3); [done..|].
  change (Z.to_nat MAX_SWAPS) with 10%nat. change MAX_SWAPS with (Z.of_nat (10 + 0)). change 0 with (Z.of_nat 0) at 1.
  rewrite E1. by exists s.
Qed.

(** ** Witnesses *)

Definition ex_deployment : Setup.DeploymentInfo :=
  match Setup.file (Setup.main Setup.ex_env Setup.start).1 with
  | Some d => d
  | None => {| Setup.di_network := []; Setup.di_chainId := []; Setup.di_deployer := []; Setup.di_testTTT := [];
               Setup.di_poolHelper := []; Setup.di_poolManager := []; Setup.di_usdc := [];
               Setup.di_tttHookSimple := []; Setup.di_ttt1155 := [];
               Setup.di_poolKey := {| Setup.currency0 := []; Setup.currency1 := []; Setup.fee := 0;
                                      Setup.tickSpacing := 0; Setup.hooks := [] |};
               Setup.di_poolId := []; Setup.di_timestamp := [] |}
  end.

(** Every swap reverts. *)
Definition ex_reverts : nat -> cycle := fun _ =>
  {| c_swap := throw_plain "reverted"; c_verify := Ok (); c_stats := Ok (0, 0, 0) |}.

Lemma swap_loop_terminates_witness :
  exists s, swap_loop ex_deployment (js "0xD") 3 3 0 ex_reverts initial = Some s
    /\ swap_inputs (sent s) = [(js "0x9A", - SWAP_AMOUNT); (Setup.USDC_ADDRESS, - SWAP_AMOUNT); (js "0x9A", - SWAP_AMOUNT)].
Proof.
  destruct (swap_loop_terminates ex_deployment (js "0xD") ex_reverts 3) as [H _].
  - split; vm_compute; [reflexivity|discriminate].
  - destruct (H ltac:(discriminate)) as (s & E1 & _ & E2). exists s. split; [exact E1|].
    rewrite E2. vm_compute. reflexivity.
Defined.

Lemma setup_then_swap_witness :
  exists s, main (Some (js "0xD")) (Some ex_deployment) (Ok 0) (Ok 0) (Ok ()) (Ok ()) ex_reverts (Ok (7, 3, 4))
            = (s, Ok (7, 3, 4)) /\ swapCount s = 10.
Proof.
  destruct (setup_then_swap Setup.ex_env (Setup.main Setup.ex_env Setup.start).1 (Setup.main Setup.ex_env Setup.start).2
    ex_deployment (js "0xD") (Ok 0) (Ok 0) (Ok ()) (Ok ()) ex_reverts (Ok (7, 3, 4))) as (s & E1 & E2 & _).
  - vm_compute. reflexivity.
  - vm_compute. reflexivity.
  - vm_compute. discriminate.
  - vm_compute. reflexivity.
  - exists s. split; [exact E1|exact E2].
Defined.

End SwapBot.

(** ** verify_swap_bot.ts *)

Module VerifyBot.

Definition MAX_CALLS : nat := 20.

(** [ethers.parseUnits(String(10 + (i % 5) * 5), 18)] *)
Definition swapDelta (i : nat) : Z := Setup.parse_units (10 + Z.of_nat (i mod 5) * 5) 18.

(** What a [verifySwap] transaction is answered: success, or an error with its
    message. *)
Abbreviation reply := (option (option jsstr)).

Record t := { successCount : Z; failCount : Z; deltas : list Z }.
Definition initial : t := {| successCount := 0; failCount := 0; deltas := [] |}.

(** [error.message?.includes("AccessControl")] *)
Definition is_fatal (r : reply) : bool :=
  match r with Some (Some m) => includes (js "AccessControl") m | _ => false end.

(** One iteration: the new state and whether the loop breaks. *)
Definition iteration (i : nat) (r : reply) (s : t) : t * bool :=
  match r with
  | None => ({| successCount := successCount s + 1; failCount := failCount s; deltas := deltas s ++ [swapDelta i] |}, false)
  | Some _ => ({| successCount := successCount s; failCount := failCount s + 1; deltas := deltas s ++ [swapDelta i] |}, is_fatal r)
  end.

Fixpoint verify_loop (n i : nat) (answers : nat -> reply) (s : t) : t :=
  match n with
  | O => s
  | S n' => let '(s, stop) := iteration i (answers i) s in if stop then s else verify_loop n' (S i) answers s
  end.

(** The reads before the loop decide the mode that is announced. *)
Definition expected_mode (tttBalance minBalance : Z) : string :=
  if minBalance <=? tttBalance then "TURBO" else "FULL".

(** [main] after the account check: the reads, the loop, the final reads. *)
Definition main (account : option jsstr) (reads : res (Z * Z)) (answers : nat -> reply) (final : res (Z * Z * Z))
    : t * res (string * (Z * Z * Z)) :=
  match account with
  | None => (initial, throw_plain "No deployer found. Set DEPLOYER_PRIVATE_KEY in .env")
  | Some _ =>
      match reads with
      | Throw e => (initial, Throw e)
      | Ok (tttBalance, minBalance) =>
          (verify_loop MAX_CALLS 0 answers initial, st ← final; Ok (expected_mode tttBalance minBalance, st))
      end
  end.

(** ** Specification

    The calls made: all of them, or up to the first fatal one. *)
Fixpoint calls_made (n i : nat) (answers : nat -> reply) : nat :=
  match n with
  | O => O
  | S n' => if is_fatal (answers i) then 1%nat else S (calls_made n' (S i) answers)
  end.

Definition successes (l : list reply) : Z := Z.of_nat (length (bfilter (fun r => bool_decide (r = None)) l)).

Lemma calls_made_le n i answers : (calls_made n i answers <= n)%nat.
Proof. revert i. induction n as [|n IH]; intros i; cbn; [lia|]. destruct (is_fatal _); [lia|]. specialize (IH (S i)). lia. Qed.

Lemma calls_made_all n i answers :
  (forall j, (i <= j < n + i)%nat -> is_fatal (answers j) = false) -> calls_made n i answers = n.
Proof.
  revert i. induction n as [|n IH]; intros i Hn; [done|]. cbn. rewrite Hn by lia. f_equal.
  apply IH. intros j Hj. apply Hn. lia.
Qed.

Lemma calls_made_stop n i k answers :
  (k < n)%nat -> is_fatal (answers (i + k)%nat) = true ->
  (forall j, (i <= j < i + k)%nat -> is_fatal (answers j) = false) -> calls_made n i answers = S k.
Proof.
  revert i k. induction n as [|n IH]; intros i [|k] Hk Hf Hn; [lia|lia| |]; cbn.
  - rewrite Nat.add_0_r in Hf. by rewrite Hf.
  - rewrite Hn by lia. f_equal. apply IH; [lia|by replace (S i + k)%nat with (i + S k)%nat by lia|].
    intros j Hj. apply Hn. lia.
Qed.

Lemma successes_cons r l : successes (r :: l) = (if bool_decide (r = None) then 1 else 0) + successes l.
Proof. unfold successes. cbn [bfilter]. destruct (bool_decide _); cbn [length]; lia. Qed.

Lemma verify_loop_spec n i answers s :
  let s' := verify_loop n i answers s in
  let made := seq i (calls_made n i answers) in
  deltas s' = deltas s ++ (swapDelta <$> made)
  /\ successCount s' = successCount s + successes (answers <$> made)
  /\ failCount s' = failCount s + (Z.of_nat (length made) - successes (answers <$> made)).
Proof.
  cbv zeta. revert i s. induction n as [|n IH]; intros i s; cbn [verify_loop calls_made].
  { cbn [seq fmap list_fmap length]. change (successes []) with 0. rewrite app_nil_r. split_and!; [done|lia|lia]. }
  destruct (iteration i (answers i) s) as [s1 stop] eqn:E.
  assert (stop = is_fatal (answers i) /\ deltas s1 = deltas s ++ [swapDelta i]
    /\ successCount s1 = successCount s + (if bool_decide (answers i = None) then 1 else 0)
    /\ failCount s1 = failCount s + (1 - if bool_decide (answers i = None) then 1 else 0)) as (-> & D & C & F).
  { unfold iteration in E. destruct (answers i) as [m|]; injection E as <- <-; cbn.
    - split_and!; [done|done|lia|lia].
    - split_and!; [done|done|lia|lia]. }
  destruct (is_fatal (answers i)).
  - cbn [seq fmap list_fmap length]. rewrite successes_cons, D, C, F. change (successes []) with 0.
    destruct (bool_decide _); split_and!; [done|lia|lia|done|lia|lia].
  - destruct (IH (S i) s1) as (-> & -> & ->). cbn [seq fmap list_fmap length].
    rewrite successes_cons, D, C, F, <- app_assoc. destruct (bool_decide _); split_and!; [done|lia|lia|done|lia|lia].
Qed.

(** The verify bot makes its twenty calls, or stops right after the first
    one refused by access control; the deltas of the calls made cycle through
    10, 15, 20, 25 and 30 tokens, and the two counters are the numbers of their
    successes and failures. *)
Lemma verify_bot_counts answers :
  let s := verify_loop MAX_CALLS 0 answers initial in
  let made := seq 0 (calls_made MAX_CALLS 0 answers) in
  deltas s = swapDelta <$> made
  /\ successCount s = successes (answers <$> made)
  /\ successCount s + failCount s = Z.of_nat (length made) /\ (length made <= 20)%nat
  /\ ((forall i, (i < 20)%nat -> is_fatal (answers i) = false) -> length made = 20%nat).
Proof.
  pose proof (verify_loop_spec MAX_CALLS 0 answers initial) as H. cbv zeta in H |- *. destruct H as (-> & -> & ->).
  rewrite length_seq. pose proof (calls_made_le MAX_CALLS 0 answers). unfold MAX_CALLS in *.
  split_and!; [done|done|cbn; lia|lia|].
  intros Hf. apply calls_made_all. intros j Hj. apply Hf. lia.
Qed.

End VerifyBot.
