(* ===== verification/McpTools.v ===== *)
(** * MCP tools (src/mcp/tools.ts, src/mcp/telemetry.ts)

    The five tools of the MCP server over its shared instances: the time
    synthesis, the adaptive switch, the signer and the bounded log.  The GRG
    pipeline, keccak and the ABI encoder are parameters, as are the answers of
    the network.  The properties: the log and its mode column, what a query
    returns, what makes a verification valid, and that what the server generates
    it verifies. *)
From Stdlib Require Import ZArith Lia String Strings.Byte Floats.SpecFloat.
From stdpp Require Import base list numbers option strings.
From S2P Require Import Prelude JSString Errors Bytes JSNum JSMap Json Types Median TimeSynthesis AdaptiveSwitch PotSigner.

Module Mcp.

(** ** Telemetry *)

(** [counters[toolName] = (counters[toolName] ?? 0) + 1]; the ping is not
    awaited and cannot fail. *)
Definition telemetryIncrement (toolName : string) (counters : jsmap string Z) : jsmap string Z :=
  jm_set counters toolName (default 0 (jm_get counters toolName) + 1).

(** ** State *)

Definition POT_LOG_MAX : nat := 10000.

Record PotAnchorEntry := {
  ae_potHash : jsstr; ae_timestamp : jsstr; ae_stratum : Z; ae_mode : Adaptive.AdaptiveMode;
  ae_chainId : num; ae_poolAddress : jsstr; ae_createdAt : Z;
}.

(** [arr.slice(-n)] for a Number: the start is the integer part, negative from
    the back. *)
Definition to_integer (x : num) : Z :=
  match x with
  | S754_finite s m e => if 0 <=? e then smant s m * 2 ^ e else Z.quot (smant s m) (2 ^ (- e))
  | S754_infinity s => if s then - 2 ^ 1024 else 2 ^ 1024
  | _ => 0
  end.
Definition slice_from {A} (start : Z) (l : list A) : list A :=
  let n := Z.of_nat (length l) in
  drop (Z.to_nat (if start <? 0 then Z.max 0 (n + start) else Z.min start n)) l.

(** [+x.toFixed(4)] for a ratio: the nearest multiple of 1/10000, halves up. *)
Definition to_fixed4 (x : num) : num :=
  match x with
  | S754_finite s m e =>
      let v := if 0 <=? e then smant s m * 2 ^ e * 10000
               else (smant s m * 20000 + 2 ^ (- e)) / (2 * 2 ^ (- e)) in
      num_lit v 10000
  | _ => x
  end.

Section Operations.
Context {Priv Pub : Type} `{Crypto : Signing.Ed25519 Priv Pub}.
Variable keccak256 : Buffer -> jsstr.
Variable abi_encode : list Z -> list (Z + num) -> res Buffer.
(** [GrgPipeline.processForward] and [processInverse]. *)
Variable processForward : Buffer -> num -> jsstr -> res (list Buffer).
Variable processInverse : list Buffer -> Z -> num -> jsstr -> res Buffer.

Record t := {
  timeSynth : TimeSynthesis.t;
  adaptiveSwitch : Adaptive.t;
  potSigner : Signing.t (Priv := Priv) (Pub := Pub);
  startedAt : Z;
  potLog : list PotAnchorEntry;
  counters : jsmap string Z;
}.

Definition make (generated : Priv) (now : Z) : res t :=
  signer ← Signing.make None generated;
  Ok {| timeSynth := TimeSynthesis.make None; adaptiveSwitch := Adaptive.make None; potSigner := signer;
        startedAt := now; potLog := []; counters := [] |}.

Definition count (tool : string) (s : t) : t :=
  {| timeSynth := timeSynth s; adaptiveSwitch := adaptiveSwitch s; potSigner := potSigner s;
     startedAt := startedAt s; potLog := potLog s; counters := telemetryIncrement tool (counters s) |}.
Definition with_synth (ts : TimeSynthesis.t) (s : t) : t :=
  {| timeSynth := ts; adaptiveSwitch := adaptiveSwitch s; potSigner := potSigner s;
     startedAt := startedAt s; potLog := potLog s; counters := counters s |}.
Definition with_log (l : list PotAnchorEntry) (s : t) : t :=
  {| timeSynth := timeSynth s; adaptiveSwitch := adaptiveSwitch s; potSigner := potSigner s;
     startedAt := startedAt s; potLog := l; counters := counters s |}.

(** ** pot_generate *)

Record GenerateResult := {
  gr_potHash : jsstr; gr_timestamp : jsstr; gr_stratum : Z; gr_uncertainty : json; gr_confidence : json;
  gr_sources : Z; gr_nonce : jsstr; gr_expiresAt : jsstr; gr_grgShards : list jsstr;
  gr_issuerPubKey : jsstr; gr_signature : jsstr; gr_issuedAt : jsstr;
}.

(** [fetch], [nonce], [now0], [now1], [now2]: the round and the clocks of
    [generateProofOfTime]; [nowSign] and [nowLog] the clocks of the signature
    and of the log entry. *)
Definition potGenerate (fetch : fetcher) (nonce : jsstr) (now0 now1 now2 nowSign nowLog : Z)
    (txHash : jsstr) (chainId : num) (poolAddress : jsstr) (s : t) : t * res GenerateResult :=
  let s := count "pot_generate" s in
  let '(ts, pot) := generateProofOfTime fetch nonce now0 now1 now2 (timeSynth s) in
  let s := with_synth ts s in
  match (pot ← pot; potHash ← getOnChainHash keccak256 abi_encode pot;
         grgShards ← processForward (utf8_encode txHash) chainId poolAddress; Ok (pot, potHash, grgShards)) with
  | Throw e => (s, Throw e)
  | Ok (pot, potHash, grgShards) =>
      let signature := Signing.signPot potHash nowSign (potSigner s) in
      let entry := {| ae_potHash := potHash; ae_timestamp := z_to_dec (pot_timestamp pot);
                      ae_stratum := pot_stratum pot; ae_mode := Adaptive.currentMode (adaptiveSwitch s);
                      ae_chainId := chainId; ae_poolAddress := poolAddress; ae_createdAt := nowLog |} in
      (with_log (push_bounded POT_LOG_MAX (potLog s) entry) s,
       Ok {| gr_potHash := potHash; gr_timestamp := z_to_dec (pot_timestamp pot);
             gr_stratum := pot_stratum pot; gr_uncertainty := json_num (pot_uncertainty pot);
             gr_confidence := json_num (pot_confidence pot); gr_sources := pot_sources pot;
             gr_nonce := pot_nonce pot; gr_expiresAt := z_to_dec (pot_expiresAt pot);
             gr_grgShards := to_hex <$> grgShards; gr_issuerPubKey := ps_issuerPubKey signature;
             gr_signature := ps_signature signature; gr_issuedAt := z_to_dec (ps_issuedAt signature) |})
  end.

(** ** pot_verify *)

Record sig_arg := { sa_issuerPubKey : jsstr; sa_signature : jsstr; sa_issuedAt : jsstr }.

Record VerifyResult := {
  vr_valid : bool; vr_reason : option string; vr_mode : Adaptive.AdaptiveMode; vr_potHash : jsstr;
  vr_reconstructedBytes : Z; vr_checks : option (bool * bool); vr_verifiedAt : Z;
}.

(** The size [processInverse] recovers, 0 when it throws. *)
Definition recovered_size (shards : list jsstr) (chainId : num) (poolAddress : jsstr) : Z :=
  match processInverse (from_hex <$> shards) 0 chainId poolAddress with
  | Ok recovered => Z.of_nat (length recovered)
  | Throw _ => 0
  end.

Definition potVerify (potHash : jsstr) (grgShards : list jsstr) (chainId : num) (poolAddress : jsstr)
    (signature : option sig_arg) (now : Z) (s : t) : t * res VerifyResult :=
  let s := count "pot_verify" s in
  let mode := Adaptive.currentMode (adaptiveSwitch s) in
  let size := recovered_size grgShards chainId poolAddress in
  let hmacValid := 0 <? size in
  if negb hmacValid then
    (s, Ok {| vr_valid := false;
              vr_reason := Some "HMAC integrity check failed — GRG shards tampered or mismatched context";
              vr_mode := mode; vr_potHash := potHash; vr_reconstructedBytes := 0; vr_checks := None;
              vr_verifiedAt := now |})
  else
    match match signature with
          | None => Ok true
          | Some sg =>
              match bigint_of_string (sa_issuedAt sg) with
              | None => Throw SyntaxError
              | Some issuedAt =>
                  Ok (Signing.verifyPotSignature potHash
                        {| ps_issuerPubKey := sa_issuerPubKey sg; ps_signature := sa_signature sg;
                           ps_issuedAt := issuedAt |} None)
              end
          end with
    | Throw e => (s, Throw e)
    | Ok ed25519Valid =>
        (s, Ok {| vr_valid := hmacValid && ed25519Valid;
                  vr_reason := if ed25519Valid then None else Some "Ed25519 signature verification failed";
                  vr_mode := mode; vr_potHash := potHash; vr_reconstructedBytes := size;
                  vr_checks := Some (hmacValid, ed25519Valid); vr_verifiedAt := now |})
    end.

(** ** pot_query *)

Record QueryResult := {
  qr_local : list PotAnchorEntry; qr_subgraph : list json; qr_totalLocal : Z;
  qr_startTime : num; qr_endTime : num; qr_limit : num;
}.

Definition in_window (startTime endTime : num) (e : PotAnchorEntry) : bool :=
  nle startTime (num_of_Z (ae_createdAt e)) && nle (num_of_Z (ae_createdAt e)) endTime.

(** [subgraph]: the entries of an answer that is a success. *)
Definition potQuery (startTime endTime limit : option num) (subgraph : option (list json)) (now : Z) (s : t)
    : t * QueryResult :=
  let s := count "pot_query" s in
  let limit := nmin (default (num_of_Z 100) limit) (num_of_Z 1000) in
  let startTime := default (nsub (num_of_Z now) (num_of_Z 86400000)) startTime in
  let endTime := default (num_of_Z now) endTime in
  (s, {| qr_local := slice_from (to_integer (SFopp limit)) (bfilter (in_window startTime endTime) (potLog s));
         qr_subgraph := default [] subgraph; qr_totalLocal := Z.of_nat (length (potLog s));
         qr_startTime := startTime; qr_endTime := endTime; qr_limit := limit |}).

(** ** pot_stats *)

Definition periodMs (period : jsstr) : Z :=
  if bool_decide (period = js "week") then 604800000
  else if bool_decide (period = js "month") then 2592000000
  else 86400000.

Record StatsResult := {
  st_period : jsstr; st_totalSwaps : Z; st_turboCount : Z; st_fullCount : Z; st_turboRatio : num;
  st_currentMode : Adaptive.AdaptiveMode; st_windowStart : Z; st_windowEnd : Z;
}.

Definition count_mode (m : Adaptive.AdaptiveMode) (l : list PotAnchorEntry) : Z :=
  Z.of_nat (length (bfilter (fun e => bool_decide (ae_mode e = m)) l)).

Definition potStats (period : jsstr) (now : Z) (s : t) : t * StatsResult :=
  let s := count "pot_stats" s in
  let cutoff := now - periodMs period in
  let entries := bfilter (fun e => cutoff <=? ae_createdAt e) (potLog s) in
  let turboCount := count_mode Adaptive.TURBO entries in
  let totalSwaps := Z.of_nat (length entries) in
  (s, {| st_period := period; st_totalSwaps := totalSwaps; st_turboCount := turboCount;
         st_fullCount := count_mode Adaptive.FULL entries;
         st_turboRatio := if 0 <? totalSwaps then to_fixed4 (ndiv (num_of_Z turboCount) (num_of_Z totalSwaps))
                          else num_0;
         st_currentMode := Adaptive.currentMode (adaptiveSwitch s); st_windowStart := cutoff; st_windowEnd := now |}).

(** ** pot_health *)

(** The race of the synthesis with five seconds ([None]), and the answer of
    the subgraph: unreachable, a failure status, or its metadata. *)
Inductive subgraph_answer := Unreachable | NotOk | Meta (number : option Z) (hasIndexingErrors : bool).

Record HealthResult := {
  hr_status : string; hr_timeStatus : string; hr_activeSources : Z; hr_latestBlock : Z; hr_syncStatus : string;
  hr_uptime : Z; hr_potCount : Z; hr_currentMode : Adaptive.AdaptiveMode; hr_signerPubKey : jsstr;
}.

Definition time_status (synth : option (res SynthesizedTime)) : string * Z :=
  match synth with
  | Some (Ok x) => (if 2 <=? st_sources x then "healthy"%string else "degraded"%string, st_sources x)
  | _ => ("unhealthy"%string, 0)
  end.

Definition potHealth (synth : option (res SynthesizedTime)) (answer : subgraph_answer) (now : Z) (s : t)
    : t * HealthResult :=
  let s := count "pot_health" s in
  let '(timeStatus, synthSources) := time_status synth in
  let '(latestBlock, syncStatus) :=
    match answer with
    | Unreachable => (0, "unreachable"%string)
    | NotOk => (0, "unknown"%string)
    | Meta number errors => (default 0 number, if errors then "indexing_errors"%string else "synced"%string)
    end in
  (s, {| hr_status := if (timeStatus =? "healthy")%string then "ok"%string else timeStatus;
         hr_timeStatus := timeStatus; hr_activeSources := synthSources; hr_latestBlock := latestBlock;
         hr_syncStatus := syncStatus; hr_uptime := now - startedAt s; hr_potCount := Z.of_nat (length (potLog s));
         hr_currentMode := Adaptive.currentMode (adaptiveSwitch s);
         hr_signerPubKey := Signing.getPubKeyHex (potSigner s) |}).

(** ** Histories *)

Inductive call :=
| Generate (fetch : fetcher) (nonce : jsstr) (now0 now1 now2 nowSign nowLog : Z)
    (txHash : jsstr) (chainId : num) (poolAddress : jsstr)
| Verify (potHash : jsstr) (grgShards : list jsstr) (chainId : num) (poolAddress : jsstr)
    (signature : option sig_arg) (now : Z)
| Query (startTime endTime limit : option num) (subgraph : option (list json)) (now : Z)
| Stats (period : jsstr) (now : Z)
| Health (synth : option (res SynthesizedTime)) (answer : subgraph_answer) (now : Z).

Definition step (c : call) (s : t) : t :=
  match c with
  | Generate f n n0 n1 n2 ns nl tx ch pool => (potGenerate f n n0 n1 n2 ns nl tx ch pool s).1
  | Verify h sh ch pool sg now => (potVerify h sh ch pool sg now s).1
  | Query a b l sub now => (potQuery a b l sub now s).1
  | Stats p now => (potStats p now s).1
  | Health sy an now => (potHealth sy an now s).1
  end.
Definition run (l : list call) (s : t) : t := foldl (fun s c => step c s) s l.

Definition inv (s : t) : Prop :=
  (length (potLog s) <= POT_LOG_MAX)%nat
  /\ Adaptive.currentMode (adaptiveSwitch s) = Adaptive.FULL
  /\ Forall (fun e => ae_mode e = Adaptive.FULL) (potLog s)
  /\ Signing.well_made (potSigner s).

(** ** Lemmas *)

Lemma slice_from_last {A} n (l : list A) : 0 < n -> slice_from (- n) l = last_n (Z.to_nat n) l.
Proof.
  intros H. unfold slice_from, last_n. destruct (Z.ltb_spec (- n) 0); [|lia]. f_equal. lia.
Qed.

Lemma slice_from_0 {A} (l : list A) : slice_from 0 l = l.
Proof. unfold slice_from. replace (Z.to_nat _) with 0%nat; [done|]. destruct (Z.ltb_spec 0 0); lia. Qed.

Lemma from_hex_shards (l : list Buffer) : from_hex <$> (to_hex <$> l) = l.
Proof. induction l as [|b l IH]; [done|]. csimpl. by rewrite from_hex_to_hex, IH. Qed.

Lemma pot_log_pos : (0 < POT_LOG_MAX)%nat.
Proof. apply Nat.ltb_lt. reflexivity. Qed.

(** Small integral limits are exact Numbers. *)
Lemma limit_exact n :
  1 <= n <= 2000 -> to_integer (SFopp (nmin (num_of_Z n) (num_of_Z 1000))) = - Z.min n 1000.
Proof.
  intros H.
  assert (forallb (fun k => let n := Z.of_nat k in
            to_integer (SFopp (nmin (num_of_Z n) (num_of_Z 1000))) =? - Z.min n 1000) (seq 1 2000) = true) as Hall
    by (vm_compute; reflexivity).
  rewrite List.forallb_forall in Hall. specialize (Hall (Z.to_nat n) ltac:(apply List.in_seq; lia)).
  cbv zeta in Hall. rewrite Z2Nat.id in Hall by lia. by apply Z.eqb_eq in Hall.
Qed.

Lemma potGenerate_inv fetch nonce n0 n1 n2 ns nl tx ch pool s :
  inv s -> inv (potGenerate fetch nonce n0 n1 n2 ns nl tx ch pool s).1.
Proof.
  intros (H1 & H2 & H3 & H4). unfold potGenerate.
  destruct (generateProofOfTime _ _ _ _ _ _) as [ts pot]. destruct (mbind _ pot) as [[[p h] g]|e]; [|done].
  split_and!; cbn [fst with_log potLog adaptiveSwitch potSigner with_synth count]; [|done| |done].
  - rewrite push_bounded_length by (done || apply pot_log_pos). lia.
  - by apply push_bounded_Forall.
Qed.

Lemma mcp_step_inv c s : inv s -> inv (step c s).
Proof.
  intros H. destruct c; cbn [step]; [by apply potGenerate_inv|..].
  - unfold potVerify. destruct (negb _); [done|]. destruct signature as [sg|]; [|done].
    by destruct (bigint_of_string _).
  - done.
  - done.
  - unfold potHealth. destruct (time_status synth). by destruct answer.
Qed.

Lemma mcp_run_inv l s : inv s -> inv (run l s).
Proof. revert s. induction l as [|c l IH]; intros s H; [done|]. apply IH. by apply mcp_step_inv. Qed.

Lemma mcp_make_inv g now s : make g now = Ok s -> inv s.
Proof.
  unfold make. intros E. apply result_bind_Ok in E as (signer & Em & [= <-]).
  apply Signing.make_well_made in Em. split_and!; [cbn; lia|done|constructor|done].
Qed.

Lemma count_mode_none l :
  Forall (fun e => ae_mode e = Adaptive.FULL) l -> count_mode Adaptive.TURBO l = 0.
Proof.
  intros Hl. unfold count_mode. induction Hl as [|e l He _ IH]; [done|]. cbn [bfilter].
  rewrite He. by rewrite bool_decide_eq_false_2.
Qed.

(** ** Properties *)

(** The log is bounded and its mode column is constant: after any history
    of tool calls it holds at most 10,000 entries, each in mode FULL, so
    [potStats] never counts a TURBO entry: no tool ever feeds a block to the
    adaptive switch. *)
Lemma mcp_log_bounded_full g now0 s l period now :
  make g now0 = Ok s ->
  (length (potLog (run l s)) <= POT_LOG_MAX)%nat
  /\ Forall (fun e => ae_mode e = Adaptive.FULL) (potLog (run l s))
  /\ st_turboCount (potStats period now (run l s)).2 = 0
  /\ st_currentMode (potStats period now (run l s)).2 = Adaptive.FULL.
Proof.
  intros E. apply mcp_make_inv, (mcp_run_inv l) in E as (H1 & H2 & H3 & _). split_and!; [done..| |done].
  cbn [potStats snd st_turboCount]. by apply count_mode_none, bfilter_Forall.
Qed.

(** [potVerify] reports a proof valid exactly when the GRG pipeline
    recovers data from the shards for that chain and pool and the signature, if
    there is one, has a numeric date and verifies over the hash. *)
Lemma mcp_verify_valid_iff potHash shards chainId pool signature now s :
  (exists r, (potVerify potHash shards chainId pool signature now s).2 = Ok r /\ vr_valid r = true)
  <-> (exists b bs, processInverse (from_hex <$> shards) 0 chainId pool = Ok (b :: bs))
      /\ match signature with
         | None => True
         | Some sg => exists z, bigint_of_string (sa_issuedAt sg) = Some z
             /\ Signing.verifyPotSignature potHash
                  {| ps_issuerPubKey := sa_issuerPubKey sg; ps_signature := sa_signature sg; ps_issuedAt := z |} None
                = true
         end.
Proof.
  unfold potVerify. set (size := recovered_size _ _ _).
  assert (0 <? size = true <-> exists b bs, processInverse (from_hex <$> shards) 0 chainId pool = Ok (b :: bs)) as <-.
  { unfold size, recovered_size. destruct (processInverse _ _ _ _) as [[|b bs]|e]; cbn [length].
    - split; [done|]. by intros (? & ? & ?).
    - split; [by eauto|]. intros _. apply Z.ltb_lt. lia.
    - split; [done|]. by intros (? & ? & ?). }
  destruct (0 <? size); cbn [negb].
  2: { split; [|by intros [? _]]. intros (r & [= <-] & ?). done. }
  destruct signature as [sg|]; [|split; [done|]; intros _; by eexists].
  destruct (bigint_of_string (sa_issuedAt sg)) as [z|].
  - split.
    + intros (r & [= <-] & Hv). cbn in Hv. split; [done|]. by exists z.
    + intros [_ (z' & [= <-] & Hv)]. eexists. split; [done|]. cbn [vr_valid andb]. done.
  - split; [by intros (r & ? & _)|]. by intros [_ (z & ? & _)].
Qed.

(** [potQuery] with a positive integral limit returns the newest entries of
    the window, in order, at most the limit and at most a thousand; with limit
    0 it returns the whole window, because [slice(-0)] keeps everything. *)
Lemma mcp_query_spec startTime endTime subgraph now s :
  let window := bfilter (in_window (default (nsub (num_of_Z now) (num_of_Z 86400000)) startTime)
                           (default (num_of_Z now) endTime)) (potLog s) in
  let answer limit := qr_local (potQuery startTime endTime limit subgraph now s).2 in
  (forall n, 1 <= n <= 2000 -> answer (Some (num_of_Z n)) = last_n (Z.to_nat (Z.min n 1000)) window)
  /\ answer None = last_n 100 window
  /\ answer (Some num_0) = window.
Proof.
  cbv zeta. unfold potQuery. cbn [snd qr_local]. split_and!.
  - intros n Hn. cbn [from_option id].
    assert (to_integer (SFopp (nmin (num_of_Z n) (num_of_Z 1000))) = - Z.min n 1000) as ->.
    { apply limit_exact. lia. }
    apply slice_from_last. lia.
  - cbn [from_option]. replace (to_integer _) with (- 100) by reflexivity. by apply (slice_from_last 100).
  - cbn [from_option id]. replace (to_integer _) with 0 by reflexivity. apply slice_from_0.
Qed.

Context `{!Signing.Ed25519Laws Priv Pub}.

(** What the server generates it verifies: when the GRG pipeline recovers
    the data it encoded, the hash, shards and signature that [potGenerate]
    returns are reported valid with both checks true, at any later state of any
    server of the same pipeline. *)
Lemma mcp_generate_then_verify fetch nonce now0 now1 now2 nowSign nowLog txHash chainId pool s res' g now s' :
  inv s ->
  (forall data shards, processForward data chainId pool = Ok shards ->
     processInverse shards 0 chainId pool = Ok data) ->
  txHash <> [] ->
  (potGenerate fetch nonce now0 now1 now2 nowSign nowLog txHash chainId pool s) = (g, Ok res') ->
  exists r, (potVerify (gr_potHash res') (gr_grgShards res') chainId pool
              (Some {| sa_issuerPubKey := gr_issuerPubKey res'; sa_signature := gr_signature res';
                       sa_issuedAt := gr_issuedAt res' |}) now s').2 = Ok r
    /\ vr_valid r = true /\ vr_checks r = Some (true, true).
Proof.
  intros (_ & _ & _ & Hmade) Hgrg Htx Hgen. unfold potGenerate in Hgen.
  destruct (generateProofOfTime _ _ _ _ _ _) as [ts pot]. destruct (mbind _ pot) as [[[p h] sh]|e] eqn:E; [|done].
  apply result_bind_Ok in E as (p' & _ & E). apply result_bind_Ok in E as (h' & _ & E).
  apply result_bind_Ok in E as (sh' & Hsh & E). injection E as -> -> ->.
  injection Hgen as _ <-. cbn [gr_potHash gr_grgShards gr_issuerPubKey gr_signature gr_issuedAt].
  unfold potVerify.
  assert (0 <? recovered_size (to_hex <$> sh) chainId pool = true) as Hsz.
  { unfold recovered_size. rewrite from_hex_shards, (Hgrg _ _ Hsh). apply Z.ltb_lt.
    pose proof (utf8_encode_nonempty txHash Htx). destruct (utf8_encode txHash); [done|cbn; lia]. }
  rewrite Hsz. cbn [negb sa_issuedAt sa_issuerPubKey sa_signature]. rewrite bigint_of_z_to_dec.
  eexists. split; [reflexivity|]. cbn [vr_valid vr_checks andb].
  assert (Signing.verifyPotSignature h (Signing.signPot h nowSign (potSigner s)) None = true) as Hv.
  { by apply Signing.signed_verifies. }
  unfold Signing.signPot in *. cbn [ps_issuerPubKey ps_signature ps_issuedAt] in *.
  change (potSigner (with_synth ts (count "pot_generate" s))) with (potSigner s). by rewrite Hv.
Qed.

End Operations.

(** ** Witnesses

    The toy signature scheme of PotSigner; the GRG pipeline cuts the data in
    shards of one byte. *)
#[local] Existing Instance Signing.toy.
#[local] Existing Instance Signing.toy_laws.

Definition ex_forward (data : Buffer) (_ : num) (_ : jsstr) : res (list Buffer) := Ok ((fun b => [b]) <$> data).
Definition ex_inverse (shards : list Buffer) (_ : Z) (_ : num) (_ : jsstr) : res Buffer := Ok (concat shards).
Definition ex_server : t (Priv := byte) (Pub := byte) :=
  {| timeSynth := TimeSynthesis.make None; adaptiveSwitch := Adaptive.make None; potSigner := Signing.ex_signer;
     startedAt := 0; potLog := []; counters := [] |}.
Definition ex_answers (i : nat) : TimeSource -> res TimeReading :=
  match i with
  | 0%nat => fun _ => Ok (ex_reading 1710412800000000000 "google")
  | 1%nat => fun _ => Ok (ex_reading 1710412800002000000 "apple")
  | 2%nat => fun _ => Ok (ex_reading 1710412800004000000 "nist")
  | _ => fun _ => Throw TypeError
  end.
Definition ex_generate : t * res GenerateResult :=
  potGenerate to_hex (fun _ _ => Ok [bofZ 5; bofZ 6]) ex_forward ex_answers (js "00ff") 1710412800000 1710412800001
    1710412800001 1710412800002 1710412800003 (js "0xabc") (num_of_Z 8453) (js "0xpool") ex_server.

Lemma mcp_log_bounded_full_witness :
  make (bofZ 7) 0 = Ok ex_server
  /\ st_turboCount (potStats (js "day") 1710412800005
       (run to_hex (fun _ _ => Ok [bofZ 5]) ex_forward ex_inverse
         [Generate ex_answers (js "00ff") 1710412800000 1710412800001 1710412800001 1710412800002 1710412800003
            (js "0xabc") (num_of_Z 8453) (js "0xpool")] ex_server)).2 = 0.
Proof.
  split; [reflexivity|].
  refine (proj1 (proj2 (proj2 (mcp_log_bounded_full to_hex (fun _ _ => Ok [bofZ 5]) ex_forward ex_inverse (bofZ 7) 0
    ex_server _ (js "day") 1710412800005 _)))).
  reflexivity.
Defined.

Lemma mcp_generate_then_verify_witness :
  exists res', ex_generate.2 = Ok res' /\
  exists r, (potVerify ex_inverse (gr_potHash res') (gr_grgShards res') (num_of_Z 8453) (js "0xpool")
              (Some {| sa_issuerPubKey := gr_issuerPubKey res'; sa_signature := gr_signature res';
                       sa_issuedAt := gr_issuedAt res' |}) 9 ex_server).2 = Ok r
    /\ vr_valid r = true /\ vr_checks r = Some (true, true).
Proof.
  eexists. split; [vm_compute; reflexivity|].
  eapply (mcp_generate_then_verify to_hex (fun _ _ => Ok [bofZ 5; bofZ 6]) ex_forward ex_inverse ex_answers (js "00ff")
    1710412800000 1710412800001 1710412800001 1710412800002 1710412800003 (js "0xabc") (num_of_Z 8453) (js "0xpool")
    ex_server).
  - split_and!; [apply Nat.leb_le; reflexivity|reflexivity|constructor|split; reflexivity].
  - intros data shards [= <-]. unfold ex_inverse. f_equal. induction data as [|b data IH]; [done|]. csimpl. by rewrite IH.
  - discriminate.
  - vm_compute. reflexivity.
Defined.

End Mcp.
