(* ===== verification/McpServer.v ===== *)
(** * The MCP server (src/mcp/index.ts)

    The five tools behind the protocol: the argument schemas, the JSON the
    tools answer with, and the handlers that turn an exception into an error
    answer.  The protocol library checks the arguments against the schema and
    frames the answers; requests and answers are JSON trees here.  The
    properties: requests are tool calls (so the invariants of [McpTools] hold of
    the server), and what one answer carries the next request can verify. *)
From Stdlib Require Import ZArith Lia String Strings.Byte Floats.SpecFloat.
From stdpp Require Import base list numbers option strings.
From S2P Require Import Prelude JSString Errors Bytes JSNum NumText JSMap Json Types TimeSynthesis AdaptiveSwitch PotSigner McpTools.

Module Server.

(** ** Argument schemas

    [None]: the library refuses the request before the handler runs. *)

Definition z_string (v : option json) : option jsstr := match v with Some (JStr s) => Some s | _ => None end.
Definition z_number (v : option json) : option num := match v with Some (JNum x) => Some x | _ => None end.
Definition z_strings (v : option json) : option (list jsstr) :=
  match v with Some (JArr l) => mapM (fun j => z_string (Some j)) l | _ => None end.
(** [schema.optional()] *)
Definition z_optional {A} (schema : option json -> option A) (v : option json) : option (option A) :=
  match v with None => Some None | Some _ => Some <$> schema v end.
Definition z_object (v : option json) : option (list (jsstr * json)) :=
  match v with Some (JObj fs) => Some fs | _ => None end.
Definition z_enum (values : list string) (v : option json) : option jsstr :=
  s ← z_string v; if existsb (fun x => bool_decide (js x = s)) values then Some s else None.

Definition at_ (fs : list (jsstr * json)) (k : string) : option json := field_lookup (js k) fs.

Definition z_signature (v : option json) : option Mcp.sig_arg :=
  fs ← z_object v;
  p ← z_string (at_ fs "issuerPubKey"); s ← z_string (at_ fs "signature"); i ← z_string (at_ fs "issuedAt");
  Some {| Mcp.sa_issuerPubKey := p; Mcp.sa_signature := s; Mcp.sa_issuedAt := i |}.

(** ** Answers

    [serialize(...)]: the JSON of a result, BigInts being strings already. *)

Definition int_json (z : Z) : json := json_num (num_of_Z z).

Definition lower_mode (m : Adaptive.AdaptiveMode) : string :=
  match m with Adaptive.TURBO => "turbo" | Adaptive.FULL => "full" end.

Definition generate_json (r : Mcp.GenerateResult) : json :=
  JObj [(js "potHash", JStr (Mcp.gr_potHash r)); (js "timestamp", JStr (Mcp.gr_timestamp r));
        (js "stratum", int_json (Mcp.gr_stratum r)); (js "uncertainty", Mcp.gr_uncertainty r);
        (js "confidence", Mcp.gr_confidence r); (js "sources", int_json (Mcp.gr_sources r));
        (js "nonce", JStr (Mcp.gr_nonce r)); (js "expiresAt", JStr (Mcp.gr_expiresAt r));
        (js "grgShards", JArr (JStr <$> Mcp.gr_grgShards r));
        (js "signature", JObj [(js "issuerPubKey", JStr (Mcp.gr_issuerPubKey r));
                               (js "signature", JStr (Mcp.gr_signature r));
                               (js "issuedAt", JStr (Mcp.gr_issuedAt r))])].

Definition verify_json (r : Mcp.VerifyResult) : json :=
  JObj ([(js "valid", JBool (Mcp.vr_valid r))]
        ++ match Mcp.vr_reason r with Some t => [(js "reason", JStr (js t))] | None => [] end
        ++ [(js "mode", JStr (js (lower_mode (Mcp.vr_mode r)))); (js "potHash", JStr (Mcp.vr_potHash r));
            (js "reconstructedBytes", int_json (Mcp.vr_reconstructedBytes r))]
        ++ match Mcp.vr_checks r with
           | Some (h, e) => [(js "checks", JObj [(js "hmac", JBool h); (js "ed25519", JBool e)])]
           | None => []
           end
        ++ [(js "verifiedAt", int_json (Mcp.vr_verifiedAt r))]).

Definition entry_json (e : Mcp.PotAnchorEntry) : json :=
  JObj [(js "potHash", JStr (Mcp.ae_potHash e)); (js "timestamp", JStr (Mcp.ae_timestamp e));
        (js "stratum", int_json (Mcp.ae_stratum e)); (js "mode", JStr (Adaptive.mode_name (Mcp.ae_mode e)));
        (js "chainId", json_num (Mcp.ae_chainId e)); (js "poolAddress", JStr (Mcp.ae_poolAddress e));
        (js "createdAt", int_json (Mcp.ae_createdAt e))].

Definition query_json (r : Mcp.QueryResult) : json :=
  JObj [(js "local", JArr (entry_json <$> Mcp.qr_local r)); (js "subgraph", JArr (Mcp.qr_subgraph r));
        (js "totalLocal", int_json (Mcp.qr_totalLocal r));
        (js "query", JObj [(js "startTime", json_num (Mcp.qr_startTime r)); (js "endTime", json_num (Mcp.qr_endTime r));
                           (js "limit", json_num (Mcp.qr_limit r))])].

Section Server.
Context {Priv Pub : Type} `{Crypto : Signing.Ed25519 Priv Pub}.
Variable keccak256 : Buffer -> jsstr.
Variable abi_encode : list Z -> list (Z + num) -> res Buffer.
Variable processForward : Buffer -> num -> jsstr -> res (list Buffer).
Variable processInverse : list Buffer -> Z -> num -> jsstr -> res Buffer.
(** [new Date(ms).toISOString()] *)
Variable toISOString : Z -> res jsstr.

Abbreviation state := (Mcp.t (Priv := Priv) (Pub := Pub)).

Definition stats_json (r : Mcp.StatsResult) : res json :=
  a ← toISOString (Mcp.st_windowStart r); b ← toISOString (Mcp.st_windowEnd r);
  Ok (JObj [(js "period", JStr (Mcp.st_period r)); (js "totalSwaps", int_json (Mcp.st_totalSwaps r));
            (js "turboCount", int_json (Mcp.st_turboCount r)); (js "fullCount", int_json (Mcp.st_fullCount r));
            (js "turboRatio", json_num (Mcp.st_turboRatio r));
            (js "currentMode", JStr (Adaptive.mode_name (Mcp.st_currentMode r)));
            (js "windowStart", JStr a); (js "windowEnd", JStr b)]).

Definition health_json (r : Mcp.HealthResult) : json :=
  JObj [(js "status", JStr (js (Mcp.hr_status r)));
        (js "timeSources", JObj [(js "status", JStr (js (Mcp.hr_timeStatus r)));
                                 (js "activeSources", int_json (Mcp.hr_activeSources r))]);
        (js "subgraph", JObj [(js "latestBlock", int_json (Mcp.hr_latestBlock r));
                              (js "syncStatus", JStr (js (Mcp.hr_syncStatus r)))]);
        (js "server", JObj [(js "uptime", int_json (Mcp.hr_uptime r));
                            (js "uptimeHuman",
                              JStr (to_fixed 1 (ndiv (num_of_Z (Mcp.hr_uptime r)) (num_of_Z 3600000)) ++ js "h"));
                            (js "potCount", int_json (Mcp.hr_potCount r));
                            (js "currentMode", JStr (Adaptive.mode_name (Mcp.hr_currentMode r)));
                            (js "signerPubKey", JStr (Mcp.hr_signerPubKey r))])].

(** ** Requests *)

(** What the network and the clocks answer during a request. *)
Record world := {
  w_fetch : fetcher; w_nonce : jsstr; w_now0 : Z; w_now1 : Z; w_now2 : Z; w_nowSign : Z; w_nowLog : Z;
  w_now : Z; w_subgraph : option (list json); w_synth : option (res SynthesizedTime); w_meta : Mcp.subgraph_answer;
}.

(** The tool call a request makes: its name and its checked arguments. *)
Definition decode (tool : string) (args : list (jsstr * json)) (w : world) : option Mcp.call :=
  if (tool =? "pot_generate")%string then
    tx ← z_string (at_ args "txHash"); c ← z_number (at_ args "chainId"); p ← z_string (at_ args "poolAddress");
    Some (Mcp.Generate (w_fetch w) (w_nonce w) (w_now0 w) (w_now1 w) (w_now2 w) (w_nowSign w) (w_nowLog w) tx c p)
  else if (tool =? "pot_verify")%string then
    h ← z_string (at_ args "potHash"); sh ← z_strings (at_ args "grgShards"); c ← z_number (at_ args "chainId");
    p ← z_string (at_ args "poolAddress"); sg ← z_optional z_signature (at_ args "signature");
    Some (Mcp.Verify h sh c p sg (w_now w))
  else if (tool =? "pot_query")%string then
    a ← z_optional z_number (at_ args "startTime"); b ← z_optional z_number (at_ args "endTime");
    l ← z_optional z_number (at_ args "limit");
    Some (Mcp.Query a b l (w_subgraph w) (w_now w))
  else if (tool =? "pot_stats")%string then
    p ← z_enum ["day"; "week"; "month"]%string (at_ args "period"); Some (Mcp.Stats p (w_now w))
  else if (tool =? "pot_health")%string then Some (Mcp.Health (w_synth w) (w_meta w) (w_now w))
  else None.

(** [await tool(args)] and the JSON of its result. *)
Definition call_tool (c : Mcp.call) (s : state) : state * res json :=
  match c with
  | Mcp.Generate f n n0 n1 n2 ns nl tx ch pool =>
      let '(s, r) := Mcp.potGenerate keccak256 abi_encode processForward f n n0 n1 n2 ns nl tx ch pool s in
      (s, generate_json <$> r)
  | Mcp.Verify h sh ch pool sg now =>
      let '(s, r) := Mcp.potVerify processInverse h sh ch pool sg now s in (s, verify_json <$> r)
  | Mcp.Query a b l sub now => let '(s, r) := Mcp.potQuery a b l sub now s in (s, Ok (query_json r))
  | Mcp.Stats p now => let '(s, r) := Mcp.potStats p now s in (s, stats_json r)
  | Mcp.Health sy an now => let '(s, r) := Mcp.potHealth sy an now s in (s, Ok (health_json r))
  end.

(** What goes back: a JSON text, or the message of the error with [isError]. *)
Inductive content := JsonText (j : json) | ErrorText (e : exn).
Definition isError (c : content) : bool := match c with JsonText _ => false | ErrorText _ => true end.

Inductive answer := Refused | Answered (c : content).

(** One request: the handler catches what the tool throws. *)
Definition handle (tool : string) (args : json) (w : world) (s : state) : state * answer :=
  match z_object (Some args) ≫= fun fs => decode tool fs w with
  | None => (s, Refused)
  | Some c =>
      match call_tool c s with
      | (s, Ok j) => (s, Answered (JsonText j))
      | (s, Throw e) => (s, Answered (ErrorText e))
      end
  end.

Record request := { rq_tool : string; rq_args : json; rq_world : world }.
Definition run (l : list request) (s : state) : state :=
  foldl (fun s r => (handle (rq_tool r) (rq_args r) (rq_world r) s).1) s l.

(** ** What an agent does with an answer

    The request that verifies a generated proof, built from the JSON of the
    answer. *)
Definition verify_args (j : json) (chainId : num) (pool : jsstr) : json :=
  let get k := match get_field j k with Ok (Some v) => v | _ => JNull end in
  JObj [(js "potHash", get "potHash"%string); (js "grgShards", get "grgShards"%string); (js "chainId", JNum chainId);
        (js "poolAddress", JStr pool); (js "signature", get "signature"%string)].

Definition generate_args (txHash : jsstr) (chainId : num) (pool : jsstr) : json :=
  JObj [(js "txHash", JStr txHash); (js "chainId", JNum chainId); (js "poolAddress", JStr pool)].

(** ** Lemmas *)

Abbreviation tool_step := (Mcp.step keccak256 abi_encode processForward processInverse).

(** A tool answers from the state the tool call leads to. *)
Lemma call_tool_step c s : (call_tool c s).1 = tool_step c s.
Proof.
  destruct c; cbn [call_tool Mcp.step].
  - by destruct (Mcp.potGenerate _ _ _ _ _ _ _ _ _ _ _ _ _ _).
  - by destruct (Mcp.potVerify _ _ _ _ _ _ _ _).
  - by destruct (Mcp.potQuery _ _ _ _ _ _).
  - by destruct (Mcp.potStats _ _ _).
  - by destruct (Mcp.potHealth _ _ _ _).
Qed.

Definition request_call (r : request) : option Mcp.call :=
  z_object (Some (rq_args r)) ≫= fun fs => decode (rq_tool r) fs (rq_world r).

Lemma handle_step r s :
  (handle (rq_tool r) (rq_args r) (rq_world r) s).1
  = match request_call r with Some c => tool_step c s | None => s end.
Proof.
  unfold handle, request_call. destruct (mbind _ _) as [c|]; [|done].
  rewrite <- call_tool_step. by destruct (call_tool c s) as [s' [j|e]].
Qed.

Lemma run_tools l s :
  run l s = Mcp.run keccak256 abi_encode processForward processInverse (omap request_call l) s.
Proof.
  revert s. induction l as [|r l IH]; intros s; [done|]. cbn [run foldl]. unfold run in IH. rewrite IH, handle_step.
  cbn [omap list_omap]. by destruct (request_call r).
Qed.

Lemma z_strings_strs l : z_strings (Some (JArr (JStr <$> l))) = Some l.
Proof.
  unfold z_strings. induction l as [|s l IH]; [done|]. cbn [fmap list_fmap mapM]. cbn [z_string mbind option_bind].
  cbn [z_string] in IH. by rewrite IH.
Qed.

(** The request an agent builds from an answer is the tool call on the
    answer's fields. *)
Lemma decode_verify_args r chainId pool w :
  decode "pot_verify" match verify_args (generate_json r) chainId pool with JObj fs => fs | _ => [] end w
  = Some (Mcp.Verify (Mcp.gr_potHash r) (Mcp.gr_grgShards r) chainId pool
            (Some {| Mcp.sa_issuerPubKey := Mcp.gr_issuerPubKey r; Mcp.sa_signature := Mcp.gr_signature r;
                     Mcp.sa_issuedAt := Mcp.gr_issuedAt r |}) (w_now w)).
Proof.
  transitivity (sh ← z_strings (Some (JArr (JStr <$> Mcp.gr_grgShards r)));
    Some (Mcp.Verify (Mcp.gr_potHash r) sh chainId pool
            (Some {| Mcp.sa_issuerPubKey := Mcp.gr_issuerPubKey r; Mcp.sa_signature := Mcp.gr_signature r;
                     Mcp.sa_issuedAt := Mcp.gr_issuedAt r |}) (w_now w))); [reflexivity|].
  by rewrite z_strings_strs.
Qed.

(** ** Properties *)

(** The server is its tools: every request, malformed ones included, either
    is refused and changes nothing or is exactly one tool call on the decoded
    arguments, so that any sequence of requests ends in the state of the
    sequence of tool calls it decodes to; from a fresh server the log then
    holds at most 10,000 entries, each in mode FULL. *)
Lemma mcp_requests_refine_tools g now0 s l :
  Mcp.make g now0 = Ok s ->
  run l s = Mcp.run keccak256 abi_encode processForward processInverse (omap request_call l) s
  /\ (length (Mcp.potLog (run l s)) <= Mcp.POT_LOG_MAX)%nat
  /\ Forall (fun e => Mcp.ae_mode e = Adaptive.FULL) (Mcp.potLog (run l s)).
Proof.
  intros E. rewrite run_tools. split; [done|].
  by apply Mcp.mcp_make_inv, (Mcp.mcp_run_inv keccak256 abi_encode processForward processInverse
    (omap request_call l)) in E as (H1 & _ & H3 & _).
Qed.

Context `{!Signing.Ed25519Laws Priv Pub}.

(** C25: What the server generates it verifies, over the protocol: when the GRG
    pipeline recovers what it encoded, the JSON answer to a [pot_generate]
    request with a non-empty hash, pasted into a [pot_verify] request for the
    same chain and pool, is answered without an error, with valid and both
    checks true, by the same or any other server of the pipeline, whatever
    happened in between. *)
Theorem mcp_protocol_roundtrip txHash chainId pool w s s1 j w' s' :
  Mcp.inv s -> txHash <> [] ->
  (forall data shards, processForward data chainId pool = Ok shards ->
     processInverse shards 0 chainId pool = Ok data) ->
  handle "pot_generate" (generate_args txHash chainId pool) w s = (s1, Answered (JsonText j)) ->
  exists s2 j', handle "pot_verify" (verify_args j chainId pool) w' s' = (s2, Answered (JsonText j'))
    /\ get_field j' "valid" = Ok (Some (JBool true))
    /\ get_field j' "checks" = Ok (Some (JObj [(js "hmac", JBool true); (js "ed25519", JBool true)])).
Proof.
  intros Hinv Htx Hgrg Hgen. unfold handle in Hgen.
  change (z_object (Some (generate_args txHash chainId pool)) ≫= (fun fs => decode "pot_generate" fs w))
    with (Some (Mcp.Generate (w_fetch w) (w_nonce w) (w_now0 w) (w_now1 w) (w_now2 w) (w_nowSign w) (w_nowLog w)
                  txHash chainId pool)) in Hgen.
  cbn [call_tool] in Hgen. destruct (Mcp.potGenerate _ _ _ _ _ _ _ _ _ _ _ _ _ _) as [g [r|e]] eqn:Er;
    cbn [fmap result_fmap] in Hgen; [|done].
  injection Hgen as _ <-.
  destruct (Mcp.mcp_generate_then_verify _ _ _ _ _ _ _ _ _ _ _ _ _ _ _ _ _ (w_now w') s' Hinv Hgrg Htx Er)
    as (v & Hv & Hvalid & Hchecks).
  unfold handle. change (z_object (Some (verify_args (generate_json r) chainId pool)) ≫= (fun fs => decode "pot_verify" fs w'))
    with (decode "pot_verify" match verify_args (generate_json r) chainId pool with JObj fs => fs | _ => [] end w').
  rewrite decode_verify_args. cbn [call_tool].
  destruct (Mcp.potVerify _ _ _ _ _ _ _ _) as [s2 r2]. cbn [snd] in Hv. subst r2.
  exists s2, (verify_json v). split; [done|]. unfold verify_json. rewrite Hvalid, Hchecks.
  destruct (Mcp.vr_reason v); split; reflexivity.
Qed.

End Server.

(** ** Witnesses *)
#[local] Existing Instance Signing.toy.
#[local] Existing Instance Signing.toy_laws.

Definition ex_world : world :=
  {| w_fetch := Mcp.ex_answers; w_nonce := js "00ff"; w_now0 := 1710412800000; w_now1 := 1710412800001;
     w_now2 := 1710412800001; w_nowSign := 1710412800002; w_nowLog := 1710412800003; w_now := 1710412800004;
     w_subgraph := None; w_synth := None; w_meta := Mcp.Unreachable |}.

Definition ex_handle := handle to_hex (fun _ _ => Ok [bofZ 5; bofZ 6]) Mcp.ex_forward Mcp.ex_inverse (fun _ => Ok (js "iso")).

Lemma mcp_requests_refine_tools_witness :
  (length (Mcp.potLog (run to_hex (fun _ _ => Ok [bofZ 5]) Mcp.ex_forward Mcp.ex_inverse (fun _ => Ok (js "iso"))
     [{| rq_tool := "pot_stats"; rq_args := JObj []; rq_world := ex_world |};
      {| rq_tool := "pot_generate"; rq_args := generate_args (js "0xabc") (num_of_Z 8453) (js "0xpool"); rq_world := ex_world |}]
     Mcp.ex_server)) <= Mcp.POT_LOG_MAX)%nat.
Proof.
  refine (proj1 (proj2 (mcp_requests_refine_tools to_hex (fun _ _ => Ok [bofZ 5]) Mcp.ex_forward Mcp.ex_inverse
    (fun _ => Ok (js "iso")) (bofZ 7) 0 Mcp.ex_server _ _))).
  reflexivity.
Defined.

Lemma mcp_protocol_roundtrip_witness :
  exists j s2 j', (ex_handle "pot_generate" (generate_args (js "0xabc") (num_of_Z 8453) (js "0xpool")) ex_world Mcp.ex_server).2
                  = Answered (JsonText j)
    /\ ex_handle "pot_verify" (verify_args j (num_of_Z 8453) (js "0xpool")) ex_world Mcp.ex_server = (s2, Answered (JsonText j'))
    /\ get_field j' "valid" = Ok (Some (JBool true)).
Proof.
  destruct (ex_handle "pot_generate" (generate_args (js "0xabc") (num_of_Z 8453) (js "0xpool")) ex_world Mcp.ex_server)
    as [s1 [|[j|e]]] eqn:E; [exfalso; vm_compute in E; discriminate E| |exfalso; vm_compute in E; discriminate E].
  exists j. unfold ex_handle in *.
  destruct (mcp_protocol_roundtrip to_hex (fun _ _ => Ok [bofZ 5; bofZ 6]) Mcp.ex_forward Mcp.ex_inverse
    (fun _ => Ok (js "iso")) (js "0xabc") (num_of_Z 8453) (js "0xpool") ex_world Mcp.ex_server s1 j ex_world Mcp.ex_server)
    as (s2 & j' & E2 & E3 & _); [|discriminate| |exact E|].
  - split_and!; [apply Nat.leb_le; reflexivity|reflexivity|constructor|split; reflexivity].
  - intros data shards [= <-]. unfold Mcp.ex_inverse. f_equal. induction data as [|b data IH]; [done|]. csimpl. by rewrite IH.
  - exists s2, j'. split_and!; [reflexivity|exact E2|exact E3].
Defined.

End Server.
