(* ===== verification/ElizaPlugin.v ===== *)
(** * ElizaOS plugin (src/plugins/elizaos-plugin-openttt/src)

    The agent plugin: verified time from four Date headers, the bounded cache
    of tokens, and the actions that generate, verify and query them.  The
    PotSigner is the repository's; SHA-256, Date parsing and the clock are
    parameters.  The properties: what the consensus guarantees, the cache's
    bounds, that the generate action cannot succeed with a signature that holds
    a BigInt, and exactly what the verify action checks. *)
From Stdlib Require Import ZArith Lia String Strings.Byte Floats.SpecFloat.
From stdpp Require Import base list numbers option sorting strings.
From S2P Require Import Prelude JSString Errors Bytes JSNum JSMap Json Types Median PotSigner.

Module Eliza.

(** ** providers/timeProvider.ts *)

Record VerifiedTime := {
  vt_timestamp : Z; vt_sources : list jsstr; vt_consensus : bool; vt_deviation_ms : Z;
}.

(** What [fetchTimeFromSource] makes of an answer: [None] when the request
    throws, otherwise the Date header. *)
Definition fetchTimeFromSource (date_parse : jsstr -> option Z) (answer : option (option jsstr)) : option Z :=
  match answer with
  | None | Some None | Some (Some []) => None
  | Some (Some d) => date_parse d
  end.

Definition source_labels : list jsstr := [js "NIST"; js "Apple"; js "Google"; js "Cloudflare"].

(** [timestamps.sort((a, b) => a - b)] *)
Definition sort_ts (l : list Z) : list Z := merge_sort Z.le l.

(** The middle, or the two middle values averaged and rounded half up. *)
Definition median_ts (timestamps : list Z) : Z :=
  let n := length timestamps in
  let mid := (n / 2)%nat in
  let at_ i := default 0 (timestamps !! i) in
  if Nat.even n then (at_ (mid - 1)%nat + at_ mid + 1) / 2 else at_ mid.

(** [Math.max(...timestamps.map(t => Math.abs(t - median)))] *)
Definition max_deviation (median : Z) (l : list Z) : Z := foldr (fun t m => Z.max (Z.abs (t - median)) m) 0 l.

(** [answers]: the label and the parsed time of each source, in order; [now]
    the clock of the fallback. *)
Definition getVerifiedTime (answers : list (jsstr * option Z)) (now : Z) : VerifiedTime :=
  let valid := omap (fun a => match a.2 with Some ts => Some (a.1, ts) | None => None end) answers in
  if (length valid <? 2)%nat
  then {| vt_timestamp := now; vt_sources := [js "local"]; vt_consensus := false; vt_deviation_ms := 0 |}
  else
    let timestamps := sort_ts valid.*2 in
    let median := median_ts timestamps in
    let maxDeviation := max_deviation median timestamps in
    {| vt_timestamp := median; vt_sources := valid.*1; vt_consensus := maxDeviation <? 2000;
       vt_deviation_ms := maxDeviation |}.

(** ** The token cache (actions/generatePot.ts) *)

Record PoTToken := {
  pt_version : jsstr; pt_timestamp : num; pt_sources : list jsstr; pt_consensus : bool;
  pt_deviation_ms : num; pt_agent_id : jsstr; pt_nonce : jsstr; pt_potHash : jsstr;
  pt_issued_at : jsstr; pt_signature : option PotSignature;
}.

(** A cached text, represented by the token it is the JSON of, or a hash. *)
Inductive cached := CToken (pot : PoTToken) | CHash (h : jsstr).
Record entry := { ce_value : cached; ce_expiresAt : Z }.
Abbreviation cache := (jsmap jsstr entry).

Definition MAX_CACHE_SIZE : Z := 1000.

Definition potCacheSet (key : jsstr) (value : cached) (ttlSeconds now : Z) (c : cache) : cache :=
  let c := if MAX_CACHE_SIZE <=? jm_size c
           then match jm_oldest c with Some k => jm_delete c k | None => c end
           else c in
  jm_set c key {| ce_value := value; ce_expiresAt := now + ttlSeconds * 1000 |}.

Definition potCacheGet (key : jsstr) (now : Z) (c : cache) : cache * option cached :=
  match jm_get c key with
  | None => (c, None)
  | Some e => if ce_expiresAt e <? now then (jm_delete c key, None) else (c, Some (ce_value e))
  end.

(** The interval callback. *)
Definition sweep (now : Z) (c : cache) : cache := jm_prune (fun _ e => ce_expiresAt e <? now) c.

(** ** JSON.stringify

    A value with Numbers, strings, booleans, arrays and objects has a JSON
    text; a BigInt throws a TypeError. *)
Inductive jsval :=
| VBig (z : Z) | VNum (x : num) | VStr (s : jsstr) | VBool (b : bool)
| VArr (l : list jsval) | VObj (fs : list (string * jsval)).

Fixpoint JSON_stringify (v : jsval) : res json :=
  match v with
  | VBig _ => Throw TypeError
  | VNum x => Ok (json_num x)
  | VStr s => Ok (JStr s)
  | VBool b => Ok (JBool b)
  | VArr l => JArr <$> res_map JSON_stringify l
  | VObj fs => JObj <$> res_map (fun f => pair (js f.1) <$> JSON_stringify f.2) fs
  end.

(** The objects of the sources as values. *)
Definition val_of_signature (s : PotSignature) : jsval :=
  VObj [("issuerPubKey"%string, VStr (ps_issuerPubKey s)); ("signature"%string, VStr (ps_signature s));
        ("issuedAt"%string, VBig (ps_issuedAt s))].
Definition val_of_token (p : PoTToken) : jsval :=
  VObj ([("version"%string, VStr (pt_version p)); ("timestamp"%string, VNum (pt_timestamp p));
         ("sources"%string, VArr (VStr <$> pt_sources p)); ("consensus"%string, VBool (pt_consensus p));
         ("deviation_ms"%string, VNum (pt_deviation_ms p)); ("agent_id"%string, VStr (pt_agent_id p));
         ("nonce"%string, VStr (pt_nonce p)); ("potHash"%string, VStr (pt_potHash p));
         ("issued_at"%string, VStr (pt_issued_at p))]
        ++ match pt_signature p with Some s => [("signature"%string, val_of_signature s)] | None => [] end).

(** ** Actions *)

(** [text.match(/\b([0-9a-f]{32,})\b/i)]: a match is a whole word of at least 32
    hex digits; the first one is taken. *)
Definition is_word (c : Z) : bool :=
  is_digit c || ((65 <=? c) && (c <=? 90)) || ((97 <=? c) && (c <=? 122)) || (c =? 95).
Definition is_hex (c : Z) : bool :=
  is_digit c || ((65 <=? c) && (c <=? 70)) || ((97 <=? c) && (c <=? 102)).
Fixpoint words (cur s : jsstr) : list jsstr :=
  match s with
  | [] => [cur]
  | c :: s' => if is_word c then words (cur ++ [c]) s' else cur :: words [] s'
  end.
Definition match_hash (text : jsstr) : option jsstr :=
  head (bfilter (fun w => (32 <=? length w)%nat && forallb is_hex w) (words [] text)).

Definition pot_key (h : jsstr) : jsstr := js "openttt:pot:" ++ h.
Definition last_key (agent : jsstr) : jsstr := js "openttt:last:" ++ agent.

(** [potCacheGet(key)] and the parse of a token. *)
Definition get_token (h : jsstr) (now : Z) (c : cache) : cache * option PoTToken :=
  let '(c, v) := potCacheGet (pot_key h) now c in
  (c, match v with Some (CToken p) => Some p | _ => None end).

(** The lookup shared by the verify and query actions: the hash of the options
    or of the text, then the last hash of the agent. *)
Definition lookup_pot (pot_hash text agentId : option jsstr) (now : Z) (c : cache) : cache * option PoTToken :=
  let resolvedHash := match pot_hash with Some h => Some h | None => match_hash (default [] text) end in
  let '(c, pot) := match resolvedHash with
                   | Some (u :: h) => get_token (u :: h) now c
                   | _ => (c, None)
                   end in
  match pot with
  | Some p => (c, Some p)
  | None =>
      let '(c, lastHash) := potCacheGet (last_key (default (js "unknown") agentId)) now c in
      match lastHash with
      | Some (CHash (u :: h)) => get_token (u :: h) now c
      | _ => (c, None)
      end
  end.

Section Actions.
Context {Priv Pub : Type} `{Crypto : Signing.Ed25519 Priv Pub}.
Variable sha256 : Buffer -> Buffer.
Variable toISOString : Z -> res jsstr.

Definition potHash_of (agentId : jsstr) (vt : VerifiedTime) (nonce : jsstr) : jsstr :=
  to_hex (sha256 (utf8_encode
    (agentId ++ js ":" ++ z_to_dec (vt_timestamp vt) ++ js ":" ++ join (js ",") (vt_sources vt) ++ js ":" ++ nonce))).

(** The handler of GENERATE_POT: [Throw] is the caught error it reports with
    success false. *)
Definition generatePot (signer : Signing.t (Priv := Priv) (Pub := Pub)) (agentId : option jsstr)
    (vt : VerifiedTime) (nonce : jsstr) (now : Z) (c : cache) : cache * res PoTToken :=
  let agentId := default (js "unknown") agentId in
  let potHash := potHash_of agentId vt nonce in
  let signature := Signing.signPot potHash now signer in
  match (issued_at ← toISOString (vt_timestamp vt);
         let pot := {| pt_version := js "1.0"; pt_timestamp := num_of_Z (vt_timestamp vt);
                       pt_sources := vt_sources vt; pt_consensus := vt_consensus vt;
                       pt_deviation_ms := num_of_Z (vt_deviation_ms vt); pt_agent_id := agentId;
                       pt_nonce := nonce; pt_potHash := potHash; pt_issued_at := issued_at;
                       pt_signature := Some signature |} in
         _ ← JSON_stringify (val_of_token pot);
         Ok pot) with
  | Throw e => (c, Throw e)
  | Ok pot =>
      let c := potCacheSet (pot_key potHash) (CToken pot) 300 now c in
      (potCacheSet (last_key agentId) (CHash potHash) 300 now c, Ok pot)
  end.

Definition POT_MAX_AGE_MS : Z := 300000.

Inductive verify_result :=
| NoToken | NoSignature | BadSignature
| Expired (age : num) | Future (age : num) | Valid (age : num).

(** The checks of VERIFY_POT on a token; [vt] is the time verified after the
    signature. *)
Definition check_token (vt : VerifiedTime) (pot : PoTToken) : verify_result :=
  match pt_signature pot with
  | None => NoSignature
  | Some sg =>
      if negb (Signing.verifyPotSignature (pt_potHash pot) sg None) then BadSignature
      else
        let age_ms := nsub (num_of_Z (vt_timestamp vt)) (pt_timestamp pot) in
        if nlt (num_of_Z POT_MAX_AGE_MS) age_ms then Expired age_ms
        else if nlt age_ms num_0 then Future age_ms
        else Valid age_ms
  end.

(** The handler: a token in the options is used as it is. *)
Definition verifyPot (pot : option PoTToken) (pot_hash text agentId : option jsstr) (vt : VerifiedTime) (now : Z)
    (c : cache) : cache * verify_result :=
  let '(c, pot) := match pot with Some p => (c, Some p) | None => lookup_pot pot_hash text agentId now c end in
  (c, match pot with None => NoToken | Some p => check_token vt p end).

(** QUERY_POT: the token and its age. *)
Definition queryPot (pot_hash text agentId : option jsstr) (now : Z) (c : cache) : cache * option (PoTToken * num) :=
  let '(c, pot) := lookup_pot pot_hash text agentId now c in
  (c, (fun p => (p, nsub (num_of_Z now) (pt_timestamp p))) <$> pot).

(** The coverage evaluator looks the token up under the message id. *)
Definition tradeKeywords : list jsstr :=
  [js "trade"; js "swap"; js "buy"; js "sell"; js "submit"; js "execute"; js "transaction"; js "transfer";
   js "order"; js "sign"; js "broadcast"].
Definition evaluator_validate (text : option jsstr) : bool :=
  existsb (fun kw => includes kw (to_lower (default [] text))) tradeKeywords.
Definition evaluator_covered (messageId : jsstr) (now : Z) (c : cache) : cache * bool :=
  let '(c, pot) := get_token messageId now c in (c, match pot with Some _ => true | None => false end).

(** ** Histories *)

Inductive call :=
| Generate (signer : Signing.t (Priv := Priv) (Pub := Pub)) (agentId : option jsstr) (vt : VerifiedTime)
    (nonce : jsstr) (now : Z)
| Verify (pot : option PoTToken) (pot_hash text agentId : option jsstr) (vt : VerifiedTime) (now : Z)
| Query (pot_hash text agentId : option jsstr) (now : Z)
| Evaluate (messageId : jsstr) (now : Z)
| Sweep (now : Z).

Definition step (x : call) (c : cache) : cache :=
  match x with
  | Generate s a vt n now => (generatePot s a vt n now c).1
  | Verify p h tx a vt now => (verifyPot p h tx a vt now c).1
  | Query h tx a now => (queryPot h tx a now c).1
  | Evaluate m now => (evaluator_covered m now c).1
  | Sweep now => sweep now c
  end.
Definition run (l : list call) (c : cache) : cache := foldl (fun c x => step x c) c l.

(** ** Lemmas *)

Lemma stringify_strings l : res_map JSON_stringify (VStr <$> l) = Ok (JStr <$> l).
Proof. induction l as [|s l IH]; [done|]. csimpl. by rewrite IH. Qed.

(** [JSON.stringify] of a token with a signature throws. *)
Lemma stringify_signed p s : pt_signature p = Some s -> JSON_stringify (val_of_token p) = Throw TypeError.
Proof.
  intros E. unfold val_of_token. rewrite E. cbn [JSON_stringify app res_map fst snd].
  rewrite stringify_strings. done.
Qed.

Lemma generatePot_throws signer a vt n now c :
  (generatePot signer a vt n now c).1 = c /\ is_ok (generatePot signer a vt n now c).2 = false.
Proof.
  unfold generatePot. destruct (toISOString _) as [iso|e]; [|done]. cbn [mbind result_bind].
  by erewrite stringify_signed by reflexivity.
Qed.

Lemma lookup_empty h tx a now : lookup_pot h tx a now [] = ([], None).
Proof.
  unfold lookup_pot. destruct (match h with Some _ => _ | None => _ end) as [[|u r]|]; done.
Qed.

Lemma run_empty l : run l [] = [].
Proof.
  induction l as [|x l IH]; [done|]. cbn [run foldl].
  assert (step x [] = []) as ->; [|done].
  destruct x as [s a vt n now|p h tx a vt now|h tx a now|m now|now]; cbn [step].
  - by apply generatePot_throws.
  - unfold verifyPot. destruct p; [done|]. by rewrite lookup_empty.
  - unfold queryPot. by rewrite lookup_empty.
  - done.
  - done.
Qed.

Lemma max_deviation_spec m l :
  0 <= max_deviation m l /\ forall b, 0 <= b -> max_deviation m l <= b <-> Forall (fun t => Z.abs (t - m) <= b) l.
Proof.
  induction l as [|t l [IH0 IH]]; cbn [max_deviation foldr].
  - split; [done|]. intros b Hb. split; [constructor|done].
  - fold (max_deviation m l). split; [lia|]. intros b Hb. rewrite Forall_cons, <- IH by done. lia.
Qed.

Lemma count_perm {A} (p : A -> bool) l1 l2 : l1 ≡ₚ l2 -> count p l1 = count p l2.
Proof.
  unfold count. induction 1 as [|x l1 l2 _ IH|x y l|l1 l2 l3 _ IH1 _ IH2]; cbn [bfilter]; [done| | |congruence].
  - destruct (p x); cbn [length]; lia.
  - by destruct (p x), (p y).
Qed.

Definition in_range (lo hi t : Z) : bool := (lo <=? t) && (t <=? hi).

(** The middle elements of a sorted list lie in any interval that holds a
    majority of it. *)
Lemma middle_majority l (i : nat) x lo hi :
  StronglySorted Z.le l -> l !! i = Some x ->
  (length l <= 2 * i + 2)%nat -> (2 * i <= length l)%nat ->
  (length l < 2 * count (in_range lo hi) l)%nat -> lo <= x <= hi.
Proof.
  intros Hs Hx H1 H2 Hmaj. pose proof Hx as Hlt. apply lookup_lt_Some in Hlt.
  assert (Forall (fun y => y <= x) (take (S i) l) /\ Forall (fun y => x <= y) (drop i l)) as [Hlow Hhigh].
  { rewrite <- (take_drop_middle l i x Hx) in Hs. apply StronglySorted_app in Hs as (Hall & _ & Hr).
    apply StronglySorted_inv in Hr as [_ Hr]. split.
    - rewrite (take_S_r _ _ _ Hx). apply Forall_app. split; [|by constructor].
      apply Forall_forall. intros y Hy. apply (Hall y x Hy). left.
    - rewrite (drop_S _ _ _ Hx). by constructor. }
  split; apply Z.nlt_ge; intros Hbad.
  - assert (count (in_range lo hi) l <= length l - S i)%nat; [|lia].
    apply count_take_none. eapply Forall_impl; [exact Hlow|]. intros y Hy. cbv beta in Hy. unfold in_range. apply andb_false_intro1, Z.leb_gt. lia.
  - assert (count (in_range lo hi) l <= i)%nat; [|lia].
    apply count_drop_none. eapply Forall_impl; [exact Hhigh|]. intros y Hy. cbv beta in Hy. unfold in_range. apply andb_false_intro2, Z.leb_gt. lia.
Qed.

Lemma median_majority l lo hi :
  StronglySorted Z.le l -> (length l < 2 * count (in_range lo hi) l)%nat ->
  lo <= median_ts l <= hi.
Proof.
  intros Hs Hmaj. assert (0 < length l)%nat as Hn.
  { pose proof (count_le (in_range lo hi) l). lia. }
  pose proof (Nat.div_mod_eq (length l) 2). pose proof (Nat.mod_upper_bound (length l) 2 ltac:(lia)).
  destruct (lookup_lt_is_Some_2 l (length l / 2)) as [b Hb]; [lia|].
  pose proof (middle_majority l _ b lo hi Hs Hb ltac:(lia) ltac:(lia) Hmaj) as Bb.
  unfold median_ts. rewrite Hb. destruct (Nat.even (length l)) eqn:Ev; [|done].
  apply Nat.even_spec in Ev as [k Hk].
  destruct (lookup_lt_is_Some_2 l (length l / 2 - 1)) as [a Ha]; [lia|]. rewrite Ha. cbn [from_option id].
  pose proof (middle_majority l _ a lo hi Hs Ha ltac:(lia) ltac:(lia) Hmaj) as Ba.
  split; [apply Z.div_le_lower_bound; lia|]. apply Z.lt_succ_r, Z.div_lt_upper_bound; lia.
Qed.

(** A Number minus itself. *)
Lemma nsub_diag x : json_safe x = true -> nsub x x = num_0.
Proof.
  destruct x as [s| | |s m e]; try done; [by destruct s|]. intros _.
  unfold nsub, SFsub. rewrite Z.min_id, Z.sub_diag. done.
Qed.

(** ** Properties *)

(** [getVerifiedTime] on at least two answers reports the median with the
    largest deviation from it: every answer is within that deviation, consensus
    holds exactly when all are within two seconds of the median, and the median
    lies in any interval that holds a majority of the answers. *)
Lemma eliza_verified_time_spec answers now :
  let valid := (omap (fun a => match a.2 with Some ts => Some (a.1, ts) | None => None end) answers).*2 in
  let vt := getVerifiedTime answers now in
  (2 <= length valid)%nat ->
  Forall (fun ts => Z.abs (ts - vt_timestamp vt) <= vt_deviation_ms vt) valid
  /\ (vt_consensus vt = true <-> Forall (fun ts => Z.abs (ts - vt_timestamp vt) < 2000) valid)
  /\ (forall lo hi, (length valid < 2 * count (in_range lo hi) valid)%nat -> lo <= vt_timestamp vt <= hi).
Proof.
  cbv zeta. unfold getVerifiedTime. set (v := omap _ answers). rewrite length_fmap. intros Hn.
  destruct (Nat.ltb_spec (length v) 2); [lia|]. cbn [vt_timestamp vt_deviation_ms vt_consensus].
  set (l := v.*2). pose proof (merge_sort_Permutation Z.le l) as Hp. fold (sort_ts l) in Hp.
  destruct (max_deviation_spec (median_ts (sort_ts l)) (sort_ts l)) as [H0 Hspec].
  assert (forall P, Forall P l <-> Forall P (sort_ts l)) as HF by (intros P; by rewrite Hp).
  split_and!.
  - apply HF. by apply Hspec.
  - rewrite Z.ltb_lt, HF, (Z.lt_le_pred _ 2000), Hspec by lia.
    apply Forall_iff. intros t. lia.
  - intros lo hi Hc. apply median_majority; [apply (StronglySorted_merge_sort Z.le)|].
    rewrite (count_perm _ _ _ Hp). apply Permutation_length in Hp.
    unfold l in *. rewrite length_fmap in Hp. lia.
Qed.

(** C26: GENERATE_POT never succeeds: with the repository's PotSigner, whose
    signatures hold a BigInt, [JSON.stringify] of the token throws, so after any
    history of the plugin from its start the cache is empty, every generate
    reports failure, and verifying or querying without a token in the options
    finds none. *)
Theorem eliza_generate_never_succeeds l signer agentId vt nonce now pot_hash text :
  let c := run l [] in
  c = []
  /\ is_ok (generatePot signer agentId vt nonce now c).2 = false
  /\ (verifyPot None pot_hash text agentId vt now c).2 = NoToken
  /\ (queryPot pot_hash text agentId now c).2 = None.
Proof.
  cbv zeta. rewrite run_empty. split_and!; [done|by apply generatePot_throws| |].
  - unfold verifyPot. by rewrite lookup_empty.
  - unfold queryPot. by rewrite lookup_empty.
Qed.

(** VERIFY_POT accepts a token exactly when it has a signature that verifies
    over its potHash and its timestamp is neither older than five minutes nor in
    the future; nothing ties the potHash to the timestamp, so any token that was
    ever signed is accepted again with the current time written into it. *)
Lemma eliza_verify_accepts_iff vt pot :
  (exists age, check_token vt pot = Valid age)
  <-> (exists sg, pt_signature pot = Some sg /\ Signing.verifyPotSignature (pt_potHash pot) sg None = true)
      /\ nlt (num_of_Z POT_MAX_AGE_MS) (nsub (num_of_Z (vt_timestamp vt)) (pt_timestamp pot)) = false
      /\ nlt (nsub (num_of_Z (vt_timestamp vt)) (pt_timestamp pot)) num_0 = false.
Proof.
  unfold check_token. destruct (pt_signature pot) as [sg|].
  2: { split; [by intros [? ?]|]. by intros [(? & ? & _) _]. }
  destruct (Signing.verifyPotSignature _ sg None) eqn:E; cbn [negb].
  2: { split; [by intros [? ?]|]. intros [(? & [= <-] & ?) _]. congruence. }
  destruct (nlt _ (nsub _ _)); [split; [by intros [? ?]|by intros (_ & ? & _)]|].
  destruct (nlt _ num_0); [split; [by intros [? ?]|by intros (_ & _ & ?)]|].
  split; [|by eexists]. intros _. split_and!; [|done..]. by exists sg.
Qed.

Definition with_timestamp (ts : num) (p : PoTToken) : PoTToken :=
  {| pt_version := pt_version p; pt_timestamp := ts; pt_sources := pt_sources p; pt_consensus := pt_consensus p;
     pt_deviation_ms := pt_deviation_ms p; pt_agent_id := pt_agent_id p; pt_nonce := pt_nonce p;
     pt_potHash := pt_potHash p; pt_issued_at := pt_issued_at p; pt_signature := pt_signature p |}.

(** An expired token is accepted once its timestamp is rewritten: only the
    potHash is signed and nothing recomputes it from the fields. *)
Lemma eliza_expired_token_refreshed vt pot sg :
  pt_signature pot = Some sg -> Signing.verifyPotSignature (pt_potHash pot) sg None = true ->
  json_safe (num_of_Z (vt_timestamp vt)) = true ->
  check_token vt (with_timestamp (num_of_Z (vt_timestamp vt)) pot) = Valid num_0.
Proof.
  intros Hs Hv Hsafe. unfold check_token. cbn [pt_signature with_timestamp pt_potHash pt_timestamp].
  rewrite Hs, Hv. cbn [negb]. rewrite nsub_diag by done. done.
Qed.

(** The token cache keeps at most a thousand entries, one per key, over any
    sequence of writes, reads and sweeps; a value is read back within its time
    to live and is gone after it. *)
Lemma eliza_cache_spec key value ttl now c :
  jm_ok c -> jm_size c <= MAX_CACHE_SIZE ->
  let c' := potCacheSet key value ttl now c in
  jm_ok c' /\ jm_size c' <= MAX_CACHE_SIZE
  /\ (forall key' now', let g := potCacheGet key' now' c' in
        jm_ok g.1 /\ jm_size g.1 <= MAX_CACHE_SIZE /\ jm_size (sweep now' c') <= MAX_CACHE_SIZE)
  /\ (forall now', (potCacheGet key now' c').2 = if now + ttl * 1000 <? now' then None else Some value).
Proof.
  intros Hok Hsz c'. assert (jm_ok c' /\ jm_size c' <= MAX_CACHE_SIZE) as [H1 H2].
  { unfold c', potCacheSet. rewrite jm_size_set.
    destruct (Z.leb_spec MAX_CACHE_SIZE (jm_size c)) as [Hle|Hlt].
    - destruct c as [|[k v] m]; [unfold MAX_CACHE_SIZE, jm_size in *; simpl in *; lia|].
      unfold jm_oldest. csimpl. rewrite jm_delete_head by done.
      assert (jm_ok m) as Hm by (unfold jm_ok, jm_keys in *; csimpl in Hok; by apply NoDup_cons in Hok as [_ ?]).
      split; [by apply jm_ok_set|]. assert (jm_size ((k, v) :: m) = jm_size m + 1) by (unfold jm_size; simpl; lia).
      destruct (jm_has m key); lia.
    - split; [by apply jm_ok_set|]. destruct (jm_has c key); lia. }
  split_and!; [done..| |].
  - intros key' now'. cbv zeta. unfold potCacheGet, sweep. pose proof (jm_size_prune (fun _ e => ce_expiresAt e <? now') c').
    destruct (jm_get c' key') as [e|]; [|split_and!; [done..|lia]].
    destruct (_ <? _); [|split_and!; [done..|lia]]. split_and!; [by apply jm_ok_delete| |lia].
    unfold jm_size, jm_delete. pose proof (bfilter_length (fun p => negb (bool_decide (p.1 = key'))) c').
    unfold jm_size in H2. cbn [fst]. lia.
  - intros now'. unfold potCacheGet, c', potCacheSet. rewrite jm_get_set_eq. cbn [ce_expiresAt ce_value].
    by destruct (_ <? _).
Qed.

End Actions.

(** ** Witnesses *)

#[local] Existing Instance Signing.toy.
#[local] Existing Instance Signing.toy_laws.

Definition ex_token : PoTToken :=
  {| pt_version := js "1.0"; pt_timestamp := num_of_Z 1000; pt_sources := [js "NIST"]; pt_consensus := true;
     pt_deviation_ms := num_0; pt_agent_id := js "a"; pt_nonce := js "00"; pt_potHash := js "ab";
     pt_issued_at := js "t"; pt_signature := Some (Signing.signPot (js "ab") 1000 Signing.ex_signer) |}.
Definition ex_vt : VerifiedTime :=
  {| vt_timestamp := 1710412800000; vt_sources := [js "NIST"]; vt_consensus := true; vt_deviation_ms := 0 |}.
Definition ex_answers : list (jsstr * option Z) :=
  [(js "NIST", Some 5000); (js "Apple", Some 99999); (js "Google", Some 4000); (js "Cloudflare", Some 6000)].

Definition ex_times : list Z := [5000; 99999; 4000; 6000].

Lemma eliza_verified_time_spec_witness :
  Forall (fun ts => Z.abs (ts - 5500) <= 94499) ex_times
  /\ (false = true <-> Forall (fun ts => Z.abs (ts - 5500) < 2000) ex_times)
  /\ (forall lo hi, (4 < 2 * count (in_range lo hi) ex_times)%nat -> lo <= 5500 <= hi).
Proof. apply (eliza_verified_time_spec ex_answers 0). cbn. lia. Defined.

Lemma eliza_expired_token_refreshed_witness :
  check_token ex_vt ex_token = Expired (num_of_Z 1710412799000)
  /\ check_token ex_vt (with_timestamp (num_of_Z 1710412800000) ex_token) = Valid num_0.
Proof.
  split; [vm_compute; reflexivity|].
  apply (eliza_expired_token_refreshed ex_vt ex_token (Signing.signPot (js "ab") 1000 Signing.ex_signer));
    vm_compute; reflexivity.
Defined.

Lemma eliza_cache_spec_witness :
  (potCacheGet (js "k") 301000 (potCacheSet (js "k") (CHash (js "h")) 300 1000 [])).2 = Some (CHash (js "h"))
  /\ (potCacheGet (js "k") 301001 (potCacheSet (js "k") (CHash (js "h")) 300 1000 [])).2 = None.
Proof.
  destruct (eliza_cache_spec (js "k") (CHash (js "h")) 300 1000 []) as (_ & _ & _ & H);
    [constructor|cbv; discriminate|].
  split; [apply (H 301000)|apply (H 301001)].
Defined.

End Eliza.
