(* ===== verification/ElizaActions.v ===== *)
(** * The actions of the ElizaOS plugin as the runtime sees them
    (src/plugins/elizaos-plugin-openttt/src: actions, provider, index.ts)

    ElizaPlugin.v models what the handlers decide; here are the handlers
    themselves: the texts, the calls of the runtime's callback, the results and
    the [catch] that answers a throw with another callback.  The property is the
    contract of an action: what it returns is what it last said. *)
From Stdlib Require Import ZArith Lia String Floats.SpecFloat.
From stdpp Require Import base list numbers option strings.
From S2P Require Import Prelude JSString Errors Bytes JSNum NumText JSMap Types PotSigner ElizaPlugin.

Module Actions.
Import Eliza.

(** ** Results and replies *)

(** The object VERIFY_POT reports. *)
Record VerifyResult := {
  vo_valid : bool; vo_reason : jsstr; vo_pot : option PoTToken; vo_age_ms : option num; vo_current_time : option num;
}.

Inductive content := OfPot (pot : option PoTToken) | OfResult (r : VerifyResult) | OfError (message : jsstr).
Record reply := { rp_text : jsstr; rp_content : content }.

Record ActionResult := { ar_success : bool; ar_text : option jsstr; ar_error : option jsstr; ar_data : option content }.

(** The tokens and the replies handed to the callback. *)
Record t := { tokens : cache; sent : list reply }.

Definition lines (l : list jsstr) : jsstr := join [10] l.
Definition check_mark (consensus : bool) : jsstr :=
  if consensus then [10003] ++ js " CONSENSUS" else [9888] ++ js " DEGRADED".
Definition seconds (ms : num) : jsstr := num_to_string (nround (ndiv ms (num_of_Z 1000))).
Definition minutes (ms : num) : jsstr := num_to_string (nround (ndiv ms (num_of_Z 60000))).

(** ** Provider and validators *)

Record ProviderResult := {
  pr_text : jsstr; pr_timestamp : Z; pr_iso : jsstr; pr_sources : jsstr; pr_consensus : jsstr; pr_deviation : Z;
}.

(** [timeProvider.get] *)
Definition provider_get (toISOString : Z -> res jsstr) (vt : VerifiedTime) : res ProviderResult :=
  iso ← toISOString (vt_timestamp vt);
  let sourceList := join (js ", ") (vt_sources vt) in
  let label := if vt_consensus vt then js "CONSENSUS" else js "DEGRADED" in
  Ok {| pr_text := lines [js "[OpenTTT TimeProvider]"; js "Verified Time: " ++ iso; js "Sources: " ++ sourceList;
                          js "Consensus: " ++ label;
                          js "Max Deviation: " ++ z_to_dec (vt_deviation_ms vt) ++ js "ms"];
        pr_timestamp := vt_timestamp vt; pr_iso := iso; pr_sources := sourceList; pr_consensus := label;
        pr_deviation := vt_deviation_ms vt |}.

(** [validate] of the three actions. *)
Definition validate : bool := true.

(** ** Handlers *)

Section Handlers.
Context {Priv Pub : Type} `{Crypto : Signing.Ed25519 Priv Pub}.
Variable sha256 : Buffer -> Buffer.
Variable toISOString : Z -> res jsstr.
(** [err.message]; the texts of engine errors are the engine's. *)
Variable message_of : exn -> jsstr.
(** The runtime's callback, when there is one; it may throw. *)
Variable callback : option (reply -> res unit).

(** [if (callback) await callback(r)] *)
Definition say (r : reply) : comp exn t unit := fun s =>
  match callback with
  | None => (s, Ok ())
  | Some f => ({| tokens := tokens s; sent := sent s ++ [r] |}, f r)
  end.

Definition failed (message : jsstr) : ActionResult :=
  {| ar_success := false; ar_text := None; ar_error := Some message; ar_data := None |}.

(** [try { body } catch (err) { ... }] *)
Definition attempt (what : string) (body : comp exn t ActionResult) : comp exn t ActionResult := fun s =>
  match body s with
  | (s, Ok a) => (s, Ok a)
  | (s, Throw e) =>
      (_ ← say {| rp_text := js what ++ js ": " ++ message_of e; rp_content := OfError (message_of e) |};
       mret (failed (message_of e))) s
  end.

Definition with_tokens {A} (f : cache -> cache * A) : comp exn t A := fun s =>
  let '(c, a) := f (tokens s) in ({| tokens := c; sent := sent s |}, Ok a).
Definition lift {A} (r : res A) : comp exn t A := fun s => (s, r).

(** GENERATE_POT *)
Definition generate_text (pot : PoTToken) : jsstr :=
  lines [js "Proof-of-Time generated successfully."; []; js "Token Details:";
         js "  Timestamp : " ++ pt_issued_at pot; js "  Sources   : " ++ join (js ", ") (pt_sources pot);
         js "  Consensus : " ++ check_mark (pt_consensus pot);
         js "  Deviation : " ++ num_to_string (pt_deviation_ms pot) ++ js "ms"; js "  Nonce     : " ++ pt_nonce pot; [];
         js "This PoT token is valid for 5 minutes. Attach it to your transaction before submitting."].

Definition generate_handler (signer : Signing.t (Priv := Priv) (Pub := Pub)) (agentId : option jsstr)
    (vt : VerifiedTime) (nonce : jsstr) (now : Z) : comp exn t ActionResult :=
  attempt "Failed to generate Proof-of-Time"
    (pot ← with_tokens (generatePot sha256 toISOString signer agentId vt nonce now);
     pot ← lift pot;
     _ ← say {| rp_text := generate_text pot; rp_content := OfPot (Some pot) |};
     mret {| ar_success := true; ar_text := Some (generate_text pot); ar_error := None;
             ar_data := Some (OfPot (Some pot)) |}).

(** VERIFY_POT: the reported object of a verdict. *)
Definition reason_of (v : verify_result) : jsstr :=
  match v with
  | NoToken => js "No PoT token found for this transaction. Generate one first with GENERATE_POT."
  | NoSignature => js "PoT token has no signature. Token was not generated by a trusted issuer."
  | BadSignature => js "Ed25519 signature verification failed. Token may have been tampered with."
  | Expired age =>
      js "PoT token expired. Age: " ++ seconds age ++ js "s (max: " ++ z_to_dec (POT_MAX_AGE_MS / 1000) ++ js "s)."
  | Future _ => js "PoT token timestamp is in the future. Possible clock manipulation detected."
  | Valid _ => js "PoT token is valid."
  end.
Definition age_of (v : verify_result) : option num :=
  match v with Expired a | Future a | Valid a => Some a | _ => None end.
Definition is_valid (v : verify_result) : bool := match v with Valid _ => true | _ => false end.

Definition report (v : verify_result) (pot : option PoTToken) (vt : VerifiedTime) : VerifyResult :=
  {| vo_valid := is_valid v; vo_reason := reason_of v;
     vo_pot := match age_of v with Some _ => pot | None => None end;
     vo_age_ms := age_of v;
     vo_current_time := match age_of v with Some _ => Some (num_of_Z (vt_timestamp vt)) | None => None end |}.

(** The lines of a valid token; the filter drops the empty ones. *)
Definition passed_text (pot : PoTToken) (age : num) : jsstr :=
  lines (bfilter (fun l => negb (bool_decide (l = [])))
    [js "Proof-of-Time verification PASSED."; []; js "Token Summary:"; js "  Issued    : " ++ pt_issued_at pot;
     js "  Age       : " ++ seconds age ++ js "s"; js "  Sources   : " ++ join (js ", ") (pt_sources pot);
     js "  Consensus : " ++ check_mark (pt_consensus pot);
     js "  Deviation : " ++ num_to_string (pt_deviation_ms pot) ++ js "ms"; js "  Agent     : " ++ pt_agent_id pot;
     if pt_consensus pot then []
     else [10; 9888]
          ++ js " Warning: PoT was issued under degraded consensus (fewer than 2 time sources responded)."]).

Definition answer_verdict (v : verify_result) (pot : option PoTToken) (vt : VerifiedTime) : comp exn t ActionResult :=
  let result := report v pot vt in
  match v, pot with
  | Valid age, Some p =>
      _ ← say {| rp_text := passed_text p age; rp_content := OfResult result |};
      mret {| ar_success := true; ar_text := Some (passed_text p age); ar_error := None;
              ar_data := Some (OfResult result) |}
  | _, _ =>
      _ ← say {| rp_text := js "Verification FAILED: " ++ reason_of v; rp_content := OfResult result |};
      mret {| ar_success := false; ar_text := None; ar_error := Some (reason_of v); ar_data := Some (OfResult result) |}
  end.

Definition verify_handler (pot : option PoTToken) (pot_hash text agentId : option jsstr) (vt : VerifiedTime) (now : Z)
    : comp exn t ActionResult :=
  attempt "Failed to verify Proof-of-Time"
    (found ← with_tokens (fun c => match pot with Some p => (c, Some p) | None => lookup_pot pot_hash text agentId now c end);
     answer_verdict (match found with None => NoToken | Some p => check_token vt p end) found vt).

(** QUERY_POT *)
Definition age_label (age : num) : jsstr :=
  if nlt age (num_of_Z 60000) then seconds age ++ js "s ago" else minutes age ++ js "m ago".
Definition query_text (pot : PoTToken) (age : num) : jsstr :=
  lines [js "Cached Proof-of-Time token:"; []; js "  Issued    : " ++ pt_issued_at pot ++ js " (" ++ age_label age ++ js ")";
         js "  Sources   : " ++ join (js ", ") (pt_sources pot); js "  Consensus : " ++ check_mark (pt_consensus pot);
         js "  Deviation : " ++ num_to_string (pt_deviation_ms pot) ++ js "ms"; js "  Agent     : " ++ pt_agent_id pot;
         js "  PotHash   : " ++ pt_potHash pot; js "  Nonce     : " ++ pt_nonce pot].
Definition no_token_message : jsstr := js "No PoT token found in cache. Generate one first with GENERATE_POT.".

Definition query_handler (pot_hash text agentId : option jsstr) (now : Z) : comp exn t ActionResult :=
  attempt "Failed to query PoT"
    (found ← with_tokens (queryPot pot_hash text agentId now);
     match found with
     | None =>
         _ ← say {| rp_text := no_token_message; rp_content := OfPot None |};
         mret (failed no_token_message)
     | Some (pot, age) =>
         _ ← say {| rp_text := query_text pot age; rp_content := OfPot (Some pot) |};
         mret {| ar_success := true; ar_text := Some (query_text pot age); ar_error := None;
                 ar_data := Some (OfPot (Some pot)) |}
     end).
(** ** The contract of an action

    What the last reply announces: the text of a success, or a text that ends
    with the error. *)
Definition announces (r : reply) (a : ActionResult) : Prop :=
  if ar_success a then ar_text a = Some (rp_text r) /\ ar_error a = None
  else exists pre m, ar_error a = Some m /\ rp_text r = pre ++ m /\ ar_text a = None.

(** Without a callback the handler always answers.  With one it makes at most
    two calls: the last one decides, those before it threw, and the answer is
    what the last one announced. *)
Definition contract (h : comp exn t ActionResult) : Prop := forall s,
  let '(s', r) := h s in
  match callback with
  | None => sent s' = sent s /\ is_ok r = true
  | Some f =>
      exists before last, sent s' = sent s ++ before ++ [last] /\ (length before <= 1)%nat
        /\ Forall (fun x => is_ok (f x) = false) before
        /\ match r with Ok a => f last = Ok () /\ announces last a | Throw e => f last = Throw e end
  end.

(** A body throws before it has said anything, or ends by saying what it
    returns. *)
Definition speaks_last (body : comp exn t ActionResult) : Prop := forall s, exists s1,
  sent s1 = sent s
  /\ ((exists e, body s = (s1, Throw e))
      \/ exists x a, announces x a /\ body s = (_ ← say x; mret a) s1).

Lemma attempt_contract what body : speaks_last body -> contract (attempt what body).
Proof.
  intros H s. destruct (H s) as (s1 & Hs & [(e & E)|(x & a & Ha & E)]); unfold attempt; rewrite E;
    unfold mbind, comp_bind, say; destruct callback as [f|]; cbn [mret comp_ret sent]; rewrite ?Hs.
  - set (x := {| rp_text := _ |}).
    destruct (f x) as [[]|e'] eqn:Ef; cbn [mret comp_ret sent]; exists [], x; split_and!; try done; try (cbn; lia);
      try constructor.
    exists (js what ++ js ": "), (message_of e). by rewrite <- app_assoc.
  - done.
  - destruct (f x) as [[]|e] eqn:Ef; cbn [mret comp_ret sent].
    + exists [], x. split_and!; try done; try (cbn; lia); constructor.
    + set (y := {| rp_text := _ |}).
      assert (Forall (fun z => is_ok (f z) = false) [x]) by (constructor; [by rewrite Ef|constructor]).
      destruct (f y) as [[]|e'] eqn:Ey; cbn [mret comp_ret sent]; exists [x], y; rewrite <- app_assoc;
        split_and!; try done; try (cbn; lia).
      exists (js what ++ js ": "), (message_of e). by rewrite <- app_assoc.
  - done.
Qed.

Lemma announces_failed x m : (exists pre, rp_text x = pre ++ m) -> announces x (failed m).
Proof. intros [pre E]. by exists pre, m. Qed.

Lemma with_tokens_bind {A} (f : cache -> cache * A) (k : A -> comp exn t ActionResult) s :
  (with_tokens f ≫= k) s = k (f (tokens s)).2 {| tokens := (f (tokens s)).1; sent := sent s |}.
Proof. unfold mbind, comp_bind, with_tokens. by destruct (f (tokens s)). Qed.

(** A verdict is said and returned; it is a success when the verdict is valid. *)
Lemma answer_speaks v pot vt s : exists x a, announces x a /\ answer_verdict v pot vt s = (_ ← say x; mret a) s.
Proof.
  unfold answer_verdict.
  destruct v, pot; do 2 eexists; (split; [|reflexivity]); unfold announces;
    cbn [ar_success ar_text ar_error rp_text]; first [done|by do 2 eexists].
Qed.

(** All three actions keep the contract, for every callback, state and
    argument. *)
Lemma eliza_actions_keep_contract :
  (forall signer agentId vt nonce now, contract (generate_handler signer agentId vt nonce now))
  /\ (forall pot pot_hash text agentId vt now, contract (verify_handler pot pot_hash text agentId vt now))
  /\ (forall pot_hash text agentId now, contract (query_handler pot_hash text agentId now)).
Proof.
  split_and!; intros; apply attempt_contract; intros s; rewrite with_tokens_bind.
  - exists {| tokens := (generatePot sha256 toISOString signer agentId vt nonce now (tokens s)).1; sent := sent s |}.
    split; [done|]. destruct (generatePot _ _ _ _ _ _ _ _).2 as [pot|e]; [right|left; by eexists].
    by do 2 eexists; split; [|reflexivity].
  - eexists. split; [|right; apply answer_speaks]. done.
  - exists {| tokens := (queryPot pot_hash text agentId now (tokens s)).1; sent := sent s |}. split; [done|right].
    destruct (queryPot _ _ _ _ _).2 as [[pot age]|]; do 2 eexists; (split; [|reflexivity]); [done|].
    apply announces_failed. by exists [].
Qed.

(** The verdict behind the answer: with a callback that does not throw, or
    none, VERIFY_POT succeeds exactly on the tokens [verifyPot] finds valid,
    and leaves the tokens [verifyPot] leaves. *)
Lemma verify_handler_verdict pot pot_hash text agentId vt now s :
  (forall f r, callback = Some f -> f r = Ok ()) ->
  let '(s', r) := verify_handler pot pot_hash text agentId vt now s in
  let '(c, v) := verifyPot pot pot_hash text agentId vt now (tokens s) in
  tokens s' = c /\ exists a, r = Ok a /\ ar_success a = is_valid v.
Proof.
  intros Hcb. unfold verify_handler, verifyPot, attempt. rewrite with_tokens_bind.
  destruct (match pot with Some p => _ | None => _ end) as [c found]. cbn [fst snd].
  assert (forall x s1, exists s2, say x s1 = (s2, Ok ()) /\ tokens s2 = tokens s1) as Hsay.
  { intros x s1. unfold say. destruct callback as [f|]; [rewrite (Hcb f x eq_refl)|]; by eexists. }
  unfold answer_verdict, mbind, comp_bind.
  destruct found as [p|]; [destruct (check_token vt p)|];
    match goal with |- context [say ?x ?s1] => destruct (Hsay x s1) as (s2 & -> & Ht) end;
    cbn [mret comp_ret]; by eauto.
Qed.

End Handlers.
End Actions.
