(* ===== verification/Integrations.v ===== *)
(** * Agent integrations (src/integrations/openai/ttt_function.ts,
      src/integrations/langchain/ttt_pot_tool.ts)

    The two handlers that generate a proof of time, verify it with the object
    that generated it and report the verdict.  The OpenAI handler makes a new
    TimeSynthesis per call, the LangChain tool keeps one.  The property: neither
    ever reports [verified: true], because the self-verification inside
    [generateProofOfTime] has already consumed the nonce. *)
From Stdlib Require Import ZArith Lia String Strings.Byte.
From stdpp Require Import base list numbers option strings.
From S2P Require Import Prelude JSString Errors Bytes JSNum JSMap NonceCache Types Median TimeSynthesis.

Module Integration.

Record VerifyPoTArgs := { va_txHash : jsstr; va_chainId : num; va_poolAddress : jsstr }.

Record ProofDetails := {
  pd_timestamp : jsstr; pd_uncertainty_ms : num; pd_sources : Z; pd_stratum : Z; pd_confidence : num;
  pd_nonce : jsstr; pd_expiresAt : jsstr; pd_onChainHash : jsstr;
}.

(** The result of a call, [vr_error] when it was caught. *)
Record VerifyPoTResult := {
  vr_verified : bool;
  vr_args : VerifyPoTArgs;
  vr_proof : option ProofDetails;
  vr_sourceReadings : option (list (jsstr * jsstr * num));
  vr_error : option exn;
}.

Definition default_sources : list jsstr := [js "nist"; js "google"; js "cloudflare"; js "apple"].

Section Operations.
Variable keccak256 : Buffer -> jsstr.
Variable abi_encode : list Z -> list (Z + num) -> res Buffer.

(** What both handlers answer for a proof and its verdict. *)
Definition report (args : VerifyPoTArgs) (pot : ProofOfTime) (isValid : bool) (onChainHash : jsstr) : VerifyPoTResult :=
  {| vr_verified := isValid; vr_args := args;
     vr_proof := Some {| pd_timestamp := z_to_dec (pot_timestamp pot); pd_uncertainty_ms := pot_uncertainty pot;
                         pd_sources := pot_sources pot; pd_stratum := pot_stratum pot;
                         pd_confidence := pot_confidence pot; pd_nonce := pot_nonce pot;
                         pd_expiresAt := z_to_dec (pot_expiresAt pot); pd_onChainHash := onChainHash |};
     vr_sourceReadings := Some ((fun r => (sr_source r, z_to_dec (sr_timestamp r), sr_uncertainty r))
                                  <$> pot_sourceReadings pot);
     vr_error := None |}.

Definition failure (args : VerifyPoTArgs) (e : exn) : VerifyPoTResult :=
  {| vr_verified := false; vr_args := args; vr_proof := None; vr_sourceReadings := None; vr_error := Some e |}.

(** The clock readings of a call: three of the generation, two of the
    verification. *)
Record clocks := { t_gen0 : Z; t_gen1 : Z; t_gen2 : Z; t_ver1 : Z; t_ver2 : Z }.

(** The body of the [try]: generate, verify with the same object, hash. *)
Definition generate_and_verify (fetch : fetcher) (nonce : jsstr) (t : clocks) (args : VerifyPoTArgs)
    (s : TimeSynthesis.t) : TimeSynthesis.t * VerifyPoTResult :=
  let '(s, pot) := generateProofOfTime fetch nonce (t_gen0 t) (t_gen1 t) (t_gen2 t) s in
  match pot with
  | Throw e => (s, failure args e)
  | Ok pot =>
      let '(s, isValid) := verifyProofOfTime (t_ver1 t) (t_ver2 t) pot s in
      (s, match (v ← isValid; h ← getOnChainHash keccak256 abi_encode pot; Ok (report args pot v h)) with
          | Ok r => r
          | Throw e => failure args e
          end)
  end.

(** A new object per call. *)
Definition handleVerifyProofOfTime (timeSources : option (list jsstr)) (fetch : fetcher) (nonce : jsstr) (t : clocks)
    (args : VerifyPoTArgs) : VerifyPoTResult :=
  (generate_and_verify fetch nonce t args (TimeSynthesis.make (Some (default default_sources timeSources)))).2.

(** The tool: its constructor and one call. *)
Definition make_tool (timeSources : option (list jsstr)) : TimeSynthesis.t :=
  TimeSynthesis.make (Some (default default_sources timeSources)).
Definition call_ (fetch : fetcher) (nonce : jsstr) (t : clocks) (args : VerifyPoTArgs) (s : TimeSynthesis.t)
    : TimeSynthesis.t * VerifyPoTResult :=
  generate_and_verify fetch nonce t args s.

(** A sequence of calls of one tool, with its answers. *)
Fixpoint calls (l : list (fetcher * jsstr * clocks * VerifyPoTArgs)) (s : TimeSynthesis.t) : list VerifyPoTResult :=
  match l with
  | [] => []
  | (fetch, nonce, t, args) :: l' => let '(s', r) := call_ fetch nonce t args s in r :: calls l' s'
  end.

(** The clock of a call does not run backwards, and the call takes less than
    four minutes. *)
Definition sane (t : clocks) : Prop := t_gen0 t <= t_gen2 t <= t_ver2 t /\ t_ver2 t - 240000 <= t_ver1 t.

(** ** Lemmas *)

Lemma generate_and_verify_refused fetch nonce t args s :
  TimeSynthesis.inv s -> sane t ->
  let '(s', r) := generate_and_verify fetch nonce t args s in
  TimeSynthesis.inv s' /\ vr_verified r = false.
Proof.
  intros Hinv [Ht Hv]. unfold generate_and_verify.
  destruct (generateProofOfTime fetch nonce (t_gen0 t) (t_gen1 t) (t_gen2 t) s) as [s1 pot] eqn:Eg.
  assert (TimeSynthesis.inv s1) as H1.
  { pose proof (step_inv (CGenerate fetch nonce (t_gen0 t) (t_gen1 t) (t_gen2 t)) s Hinv) as H. cbn [step] in H.
    by rewrite Eg in H. }
  destruct pot as [pot|e]; [|done].
  pose proof (own_proof_refused fetch nonce (t_gen0 t) (t_gen1 t) (t_gen2 t) s s1 pot [] (t_ver1 t) (t_ver2 t)
    Hinv Eg ltac:(lia) (not_elem_of_nil _) (List.Forall_nil _) ltac:(done) Hv) as Hr. cbn [run_calls foldl] in Hr.
  pose proof (step_inv (CVerify (t_ver1 t) (t_ver2 t) pot) s1 H1) as H2. cbn [step] in H2.
  destruct (verifyProofOfTime (t_ver1 t) (t_ver2 t) pot s1) as [s2 v]. cbn [fst snd] in *. subst v.
  split; [done|]. cbn [mbind result_bind]. by destruct (getOnChainHash _ _ _).
Qed.

(** ** Properties *)

(** C8: Neither integration ever verifies a proof: every answer of the OpenAI
    handler, and every answer of a LangChain tool over any sequence of calls,
    says [verified: false], whatever the time sources answer. *)
Theorem integrations_never_verify timeSources fetch nonce t args l :
  sane t -> Forall (fun c => sane c.1.2) l ->
  vr_verified (handleVerifyProofOfTime timeSources fetch nonce t args) = false
  /\ Forall (fun r => vr_verified r = false) (calls l (make_tool timeSources)).
Proof.
  intros Ht Hl. split.
  - unfold handleVerifyProofOfTime.
    pose proof (generate_and_verify_refused fetch nonce t args _
      (make_inv_ts (Some (default default_sources timeSources))) Ht) as H.
    destruct (generate_and_verify _ _ _ _ _) as [s r]. apply H.
  - pose proof (make_inv_ts (Some (default default_sources timeSources))) as Hs.
    fold (make_tool timeSources) in Hs. revert Hs. generalize (make_tool timeSources).
    induction Hl as [|[[[f n] tc] a] l Hc _ IH]; intros s Hs; cbn [calls]; [constructor|].
    pose proof (generate_and_verify_refused f n tc a s Hs Hc) as H. unfold call_.
    destruct (generate_and_verify _ _ _ _ _) as [s' r]. destruct H. by constructor; [|apply IH].
Qed.

End Operations.

(** ** Witness *)

Definition ex_clocks : clocks :=
  {| t_gen0 := 1710412800000; t_gen1 := 1710412800001; t_gen2 := 1710412800001;
     t_ver1 := 1710412800002; t_ver2 := 1710412800002 |}.
Definition ex_args : VerifyPoTArgs := {| va_txHash := js "0xabc"; va_chainId := num_of_Z 8453; va_poolAddress := js "0xpool" |}.

Lemma integrations_never_verify_witness :
  let r := handleVerifyProofOfTime to_hex (fun _ _ => Ok [bofZ 5]) None ex_honest (js "00ff") ex_clocks ex_args in
  vr_verified r = false /\ vr_error r = None.
Proof.
  split; [|vm_compute; reflexivity].
  apply (integrations_never_verify to_hex (fun _ _ => Ok [bofZ 5]) None ex_honest (js "00ff") ex_clocks ex_args []);
    [unfold sane; cbn; lia|constructor].
Defined.

End Integration.
