(* ===== verification/Subgraph.v ===== *)
(** * Subgraph mapping (src/subgraph/src/mapping.ts)

    The two event handlers over the entity store.  The division of BigDecimals
    is a parameter.  The property: the daily and hourly statistics are exact
    aggregates of the swaps they cover. *)
From Stdlib Require Import ZArith Lia String.
From stdpp Require Import base list numbers option strings.
From S2P Require Import Prelude JSString JSMap.

Module Mapping.

(** ** Events and entities *)

Record PoTAnchored := {
  pa_txHash : jsstr; pa_logIndex : Z; pa_blockNumber : Z;
  pa_stratum : Z; pa_grgHash : jsstr; pa_potHash : jsstr; pa_timestamp : Z;
}.
Record SwapVerified := {
  sv_txHash : jsstr; sv_logIndex : Z; sv_blockNumber : Z; sv_blockTimestamp : Z;
  sv_hook : jsstr; sv_pool : jsstr; sv_sender : jsstr; sv_mode : jsstr; sv_feeAmount : Z; sv_potHash : jsstr;
}.

Record PoTAnchor := {
  an_stratum : Z; an_grgHash : jsstr; an_potHash : jsstr; an_timestamp : Z; an_blockNumber : Z; an_txHash : jsstr;
}.
Record SwapVerification := {
  sw_hook : jsstr; sw_pool : jsstr; sw_sender : jsstr; sw_mode : jsstr; sw_feeAmount : Z;
  sw_potAnchor : option jsstr; sw_timestamp : Z; sw_blockNumber : Z; sw_txHash : jsstr;
}.

Section Operations.
Context {Decimal : Type}.
Variable decimal_zero : Decimal.
(** [a.toBigDecimal().div(b.toBigDecimal())] *)
Variable decimal_div : Z -> Z -> Decimal.

Record DailyStats := {
  ds_date : jsstr; ds_totalSwaps : Z; ds_turboCount : Z; ds_fullCount : Z; ds_turboRatio : Decimal; ds_totalFees : Z;
}.
Record HourlyStats := { hs_hour : jsstr; hs_totalSwaps : Z; hs_turboCount : Z; hs_fullCount : Z }.

Record store := {
  anchors : jsmap jsstr PoTAnchor;
  swaps : jsmap jsstr SwapVerification;
  daily : jsmap jsstr DailyStats;
  hourly : jsmap jsstr HourlyStats;
}.
Definition empty : store := {| anchors := []; swaps := []; daily := []; hourly := [] |}.

(** [hash.toHex() + "-" + logIndex.toString()]; hashes are hex here. *)
Definition entity_id (txHash : jsstr) (logIndex : Z) : jsstr := txHash ++ js "-" ++ z_to_dec logIndex.

Definition handlePoTAnchored (e : PoTAnchored) (s : store) : store :=
  {| anchors := jm_set (anchors s) (entity_id (pa_txHash e) (pa_logIndex e))
       {| an_stratum := pa_stratum e; an_grgHash := pa_grgHash e; an_potHash := pa_potHash e;
          an_timestamp := pa_timestamp e; an_blockNumber := pa_blockNumber e; an_txHash := pa_txHash e |};
     swaps := swaps s; daily := daily s; hourly := hourly s |}.

(** [timestamp.div(n).times(n).toString()]; BigInt division truncates. *)
Definition bucket (seconds timestamp : Z) : jsstr := z_to_dec (Z.quot timestamp seconds * seconds).
Definition day_of (e : SwapVerified) : jsstr := bucket 86400 (sv_blockTimestamp e).
Definition hour_of (e : SwapVerified) : jsstr := bucket 3600 (sv_blockTimestamp e).

Definition is_turbo (e : SwapVerified) : bool := bool_decide (sv_mode e = js "turbo").
Definition one (b : bool) : Z := if b then 1 else 0.

Definition new_daily (id : jsstr) : DailyStats :=
  {| ds_date := id; ds_totalSwaps := 0; ds_turboCount := 0; ds_fullCount := 0; ds_turboRatio := decimal_zero;
     ds_totalFees := 0 |}.
Definition new_hourly (id : jsstr) : HourlyStats :=
  {| hs_hour := id; hs_totalSwaps := 0; hs_turboCount := 0; hs_fullCount := 0 |}.

Definition update_daily (e : SwapVerified) (d : DailyStats) : DailyStats :=
  let total := ds_totalSwaps d + 1 in
  let turbo := ds_turboCount d + one (is_turbo e) in
  {| ds_date := ds_date d; ds_totalSwaps := total; ds_turboCount := turbo;
     ds_fullCount := ds_fullCount d + one (negb (is_turbo e));
     ds_turboRatio := if 0 <? total then decimal_div turbo total else ds_turboRatio d;
     ds_totalFees := ds_totalFees d + sv_feeAmount e |}.
Definition update_hourly (e : SwapVerified) (h : HourlyStats) : HourlyStats :=
  {| hs_hour := hs_hour h; hs_totalSwaps := hs_totalSwaps h + 1;
     hs_turboCount := hs_turboCount h + one (is_turbo e);
     hs_fullCount := hs_fullCount h + one (negb (is_turbo e)) |}.

Definition handleSwapVerified (e : SwapVerified) (s : store) : store :=
  {| anchors := anchors s;
     swaps := jm_set (swaps s) (entity_id (sv_txHash e) (sv_logIndex e))
       {| sw_hook := sv_hook e; sw_pool := sv_pool e; sw_sender := sv_sender e; sw_mode := sv_mode e;
          sw_feeAmount := sv_feeAmount e; sw_potAnchor := None; sw_timestamp := sv_blockTimestamp e;
          sw_blockNumber := sv_blockNumber e; sw_txHash := sv_txHash e |};
     daily := jm_set (daily s) (day_of e)
                (update_daily e (default (new_daily (day_of e)) (jm_get (daily s) (day_of e))));
     hourly := jm_set (hourly s) (hour_of e)
                 (update_hourly e (default (new_hourly (hour_of e)) (jm_get (hourly s) (hour_of e)))) |}.

(** ** Histories and their aggregates *)

Definition event := (PoTAnchored + SwapVerified)%type.
Definition handle (e : event) (s : store) : store :=
  match e with inl a => handlePoTAnchored a s | inr v => handleSwapVerified v s end.
Definition index (l : list event) : store := foldl (fun s e => handle e s) empty l.

Definition swaps_of (l : list event) : list SwapVerified :=
  omap (fun e => match e with inr v => Some v | inl _ => None end) l.

Definition count_of (p : SwapVerified -> bool) (l : list SwapVerified) : Z := Z.of_nat (length (bfilter p l)).
Definition fees_of (l : list SwapVerified) : Z := foldr (fun e n => sv_feeAmount e + n) 0 l.

(** The statistics a list of swaps of one day, or hour, must have. *)
Definition daily_spec (id : jsstr) (l : list SwapVerified) : option DailyStats :=
  match l with
  | [] => None
  | _ => let n := Z.of_nat (length l) in
         Some {| ds_date := id; ds_totalSwaps := n; ds_turboCount := count_of is_turbo l;
                 ds_fullCount := n - count_of is_turbo l; ds_turboRatio := decimal_div (count_of is_turbo l) n;
                 ds_totalFees := fees_of l |}
  end.
Definition hourly_spec (id : jsstr) (l : list SwapVerified) : option HourlyStats :=
  match l with
  | [] => None
  | _ => let n := Z.of_nat (length l) in
         Some {| hs_hour := id; hs_totalSwaps := n; hs_turboCount := count_of is_turbo l;
                 hs_fullCount := n - count_of is_turbo l |}
  end.

Definition on (key : SwapVerified -> jsstr) (id : jsstr) (l : list SwapVerified) : list SwapVerified :=
  bfilter (fun e => bool_decide (key e = id)) l.

(** ** Lemmas *)

Lemma index_snoc l e : index (l ++ [e]) = handle e (index l).
Proof. unfold index. by rewrite foldl_app. Qed.

Lemma swaps_of_snoc l e : swaps_of (l ++ [e]) = swaps_of l ++ match e with inr v => [v] | inl _ => [] end.
Proof. unfold swaps_of. rewrite omap_app. by destruct e. Qed.

Lemma count_of_snoc p l e : count_of p (l ++ [e]) = count_of p l + one (p e).
Proof.
  unfold count_of. rewrite bfilter_app, length_app. cbn [bfilter]. destruct (p e); cbn [length one]; lia.
Qed.

Lemma fees_of_snoc l e : fees_of (l ++ [e]) = fees_of l + sv_feeAmount e.
Proof. unfold fees_of. induction l as [|x l IH]; cbn [app foldr] in *; lia. Qed.

Lemma on_snoc key id l e : on key id (l ++ [e]) = on key id l ++ (if bool_decide (key e = id) then [e] else []).
Proof. unfold on. rewrite bfilter_app. done. Qed.

Lemma one_negb b : one (negb b) = 1 - one b.
Proof. by destruct b. Qed.

Lemma daily_spec_snoc k l e :
  daily_spec k (l ++ [e]) = Some (update_daily e (default (new_daily k) (daily_spec k l))).
Proof.
  assert (daily_spec k (l ++ [e])
          = let n := Z.of_nat (length (l ++ [e])) in
            Some {| ds_date := k; ds_totalSwaps := n; ds_turboCount := count_of is_turbo (l ++ [e]);
                    ds_fullCount := n - count_of is_turbo (l ++ [e]);
                    ds_turboRatio := decimal_div (count_of is_turbo (l ++ [e])) n;
                    ds_totalFees := fees_of (l ++ [e]) |}) as -> by by destruct l.
  cbv zeta. rewrite count_of_snoc, fees_of_snoc, length_app. cbn [length]. f_equal.
  destruct l as [|x l].
  - cbn [daily_spec from_option]. unfold update_daily, new_daily. cbn [ds_totalSwaps ds_turboCount ds_fullCount
      ds_date ds_totalFees ds_turboRatio length count_of bfilter fees_of foldr Nat.add Z.of_nat].
    rewrite one_negb. f_equal; lia.
  - cbn [daily_spec from_option id]. unfold update_daily. cbn [ds_totalSwaps ds_turboCount ds_fullCount
      ds_date ds_totalFees ds_turboRatio]. rewrite one_negb.
    replace (Z.of_nat (length (x :: l) + 1)) with (Z.of_nat (length (x :: l)) + 1) by lia.
    destruct (Z.ltb_spec 0 (Z.of_nat (length (x :: l)) + 1)); [|lia]. f_equal. lia.
Qed.

Lemma hourly_spec_snoc k l e :
  hourly_spec k (l ++ [e]) = Some (update_hourly e (default (new_hourly k) (hourly_spec k l))).
Proof.
  assert (hourly_spec k (l ++ [e])
          = let n := Z.of_nat (length (l ++ [e])) in
            Some {| hs_hour := k; hs_totalSwaps := n; hs_turboCount := count_of is_turbo (l ++ [e]);
                    hs_fullCount := n - count_of is_turbo (l ++ [e]) |}) as -> by by destruct l.
  cbv zeta. rewrite count_of_snoc, length_app. cbn [length]. f_equal. unfold update_hourly.
  destruct l as [|x l]; cbn [hourly_spec from_option id new_hourly hs_totalSwaps hs_turboCount hs_fullCount hs_hour];
    rewrite one_negb; f_equal; cbn [length count_of bfilter]; lia.
Qed.

Lemma index_stats l :
  (forall id, jm_get (daily (index l)) id = daily_spec id (on day_of id (swaps_of l)))
  /\ (forall id, jm_get (hourly (index l)) id = hourly_spec id (on hour_of id (swaps_of l))).
Proof.
  induction l as [|e l [IHd IHh]] using rev_ind; [done|]. rewrite index_snoc, swaps_of_snoc.
  destruct e as [a|v].
  - rewrite app_nil_r. by split.
  - cbn [handle handleSwapVerified daily hourly]. split; intros id; rewrite on_snoc; case_bool_decide as E.
    + rewrite <- E, jm_get_set_eq, daily_spec_snoc, IHd. done.
    + rewrite jm_get_set_ne, app_nil_r by done. apply IHd.
    + rewrite <- E, jm_get_set_eq, hourly_spec_snoc, IHh. done.
    + rewrite jm_get_set_ne, app_nil_r by done. apply IHh.
Qed.

(** ** Properties *)

(** The statistics are exact: after any list of events the day's entity
    exists exactly when a swap fell on that day, and then holds the number of
    its swaps, of its turbo swaps and of the others, their ratio and the sum of
    their fees; the hour's entity likewise. *)
Lemma subgraph_stats_exact l id :
  jm_get (daily (index l)) id = daily_spec id (on day_of id (swaps_of l))
  /\ jm_get (hourly (index l)) id = hourly_spec id (on hour_of id (swaps_of l)).
Proof. split; apply index_stats. Qed.

End Operations.

End Mapping.
