(* ===== verification/OpenZeppelin.v ===== *)
(** * What the contracts inherit

    The Solidity contracts (contracts/contracts) build on OpenZeppelin and are
    called by the deployment scripts, the bots and the subgraph.  The library
    is not in the repository: each base contract is a class of its operations,
    and a class of laws states its documented behaviour.  A call either
    reverts, [None], and leaves everything as it was, or yields the new state.
    Addresses and hashes are integers, of 160 and 256 bits. *)
From Stdlib Require Import ZArith Lia.
From stdpp Require Import base list numbers option gmap.
From S2P Require Import Prelude Bytes.

(** The transaction and the block, as a contract sees them. *)
Record msg := { msg_sender : Z; block_timestamp : Z; block_number : Z }.

(** [require(b)], [if (!b) revert]. *)
Definition require (b : bool) : option unit := if b then Some tt else None.

Lemma require_bind {A} b (k : unit -> option A) x : require b ≫= k = Some x <-> b = true /\ k tt = Some x.
Proof. destruct b; cbn; naive_solver. Qed.

(** Peels the guards off a call that succeeded. *)
Ltac requires H :=
  repeat (cbv beta in H;
          lazymatch type of H with
          | require _ ≫= _ = Some _ => let Hb := fresh "Hreq" in apply require_bind in H as [Hb H]
          end);
  cbv beta zeta in H; zbool.

(** Checked arithmetic: [x++] reverts at the end of uint256. *)
Definition increment (x : Z) : option Z := if x + 1 <? 2 ^ 256 then Some (x + 1) else None.

Lemma increment_Some x y : increment x = Some y <-> y = x + 1 /\ x + 1 < 2 ^ 256.
Proof. unfold increment. destruct (Z.ltb_spec (x + 1) (2 ^ 256)); split; [intros [= <-]; lia|by intros [-> _]|done|lia]. Qed.

(** [abi.encodePacked] of an address, a uint256, an int256. *)
Definition packed_address (a : Z) : Buffer := be_bytes 20 a.
Definition packed_256 (z : Z) : Buffer := be_bytes 32 z.

(** ** AccessControl *)

Class AccessControl (R : Type) := {
  no_roles : R;
  hasRole : R -> Z -> Z -> bool;
  grant_ : Z -> Z -> R -> R;      (* _grantRole(role, account) *)
  revoke_ : Z -> Z -> R -> R;     (* _revokeRole(role, account) *)
}.

Class AccessControlLaws (R : Type) `{AccessControl R} := {
  hasRole_none role a : hasRole no_roles role a = false;
  hasRole_grant role a role' a' r :
    hasRole (grant_ role a r) role' a' = hasRole r role' a' || bool_decide (role = role' /\ a = a');
  hasRole_revoke role a role' a' r :
    hasRole (revoke_ role a r) role' a' = hasRole r role' a' && negb (bool_decide (role = role' /\ a = a'));
}.

Definition DEFAULT_ADMIN_ROLE : Z := 0.

(** The inherited functions; every role is administered by the default role. *)
Inductive role_call := GrantRole (role account : Z) | RevokeRole (role account : Z) | RenounceRole (role account : Z).

Definition role_exec {R} `{AccessControl R} (m : msg) (c : role_call) (r : R) : option R :=
  match c with
  | GrantRole role a => _ ← require (hasRole r DEFAULT_ADMIN_ROLE (msg_sender m)); Some (grant_ role a r)
  | RevokeRole role a => _ ← require (hasRole r DEFAULT_ADMIN_ROLE (msg_sender m)); Some (revoke_ role a r)
  | RenounceRole role a => _ ← require (bool_decide (a = msg_sender m)); Some (revoke_ role a r)
  end.

(** ** ERC1155 with supply *)

Class ERC1155Supply (T : Type) := {
  no_tokens : T;
  balanceOf : T -> Z -> Z -> Z;                        (* account, id *)
  totalSupply : T -> Z -> Z;
  mint_ : Z -> Z -> Z -> T -> option T;                (* _mint(to, id, value) *)
  burn_ : Z -> Z -> Z -> T -> option T;                (* _burn(from, id, value) *)
  transfer_ : Z -> Z -> Z -> Z -> Z -> T -> option T;  (* safeTransferFrom(from, to, id, value) by an operator *)
  batch_ : Z -> Z -> Z -> list (Z * Z) -> T -> option T;  (* safeBatchTransferFrom, of ids with their values *)
  approve_ : Z -> Z -> bool -> T -> option T;          (* setApprovalForAll(operator, approved) by an owner *)
}.

Definition at_ (c : bool) (v : Z) : Z := if c then v else 0.

(** What a batch moves of an id. *)
Definition batch_sum (i : Z) (l : list (Z * Z)) : Z := foldr (fun e n => at_ (bool_decide (i = e.1)) e.2 + n) 0 l.

Class ERC1155Laws (T : Type) `{ERC1155Supply T} := {
  balance_none a i : balanceOf no_tokens a i = 0;
  supply_none i : totalSupply no_tokens i = 0;
  balance_nonneg t a i : 0 <= balanceOf t a i;
  supply_nonneg t i : 0 <= totalSupply t i;
  mint_balance to id v t t' a i :
    mint_ to id v t = Some t' -> balanceOf t' a i = balanceOf t a i + at_ (bool_decide (a = to /\ i = id)) v;
  mint_supply to id v t t' i :
    mint_ to id v t = Some t' -> totalSupply t' i = totalSupply t i + at_ (bool_decide (i = id)) v;
  burn_enough from id v t t' : burn_ from id v t = Some t' -> v <= balanceOf t from id;
  burn_succeeds from id v t : from <> 0 -> 0 <= v <= balanceOf t from id -> is_Some (burn_ from id v t);
  burn_balance from id v t t' a i :
    burn_ from id v t = Some t' -> balanceOf t' a i = balanceOf t a i - at_ (bool_decide (a = from /\ i = id)) v;
  burn_supply from id v t t' i :
    burn_ from id v t = Some t' -> totalSupply t' i = totalSupply t i - at_ (bool_decide (i = id)) v;
  transfer_enough op from to id v t t' :
    transfer_ op from to id v t = Some t' -> 0 <= v <= balanceOf t from id;
  transfer_balance op from to id v t t' a i :
    transfer_ op from to id v t = Some t' ->
    balanceOf t' a i = balanceOf t a i - at_ (bool_decide (a = from /\ i = id)) v + at_ (bool_decide (a = to /\ i = id)) v;
  transfer_supply op from to id v t t' i :
    transfer_ op from to id v t = Some t' -> totalSupply t' i = totalSupply t i;
  batch_enough op from to l t t' :
    batch_ op from to l t = Some t' -> Forall (fun e => 0 <= e.2 <= balanceOf t from e.1) l;
  batch_balance op from to l t t' a i :
    batch_ op from to l t = Some t' ->
    balanceOf t' a i = balanceOf t a i - at_ (bool_decide (a = from)) (batch_sum i l) + at_ (bool_decide (a = to)) (batch_sum i l);
  batch_supply op from to l t t' i :
    batch_ op from to l t = Some t' -> totalSupply t' i = totalSupply t i;
  approve_balance owner op b t t' a i : approve_ owner op b t = Some t' -> balanceOf t' a i = balanceOf t a i;
  approve_supply owner op b t t' i : approve_ owner op b t = Some t' -> totalSupply t' i = totalSupply t i;
}.

(** ** Histories

    A transaction that reverts leaves the state and the log. *)
Section Histories.
Context {S C L : Type} (exec : msg -> C -> S -> option (S * list L)).

Definition transact (s : S) (mc : msg * C) : S * list L := default (s, []) (exec mc.1 mc.2 s).

Fixpoint transactions (l : list (msg * C)) (s : S) : S * list L :=
  match l with
  | [] => (s, [])
  | mc :: l' =>
      let '(s1, e1) := transact s mc in
      let '(s2, e2) := transactions l' s1 in (s2, e1 ++ e2)
  end.

(** A relation of states and logs that the empty log has at the start and
    every successful call keeps holds of every history. *)
Lemma transactions_inv (P : S -> list L -> Prop) l s es :
  P s es ->
  (forall m c s es s' es', (m, c) ∈ l -> P s es -> exec m c s = Some (s', es') -> P s' (es ++ es')) ->
  P (transactions l s).1 (es ++ (transactions l s).2).
Proof.
  intros H0 Hs. revert s es H0. induction l as [|[m c] l IH]; intros s es H0; cbn [transactions].
  - cbn. by rewrite app_nil_r.
  - destruct (transact s (m, c)) as [s1 e1] eqn:E. destruct (transactions l s1) as [s2 e2] eqn:E2.
    specialize (IH ltac:(intros ????????; eapply Hs; [by right|done..]) s1 (es ++ e1)).
    rewrite E2 in IH. cbn in *. rewrite app_assoc. apply IH.
    unfold transact in E. cbn in E. destruct (exec m c s) as [[s' es']|] eqn:Ex; cbn in E; injection E as <- <-.
    + eapply Hs; [by left|done..].
    + by rewrite app_nil_r.
Qed.

Lemma transactions_app l1 l2 s :
  transactions (l1 ++ l2) s
  = ((transactions l2 (transactions l1 s).1).1, (transactions l1 s).2 ++ (transactions l2 (transactions l1 s).1).2).
Proof.
  revert s. induction l1 as [|mc l1 IH]; intros s; cbn [app transactions].
  - cbn. by destruct (transactions l2 s).
  - destruct (transact s mc) as [s1 e1]. rewrite IH. destruct (transactions l1 s1) as [s2 e2]. cbn.
    by rewrite app_assoc.
Qed.
End Histories.

(** ** Instances

    Finite maps that satisfy the laws. *)
Module Maps.

Definition roles := gset (Z * Z).
#[global] Instance roles_ops : AccessControl roles := {|
  no_roles := ∅;
  hasRole r role a := bool_decide ((role, a) ∈ r);
  grant_ role a r := {[(role, a)]} ∪ r;
  revoke_ role a r := r ∖ {[(role, a)]};
|}.

#[global] Instance roles_laws : AccessControlLaws roles.
Proof.
  split; cbn.
  - intros. by apply bool_decide_eq_false_2.
  - intros role a role' a' r. destruct (decide (role = role' /\ a = a')) as [[-> ->]|Hn].
    + rewrite (bool_decide_eq_true_2 (role' = role' /\ a' = a')) by done. rewrite orb_true_r.
      apply bool_decide_eq_true_2. set_solver.
    + rewrite (bool_decide_eq_false_2 (role = role' /\ a = a')) by done. rewrite orb_false_r.
      apply bool_decide_ext. rewrite elem_of_union, elem_of_singleton. split; [intros [[= -> ->]|?]; [by destruct Hn|done]|by right].
  - intros role a role' a' r. destruct (decide (role = role' /\ a = a')) as [[-> ->]|Hn].
    + rewrite (bool_decide_eq_true_2 (role' = role' /\ a' = a')) by done. rewrite andb_false_r.
      apply bool_decide_eq_false_2. set_solver.
    + rewrite (bool_decide_eq_false_2 (role = role' /\ a = a')) by done. rewrite andb_true_r.
      apply bool_decide_ext. rewrite elem_of_difference, elem_of_singleton. naive_solver.
Qed.

(** Balances as natural numbers, and the operators of each account; the supply
    of an id is the sum of its balances. *)
Abbreviation balances := (gmap (Z * Z) N).
Record tokens := { bals : balances; approvals : gset (Z * Z) }.

Definition bal (m : balances) (a i : Z) : Z := Z.of_N (default 0%N (m !! (a, i))).
Definition put (a i v : Z) (m : balances) : balances := <[(a, i) := Z.to_N v]> m.
Definition share (i : Z) (k : Z * Z) (n : N) (acc : Z) : Z := at_ (bool_decide (k.2 = i)) (Z.of_N n) + acc.
Definition sup (m : balances) (i : Z) : Z := map_fold (share i) 0 m.

Definition with_bals (t : tokens) (m : balances) : tokens := {| bals := m; approvals := approvals t |}.
Definition allowed (op from : Z) (t : tokens) : bool := bool_decide (op = from) || bool_decide ((from, op) ∈ approvals t).

(** One value moved, and a batch of them, all or nothing. *)
Definition move (from to id v : Z) (m : balances) : option balances :=
  if (0 <=? v) && (v <=? bal m from id) then
    let m' := put from id (bal m from id - v) m in Some (put to id (bal m' to id + v) m')
  else None.
Fixpoint moves (from to : Z) (l : list (Z * Z)) (m : balances) : option balances :=
  match l with [] => Some m | e :: l' => m' ← move from to e.1 e.2 m; moves from to l' m' end.

#[global] Instance tokens_ops : ERC1155Supply tokens := {|
  no_tokens := {| bals := ∅; approvals := ∅ |};
  balanceOf t := bal (bals t);
  totalSupply t := sup (bals t);
  mint_ to id v t :=
    if (0 <=? v) && negb (to =? 0) && (sup (bals t) id + v <? 2 ^ 256)
    then Some (with_bals t (put to id (bal (bals t) to id + v) (bals t))) else None;
  burn_ from id v t :=
    if (0 <=? v) && negb (from =? 0) && (v <=? bal (bals t) from id)
    then Some (with_bals t (put from id (bal (bals t) from id - v) (bals t))) else None;
  transfer_ op from to id v t :=
    if allowed op from t && negb (to =? 0) then with_bals t <$> move from to id v (bals t) else None;
  batch_ op from to l t :=
    if allowed op from t && negb (to =? 0) then with_bals t <$> moves from to l (bals t) else None;
  approve_ owner op b t :=
    if op =? 0 then None
    else Some {| bals := bals t; approvals := if b then {[(owner, op)]} ∪ approvals t else approvals t ∖ {[(owner, op)]} |};
|}.

Lemma bal_put a i v a' i' m :
  0 <= v -> bal (put a i v m) a' i' = if bool_decide (a' = a /\ i' = i) then v else bal m a' i'.
Proof.
  intros Hv. unfold bal, put. case_bool_decide as E.
  - destruct E as [-> ->]. rewrite lookup_insert_eq. cbn. lia.
  - rewrite lookup_insert_ne; [done|]. intros [= -> ->]. by destruct E.
Qed.

Lemma share_comm i j1 j2 z1 z2 y : share i j1 z1 (share i j2 z2 y) = share i j2 z2 (share i j1 z1 y).
Proof. unfold share. lia. Qed.

Lemma sup_insert_new m k n i : m !! k = None -> sup (<[k := n]> m) i = share i k n (sup m i).
Proof. intros Hk. apply map_fold_insert_L; [|done]. intros. apply share_comm. Qed.

Lemma sup_put a id v i m :
  0 <= v -> sup (put a id v m) i = sup m i + at_ (bool_decide (i = id)) (v - bal m a id).
Proof.
  intros Hv. unfold put. rewrite (bool_decide_ext (i = id) (id = i)) by done.
  assert (sup m i = at_ (bool_decide (id = i)) (bal m a id) + sup (delete (a, id) m) i) as Hm.
  { unfold bal. destruct (m !! (a, id)) as [n|] eqn:E.
    - rewrite <- (insert_delete_id m (a, id) n E) at 1. by rewrite sup_insert_new by apply lookup_delete_eq.
    - rewrite delete_id by done. cbn. by destruct (bool_decide _). }
  rewrite <- insert_delete_eq, sup_insert_new by apply lookup_delete_eq. rewrite Hm. unfold share. cbn.
  unfold at_. destruct (bool_decide _); lia.
Qed.

Lemma bal_nonneg m a i : 0 <= bal m a i.
Proof. unfold bal. lia. Qed.

Lemma sup_nonneg m i : 0 <= sup m i.
Proof.
  unfold sup. apply (map_fold_weak_ind (fun z _ => 0 <= z)); [done|].
  intros k n m' z _ Hz. unfold share, at_. destruct (bool_decide _); lia.
Qed.

Lemma move_spec from to id v m m' :
  move from to id v m = Some m' ->
  0 <= v <= bal m from id
  /\ (forall a i, bal m' a i = bal m a i - at_ (bool_decide (a = from /\ i = id)) v + at_ (bool_decide (a = to /\ i = id)) v)
  /\ (forall i, sup m' i = sup m i).
Proof.
  unfold move. destruct (_ && _) eqn:E; [|done]. zbool. intros [= <-].
  pose proof (bal_nonneg (put from id (bal m from id - v) m) to id). split_and!; [lia|lia| |].
  - intros a i. rewrite !bal_put by lia. unfold at_. repeat case_bool_decide; intuition (subst; lia || congruence).
  - intros i. rewrite !sup_put by lia. unfold at_. case_bool_decide; lia.
Qed.

Lemma at_and (P Q : Prop) `{Decision P, Decision Q} v :
  at_ (bool_decide (P /\ Q)) v = at_ (bool_decide P) (at_ (bool_decide Q) v).
Proof. unfold at_. repeat case_bool_decide; tauto. Qed.

Lemma at_plus b x y : at_ b (x + y) = at_ b x + at_ b y.
Proof. by destruct b. Qed.

Lemma moves_spec from to l m m' :
  moves from to l m = Some m' ->
  Forall (fun e => 0 <= e.2 <= bal m from e.1) l
  /\ (forall a i, bal m' a i = bal m a i - at_ (bool_decide (a = from)) (batch_sum i l) + at_ (bool_decide (a = to)) (batch_sum i l))
  /\ (forall i, sup m' i = sup m i).
Proof.
  revert m. induction l as [|[id v] l IH]; intros m; cbn [moves fst snd].
  - intros [= <-]. split_and!; [done| |done]. intros a i. unfold at_. cbn. repeat case_match; lia.
  - destruct (move from to id v m) as [m1|] eqn:E; [|done]. cbn. intros Hm.
    apply move_spec in E as (Hv & Hb & Hs). apply IH in Hm as (Hf & Hb' & Hs'). split_and!.
    + constructor; [done|]. eapply Forall_impl; [exact Hf|]. intros [i x]. cbn. rewrite Hb. unfold at_.
      repeat case_bool_decide; intuition lia.
    + intros a i. rewrite Hb', Hb. unfold batch_sum. cbn [foldr fst snd]. fold (batch_sum i l).
      rewrite !at_and, !at_plus. lia.
    + intros i. by rewrite Hs', Hs.
Qed.

#[global] Instance tokens_laws : ERC1155Laws tokens.
Proof.
  split; cbn.
  - done.
  - done.
  - intros. apply bal_nonneg.
  - intros. apply sup_nonneg.
  - intros to id v t t' a i. destruct (_ && _) eqn:E; [|done]. zbool. intros [= <-]. cbn.
    pose proof (bal_nonneg (bals t) to id). rewrite bal_put by lia. unfold at_.
    case_bool_decide as Ha; [by destruct Ha as [-> ->]|lia].
  - intros to id v t t' i. destruct (_ && _) eqn:E; [|done]. zbool. intros [= <-]. cbn.
    pose proof (bal_nonneg (bals t) to id). rewrite sup_put by lia. unfold at_. case_bool_decide; lia.
  - intros from id v t t'. destruct (_ && _) eqn:E; [|done]. by zbool.
  - intros from id v t Hf Hv. replace (_ && _) with true; [by eexists|]. symmetry.
    rewrite !andb_true_iff, negb_true_iff, Z.eqb_neq, !Z.leb_le. lia.
  - intros from id v t t' a i. destruct (_ && _) eqn:E; [|done]. zbool. intros [= <-]. cbn.
    rewrite bal_put by lia. unfold at_. case_bool_decide as Ha; [by destruct Ha as [-> ->]|lia].
  - intros from id v t t' i. destruct (_ && _) eqn:E; [|done]. zbool. intros [= <-]. cbn.
    rewrite sup_put by lia. unfold at_. case_bool_decide; lia.
  - intros op from to id v t t'. destruct (_ && _); [|done]. intros (m & (? & _ & _)%move_spec & _)%fmap_Some. done.
  - intros op from to id v t t' a i. destruct (_ && _); [|done]. intros (m & (_ & Hb & _)%move_spec & ->)%fmap_Some. apply Hb.
  - intros op from to id v t t' i. destruct (_ && _); [|done]. intros (m & (_ & _ & Hs)%move_spec & ->)%fmap_Some. apply Hs.
  - intros op from to l t t'. destruct (_ && _); [|done]. intros (m & (? & _ & _)%moves_spec & _)%fmap_Some. done.
  - intros op from to l t t' a i. destruct (_ && _); [|done]. intros (m & (_ & Hb & _)%moves_spec & ->)%fmap_Some. apply Hb.
  - intros op from to l t t' i. destruct (_ && _); [|done]. intros (m & (_ & _ & Hs)%moves_spec & ->)%fmap_Some. apply Hs.
  - intros owner op b t t' a i. destruct (op =? 0); [done|]. by intros [= <-].
  - intros owner op b t t' i. destruct (op =? 0); [done|]. by intros [= <-].
Qed.

End Maps.
