(* ===== verification/Contracts.v ===== *)
(** * The contracts (contracts/contracts)

    TTT.sol, TTTHookSimple.sol, TTTHook.sol and ProtocolFee.sol, each as its
    storage, its functions and its events, over the classes of OpenZeppelin.v.
    A function yields [None] when it reverts.  Calls are atomic: a recipient
    that calls back from inside a mint is not modelled. *)
From Stdlib Require Import ZArith Lia String.
From stdpp Require Import base list numbers option strings gmap.
From S2P Require Import Prelude JSString Bytes OpenZeppelin.

(** ** TTT.sol *)
Module TTT.

Inductive event :=
| TTTMinted (to tokenId amount : Z)
| TTTBurned (from tokenId amount tier : Z)
| PoTAnchored (stratum grgHash potHash timestamp : Z).

Section Contract.
Context {R T : Type} `{AccessControl R, ERC1155Supply T}.
Variable keccak256 : Buffer -> Z.

Definition MINTER_ROLE : Z := keccak256 (ascii_bytes (js "MINTER_ROLE")).
Definition PAUSER_ROLE : Z := keccak256 (ascii_bytes (js "PAUSER_ROLE")).

Record state := { tokens : T; roles : R; paused : bool }.

(** The constructor. *)
Definition deploy (m : msg) : state :=
  {| tokens := no_tokens;
     roles := grant_ PAUSER_ROLE (msg_sender m) (grant_ MINTER_ROLE (msg_sender m)
                (grant_ DEFAULT_ADMIN_ROLE (msg_sender m) no_roles));
     paused := false |}.

Definition with_tokens (t : T) (s : state) : state := {| tokens := t; roles := roles s; paused := paused s |}.
Definition with_paused (b : bool) (s : state) : state := {| tokens := tokens s; roles := roles s; paused := b |}.

Definition mint (m : msg) (to amount grgHash : Z) (s : state) : option (state * list event) :=
  _ ← require (hasRole (roles s) MINTER_ROLE (msg_sender m));
  _ ← require (negb (paused s));
  _ ← require (0 <? amount);
  let tokenId := grgHash in
  t ← mint_ to tokenId amount (tokens s);
  Some (with_tokens t s,
        [TTTMinted to tokenId amount;
         PoTAnchored tokenId grgHash (keccak256 (packed_address to ++ packed_256 amount)) (block_timestamp m)]).

Definition burn (m : msg) (amount grgHash tier : Z) (s : state) : option (state * list event) :=
  _ ← require (negb (paused s));
  _ ← require (0 <? amount);
  let tokenId := grgHash in
  t ← burn_ (msg_sender m) tokenId amount (tokens s);
  Some (with_tokens t s, [TTTBurned (msg_sender m) tokenId amount tier]).

Definition getTokenId (chainId pool timestamp slotIndex : Z) : Z :=
  keccak256 (packed_256 chainId ++ packed_256 pool ++ packed_256 timestamp ++ packed_256 slotIndex).

Definition pause (m : msg) (s : state) : option (state * list event) :=
  _ ← require (hasRole (roles s) PAUSER_ROLE (msg_sender m));
  _ ← require (negb (paused s));
  Some (with_paused true s, []).

Definition unpause (m : msg) (s : state) : option (state * list event) :=
  _ ← require (hasRole (roles s) PAUSER_ROLE (msg_sender m));
  _ ← require (paused s);
  Some (with_paused false s, []).

(** The external functions that change the state, those inherited included. *)
Inductive call :=
| Mint (to amount grgHash : Z)
| Burn (amount grgHash tier : Z)
| Pause
| Unpause
| Transfer (from to id value : Z)
| BatchTransfer (from to : Z) (ids values : list Z)
| SetApprovalForAll (operator : Z) (approved : bool)
| Roles (c : role_call).

Definition exec (m : msg) (c : call) (s : state) : option (state * list event) :=
  match c with
  | Mint to amount grgHash => mint m to amount grgHash s
  | Burn amount grgHash tier => burn m amount grgHash tier s
  | Pause => pause m s
  | Unpause => unpause m s
  | Transfer from to id value =>
      t ← transfer_ (msg_sender m) from to id value (tokens s); Some (with_tokens t s, [])
  | BatchTransfer from to ids values =>
      _ ← require (length ids =? length values)%nat;
      t ← batch_ (msg_sender m) from to (zip ids values) (tokens s); Some (with_tokens t s, [])
  | SetApprovalForAll operator approved =>
      t ← approve_ (msg_sender m) operator approved (tokens s); Some (with_tokens t s, [])
  | Roles c =>
      r ← role_exec m c (roles s); Some ({| tokens := tokens s; roles := r; paused := paused s |}, [])
  end.

(** ** What the log says *)

Definition minted (id : Z) (l : list event) : Z :=
  foldr (fun e n => match e with TTTMinted _ i v => at_ (bool_decide (i = id)) v | _ => 0 end + n) 0 l.
Definition burned (id : Z) (l : list event) : Z :=
  foldr (fun e n => match e with TTTBurned _ i v _ => at_ (bool_decide (i = id)) v | _ => 0 end + n) 0 l.

(** The log of mints and burns: positive amounts, and each mint followed by the
    anchor of its own token. *)
Fixpoint anchored (l : list event) : bool :=
  match l with
  | [] => true
  | TTTBurned _ _ v _ :: l' => (0 <? v) && anchored l'
  | TTTMinted to i v :: PoTAnchored st g p _ :: l' =>
      (0 <? v) && (st =? i) && (g =? i) && (p =? keccak256 (packed_address to ++ packed_256 v)) && anchored l'
  | _ => false
  end.

End Contract.
End TTT.

(** ** TTTHookSimple.sol *)
Module TTTHookSimple.

Inductive event := SwapVerified (sender pool hook : Z) (mode : jsstr) (feeAmount potHash : Z).

Section Contract.
Context {R T : Type} `{AccessControl R, ERC1155Supply T}.
Variable keccak256 : Buffer -> Z.
Variable this : Z.                       (* address(this) *)

Definition HOOK_OPERATOR_ROLE : Z := keccak256 (ascii_bytes (js "HOOK_OPERATOR_ROLE")).

Record state := {
  ttt : Z; tttTokenId : Z; minTTTBalance : Z; turboFee : Z; fullFee : Z;
  totalSwaps : Z; turboSwaps : Z; fullSwaps : Z;
  roles : R;
}.

Definition deploy (m : msg) (_ttt _minBalance _turboFee _fullFee : Z) : option state :=
  _ ← require (negb (_ttt =? 0));
  Some {| ttt := _ttt; tttTokenId := 0; minTTTBalance := _minBalance; turboFee := _turboFee; fullFee := _fullFee;
          totalSwaps := 0; turboSwaps := 0; fullSwaps := 0;
          roles := grant_ HOOK_OPERATOR_ROLE (msg_sender m) (grant_ DEFAULT_ADMIN_ROLE (msg_sender m) no_roles) |}.

(** [balanceOf] on the token contract: [t] is its state. *)
Definition isTurbo (t : T) (sender : Z) (s : state) : bool := minTTTBalance s <=? balanceOf t sender (tttTokenId s).

Definition verifySwap (m : msg) (t : T) (sender pool swapDelta : Z) (s : state) : option (state * list event) :=
  _ ← require (hasRole (roles s) HOOK_OPERATOR_ROLE (msg_sender m));
  let isTurbo := isTurbo t sender s in
  let fee := if isTurbo then turboFee s else fullFee s in
  let mode := if isTurbo then js "turbo" else js "full" in
  let potHash := keccak256 (packed_address sender ++ packed_256 (block_timestamp m) ++ packed_256 swapDelta) in
  total ← increment (totalSwaps s);
  turbo ← (if isTurbo then increment (turboSwaps s) else Some (turboSwaps s));
  full ← (if isTurbo then Some (fullSwaps s) else increment (fullSwaps s));
  Some ({| ttt := ttt s; tttTokenId := tttTokenId s; minTTTBalance := minTTTBalance s; turboFee := turboFee s;
           fullFee := fullFee s; totalSwaps := total; turboSwaps := turbo; fullSwaps := full; roles := roles s |},
        [SwapVerified sender pool this mode fee potHash]).

Definition setFeeConfig (m : msg) (_minBalance _turboFee _fullFee _tttTokenId : Z) (s : state)
    : option (state * list event) :=
  _ ← require (hasRole (roles s) HOOK_OPERATOR_ROLE (msg_sender m));
  Some ({| ttt := ttt s; tttTokenId := _tttTokenId; minTTTBalance := _minBalance; turboFee := _turboFee;
           fullFee := _fullFee; totalSwaps := totalSwaps s; turboSwaps := turboSwaps s; fullSwaps := fullSwaps s;
           roles := roles s |}, []).

Definition getStats (s : state) : Z * Z * Z := (totalSwaps s, turboSwaps s, fullSwaps s).

Inductive call :=
| VerifySwap (sender pool swapDelta : Z)
| SetFeeConfig (_minBalance _turboFee _fullFee _tttTokenId : Z)
| Roles (c : role_call).

Definition exec (t : T) (m : msg) (c : call) (s : state) : option (state * list event) :=
  match c with
  | VerifySwap sender pool delta => verifySwap m t sender pool delta s
  | SetFeeConfig mb tf ff id => setFeeConfig m mb tf ff id s
  | Roles c =>
      r ← role_exec m c (roles s);
      Some ({| ttt := ttt s; tttTokenId := tttTokenId s; minTTTBalance := minTTTBalance s; turboFee := turboFee s;
               fullFee := fullFee s; totalSwaps := totalSwaps s; turboSwaps := turboSwaps s;
               fullSwaps := fullSwaps s; roles := r |}, [])
  end.

End Contract.
End TTTHookSimple.

(** ** TTTHook.sol *)
Module TTTHook.

(** Constants of Uniswap's LPFeeLibrary, in the words of the source. *)
Definition MAX_LP_FEE : Z := 1000000.
Definition OVERRIDE_FEE_FLAG : Z := 4194304.

Inductive event :=
| SwapVerified (sender : Z) (isTurbo : bool) (fee potHash : Z)
| FeeConfigUpdated (minTTTBalance turboFee fullFee tttTokenId : Z).

Section Contract.
Context {R T : Type} `{AccessControl R, ERC1155Supply T}.
Variable keccak256 : Buffer -> Z.

Definition HOOK_OPERATOR_ROLE : Z := keccak256 (ascii_bytes (js "HOOK_OPERATOR_ROLE")).

Record state := {
  ttt : Z; tttTokenId : Z; minTTTBalance : Z; turboFee : Z; fullFee : Z;
  roles : R;
}.

(** BaseHook refuses an address whose lowest 14 bits are not the permissions
    beforeSwap (bit 7) and afterSwap (bit 6). *)
Definition validHookAddress (this : Z) : bool := Z.land this (2 ^ 14 - 1) =? 192.

Definition feeTooLarge (fee : Z) : bool := MAX_LP_FEE <? fee.
(** The ABI decoder's check of a uint24. *)
Definition uint24 (fee : Z) : bool := (0 <=? fee) && (fee <? 2 ^ 24).

Definition deploy (m : msg) (this _ttt _minBalance _turboFee _fullFee : Z) : option state :=
  _ ← require (uint24 _turboFee && uint24 _fullFee);
  _ ← require (validHookAddress this);
  _ ← require (negb (_ttt =? 0));
  _ ← require (negb (feeTooLarge _turboFee));
  _ ← require (negb (feeTooLarge _fullFee));
  Some {| ttt := _ttt; tttTokenId := 0; minTTTBalance := _minBalance; turboFee := _turboFee; fullFee := _fullFee;
          roles := grant_ HOOK_OPERATOR_ROLE (msg_sender m) (grant_ DEFAULT_ADMIN_ROLE (msg_sender m) no_roles) |}.

Definition isTurbo (t : T) (sender : Z) (s : state) : bool := minTTTBalance s <=? balanceOf t sender (tttTokenId s).
Definition selectedFee (t : T) (sender : Z) (s : state) : Z := if isTurbo t sender s then turboFee s else fullFee s.

(** [_beforeSwap]: the fee override it returns. *)
Definition beforeSwap (t : T) (sender : Z) (s : state) : Z := Z.lor (selectedFee t sender s) OVERRIDE_FEE_FLAG.

(** [_afterSwap]: the event.  [anchorPoT] is the external call on the token
    contract, whose revert is caught; [w] is what it may change. *)
Definition afterSwap {W} (anchorPoT : Z -> Z -> Z -> W -> option W) (m : msg) (t : T) (sender delta : Z) (s : state) (w : W)
    : W * list event :=
  let isTurbo := isTurbo t sender s in
  let appliedFee := if isTurbo then turboFee s else fullFee s in
  let potHash := keccak256 (packed_address sender ++ packed_256 (block_timestamp m) ++ packed_256 delta) in
  let grgHash := keccak256 (packed_address sender ++ packed_256 (block_number m)) in
  (default w (anchorPoT (block_number m) grgHash potHash w), [SwapVerified sender isTurbo appliedFee potHash]).

Definition setFeeConfig (m : msg) (_minBalance _turboFee _fullFee _tttTokenId : Z) (s : state)
    : option (state * list event) :=
  _ ← require (uint24 _turboFee && uint24 _fullFee);
  _ ← require (hasRole (roles s) HOOK_OPERATOR_ROLE (msg_sender m));
  _ ← require (negb (feeTooLarge _turboFee));
  _ ← require (negb (feeTooLarge _fullFee));
  Some ({| ttt := ttt s; tttTokenId := _tttTokenId; minTTTBalance := _minBalance; turboFee := _turboFee;
           fullFee := _fullFee; roles := roles s |},
        [FeeConfigUpdated _minBalance _turboFee _fullFee _tttTokenId]).

(** The functions that change the storage. *)
Inductive call := SetFeeConfig (_minBalance _turboFee _fullFee _tttTokenId : Z) | Roles (c : role_call).

Definition exec (m : msg) (c : call) (s : state) : option (state * list event) :=
  match c with
  | SetFeeConfig mb tf ff id => setFeeConfig m mb tf ff id s
  | Roles c =>
      r ← role_exec m c (roles s);
      Some ({| ttt := ttt s; tttTokenId := tttTokenId s; minTTTBalance := minTTTBalance s; turboFee := turboFee s;
               fullFee := fullFee s; roles := r |}, [])
  end.

Definition fees_ok (s : state) : Prop := 0 <= turboFee s <= MAX_LP_FEE /\ 0 <= fullFee s <= MAX_LP_FEE.

End Contract.
End TTTHook.

(** ** ProtocolFee.sol *)
Module ProtocolFee.

Inductive event :=
| FeeCollected (payer token amount nonce : Z)
| FeeRecipientUpdated (oldRecipient newRecipient : Z).

Section Contract.
(** The ERC-20 tokens' storage and [safeTransferFrom(from, to, amount)] on one
    of them, called by this contract; a token does not call back. *)
Context {W : Type}.
Variable safeTransferFrom : Z -> Z -> Z -> Z -> W -> option W.
Variable keccak256 : Buffer -> Z.
Variable hashTypedDataV4 : Z -> Z.             (* the EIP-712 digest of a struct hash *)
Variable recover : Z -> Buffer -> option Z.    (* ECDSA.recover(digest, signature) *)

Definition FEE_TYPEHASH : Z :=
  keccak256 (ascii_bytes (js "CollectFee(address token,uint256 amount,uint256 nonce,uint256 deadline)")).

Record state := { owner : Z; feeRecipient : Z; nonces : gmap Z Z; world : W }.

Definition deploy (m : msg) (_feeRecipient : Z) (w : W) : option state :=
  _ ← require (negb (_feeRecipient =? 0));
  Some {| owner := msg_sender m; feeRecipient := _feeRecipient; nonces := ∅; world := w |}.

Definition getNonce (s : state) (payer : Z) : Z := default 0 (nonces s !! payer).

Definition digest (token amount nonce deadline : Z) : Z :=
  hashTypedDataV4 (keccak256 (packed_256 FEE_TYPEHASH ++ packed_256 token ++ packed_256 amount
                                ++ packed_256 nonce ++ packed_256 deadline)).

Definition collectFee (m : msg) (token amount : Z) (signature : Buffer) (nonce deadline : Z) (s : state)
    : option (state * list event) :=
  _ ← require (block_timestamp m <=? deadline);
  _ ← require (negb (amount =? 0));
  _ ← require (negb (token =? 0));
  _ ← require (getNonce s (msg_sender m) =? nonce);
  signer ← recover (digest token amount nonce deadline) signature;
  _ ← require (signer =? msg_sender m);
  next ← increment nonce;
  w ← safeTransferFrom token (msg_sender m) (feeRecipient s) amount (world s);
  Some ({| owner := owner s; feeRecipient := feeRecipient s; nonces := <[msg_sender m := next]> (nonces s); world := w |},
        [FeeCollected (msg_sender m) token amount nonce]).

Definition setFeeRecipient (m : msg) (newRecipient : Z) (s : state) : option (state * list event) :=
  _ ← require (owner s =? msg_sender m);
  _ ← require (negb (newRecipient =? 0));
  Some ({| owner := owner s; feeRecipient := newRecipient; nonces := nonces s; world := world s |},
        [FeeRecipientUpdated (feeRecipient s) newRecipient]).

(** [TransferOwnership], [RenounceOwnership]: inherited from Ownable;
    [Elsewhere]: the tokens' own transactions. *)
Inductive call :=
| CollectFee (token amount : Z) (signature : Buffer) (nonce deadline : Z)
| SetFeeRecipient (newRecipient : Z)
| TransferOwnership (newOwner : Z)
| RenounceOwnership
| Elsewhere (w : W).

Definition with_owner (o : Z) (s : state) : state :=
  {| owner := o; feeRecipient := feeRecipient s; nonces := nonces s; world := world s |}.

Definition exec (m : msg) (c : call) (s : state) : option (state * list event) :=
  match c with
  | CollectFee token amount sig nonce deadline => collectFee m token amount sig nonce deadline s
  | SetFeeRecipient r => setFeeRecipient m r s
  | TransferOwnership o =>
      _ ← require (owner s =? msg_sender m); _ ← require (negb (o =? 0)); Some (with_owner o s, [])
  | RenounceOwnership => _ ← require (owner s =? msg_sender m); Some (with_owner 0 s, [])
  | Elsewhere w => Some ({| owner := owner s; feeRecipient := feeRecipient s; nonces := nonces s; world := w |}, [])
  end.

(** The nonces collected from a payer, in order. *)
Definition collected (payer : Z) (l : list event) : list Z :=
  omap (fun e => match e with
                 | FeeCollected p _ _ n => if p =? payer then Some n else None
                 | FeeRecipientUpdated _ _ => None
                 end) l.

(** A call of [l] in which the payer presented its own signature over exactly
    this token, amount and nonce, before the deadline. *)
Definition authorized (l : list (msg * call)) (e : event) : Prop :=
  match e with
  | FeeCollected p token amount n =>
      exists m sig deadline, (m, CollectFee token amount sig n deadline) ∈ l /\ msg_sender m = p
        /\ block_timestamp m <= deadline /\ amount <> 0
        /\ recover (digest token amount n deadline) sig = Some p
  | FeeRecipientUpdated _ _ => True
  end.

End Contract.
End ProtocolFee.

(** ** Lemmas *)

Lemma at_zero b : at_ b 0 = 0.
Proof. by destruct b. Qed.

(** *** TTT *)
Section TTTLemmas.
Context {R T : Type} `{AccessControl R, ERC1155Laws T} (keccak256 : Buffer -> Z).

Lemma minted_app id l l' : TTT.minted id (l ++ l') = TTT.minted id l + TTT.minted id l'.
Proof. unfold TTT.minted. induction l as [|e l IH]; cbn [app foldr] in *; lia. Qed.

Lemma burned_app id l l' : TTT.burned id (l ++ l') = TTT.burned id l + TTT.burned id l'.
Proof. unfold TTT.burned. induction l as [|e l IH]; cbn [app foldr] in *; lia. Qed.

Lemma anchored_app : forall l l', TTT.anchored keccak256 l = true -> TTT.anchored keccak256 (l ++ l') = TTT.anchored keccak256 l'.
Proof.
  fix IH 1. intros [|e l] l' Hl; [done|].
  destruct e as [to i v|f i v t|st g p ts]; cbn in Hl |- *; [|apply andb_prop in Hl as [-> Hl]; by apply IH|done].
  destruct l as [|[| |st g p ts] l]; try done. cbn [app].
  apply andb_prop in Hl as [-> Hl]. by apply IH.
Qed.

(** What a successful call adds to the log and to the supply. *)
Lemma ttt_exec_ledger m c (s s' : TTT.state (R := R) (T := T)) es :
  TTT.exec keccak256 m c s = Some (s', es) ->
  TTT.anchored keccak256 es = true
  /\ forall id, totalSupply (TTT.tokens s') id
               = totalSupply (TTT.tokens s) id + TTT.minted id es - TTT.burned id es.
Proof.
  intros Hx. destruct c as [to v g|v g tier| | |from to i v|from to ids vs|op b|rc]; cbn [TTT.exec] in Hx;
    unfold TTT.mint, TTT.burn, TTT.pause, TTT.unpause in Hx; requires Hx.
  - destruct (mint_ _ _ _ _) as [t|] eqn:Em; [|done]. injection Hx as <- <-. split.
    + cbn [TTT.anchored]. rewrite !Z.eqb_refl. by apply Z.ltb_lt in Hreq1 as ->.
    + intros id. cbn. rewrite (mint_supply _ _ _ _ _ _ Em), (bool_decide_ext (g = id) (id = g)) by done. lia.
  - destruct (burn_ _ _ _ _) as [t|] eqn:Em; [|done]. injection Hx as <- <-. split.
    + cbn [TTT.anchored]. by apply Z.ltb_lt in Hreq0 as ->.
    + intros id. cbn. rewrite (burn_supply _ _ _ _ _ _ Em), (bool_decide_ext (g = id) (id = g)) by done. lia.
  - injection Hx as <- <-. split; [done|]. intros id. cbn. lia.
  - injection Hx as <- <-. split; [done|]. intros id. cbn. lia.
  - destruct (transfer_ _ _ _ _ _ _) as [t|] eqn:Em; [|done]. injection Hx as <- <-. split; [done|].
    intros id. cbn. rewrite (transfer_supply _ _ _ _ _ _ _ _ Em). lia.
  - destruct (batch_ _ _ _ _ _) as [t|] eqn:Em; [|done]. injection Hx as <- <-. split; [done|].
    intros id. cbn. rewrite (batch_supply _ _ _ _ _ _ _ Em). lia.
  - destruct (approve_ _ _ _ _) as [t|] eqn:Em; [|done]. injection Hx as <- <-. split; [done|].
    intros id. cbn. rewrite (approve_supply _ _ _ _ _ _ Em). lia.
  - destruct (role_exec _ _ _); [|done]. injection Hx as <- <-. split; [done|]. intros id. cbn. lia.
Qed.

(** C39: The token's supply is its log: after any sequence of transactions to
    TTT, reverted ones included, the supply of every id is what the TTTMinted
    events say was minted less what the TTTBurned events say was burned, which
    is never more; every mint is followed by the PoTAnchored event of its own
    token, whose proof hash covers the recipient and the amount only. *)
Theorem ttt_supply_ledger m0 (l : list (msg * TTT.call)) :
  let '(s, es) := transactions (TTT.exec keccak256) l (TTT.deploy (R := R) (T := T) keccak256 m0) in
  (forall id, totalSupply (TTT.tokens s) id = TTT.minted id es - TTT.burned id es
              /\ TTT.burned id es <= TTT.minted id es)
  /\ TTT.anchored keccak256 es = true.
Proof.
  destruct (transactions _ _ _) as [s es] eqn:E.
  assert ((forall id, totalSupply (TTT.tokens s) id = TTT.minted id es - TTT.burned id es)
          /\ TTT.anchored keccak256 es = true) as [Hs Ha].
  { pose proof (transactions_inv (TTT.exec keccak256)
      (fun s es => (forall id, totalSupply (TTT.tokens s) id = TTT.minted id es - TTT.burned id es)
                   /\ TTT.anchored keccak256 es = true)
      l (TTT.deploy (R := R) (T := T) keccak256 m0) []) as Hi.
    rewrite E in Hi. apply Hi; clear E Hi s es.
    - split; [|done]. intros id. cbn. by rewrite supply_none.
    - intros m c s es s' es' _ [Hs Ha] Hx. apply ttt_exec_ledger in Hx as [Ha' Hs']. split.
      + intros id. rewrite Hs', Hs, minted_app, burned_app. lia.
      + by rewrite anchored_app. }
  split; [|done]. intros id. split; [done|]. specialize (Hs id). pose proof (supply_nonneg (TTT.tokens s) id). lia.
Qed.

End TTTLemmas.

(** *** TTTHook *)

Lemma lor_flag f : 0 <= f < 2 ^ 22 -> Z.lor f (2 ^ 22) = f + 2 ^ 22.
Proof.
  intros Hf. rewrite <- (Z.add_0_r (Z.lor f (2 ^ 22))).
  replace 0 with (Z.land f (2 ^ 22)); [apply Z.add_lor_land|].
  apply Z.bits_inj'. intros n Hn. rewrite Z.land_spec, Z.pow2_bits_eqb, Z.bits_0 by lia.
  destruct (Z.eqb_spec 22 n) as [<-|]; [|by rewrite andb_false_r].
  destruct (decide (f = 0)) as [->|]; [done|]. rewrite Z.bits_above_log2; [done|lia|].
  apply Z.log2_lt_pow2; lia.
Qed.

Section HookLemmas.
Context {R T : Type} `{AccessControl R, ERC1155Supply T} (keccak256 : Buffer -> Z).

Lemma fee_guards a b :
  TTTHook.uint24 a && TTTHook.uint24 b = true -> TTTHook.feeTooLarge a = false -> TTTHook.feeTooLarge b = false ->
  0 <= a <= TTTHook.MAX_LP_FEE /\ 0 <= b <= TTTHook.MAX_LP_FEE.
Proof. unfold TTTHook.uint24, TTTHook.feeTooLarge. intros. zbool. lia. Qed.

Lemma hook_exec_fees m c (s s' : TTTHook.state (R := R)) es :
  TTTHook.fees_ok s -> TTTHook.exec keccak256 m c s = Some (s', es) -> TTTHook.fees_ok s'.
Proof.
  intros Hf Hx. destruct c as [mb tf ff id|rc]; cbn [TTTHook.exec] in Hx.
  - unfold TTTHook.setFeeConfig in Hx. requires Hx. injection Hx as <- _. unfold TTTHook.fees_ok. cbn.
    apply fee_guards; [|done|done]. by apply andb_true_iff.
  - destruct (role_exec _ _ _); [|done]. by injection Hx as <- _.
Qed.

(** The fee the V4 hook answers a swap with is always one the pool
    manager accepts: in every state reachable from a deployment, whatever the
    fee configurations set since, it is the configured fee of the sender's mode
    with the override flag, and taking the flag off gives that fee back, at
    most 100%. *)
Lemma hook_override_valid m0 this ttt mb tf ff (s0 : TTTHook.state (R := R)) l (t : T) sender :
  TTTHook.deploy keccak256 m0 this ttt mb tf ff = Some s0 ->
  let s := (transactions (TTTHook.exec keccak256) l s0).1 in
  let fee := TTTHook.beforeSwap t sender s in
  fee = (if TTTHook.isTurbo t sender s then TTTHook.turboFee s else TTTHook.fullFee s) + TTTHook.OVERRIDE_FEE_FLAG
  /\ Z.testbit fee 22 = true /\ 0 <= Z.ldiff fee TTTHook.OVERRIDE_FEE_FLAG <= TTTHook.MAX_LP_FEE
  /\ Z.ldiff fee TTTHook.OVERRIDE_FEE_FLAG = TTTHook.selectedFee t sender s.
Proof.
  intros Hd s fee.
  assert (TTTHook.fees_ok s) as [Ht Hf].
  { apply (transactions_inv (TTTHook.exec keccak256) (fun s _ => TTTHook.fees_ok s) l s0 []).
    - unfold TTTHook.deploy in Hd. requires Hd. injection Hd as <-. apply fee_guards; [|done|done]. by apply andb_true_iff.
    - intros m c s1 es s1' es' _. apply hook_exec_fees. }
  unfold fee, TTTHook.beforeSwap. assert (0 <= TTTHook.selectedFee t sender s <= TTTHook.MAX_LP_FEE) as Hs.
  { unfold TTTHook.selectedFee. by destruct (TTTHook.isTurbo t sender s). }
  change TTTHook.OVERRIDE_FEE_FLAG with (2 ^ 22). set (f := TTTHook.selectedFee t sender s) in *. unfold TTTHook.MAX_LP_FEE in *.
  assert (Z.ldiff (Z.lor f (2 ^ 22)) (2 ^ 22) = f) as Hl.
  { apply Z.bits_inj'. intros n Hn. rewrite Z.ldiff_spec, Z.lor_spec, Z.pow2_bits_eqb by lia.
    destruct (Z.eqb_spec 22 n) as [<-|]; [|by rewrite orb_false_r, andb_true_r]. rewrite andb_false_r.
    destruct (decide (f = 0)) as [->|]; [done|]. rewrite Z.bits_above_log2; [done|lia|]. apply Z.log2_lt_pow2; lia. }
  rewrite Hl. split_and!; [by rewrite lor_flag by lia| |lia|lia|done].
  by rewrite Z.lor_spec, (Z.pow2_bits_true 22), orb_true_r.
Qed.

End HookLemmas.

(** *** ProtocolFee *)
Section FeeLemmas.
Context {W : Type} (safeTransferFrom : Z -> Z -> Z -> Z -> W -> option W) (keccak256 : Buffer -> Z)
  (hashTypedDataV4 : Z -> Z) (recover : Z -> Buffer -> option Z).

Abbreviation fee_exec := (ProtocolFee.exec safeTransferFrom keccak256 hashTypedDataV4 recover).
Abbreviation authorized' := (ProtocolFee.authorized keccak256 hashTypedDataV4 recover).

Lemma collected_app p l l' : ProtocolFee.collected p (l ++ l') = ProtocolFee.collected p l ++ ProtocolFee.collected p l'.
Proof. apply omap_app. Qed.

Lemma fee_exec_spec m c (s s' : ProtocolFee.state) es l :
  (m, c) ∈ l -> fee_exec m c s = Some (s', es) ->
  Forall (authorized' l) es
  /\ forall p, ProtocolFee.collected p es = seqZ (ProtocolFee.getNonce s p) (ProtocolFee.getNonce s' p - ProtocolFee.getNonce s p)
               /\ ProtocolFee.getNonce s p <= ProtocolFee.getNonce s' p.
Proof.
  intros Hin Hx. assert (forall n, ([] : list Z) = seqZ n (n - n)) as Hnil by (intros n; by rewrite Z.sub_diag).
  destruct c as [token amount sig nonce dl|r|o| |w]; cbn [ProtocolFee.exec] in Hx.
  - unfold ProtocolFee.collectFee in Hx. requires Hx.
    destruct (recover _ _) as [signer|] eqn:Er; [|done]. cbn in Hx. requires Hx. subst signer.
    destruct (increment nonce) as [next|] eqn:En; [|done]. apply increment_Some in En as [-> Hn].
    cbn in Hx. destruct (safeTransferFrom _ _ _ _ _) as [w|]; [|done]. injection Hx as <- <-. split.
    + constructor; [|constructor]. exists m, sig, dl. by split_and!.
    + intros p. unfold ProtocolFee.getNonce in *. cbn. destruct (Z.eqb_spec (msg_sender m) p) as [<-|Hp].
      * rewrite lookup_insert_eq. cbn. rewrite Hreq2. replace (nonce + 1 - nonce) with 1 by lia.
        split; [by rewrite seqZ_cons by lia|lia].
      * rewrite lookup_insert_ne by done. split; [apply Hnil|lia].
  - unfold ProtocolFee.setFeeRecipient in Hx. requires Hx. injection Hx as <- <-.
    split; [by repeat constructor|]. intros p. split; [apply Hnil|done].
  - requires Hx. injection Hx as <- <-. split; [constructor|]. intros p. split; [apply Hnil|done].
  - requires Hx. injection Hx as <- <-. split; [constructor|]. intros p. split; [apply Hnil|done].
  - injection Hx as <- <-. split; [constructor|]. intros p. split; [apply Hnil|done].
Qed.

(** C38: A fee is collected once per signature.  After any sequence of
    transactions, the nonces of the FeeCollected events of a payer are 0, 1, 2,
    ... up to its current nonce, in this order and without repetition; and each
    event goes back to a call its payer made itself, before the deadline, with
    the payer's own signature over exactly that token, amount, nonce and
    deadline. *)
Theorem fee_collected_once m0 recipient w s0 l :
  ProtocolFee.deploy m0 recipient w = Some s0 ->
  let '(s, es) := transactions fee_exec l s0 in
  Forall (authorized' l) es
  /\ forall p, ProtocolFee.collected p es = seqZ 0 (ProtocolFee.getNonce s p) /\ NoDup (ProtocolFee.collected p es).
Proof.
  intros Hd. destruct (transactions _ _ _) as [s es] eqn:E.
  assert (Forall (authorized' l) es
    /\ forall p, ProtocolFee.collected p es = seqZ 0 (ProtocolFee.getNonce s p) /\ 0 <= ProtocolFee.getNonce s p) as [Ha Hn].
  { pose proof (transactions_inv fee_exec
      (fun s es => Forall (authorized' l) es
        /\ forall p, ProtocolFee.collected p es = seqZ 0 (ProtocolFee.getNonce s p) /\ 0 <= ProtocolFee.getNonce s p)
      l s0 []) as Hi.
    rewrite E in Hi. apply Hi; clear E Hi s es.
    - unfold ProtocolFee.deploy in Hd. requires Hd. injection Hd as <-. split; [done|]. intros p.
      unfold ProtocolFee.getNonce. cbn. by rewrite lookup_empty.
    - intros m c s es s' es' Hin [Ha Hn] Hx. destruct (fee_exec_spec m c s s' es' l Hin Hx) as [Ha' Hn'].
      split; [by apply Forall_app|]. intros p. destruct (Hn p) as [Hc Hp], (Hn' p) as [Hc' Hp'].
      rewrite collected_app, Hc, Hc'. split; [|lia].
      replace (ProtocolFee.getNonce s' p) with (ProtocolFee.getNonce s p + (ProtocolFee.getNonce s' p - ProtocolFee.getNonce s p)) at 2 by lia.
      by rewrite seqZ_app by lia. }
  split; [done|]. intros p. destruct (Hn p) as [-> _]. split; [done|]. apply NoDup_seqZ.
Qed.

End FeeLemmas.

(** ** Witnesses *)

Definition ex_keccak (b : Buffer) : Z := be_val b mod 2 ^ 256.
Definition ex_msg (a : Z) : msg := {| msg_sender := a; block_timestamp := 1710412800; block_number := 38890000 |}.

(** Two mints, a burn of more than there is, a burn by the receiver of a batch
    an operator moved, and a mint by a stranger. *)
Definition ex_ttt_calls : list (msg * TTT.call) :=
  [(ex_msg 1, TTT.Mint 7 100 5); (ex_msg 1, TTT.Mint 8 20 5); (ex_msg 7, TTT.Burn 101 5 0);
   (ex_msg 9, TTT.BatchTransfer 7 9 [5; 5] [40; 30]); (ex_msg 7, TTT.SetApprovalForAll 9 true);
   (ex_msg 9, TTT.BatchTransfer 7 9 [5; 5] [40; 30]); (ex_msg 9, TTT.Burn 60 5 0); (ex_msg 2, TTT.Mint 2 1000 5); (ex_msg 1, TTT.Pause); (ex_msg 1, TTT.Mint 7 1 5)].
Definition ex_ttt : TTT.state (R := Maps.roles) (T := Maps.tokens) * list TTT.event :=
  transactions (TTT.exec ex_keccak) ex_ttt_calls (TTT.deploy ex_keccak (ex_msg 1)).

Lemma ttt_supply_ledger_witness :
  totalSupply (TTT.tokens ex_ttt.1) 5 = 60 /\ TTT.minted 5 ex_ttt.2 = 120 /\ TTT.burned 5 ex_ttt.2 = 60
  /\ (let '(s, es) := ex_ttt in
      (forall id, totalSupply (TTT.tokens s) id = TTT.minted id es - TTT.burned id es
                  /\ TTT.burned id es <= TTT.minted id es)
      /\ TTT.anchored ex_keccak es = true).
Proof.
  split_and!; [vm_compute; reflexivity..|].
  exact (ttt_supply_ledger (R := Maps.roles) (T := Maps.tokens) ex_keccak (ex_msg 1) ex_ttt_calls).
Defined.

(** An address with the hook's permission bits, and one configuration the
    contract refuses. *)
Definition ex_hook : TTTHook.state (R := Maps.roles) :=
  default {| TTTHook.ttt := 0; TTTHook.tttTokenId := 0; TTTHook.minTTTBalance := 0; TTTHook.turboFee := 0; TTTHook.fullFee := 0;
             TTTHook.roles := no_roles |} (TTTHook.deploy ex_keccak (ex_msg 1) 16576 3 10 500 10000).
Definition ex_hook_calls : list (msg * TTTHook.call) :=
  [(ex_msg 1, TTTHook.SetFeeConfig 10 2000000 10000 0); (ex_msg 1, TTTHook.SetFeeConfig 10 300 1000000 0)].

Lemma hook_override_valid_witness :
  let s := (transactions (TTTHook.exec ex_keccak) ex_hook_calls ex_hook).1 in
  let t : Maps.tokens := no_tokens in
  let fee := TTTHook.beforeSwap t 9 s in
  TTTHook.turboFee s = 300 /\
  (fee = (if TTTHook.isTurbo t 9 s then TTTHook.turboFee s else TTTHook.fullFee s) + TTTHook.OVERRIDE_FEE_FLAG
   /\ Z.testbit fee 22 = true /\ 0 <= Z.ldiff fee TTTHook.OVERRIDE_FEE_FLAG <= TTTHook.MAX_LP_FEE
   /\ Z.ldiff fee TTTHook.OVERRIDE_FEE_FLAG = TTTHook.selectedFee t 9 s).
Proof.
  split; [vm_compute; reflexivity|].
  apply (hook_override_valid ex_keccak (ex_msg 1) 16576 3 10 500 10000 ex_hook ex_hook_calls (no_tokens : Maps.tokens) 9).
  vm_compute. reflexivity.
Defined.

(** The signature is the signer's address; the second call replays the first. *)
Definition ex_fee_calls : list (msg * ProtocolFee.call (W := unit)) :=
  [(ex_msg 7, ProtocolFee.CollectFee 3 50 (be_bytes 20 7) 0 1710412900);
   (ex_msg 7, ProtocolFee.CollectFee 3 50 (be_bytes 20 7) 0 1710412900);
   (ex_msg 7, ProtocolFee.CollectFee 3 10 (be_bytes 20 7) 1 1710412900);
   (ex_msg 8, ProtocolFee.CollectFee 3 10 (be_bytes 20 7) 0 1710412900)].
Definition ex_fee : ProtocolFee.state (W := unit) * list ProtocolFee.event :=
  transactions (ProtocolFee.exec (fun _ _ _ _ w => Some w) ex_keccak (fun h => h) (fun _ sig => Some (be_val sig)))
    ex_fee_calls {| ProtocolFee.owner := 1; ProtocolFee.feeRecipient := 2; ProtocolFee.nonces := ∅; ProtocolFee.world := tt |}.

Lemma fee_collected_once_witness :
  ex_fee.2 = [ProtocolFee.FeeCollected 7 3 50 0; ProtocolFee.FeeCollected 7 3 10 1]
  /\ (let '(s, es) := ex_fee in
      Forall (ProtocolFee.authorized ex_keccak (fun h => h) (fun _ sig => Some (be_val sig)) ex_fee_calls) es
      /\ forall p, ProtocolFee.collected p es = seqZ 0 (ProtocolFee.getNonce s p) /\ NoDup (ProtocolFee.collected p es)).
Proof.
  split; [vm_compute; reflexivity|].
  apply (fee_collected_once (fun _ _ _ _ w => Some w) ex_keccak (fun h => h) (fun _ sig => Some (be_val sig))
    (ex_msg 1) 2 tt {| ProtocolFee.owner := 1; ProtocolFee.feeRecipient := 2; ProtocolFee.nonces := ∅; ProtocolFee.world := tt |}
    ex_fee_calls).
  reflexivity.
Defined.
