(* ===== verification/Tokens.v ===== *)
(** * The ERC-20 tokens and the pool helper
    (contracts/contracts: TTTToken.sol, TestTTT.sol, PoolHelper.sol)

    The two tokens over classes for OpenZeppelin's ERC20, Ownable and Pausable,
    and the helper over a class for Uniswap's PoolManager, whose laws are the
    flash accounting of its documentation.  As in [Contracts], a function
    yields [None] when it reverts. *)
From Stdlib Require Import ZArith Lia String.
From stdpp Require Import base list numbers option strings gmap.
From S2P Require Import Prelude JSString Bytes OpenZeppelin.

(** ** ERC20 *)

Class ERC20 (T : Type) := {
  no_coins : T;
  coins_of : T -> Z -> Z;
  coin_supply : T -> Z;
  mint_coins : Z -> Z -> T -> option T;                  (* _mint(to, value) *)
  burn_coins : Z -> Z -> T -> option T;                  (* _burn(from, value) *)
  send_coins : Z -> Z -> Z -> Z -> T -> option T;        (* transferFrom by a spender, transfer when it is the owner *)
  approve_coins : Z -> Z -> Z -> T -> option T;
}.

Class ERC20Laws (T : Type) `{ERC20 T} := {
  supply_no_coins : coin_supply no_coins = 0;
  coin_supply_nonneg t : 0 <= coin_supply t;
  supply_mint to v t t' : mint_coins to v t = Some t' -> coin_supply t' = coin_supply t + v;
  supply_burn from v t t' : burn_coins from v t = Some t' -> coin_supply t' = coin_supply t - v;
  supply_send op from to v t t' : send_coins op from to v t = Some t' -> coin_supply t' = coin_supply t;
  supply_approve o s v t t' : approve_coins o s v t = Some t' -> coin_supply t' = coin_supply t;
}.

(** The inherited functions of ERC20 and Ownable. *)
Inductive coin_call := Send (from to value : Z) | Approve (spender value : Z).
Definition coin_exec {T} `{ERC20 T} (m : msg) (c : coin_call) (t : T) : option T :=
  match c with
  | Send from to v => send_coins (msg_sender m) from to v t
  | Approve spender v => approve_coins (msg_sender m) spender v t
  end.

Inductive owner_call := TransferOwnership (newOwner : Z) | RenounceOwnership.
Definition owner_exec (m : msg) (c : owner_call) (owner : Z) : option Z :=
  _ ← require (msg_sender m =? owner);
  match c with
  | TransferOwnership n => _ ← require (negb (n =? 0)); Some n
  | RenounceOwnership => Some 0
  end.

(** ** TTTToken.sol *)
Module TTTToken.

Record TTTRecord := { timestamp : Z; grgHash : Z; tier : Z; builder : Z }.

Inductive event :=
| TTTMinted (to amount grgHash potHash stratum : Z)
| TTTBurned (from amount recordId tier timestamp : Z)
| PoTAnchored (timestamp grgHash stratum potHash : Z).

Section Contract.
Context {T : Type} `{ERC20 T}.

Record state := {
  coins : T; owner : Z; paused : bool; tierPrices : gmap Z Z; records : gmap Z TTTRecord; nextRecordId : Z;
}.

Definition unit_ : Z := 10 ^ 18.

Definition deploy (m : msg) : option state :=
  t ← mint_coins (msg_sender m) (10000000 * unit_) no_coins;
  Some {| coins := t; owner := msg_sender m; paused := false;
          tierPrices := {[0 := 1 * unit_ / 1000; 1 := 1 * unit_ / 100; 2 := 24 * unit_ / 100; 3 := 1 * unit_ / 10000]};
          records := ∅; nextRecordId := 0 |}.

Definition with_coins (t : T) (s : state) : state :=
  {| coins := t; owner := owner s; paused := paused s; tierPrices := tierPrices s; records := records s;
     nextRecordId := nextRecordId s |}.
Definition with_owner (o : Z) (s : state) : state :=
  {| coins := coins s; owner := o; paused := paused s; tierPrices := tierPrices s; records := records s;
     nextRecordId := nextRecordId s |}.
Definition with_paused (b : bool) (s : state) : state :=
  {| coins := coins s; owner := owner s; paused := b; tierPrices := tierPrices s; records := records s;
     nextRecordId := nextRecordId s |}.

Definition onlyOwner (m : msg) (s : state) : option unit := require (msg_sender m =? owner s).

Definition pause (m : msg) (s : state) : option (state * list event) :=
  _ ← onlyOwner m s; _ ← require (negb (paused s)); Some (with_paused true s, []).
Definition unpause (m : msg) (s : state) : option (state * list event) :=
  _ ← onlyOwner m s; _ ← require (paused s); Some (with_paused false s, []).

(** [uint64(block.timestamp)] cuts. *)
Definition mint (m : msg) (to amount grgHash potHash stratum : Z) (s : state) : option (state * list event) :=
  _ ← onlyOwner m s;
  _ ← require (negb (paused s));
  _ ← require (negb (grgHash =? 0));
  _ ← require (negb (potHash =? 0));
  t ← mint_coins to amount (coins s);
  Some (with_coins t s,
        [TTTMinted to amount grgHash potHash stratum;
         PoTAnchored (block_timestamp m mod 2 ^ 64) grgHash stratum potHash]).

(** The decoder of an enum already reverts above 3. *)
Definition burn (m : msg) (amount grgHash tier : Z) (s : state) : option (state * list event) :=
  _ ← require (negb (paused s));
  _ ← require ((0 <=? tier) && (tier <=? 3));
  _ ← require (negb (grgHash =? 0));
  _ ← require (default 0 (tierPrices s !! tier) <=? amount);
  t ← burn_coins (msg_sender m) amount (coins s);
  let id := nextRecordId s in
  next ← increment id;
  Some ({| coins := t; owner := owner s; paused := paused s; tierPrices := tierPrices s;
           records := <[id := {| timestamp := block_timestamp m; grgHash := grgHash; tier := tier;
                                 builder := msg_sender m |}]> (records s);
           nextRecordId := next |},
        [TTTBurned (msg_sender m) amount id tier (block_timestamp m)]).

Definition setTierPrice (m : msg) (tier price : Z) (s : state) : option (state * list event) :=
  _ ← onlyOwner m s;
  _ ← require ((0 <=? tier) && (tier <=? 3));
  Some ({| coins := coins s; owner := owner s; paused := paused s; tierPrices := <[tier := price]> (tierPrices s);
           records := records s; nextRecordId := nextRecordId s |}, []).

Inductive call :=
| Mint (to amount grgHash potHash stratum : Z) | Burn (amount grgHash tier : Z)
| Pause | Unpause | SetTierPrice (tier price : Z) | Coin (c : coin_call) | Owner (c : owner_call).

Definition exec (m : msg) (c : call) (s : state) : option (state * list event) :=
  match c with
  | Mint to amount g p st => mint m to amount g p st s
  | Burn amount g tier => burn m amount g tier s
  | Pause => pause m s
  | Unpause => unpause m s
  | SetTierPrice tier price => setTierPrice m tier price s
  | Coin c => t ← coin_exec m c (coins s); Some (with_coins t s, [])
  | Owner c => o ← owner_exec m c (owner s); Some (with_owner o s, [])
  end.

(** ** What the log says *)

Definition issued (l : list event) : Z :=
  foldr (fun e n => match e with TTTMinted _ v _ _ _ => v | TTTBurned _ v _ _ _ => - v | _ => 0 end + n) 0 l.

(** The burns, in order, without their amounts. *)
Definition burns (l : list event) : list (Z * Z * Z * Z) :=
  omap (fun e => match e with TTTBurned from _ id tier ts => Some (id, from, tier, ts) | _ => None end) l.

Definition entry (ir : Z * TTTRecord) : Z * Z * Z * Z := (ir.1, builder ir.2, tier ir.2, timestamp ir.2).

End Contract.
Arguments state T : clear implicits.
End TTTToken.

(** ** TestTTT.sol *)
Module TestTTT.
Section Contract.
Context {T : Type} `{ERC20 T}.

Record state := { coins : T; owner : Z }.

Definition deploy (m : msg) : option state :=
  t ← mint_coins (msg_sender m) (10000000 * 10 ^ 18) no_coins; Some {| coins := t; owner := msg_sender m |}.

Definition mint (m : msg) (to amount : Z) (s : state) : option state :=
  _ ← require (msg_sender m =? owner s); t ← mint_coins to amount (coins s); Some {| coins := t; owner := owner s |}.

Inductive call := Mint (to amount : Z) | Coin (c : coin_call) | Owner (c : owner_call).

Definition exec (m : msg) (c : call) (s : state) : option (state * list unit) :=
  match c with
  | Mint to amount => s' ← mint m to amount s; Some (s', [])
  | Coin c => t ← coin_exec m c (coins s); Some ({| coins := t; owner := owner s |}, [])
  | Owner c => o ← owner_exec m c (owner s); Some ({| coins := coins s; owner := o |}, [])
  end.

Definition decimals : Z := 18.

End Contract.
Arguments state T : clear implicits.
End TestTTT.

(** ** Properties of the tokens *)
Section TokenLemmas.
Context {T : Type} `{ERC20Laws T}.

Lemma issued_app l l' : TTTToken.issued (l ++ l') = TTTToken.issued l + TTTToken.issued l'.
Proof. unfold TTTToken.issued. induction l as [|e l IH]; cbn [app foldr] in *; lia. Qed.

(** The state against the log. *)
Definition token_inv (s : TTTToken.state T) (es : list TTTToken.event) : Prop :=
  coin_supply (TTTToken.coins s) = 10000000 * TTTToken.unit_ + TTTToken.issued es
  /\ TTTToken.nextRecordId s = Z.of_nat (length (TTTToken.burns es))
  /\ (forall i, (exists r, TTTToken.records s !! i = Some r /\ TTTToken.grgHash r <> 0
                         /\ TTTToken.burns es !! Z.to_nat i = Some (TTTToken.entry (i, r)) /\ 0 <= i)
                \/ TTTToken.records s !! i = None /\ (i < 0 \/ Z.of_nat (length (TTTToken.burns es)) <= i)).

(** A call that adds no burn and moves the supply by its events. *)
Lemma token_inv_step s s' es es' :
  token_inv s es -> TTTToken.burns es' = [] ->
  coin_supply (TTTToken.coins s') = coin_supply (TTTToken.coins s) + TTTToken.issued es' ->
  TTTToken.nextRecordId s' = TTTToken.nextRecordId s -> TTTToken.records s' = TTTToken.records s ->
  token_inv s' (es ++ es').
Proof.
  intros (I1 & I2 & I3) Hb Hs Hn Hr. unfold token_inv, TTTToken.burns in *.
  rewrite omap_app, Hb, app_nil_r, issued_app, Hs, Hn, Hr. split_and!; [lia|done|done].
Qed.

Lemma token_exec_inv m c s es s' es' :
  token_inv s es -> TTTToken.exec m c s = Some (s', es') -> token_inv s' (es ++ es').
Proof.
  intros Hi Hx. destruct c as [to v g p st|v g tr| | |tr price|cc|oc]; cbn [TTTToken.exec] in Hx;
    unfold TTTToken.mint, TTTToken.burn, TTTToken.pause, TTTToken.unpause, TTTToken.setTierPrice, TTTToken.onlyOwner in Hx;
    requires Hx.
  - destruct (mint_coins _ _ _) as [t|] eqn:Em; [|done]. injection Hx as <- <-.
    eapply token_inv_step; try done. cbn. rewrite (supply_mint _ _ _ _ Em). lia.
  - destruct (burn_coins _ _ _) as [t|] eqn:Em; [|done]. cbn [mbind option_bind] in Hx.
    destruct (increment _) as [n|] eqn:En; [|done]. injection Hx as <- <-. apply increment_Some in En as [-> _].
    destruct Hi as (I1 & I2 & I3). unfold token_inv, TTTToken.burns in *. rewrite omap_app, issued_app, length_app.
    cbn [TTTToken.coins TTTToken.nextRecordId TTTToken.records]. rewrite (supply_burn _ _ _ _ Em).
    cbn [omap list_omap length TTTToken.issued foldr]. split_and!; [lia|lia|]. intros i.
    set (l := omap _ es) in *. destruct (decide (TTTToken.nextRecordId s = i)) as [<-|Hne].
    + left. eexists. rewrite lookup_insert_eq. split_and!; [done|done| |lia].
      rewrite I2, Nat2Z.id, lookup_app_r, Nat.sub_diag by done. done.
    + rewrite lookup_insert_ne by done. destruct (I3 i) as [(r & E1 & E2 & E3 & E4)|[E1 E2]].
      * left. exists r. split_and!; [done|done| |done]. by apply lookup_app_l_Some.
      * right. split; [done|]. lia.
  - injection Hx as <- <-. eapply token_inv_step; try done. cbn. lia.
  - injection Hx as <- <-. eapply token_inv_step; try done. cbn. lia.
  - injection Hx as <- <-. eapply token_inv_step; try done. cbn. lia.
  - destruct (coin_exec _ _ _) as [t|] eqn:Ec; [|done]. injection Hx as <- <-. eapply token_inv_step; try done.
    cbn. destruct cc; cbn in Ec; [rewrite (supply_send _ _ _ _ _ _ Ec)|rewrite (supply_approve _ _ _ _ _ Ec)]; lia.
  - destruct (owner_exec _ _ _) as [o|] eqn:Eo; [|done]. injection Hx as <- <-. eapply token_inv_step; try done.
    cbn. lia.
Qed.

(** After any transactions to a deployed TTTToken the supply is the initial ten
    million tokens and what the events minted less what they burned, and the
    records are the burns of the log: numbered from 0 without gaps, each with
    its burner, tier and time, none overwritten, none with a zero hash. *)
Lemma ttt_token_records m0 (l : list (msg * TTTToken.call)) s0 :
  TTTToken.deploy m0 = Some s0 ->
  let '(s, es) := transactions TTTToken.exec l s0 in token_inv s es.
Proof.
  intros Hd. destruct (transactions _ _ _) as [s es] eqn:E.
  pose proof (transactions_inv TTTToken.exec token_inv l s0 []) as Hi. rewrite E in Hi.
  apply Hi; [|intros; by eapply token_exec_inv]. clear E Hi s es. unfold TTTToken.deploy in Hd.
  destruct (mint_coins _ _ _) as [t|] eqn:Em; [|done]. injection Hd as <-. split_and!.
  - cbn. rewrite (supply_mint _ _ _ _ Em), supply_no_coins. lia.
  - done.
  - intros i. right. split; [apply lookup_empty|]. cbn. lia.
Qed.

(** Only the owner mints TestTTT. *)
Lemma test_ttt_supply_owner m c s s' es :
  TestTTT.exec m c s = Some (s', es) -> msg_sender m <> TestTTT.owner s ->
  coin_supply (TestTTT.coins s') = coin_supply (TestTTT.coins s) /\ TestTTT.owner s' = TestTTT.owner s.
Proof.
  intros Hx Hm. destruct c as [to v|cc|oc]; cbn in Hx.
  - unfold TestTTT.mint in Hx. rewrite (proj2 (Z.eqb_neq _ _)) in Hx by done. done.
  - destruct (coin_exec _ _ _) as [t|] eqn:Ec; [|done]. injection Hx as <- <-. cbn. split; [|done].
    destruct cc; cbn in Ec; [apply (supply_send _ _ _ _ _ _ Ec)|apply (supply_approve _ _ _ _ _ Ec)].
  - unfold owner_exec in Hx. rewrite (proj2 (Z.eqb_neq _ _)) in Hx by done. done.
Qed.

End TokenLemmas.

(** ** PoolHelper.sol *)

Record PoolKey := { currency0 : Z; currency1 : Z; fee : Z; tickSpacing : Z; hooks : Z }.

(** What the helper calls: the PoolManager, the two tokens, and its own ether.
    A balance delta is the pair of its amounts, each an int128. *)
Class PoolManager (W : Type) := {
  unlock_open : W -> option W;
  unlock_close : W -> option W;
  modifyLiquidity : PoolKey -> Z -> Z -> Z -> Z -> W -> option (W * (Z * Z));
  pool_swap : PoolKey -> bool -> Z -> Z -> W -> option (W * (Z * Z));
  sync : Z -> W -> option W;
  settle : Z -> W -> option W;                    (* settle{value: v}() *)
  take : Z -> Z -> Z -> W -> option W;
  transferFrom : Z -> Z -> Z -> W -> option (W * bool);   (* token, from, value; to the manager *)
  delta : W -> Z -> Z;                            (* the helper's open delta of a currency *)
  synced : W -> Z;                                (* the synced currency, 0 for the native one *)
  paid : W -> Z;                                  (* what the manager received since the sync *)
  ether : W -> Z;                                 (* the helper's ether *)
  min_sqrt_price : Z;                             (* TickMath.MIN_SQRT_PRICE *)
  max_sqrt_price : Z;
}.

Class PoolManagerLaws (W : Type) `{PoolManager W} : Prop := {
  open_clear w w' : unlock_open w = Some w' -> (forall c, delta w' c = 0) /\ synced w' = 0 /\ ether w' = ether w;
  close_settled w : is_Some (unlock_close w) <-> forall c, delta w c = 0;
  modify_delta k lo hi l salt w w' d : modifyLiquidity k lo hi l salt w = Some (w', d) ->
    currency0 k < currency1 k /\ synced w' = synced w /\ ether w' = ether w
    /\ forall c, delta w' c = delta w c + at_ (bool_decide (c = currency0 k)) d.1 + at_ (bool_decide (c = currency1 k)) d.2;
  swap_delta k z a p w w' d : pool_swap k z a p w = Some (w', d) ->
    currency0 k < currency1 k /\ synced w' = synced w /\ ether w' = ether w
    /\ forall c, delta w' c = delta w c + at_ (bool_decide (c = currency0 k)) d.1 + at_ (bool_decide (c = currency1 k)) d.2;
  sync_starts c w w' : sync c w = Some w' ->
    synced w' = c /\ paid w' = 0 /\ ether w' = ether w /\ forall c', delta w' c' = delta w c';
  settle_pays v w w' : settle v w = Some w' -> v <= ether w /\ ether w' = ether w - v /\ synced w' = 0
    /\ forall c, delta w' c = delta w c + at_ (bool_decide (c = synced w)) (if synced w =? 0 then v else paid w);
  take_delta c to a w w' : take c to a w = Some w' -> synced w' = synced w /\ ether w' = ether w
    /\ forall c', delta w' c' = delta w c' - at_ (bool_decide (c' = c)) a;
  transfer_outside t f a w w' b : transferFrom t f a w = Some (w', b) ->
    synced w' = synced w /\ ether w' = ether w /\ forall c, delta w' c = delta w c;
}.

Module PoolHelper.

Record state := { poolManager : Z; owner : Z }.
Definition deploy (m : msg) (poolManager_ : Z) : state := {| poolManager := poolManager_; owner := msg_sender m |}.

Inductive CallbackAction := ADD_LIQUIDITY | SWAP.
(** The two data structures, as the callback decodes them. *)
Inductive callback_data :=
| AddLiquidityData (key : PoolKey) (tickLower tickUpper liquidityDelta sender : Z)
| SwapData (key : PoolKey) (zeroForOne : bool) (amountSpecified sender : Z).
Definition action (d : callback_data) : CallbackAction :=
  match d with AddLiquidityData _ _ _ _ _ => ADD_LIQUIDITY | SwapData _ _ _ _ => SWAP end.

Section Contract.
Context {W : Type} `{PoolManager W}.

(** [-amount] is checked: the smallest int128 has no opposite.  The boolean of
    [transferFrom] is not looked at. *)
Definition _settle (currency sender amount : Z) (w : W) : option W :=
  if 0 <=? amount then Some w
  else
    _ ← require (negb (amount =? - 2 ^ 127));
    let amountOwed := - amount in
    if currency =? 0 then settle amountOwed w
    else
      w1 ← sync currency w;
      '(w2, _) ← transferFrom currency sender amountOwed w1;
      settle 0 w2.

Definition _take (currency sender amount : Z) (w : W) : option W :=
  if amount <=? 0 then Some w else take currency sender amount w.

(** The settling both handlers end with. *)
Definition close_deltas (key : PoolKey) (sender : Z) (d : Z * Z) (w : W) : option (W * (Z * Z)) :=
  w ← _settle (currency0 key) sender d.1 w;
  w ← _settle (currency1 key) sender d.2 w;
  w ← _take (currency0 key) sender d.1 w;
  w ← _take (currency1 key) sender d.2 w;
  Some (w, d).

Definition _handleAddLiquidity (key : PoolKey) (tickLower tickUpper liquidityDelta sender : Z) (w : W)
    : option (W * (Z * Z)) :=
  '(w, d) ← modifyLiquidity key tickLower tickUpper liquidityDelta 0 w;
  close_deltas key sender d w.

Definition _handleSwap (key : PoolKey) (zeroForOne : bool) (amountSpecified sender : Z) (w : W)
    : option (W * (Z * Z)) :=
  let sqrtPriceLimit := if zeroForOne then min_sqrt_price (W := W) + 1 else max_sqrt_price (W := W) - 1 in
  '(w, d) ← pool_swap key zeroForOne amountSpecified sqrtPriceLimit w;
  close_deltas key sender d w.

Definition unlockCallback (m : msg) (data : callback_data) (s : state) (w : W) : option (W * (Z * Z)) :=
  _ ← require (msg_sender m =? poolManager s);
  match data with
  | AddLiquidityData key lo hi l sender => _handleAddLiquidity key lo hi l sender w
  | SwapData key z a sender => _handleSwap key z a sender w
  end.

(** [poolManager.unlock(data)]: the manager calls back, then demands that every
    delta is settled. *)
Definition unlock (m : msg) (data : callback_data) (s : state) (w : W) : option (W * (Z * Z)) :=
  w1 ← unlock_open w;
  '(w2, d) ← unlockCallback {| msg_sender := poolManager s; block_timestamp := block_timestamp m;
                               block_number := block_number m |} data s w1;
  w3 ← unlock_close w2;
  Some (w3, d).

Definition addLiquidity (m : msg) (key : PoolKey) (tickLower tickUpper liquidityDelta : Z) (s : state) (w : W)
    : option (W * (Z * Z)) :=
  _ ← require (msg_sender m =? owner s);
  unlock m (AddLiquidityData key tickLower tickUpper liquidityDelta (msg_sender m)) s w.

Definition swap (m : msg) (key : PoolKey) (zeroForOne : bool) (amountSpecified : Z) (s : state) (w : W)
    : option (W * (Z * Z)) :=
  _ ← require (msg_sender m =? owner s);
  unlock m (SwapData key zeroForOne amountSpecified (msg_sender m)) s w.

End Contract.
End PoolHelper.

Section HelperLemmas.
Context {W : Type} `{PoolManagerLaws W}.

(** The token moves the amount whenever it answers. *)
Definition moves (token : Z) : Prop :=
  forall f a (w w' : W) b, transferFrom token f a w = Some (w', b) -> synced w = token -> paid w' = paid w + a.

(** Settling a negative delta pays it. *)
Lemma settle_closes c sender d (w w' : W) :
  PoolHelper._settle c sender d w = Some w' -> synced w = 0 -> moves c \/ c = 0 ->
  synced w' = 0 /\ forall c', delta w' c' = delta w c' + at_ (bool_decide (c' = c)) (Z.max 0 (- d)).
Proof.
  unfold PoolHelper._settle. destruct (Z.leb_spec 0 d) as [Hd|Hd].
  { intros [= <-] Hs _. split; [done|]. intros c'. rewrite Z.max_l by lia. unfold at_. case_bool_decide; lia. }
  intros Hx Hs Hm. requires Hx. rewrite Z.max_r by lia. destruct (Z.eqb_spec c 0) as [->|Hc].
  - apply settle_pays in Hx as (_ & _ & S1 & S2). split; [done|]. intros c'. by rewrite S2, Hs.
  - destruct Hm as [Hm|]; [|done]. destruct (sync c w) as [w1|] eqn:E1; [|done].
    apply sync_starts in E1 as (Y1 & Y2 & _ & Y3). cbn [mbind option_bind] in Hx.
    destruct (transferFrom c sender (- d) w1) as [[w2 b]|] eqn:E2; [|done]. cbn [mbind option_bind] in Hx.
    pose proof (Hm _ _ _ _ _ E2 Y1) as Hp. apply transfer_outside in E2 as (T1 & _ & T2).
    apply settle_pays in Hx as (_ & _ & S1 & S2). split; [done|]. intros c'.
    rewrite S2, T1, Y1, T2, Y3, Hp, Y2, (proj2 (Z.eqb_neq c 0)) by done. by rewrite Z.add_0_l.
Qed.

Lemma take_closes c sender d (w w' : W) :
  PoolHelper._take c sender d w = Some w' ->
  forall c', delta w' c' = delta w c' - at_ (bool_decide (c' = c)) (Z.max 0 d).
Proof.
  unfold PoolHelper._take. destruct (Z.leb_spec d 0) as [Hd|Hd].
  - intros [= <-] c'. rewrite Z.max_l by lia. unfold at_. case_bool_decide; lia.
  - intros (_ & _ & Ht)%take_delta c'. by rewrite Z.max_r, Ht by lia.
Qed.

Lemma close_deltas_closes k sender d (w w' : W) d' :
  PoolHelper.close_deltas k sender d w = Some (w', d') -> synced w = 0 -> currency0 k < currency1 k ->
  (moves (currency0 k) \/ currency0 k = 0) -> (moves (currency1 k) \/ currency1 k = 0) ->
  (forall c, delta w c = at_ (bool_decide (c = currency0 k)) d.1 + at_ (bool_decide (c = currency1 k)) d.2) ->
  d' = d /\ forall c, delta w' c = 0.
Proof.
  unfold PoolHelper.close_deltas. intros Hx Hs Hlt M0 M1 Hd.
  destruct (PoolHelper._settle _ _ d.1 w) as [w1|] eqn:E1; [|done]. cbn [mbind option_bind] in Hx.
  destruct (PoolHelper._settle _ _ d.2 w1) as [w2|] eqn:E2; [|done]. cbn [mbind option_bind] in Hx.
  destruct (PoolHelper._take _ _ d.1 w2) as [w3|] eqn:E3; [|done]. cbn [mbind option_bind] in Hx.
  destruct (PoolHelper._take _ _ d.2 w3) as [w4|] eqn:E4; [|done]. injection Hx as <- <-. split; [done|].
  apply settle_closes in E1 as [S1 D1]; [|done|done]. apply settle_closes in E2 as [_ D2]; [|done|done].
  intros c. rewrite (take_closes _ _ _ _ _ E4), (take_closes _ _ _ _ _ E3), D2, D1, Hd.
  unfold at_. repeat case_bool_decide; lia.
Qed.

(** With tokens that move what they answer for, the manager never refuses at the
    end what the helper's callback completed: all deltas are closed. *)
Lemma helper_settles_every_delta m data s (w w1 w2 : W) d k :
  unlock_open w = Some w1 -> PoolHelper.unlockCallback m data s w1 = Some (w2, d) ->
  match data with
  | PoolHelper.AddLiquidityData k' _ _ _ _ => k' = k
  | PoolHelper.SwapData k' _ _ _ => k' = k
  end ->
  (moves (currency0 k) \/ currency0 k = 0) -> (moves (currency1 k) \/ currency1 k = 0) ->
  is_Some (unlock_close w2).
Proof.
  intros (Hz & Hs & _)%open_clear Hx Hk M0 M1. apply close_settled. unfold PoolHelper.unlockCallback in Hx. requires Hx.
  destruct data as [k' lo hi l sender|k' z a sender]; subst k'.
  - unfold PoolHelper._handleAddLiquidity in Hx.
    destruct (modifyLiquidity _ _ _ _ _ _) as [[w3 d3]|] eqn:E; [|done]. cbn in Hx.
    apply modify_delta in E as (Hlt & Hs3 & _ & Hd). eapply close_deltas_closes; [exact Hx|congruence|done..|].
    intros c. by rewrite Hd, Hz.
  - unfold PoolHelper._handleSwap in Hx.
    destruct (pool_swap _ _ _ _ _) as [[w3 d3]|] eqn:E; [|done]. cbn in Hx.
    apply swap_delta in E as (Hlt & Hs3 & _ & Hd). eapply close_deltas_closes; [exact Hx|congruence|done..|].
    intros c. by rewrite Hd, Hz.
Qed.

(** The helper has no payable function: without ether it cannot settle a debt in
    the native currency, and the call reverts. *)
Lemma helper_native_debt_reverts sender amount (w : W) :
  ether w = 0 -> amount < 0 -> PoolHelper._settle 0 sender amount w = None.
Proof.
  intros He Ha. unfold PoolHelper._settle. rewrite (proj2 (Z.leb_gt 0 amount)) by lia.
  destruct (require _); [|done]. cbn. destruct (settle (- amount) w) as [w'|] eqn:E; [|done].
  apply settle_pays in E as (Hv & _). lia.
Qed.

(** Only the owner starts an operation, and only the manager calls back. *)
Lemma helper_guards m s (w : W) :
  (msg_sender m <> PoolHelper.owner s ->
   (forall k lo hi l, PoolHelper.addLiquidity m k lo hi l s w = None)
   /\ forall k z a, PoolHelper.swap m k z a s w = None)
  /\ (msg_sender m <> PoolHelper.poolManager s -> forall data, PoolHelper.unlockCallback m data s w = None).
Proof.
  split; [intros Hm; split|]; intros; unfold PoolHelper.addLiquidity, PoolHelper.swap, PoolHelper.unlockCallback;
    rewrite (proj2 (Z.eqb_neq _ _)) by done; done.
Qed.

End HelperLemmas.

(** ** Instances that satisfy the laws *)

(** One id of a multi-token is an ERC20, when allowances are left aside. *)
#[global] Instance erc20_of_tokens {T} `{ERC1155Supply T} : ERC20 T := {|
  no_coins := no_tokens;
  coins_of t a := balanceOf t a 0;
  coin_supply t := totalSupply t 0;
  mint_coins to v := mint_ to 0 v;
  burn_coins from v := burn_ from 0 v;
  send_coins op from to v := transfer_ op from to 0 v;
  approve_coins _ _ _ t := Some t;
|}.

#[global] Instance erc20_of_tokens_laws {T} `{ERC1155Laws T} : ERC20Laws T.
Proof.
  split; cbn.
  - apply supply_none.
  - intros t. apply supply_nonneg.
  - intros to v t t' E. by rewrite (mint_supply _ _ _ _ _ _ E).
  - intros from v t t' E. by rewrite (burn_supply _ _ _ _ _ _ E).
  - intros op from to v t t' E. apply (transfer_supply _ _ _ _ _ _ _ _ E).
  - by intros o s v t t' [= ->].
Qed.

(** A manager of one locker, where a liquidity of [l] costs [l] of each
    currency and a swap is one to one. *)
Module Ledger.

Record ledger := { deltas : gmap Z Z; l_synced : Z; l_paid : Z; l_ether : Z }.
Definition get (w : ledger) (c : Z) : Z := default 0 (deltas w !! c).
Definition move (c v : Z) (w : ledger) : ledger :=
  {| deltas := <[c := get w c + v]> (deltas w); l_synced := l_synced w; l_paid := l_paid w; l_ether := l_ether w |}.
Definition with_sync (c p : Z) (w : ledger) : ledger :=
  {| deltas := deltas w; l_synced := c; l_paid := p; l_ether := l_ether w |}.
Definition open_pair (k : PoolKey) (d : Z * Z) (w : ledger) : option (ledger * (Z * Z)) :=
  if currency0 k <? currency1 k then Some (move (currency1 k) d.2 (move (currency0 k) d.1 w), d) else None.

#[global] Instance ledger_ops : PoolManager ledger := {|
  unlock_open w := Some {| deltas := ∅; l_synced := 0; l_paid := 0; l_ether := l_ether w |};
  unlock_close w := if bool_decide (map_Forall (fun _ v => v = 0) (deltas w)) then Some w else None;
  modifyLiquidity k _ _ l _ w := open_pair k (- l, - l) w;
  pool_swap k z a _ w := open_pair k (if z then (- a, a) else (a, - a)) w;
  sync c w := Some (with_sync c 0 w);
  settle v w :=
    if v <=? l_ether w then
      let w' := move (l_synced w) (if l_synced w =? 0 then v else l_paid w) w in
      Some {| deltas := deltas w'; l_synced := 0; l_paid := 0; l_ether := l_ether w - v |}
    else None;
  take c _ a w := Some (move c (- a) w);
  transferFrom t _ a w := Some (if l_synced w =? t then with_sync t (l_paid w + a) w else w, true);
  delta := get;
  synced := l_synced;
  paid := l_paid;
  ether := l_ether;
  min_sqrt_price := 1;
  max_sqrt_price := 2 ^ 160 - 1;
|}.

Lemma get_move c v w c' : get (move c v w) c' = get w c' + at_ (bool_decide (c' = c)) v.
Proof.
  unfold get at 1, move. cbn [deltas]. unfold at_. case_bool_decide as E.
  - subst. by rewrite lookup_insert_eq.
  - rewrite lookup_insert_ne by done. fold (get w c'). lia.
Qed.

Lemma open_pair_spec k d w w' d' : open_pair k d w = Some (w', d') ->
  currency0 k < currency1 k /\ l_synced w' = l_synced w /\ l_ether w' = l_ether w
  /\ forall c, get w' c = get w c + at_ (bool_decide (c = currency0 k)) d'.1 + at_ (bool_decide (c = currency1 k)) d'.2.
Proof.
  unfold open_pair. destruct (Z.ltb_spec (currency0 k) (currency1 k)); [|done]. intros [= <- <-].
  split_and!; [done..|]. intros c. by rewrite !get_move.
Qed.

#[global] Instance ledger_laws : PoolManagerLaws ledger.
Proof.
  split; cbn.
  - intros w w' [= <-]. split_and!; [|done..]. intros c.
    change (default 0 ((∅ : gmap Z Z) !! c) = 0). by rewrite lookup_empty.
  - intros w. case_bool_decide as E; split.
    + intros _ c. unfold get. destruct (deltas w !! c) as [v|] eqn:Ec; [by apply (E c)|done].
    + intros _. by eexists.
    + by intros [? ?].
    + intros Hz. destruct E. intros c v Ec. specialize (Hz c). unfold get in Hz. by rewrite Ec in Hz.
  - intros k lo hi l salt w w' d. apply open_pair_spec.
  - intros k z a p w w' d. apply open_pair_spec.
  - by intros c w w' [= <-].
  - intros v w w'. destruct (Z.leb_spec v (l_ether w)); [|done]. intros [= <-]. cbn. split_and!; [done..|].
    intros c. apply (get_move (l_synced w)).
  - intros c to a w w' [= <-]. split_and!; [done..|]. intros c'. rewrite get_move. unfold at_. case_bool_decide; lia.
  - intros t f a w w' b [= <- _]. destruct (Z.eqb_spec (l_synced w) t) as [<-|]; done.
Qed.

(** Adding liquidity to a pool of two tokens ends with every delta closed; to a
    pool with the native currency it reverts. *)
Example helper_adds_liquidity :
  let run k := PoolHelper.addLiquidity {| msg_sender := 7; block_timestamp := 0; block_number := 0 |} k (-60) 60 5
                 {| PoolHelper.poolManager := 9; PoolHelper.owner := 7 |}
                 {| deltas := ∅; l_synced := 0; l_paid := 0; l_ether := 0 |} in
  is_Some (run {| currency0 := 1; currency1 := 2; fee := 3000; tickSpacing := 60; hooks := 0 |})
  /\ run {| currency0 := 0; currency1 := 2; fee := 3000; tickSpacing := 60; hooks := 0 |} = None.
Proof. split; [vm_compute; by eexists|reflexivity]. Qed.

End Ledger.
