(* ===== verification/Chain.v ===== *)
(** * The contracts and the subgraph together (subgraph/src/mapping.ts, contracts/contracts)

    The two data sources of the subgraph, TTT and TTTHookSimple, on one chain:
    transactions change the contracts and emit events, the handlers of
    Subgraph.v index them.  What the subgraph's statistics say is what the
    contract's own counters say, through every change of configuration, and
    the verify bots see the counters their transactions made. *)
From Stdlib Require Import ZArith Lia String.
From stdpp Require Import base list numbers option strings.
From S2P Require Import Prelude JSString Bytes JSMap Subgraph OpenZeppelin Contracts.

(** ** Sums over a map *)
Section Sums.
Context {K V : Type} `{EqDecision K}.

Definition jm_sum (f : V -> Z) (m : jsmap K V) : Z := foldr (fun kv n => f kv.2 + n) 0 m.

Lemma jm_sum_set f (m : jsmap K V) k v :
  jm_sum f (jm_set m k v) = jm_sum f m - from_option f 0 (jm_get m k) + f v.
Proof.
  unfold jm_sum. induction m as [|[k' v'] m IH]; cbn; [lia|].
  destruct (decide (k' = k)); cbn; [lia|]. rewrite IH. lia.
Qed.
End Sums.

Module Chain.

Section Chain.
Context {R T : Type} `{AccessControl R, ERC1155Supply T}.
Variable keccak256 : Buffer -> Z.
Context {Decimal : Type} (decimal_zero : Decimal) (decimal_div : Z -> Z -> Decimal).
Variable hookAddress : Z.

Record world := { ttt : TTT.state (R := R) (T := T); hook : TTTHookSimple.state (R := R) }.

Inductive call := ToTTT (c : TTT.call) | ToHook (c : TTTHookSimple.call).

(** A transaction with its hash and the index of its first log in the block. *)
Record tx := { tx_hash : Z; tx_logIndex : Z; tx_call : call }.

(** What graph-node hands to the handlers; Bytes as their hex text. *)
Definition hex_address (a : Z) : jsstr := js "0x" ++ to_hex (packed_address a).
Definition hex_256 (z : Z) : jsstr := js "0x" ++ to_hex (packed_256 z).

Definition ttt_event (m : msg) (x : tx) (i : nat) (e : TTT.event) : option Mapping.event :=
  match e with
  | TTT.PoTAnchored stratum grg pot ts =>
      Some (inl {| Mapping.pa_txHash := hex_256 (tx_hash x); Mapping.pa_logIndex := tx_logIndex x + Z.of_nat i;
                   Mapping.pa_blockNumber := block_number m; Mapping.pa_stratum := stratum;
                   Mapping.pa_grgHash := hex_256 grg; Mapping.pa_potHash := hex_256 pot;
                   Mapping.pa_timestamp := ts |})
  | _ => None   (* no handler *)
  end.

Definition hook_event (m : msg) (x : tx) (i : nat) (e : TTTHookSimple.event) : Mapping.event :=
  match e with
  | TTTHookSimple.SwapVerified sender pool hook mode fee pot =>
      inr {| Mapping.sv_txHash := hex_256 (tx_hash x); Mapping.sv_logIndex := tx_logIndex x + Z.of_nat i;
             Mapping.sv_blockNumber := block_number m; Mapping.sv_blockTimestamp := block_timestamp m;
             Mapping.sv_hook := hex_address hook; Mapping.sv_pool := hex_256 pool;
             Mapping.sv_sender := hex_address sender; Mapping.sv_mode := mode; Mapping.sv_feeAmount := fee;
             Mapping.sv_potHash := hex_256 pot |}
  end.

(** One transaction: the contracts' new states and the events for the subgraph. *)
Definition exec (m : msg) (x : tx) (w : world) : option (world * list Mapping.event) :=
  match tx_call x with
  | ToTTT c =>
      '(s, es) ← TTT.exec keccak256 m c (ttt w);
      Some ({| ttt := s; hook := hook w |}, omap id (imap (ttt_event m x) es))
  | ToHook c =>
      '(s, es) ← TTTHookSimple.exec keccak256 hookAddress (TTT.tokens (ttt w)) m c (hook w);
      Some ({| ttt := ttt w; hook := s |}, imap (hook_event m x) es)
  end.

(** The deployment: TTT, then the hook on its address. *)
Definition deploy (m : msg) (tttAddress minBalance turboFee fullFee : Z) : option world :=
  h ← TTTHookSimple.deploy keccak256 m tttAddress minBalance turboFee fullFee;
  Some {| ttt := TTT.deploy keccak256 m; hook := h |}.

Definition run (l : list (msg * tx)) (w : world) : world * list Mapping.event := transactions exec l w.

Abbreviation index := (Mapping.index decimal_zero decimal_div).
Abbreviation swaps := Mapping.swaps_of.

(** What the subgraph's entities add up to. *)
Definition daily_total (f : Mapping.DailyStats (Decimal := Decimal) -> Z) (l : list Mapping.event) : Z :=
  jm_sum f (Mapping.daily (index l)).
Definition hourly_total (f : Mapping.HourlyStats -> Z) (l : list Mapping.event) : Z :=
  jm_sum f (Mapping.hourly (index l)).

(** ** Lemmas *)

(** *** Statistics as sums over the swaps *)
Lemma daily_total_snoc f l e :
  daily_total f (l ++ [inr e])
  = daily_total f l
    - from_option f 0 (jm_get (Mapping.daily (index l)) (Mapping.day_of e))
    + f (Mapping.update_daily decimal_div e
           (default (Mapping.new_daily decimal_zero (Mapping.day_of e)) (jm_get (Mapping.daily (index l)) (Mapping.day_of e)))).
Proof. unfold daily_total. rewrite Mapping.index_snoc. cbn [Mapping.handle]. apply jm_sum_set. Qed.

Lemma hourly_total_snoc f l e :
  hourly_total f (l ++ [inr e])
  = hourly_total f l
    - from_option f 0 (jm_get (Mapping.hourly (index l)) (Mapping.hour_of e))
    + f (Mapping.update_hourly e
           (default (Mapping.new_hourly (Mapping.hour_of e)) (jm_get (Mapping.hourly (index l)) (Mapping.hour_of e)))).
Proof. unfold hourly_total. rewrite Mapping.index_snoc. cbn [Mapping.handle]. apply jm_sum_set. Qed.

(** A statistic that starts at 0 and gains [g e] with every swap [e] adds up
    to the sum of the gains. *)
Definition gains (g : Mapping.SwapVerified -> Z) (l : list Mapping.SwapVerified) : Z := foldr (fun e n => g e + n) 0 l.

Lemma gains_snoc g l e : gains g (l ++ [e]) = gains g l + g e.
Proof. unfold gains. induction l as [|x l IH]; cbn [app foldr] in *; lia. Qed.

Lemma daily_sum f g l :
  (forall id, f (Mapping.new_daily decimal_zero id) = 0) ->
  (forall e d, f (Mapping.update_daily decimal_div e d) = f d + g e) ->
  daily_total f l = gains g (swaps l).
Proof.
  intros H0' Hu. induction l as [|[a|e] l IH] using rev_ind; [done| |].
  - rewrite Mapping.swaps_of_snoc, app_nil_r, <- IH. unfold daily_total. by rewrite Mapping.index_snoc.
  - rewrite daily_total_snoc, Hu, IH, Mapping.swaps_of_snoc, gains_snoc.
    destruct (jm_get _ _) as [d|]; cbn; [lia|]. rewrite H0'. lia.
Qed.

Lemma hourly_sum f g l :
  (forall id, f (Mapping.new_hourly id) = 0) ->
  (forall e d, f (Mapping.update_hourly e d) = f d + g e) ->
  hourly_total f l = gains g (swaps l).
Proof.
  intros H0' Hu. induction l as [|[a|e] l IH] using rev_ind; [done| |].
  - rewrite Mapping.swaps_of_snoc, app_nil_r, <- IH. unfold hourly_total. by rewrite Mapping.index_snoc.
  - rewrite hourly_total_snoc, Hu, IH, Mapping.swaps_of_snoc, gains_snoc.
    destruct (jm_get _ _) as [d|]; cbn; [lia|]. rewrite H0'. lia.
Qed.

Definition turbo_gain (e : Mapping.SwapVerified) : Z := Mapping.one (Mapping.is_turbo e).
Definition full_gain (e : Mapping.SwapVerified) : Z := Mapping.one (negb (Mapping.is_turbo e)).

Lemma gains_total l : gains (fun _ => 1) l = gains turbo_gain l + gains full_gain l.
Proof.
  unfold gains. induction l as [|e l IH]; [done|]. cbn [foldr]. rewrite IH. unfold turbo_gain, full_gain.
  destruct (Mapping.is_turbo e); cbn; lia.
Qed.

(** *** The contract's counters *)

(** The counters of the contract are the gains of the events so far. *)
Definition counted (w : world) (es : list Mapping.event) : Prop :=
  TTTHookSimple.totalSwaps (hook w) = gains (fun _ => 1) (swaps es)
  /\ TTTHookSimple.turboSwaps (hook w) = gains turbo_gain (swaps es)
  /\ TTTHookSimple.fullSwaps (hook w) = gains full_gain (swaps es).

Lemma swaps_app l l' : swaps (l ++ l') = swaps l ++ swaps l'.
Proof. apply omap_app. Qed.

Lemma ttt_no_swaps m x es : swaps (omap id (imap (ttt_event m x) es)) = [].
Proof.
  generalize 0%nat as n. revert x.
  assert (forall x (f : nat -> nat), swaps (omap id (imap (fun i => ttt_event m x (f i)) es)) = []) as Hg.
  { induction es as [|e es IH]; intros x f; [done|]. rewrite imap_cons. specialize (IH x (fun i => f (S i))).
    change (imap _ es) with (imap (fun i => ttt_event m x (f (S i))) es). by destruct e. }
  intros x _. exact (Hg x (fun i => i)).
Qed.

(** A hook transaction that succeeds counts its own event, if any. *)
Lemma hook_exec_counts m c t (s s' : TTTHookSimple.state (R := R)) es :
  TTTHookSimple.exec (T := T) keccak256 hookAddress t m c s = Some (s', es) ->
  (es = [] /\ TTTHookSimple.getStats s' = TTTHookSimple.getStats s)
  \/ exists sender pool turbo fee pot,
       es = [TTTHookSimple.SwapVerified sender pool hookAddress (if turbo : bool then js "turbo" else js "full") fee pot]
       /\ TTTHookSimple.totalSwaps s' = TTTHookSimple.totalSwaps s + 1
       /\ TTTHookSimple.turboSwaps s' = TTTHookSimple.turboSwaps s + Mapping.one turbo
       /\ TTTHookSimple.fullSwaps s' = TTTHookSimple.fullSwaps s + Mapping.one (negb turbo).
Proof.
  intros Hx. destruct c as [sender pool delta|mb tf ff id|rc]; cbn [TTTHookSimple.exec] in Hx.
  - right. unfold TTTHookSimple.verifySwap in Hx. requires Hx.
    destruct (increment (TTTHookSimple.totalSwaps s)) as [tot|] eqn:E1; [|done].
    apply increment_Some in E1 as [-> _]. cbn in Hx.
    destruct (TTTHookSimple.isTurbo t sender s); cbn in Hx.
    + destruct (increment (TTTHookSimple.turboSwaps s)) as [tu|] eqn:E2; [|done].
      apply increment_Some in E2 as [-> _]. injection Hx as <- <-. eexists sender, pool, true, _, _.
      split_and!; [done|done|done|]. symmetry. apply Z.add_0_r.
    + destruct (increment (TTTHookSimple.fullSwaps s)) as [fu|] eqn:E2; [|done].
      apply increment_Some in E2 as [-> _]. injection Hx as <- <-. eexists sender, pool, false, _, _.
      split_and!; [done|done| |done]. symmetry. apply Z.add_0_r.
  - left. unfold TTTHookSimple.setFeeConfig in Hx. requires Hx. by injection Hx as <- <-.
  - left. destruct (role_exec _ _ _); [|done]. by injection Hx as <- <-.
Qed.

Lemma exec_counted m x w w' es es' : counted w es -> exec m x w = Some (w', es') -> counted w' (es ++ es').
Proof.
  intros (C1 & C2 & C3) Hx. unfold exec in Hx. unfold counted. rewrite swaps_app. destruct (tx_call x) as [c|c].
  - destruct (TTT.exec _ _ _ _) as [[s es1]|]; [|done]. injection Hx as <- <-. cbn [hook].
    rewrite ttt_no_swaps, app_nil_r. by split_and!.
  - destruct (TTTHookSimple.exec _ _ _ _ _ _) as [[s es1]|] eqn:Eh; [|done]. injection Hx as <- <-. cbn [hook].
    apply hook_exec_counts in Eh as [[-> Hst]|(sender & pool & turbo & fee & pot & -> & T1 & T2 & T3)].
    + cbn [imap swaps omap]. rewrite app_nil_r. injection Hst as -> -> ->. by split_and!.
    + set (mode := if turbo then js "turbo" else js "full").
      assert (exists v, swaps (imap (hook_event m x) [TTTHookSimple.SwapVerified sender pool hookAddress mode fee pot]) = [v]
                        /\ Mapping.sv_mode v = mode) as (v & -> & Hm) by (eexists; split; reflexivity).
      rewrite !gains_snoc, T1, T2, T3, C1, C2, C3. unfold turbo_gain, full_gain, Mapping.is_turbo. rewrite Hm.
      by destruct turbo.
Qed.

Lemma run_counted m tttAddress mb tf ff w l :
  deploy m tttAddress mb tf ff = Some w -> counted (run l w).1 (run l w).2.
Proof.
  intros Hd. apply (transactions_inv exec counted l w []).
  - unfold deploy in Hd. destruct (TTTHookSimple.deploy _ _ _ _ _ _) as [h|] eqn:Eh; [|done]. injection Hd as <-.
    unfold TTTHookSimple.deploy in Eh. requires Eh. by injection Eh as <-.
  - intros m' c s es s' es' _. apply exec_counted.
Qed.

(** *** Anchors

    What the contract reports as the stratum of a proof is the id of the minted
    token, the hash itself: so it is in every event the subgraph stores. *)
Definition names_its_token (e : Mapping.event) : Prop :=
  match e with inl a => Mapping.pa_grgHash a = hex_256 (Mapping.pa_stratum a) | inr _ => True end.

Lemma anchors_name_their_token l w : Forall names_its_token (run l w).2.
Proof.
  apply (transactions_inv exec (fun _ es => Forall names_its_token es) l w []); [done|].
  intros m x s es s' es' _ Hes Hx. apply Forall_app. split; [done|]. unfold exec in Hx.
  destruct (tx_call x) as [c|c].
  - destruct (TTT.exec _ _ _ _) as [[t0 e0]|] eqn:E; [|done]. injection Hx as _ <-.
    destruct c as [to v g|v g tier| | |from to i v|from to ids vs|op b|rc]; cbn [TTT.exec] in E;
      unfold TTT.mint, TTT.burn, TTT.pause, TTT.unpause in E; requires E.
    + destruct (mint_ _ _ _ _); [|done]. injection E as _ <-. cbn. by repeat constructor.
    + destruct (burn_ _ _ _ _); [|done]. injection E as _ <-. constructor.
    + injection E as _ <-. constructor.
    + injection E as _ <-. constructor.
    + destruct (transfer_ _ _ _ _ _ _); [|done]. injection E as _ <-. constructor.
    + destruct (batch_ _ _ _ _ _); [|done]. injection E as _ <-. constructor.
    + destruct (approve_ _ _ _ _); [|done]. injection E as _ <-. constructor.
    + destruct (role_exec _ _ _); [|done]. injection E as _ <-. constructor.
  - destruct (TTTHookSimple.exec _ _ _ _ _ _) as [[h e0]|]; [|done]. injection Hx as _ <-.
    apply Forall_lookup. intros i e Hi. rewrite list_lookup_imap in Hi. destruct (e0 !! i) as [[]|]; [|done].
    by injection Hi as <-.
Qed.

(** ** Properties *)

(** C37: The subgraph agrees with the contract: after any transactions to TTT
    and to the hook, reverted ones and changes of the fee configuration
    included, the daily entities add up to exactly the three counters
    [getStats] returns, the hourly entities do too, and the daily fees add up
    to the fees of the SwapVerified events. *)
Theorem subgraph_matches_contract m tttAddress mb tf ff w l :
  deploy m tttAddress mb tf ff = Some w ->
  let '(w', es) := run l w in
  TTTHookSimple.getStats (hook w')
    = (daily_total Mapping.ds_totalSwaps es, daily_total Mapping.ds_turboCount es, daily_total Mapping.ds_fullCount es)
  /\ TTTHookSimple.getStats (hook w')
    = (hourly_total Mapping.hs_totalSwaps es, hourly_total Mapping.hs_turboCount es, hourly_total Mapping.hs_fullCount es)
  /\ daily_total Mapping.ds_totalFees es = Mapping.fees_of (swaps es)
  /\ TTTHookSimple.totalSwaps (hook w') = TTTHookSimple.turboSwaps (hook w') + TTTHookSimple.fullSwaps (hook w').
Proof.
  intros Hd. pose proof (run_counted m tttAddress mb tf ff w l Hd) as (C1 & C2 & C3).
  destruct (run l w) as [w' es]. cbn [fst snd] in C1, C2, C3.
  unfold TTTHookSimple.getStats. rewrite C1, C2, C3.
  rewrite (daily_sum Mapping.ds_totalSwaps (fun _ => 1)), (daily_sum Mapping.ds_turboCount turbo_gain),
    (daily_sum Mapping.ds_fullCount full_gain), (daily_sum Mapping.ds_totalFees Mapping.sv_feeAmount),
    (hourly_sum Mapping.hs_totalSwaps (fun _ => 1)), (hourly_sum Mapping.hs_turboCount turbo_gain),
    (hourly_sum Mapping.hs_fullCount full_gain) by done.
  split_and!; [done|done|done|apply gains_total].
Qed.

End Chain.

(** ** Witnesses *)

(** A turbo swap, a change of the configuration, a full swap on the next day,
    and a swap asked for by a stranger. *)
Definition ex_world : world (R := Maps.roles) (T := Maps.tokens) :=
  default {| ttt := TTT.deploy ex_keccak (ex_msg 1);
             hook := {| TTTHookSimple.ttt := 0; TTTHookSimple.tttTokenId := 0; TTTHookSimple.minTTTBalance := 0;
                        TTTHookSimple.turboFee := 0; TTTHookSimple.fullFee := 0; TTTHookSimple.totalSwaps := 0;
                        TTTHookSimple.turboSwaps := 0; TTTHookSimple.fullSwaps := 0; TTTHookSimple.roles := no_roles |} |}
    (deploy ex_keccak (ex_msg 1) 3 0 500 10000).
Definition ex_txs : list (msg * tx) :=
  let at_day d a := {| msg_sender := a; block_timestamp := 1710412800 + 86400 * d; block_number := 38890000 + d |} in
  let call h c := {| tx_hash := h; tx_logIndex := 0; tx_call := c |} in
  [(at_day 0 1, call 11 (ToHook (TTTHookSimple.VerifySwap 7 5 100)));
   (at_day 0 1, call 12 (ToTTT (TTT.Mint 7 1 99)));
   (at_day 0 1, call 13 (ToHook (TTTHookSimple.SetFeeConfig 10 300 10000 0)));
   (at_day 1 1, call 14 (ToHook (TTTHookSimple.VerifySwap 7 5 (-100))));
   (at_day 1 2, call 15 (ToHook (TTTHookSimple.VerifySwap 7 5 1)))].

Lemma subgraph_matches_contract_witness :
  TTTHookSimple.getStats (hook (run ex_keccak 9 ex_txs ex_world).1) = (2, 1, 1)
  /\ (let '(w', es) := run ex_keccak 9 ex_txs ex_world in
      TTTHookSimple.getStats (hook w')
        = (daily_total 0 Z.quot Mapping.ds_totalSwaps es, daily_total 0 Z.quot Mapping.ds_turboCount es,
           daily_total 0 Z.quot Mapping.ds_fullCount es)
      /\ TTTHookSimple.getStats (hook w')
        = (hourly_total 0 Z.quot Mapping.hs_totalSwaps es, hourly_total 0 Z.quot Mapping.hs_turboCount es,
           hourly_total 0 Z.quot Mapping.hs_fullCount es)
      /\ daily_total 0 Z.quot Mapping.ds_totalFees es = Mapping.fees_of (Mapping.swaps_of es)
      /\ TTTHookSimple.totalSwaps (hook w') = TTTHookSimple.turboSwaps (hook w') + TTTHookSimple.fullSwaps (hook w')).
Proof.
  split; [vm_compute; reflexivity|].
  apply (subgraph_matches_contract ex_keccak 0 Z.quot 9 (ex_msg 1) 3 0 500 10000 ex_world ex_txs).
  vm_compute. reflexivity.
Defined.

End Chain.
