(* ===== verification/Scripts.v ===== *)
(** * The deployment and single-call scripts (contracts/scripts)

    deploy.ts, deploy_sepolia.ts, deploy_base_sepolia.ts, deploy_hook_only.ts,
    grant_role.ts, check_and_grant.ts, single_mint.ts and single_verify.ts over
    the contracts of Contracts.v: a chain of deployed contracts, the account's
    nonce, and a node that may fail any request.  The loop of
    verify_swap_bot.ts (SwapBot.v) runs against the contract it calls. *)
From Stdlib Require Import ZArith Lia String.
From stdpp Require Import base list numbers option strings gmap.
From S2P Require Import Prelude JSString Errors Bytes OpenZeppelin Contracts SetupPool SwapBot.

Module Scripts.

Section Scripts.
Context {R T : Type} `{AccessControl R, ERC1155Supply T}.
Variable keccak256 : Buffer -> Z.
(** The address of the contract an account creates with a nonce. *)
Variable create : Z -> Z -> Z.
(** What the node answers to the i-th request: it fails or not, and the time
    and number of the block a transaction is put in. *)
Variable rpc : nat -> res unit.
Variable block : nat -> Z * Z.
(** The errors ethers raises for a reverted call, and for a wrong number of
    constructor arguments. *)
Variable reverted : exn.
Variable wrong_arguments : exn.

Record chain := {
  ttts : gmap Z (TTT.state (R := R) (T := T));
  fees : gmap Z (ProtocolFee.state (W := unit));
  hooks : gmap Z (TTTHook.state (R := R));
  simples : gmap Z (TTTHookSimple.state (R := R));
  nonce : Z;       (* of the account *)
  requests : nat;  (* made so far *)
}.

Definition tick (s : chain) : chain :=
  {| ttts := ttts s; fees := fees s; hooks := hooks s; simples := simples s; nonce := nonce s;
     requests := S (requests s) |}.
Definition bump (s : chain) : chain :=
  {| ttts := ttts s; fees := fees s; hooks := hooks s; simples := simples s; nonce := nonce s + 1;
     requests := requests s |}.
Definition put_ttt (a : Z) (c : TTT.state) (s : chain) : chain :=
  {| ttts := <[a := c]> (ttts s); fees := fees s; hooks := hooks s; simples := simples s; nonce := nonce s;
     requests := requests s |}.
Definition put_fee (a : Z) (c : ProtocolFee.state) (s : chain) : chain :=
  {| ttts := ttts s; fees := <[a := c]> (fees s); hooks := hooks s; simples := simples s; nonce := nonce s;
     requests := requests s |}.
Definition put_hook (a : Z) (c : TTTHook.state) (s : chain) : chain :=
  {| ttts := ttts s; fees := fees s; hooks := <[a := c]> (hooks s); simples := simples s; nonce := nonce s;
     requests := requests s |}.
Definition put_simple (a : Z) (c : TTTHookSimple.state) (s : chain) : chain :=
  {| ttts := ttts s; fees := fees s; hooks := hooks s; simples := <[a := c]> (simples s); nonce := nonce s;
     requests := requests s |}.

(** ** Requests *)

Definition act {A} (f : chain -> chain * res A) : comp exn chain A := f.
Definition raise {A} (e : exn) : comp exn chain A := fun s => (s, Throw e).

Definition request : comp exn chain unit := fun s => (tick s, rpc (requests s)).

Definition msg_of (account : Z) (s : chain) : msg :=
  {| msg_sender := account; block_timestamp := (block (requests s)).1; block_number := (block (requests s)).2 |}.

(** A call ethers makes with its answer: one request, refused when it reverts. *)
Definition view {A} (f : chain -> option A) : comp exn chain A :=
  _ ← request;
  act (fun s => (s, match f s with Some a => Ok a | None => Throw reverted end)).

(** A transaction without a gas limit, sent and waited for: the gas estimation
    refuses one that reverts. *)
Definition send {A} (account : Z) (f : msg -> chain -> option (chain * A)) : comp exn chain A :=
  _ ← request;
  a ← act (fun s => match f (msg_of account s) s with
                | Some (s', a) => (bump s', Ok a)
                | None => (s, Throw reverted)
                end);
  _ ← request;
  mret a.

(** A transaction with a gas limit goes out in any case and uses a nonce. *)
Definition send_with_gas {A} (account : Z) (f : msg -> chain -> option (chain * A)) : comp exn chain A :=
  _ ← request;
  r ← act (fun s => match f (msg_of account s) s with
                | Some (s', a) => (bump s', Ok (Some a))
                | None => (bump s, Ok None)
                end);
  _ ← request;
  match r with Some a => mret a | None => raise reverted end.

(** ** Contracts *)

(** [factory.deploy(...)], [waitForDeployment()], [getAddress()]. *)
Definition deploy_contract (account : Z) (make : msg -> Z -> chain -> option chain) : comp exn chain Z :=
  send account (fun m s => let a := create account (nonce s) in s' ← make m a s; Some (s', a)).

Definition deployTTT (account : Z) : comp exn chain Z :=
  deploy_contract account (fun m a s => Some (put_ttt a (TTT.deploy keccak256 m) s)).
Definition deployProtocolFee (account treasury : Z) : comp exn chain Z :=
  deploy_contract account (fun m a s => c ← ProtocolFee.deploy m treasury tt; Some (put_fee a c s)).
Definition deployTTTHook (account ttt minBalance turboFee fullFee : Z) : comp exn chain Z :=
  deploy_contract account
    (fun m a s => c ← TTTHook.deploy keccak256 m a ttt minBalance turboFee fullFee; Some (put_hook a c s)).
Definition deployTTTHookSimple (account ttt minBalance turboFee fullFee : Z) : comp exn chain Z :=
  deploy_contract account
    (fun m a s => c ← TTTHookSimple.deploy keccak256 m ttt minBalance turboFee fullFee; Some (put_simple a c s)).

(** A call of TTT at an address; a transaction to an address without code
    succeeds and does nothing. *)
Definition on_ttt (ttt : Z) (c : TTT.call) (m : msg) (s : chain) : option (chain * list TTT.event) :=
  match ttts s !! ttt with
  | None => Some (s, [])
  | Some t => '(t', es) ← TTT.exec keccak256 m c t; Some (put_ttt ttt t' s, es)
  end.

Definition MINTER_ROLE : Z := TTT.MINTER_ROLE keccak256.

(** [ttt.MINTER_ROLE()], [ttt.hasRole(role, account)]: without code at the
    address the empty answer does not decode. *)
Definition readMinterRole (ttt : Z) : comp exn chain Z :=
  view (fun s => _ ← ttts s !! ttt; Some MINTER_ROLE).
Definition ttt_hasRole (ttt role a : Z) : comp exn chain bool :=
  view (fun s => t ← ttts s !! ttt; Some (hasRole (TTT.roles t) role a)).

(** [await (await ttt.grantRole(role, account)).wait()] *)
Definition grantRole (account ttt role a : Z) : comp exn chain unit :=
  _ ← send account (on_ttt ttt (TTT.Roles (GrantRole role a)));
  mret tt.

(** ** deploy.ts *)

Definition with_account {A} (account : option Z) (k : Z -> comp exn chain A) : comp exn chain A :=
  match account with
  | Some d => k d
  | None => raise (PlainError (js "No deployer account found. Ensure DEPLOYER_PRIVATE_KEY is set in your environment."))
  end.

(** [deployer.address] of [undefined] is a TypeError. *)
Definition with_signer {A} (account : option Z) (k : Z -> comp exn chain A) : comp exn chain A :=
  match account with Some d => k d | None => raise TypeError end.

(** [ProtocolFee.deploy()] has no argument for the constructor's parameter. *)
Definition deploy (account : option Z) : comp exn chain (Z * Z) :=
  with_signer account (fun d =>
    ttt ← deployTTT d;
    fee ← raise wrong_arguments;
    mret (ttt, fee)).

(** ** deploy_sepolia.ts and deploy_base_sepolia.ts *)

Definition TREASURY : Z := 0x98603D935b6Ba2472a7cb48308e801F7ab6287f7.
Definition MIN_TTT_BALANCE : Z := 10 ^ 18.
Definition TURBO_FEE : Z := 500.
Definition FULL_FEE : Z := 10000.

Definition deploy_sepolia (account : option Z) : comp exn chain (Z * Z) :=
  with_account account (fun d =>
    _ ← request;
    ttt ← deployTTT d;
    fee ← deployProtocolFee d TREASURY;
    mret (ttt, fee)).

Definition deploy_base_sepolia (account : option Z) : comp exn chain (Z * Z * Z) :=
  with_account account (fun d =>
    _ ← request;
    ttt ← deployTTT d;
    fee ← deployProtocolFee d TREASURY;
    hook ← deployTTTHook d ttt MIN_TTT_BALANCE TURBO_FEE FULL_FEE;
    role ← readMinterRole ttt;
    _ ← grantRole d ttt role hook;
    ok ← ttt_hasRole ttt role hook;
    if ok : bool then
      _ ← request;   (* getNetwork *)
      mret (ttt, fee, hook)
    else raise (PlainError (js "MINTER_ROLE grant verification failed!"))).

(** ** deploy_hook_only.ts, grant_role.ts, check_and_grant.ts *)

Definition TTT_ADDRESS : Z := 0xde357135cA493e59680182CDE9E1c6A4dA400811.
Definition HOOK_ADDRESS : Z := 0x8C633b05b833a476925F7d9818da6E215760F2c7.

(** The hook's address and the answer of [hasRole] it prints. *)
Definition deploy_hook_only (account : option Z) : comp exn chain (Z * bool) :=
  with_signer account (fun d =>
    _ ← request;
    hook ← deployTTTHookSimple d TTT_ADDRESS MIN_TTT_BALANCE TURBO_FEE FULL_FEE;
    role ← readMinterRole TTT_ADDRESS;
    _ ← grantRole d TTT_ADDRESS role hook;
    ok ← ttt_hasRole TTT_ADDRESS role hook;
    mret (hook, ok)).

Definition grant_role (account : Z) : comp exn chain bool :=
  role ← readMinterRole TTT_ADDRESS;
  _ ← grantRole account TTT_ADDRESS role HOOK_ADDRESS;
  ttt_hasRole TTT_ADDRESS role HOOK_ADDRESS.

(** What it prints: whether the deployer is an admin, whether the hook is a
    minter before, and after a grant with an explicit gas limit. *)
Definition check_and_grant (account : option Z) : comp exn chain (bool * bool * bool) :=
  admin ← view (fun s => _ ← ttts s !! TTT_ADDRESS; Some DEFAULT_ADMIN_ROLE);
  minter ← readMinterRole TTT_ADDRESS;
  with_signer account (fun d =>
    is_admin ← ttt_hasRole TTT_ADDRESS admin d;
    before ← ttt_hasRole TTT_ADDRESS minter HOOK_ADDRESS;
    _ ← send_with_gas d (on_ttt TTT_ADDRESS (TTT.Roles (GrantRole minter HOOK_ADDRESS)));
    after ← ttt_hasRole TTT_ADDRESS minter HOOK_ADDRESS;
    mret (is_admin, before, after)).

(** ** single_mint.ts *)

Definition is_anchor (e : TTT.event) : bool := match e with TTT.PoTAnchored _ _ _ _ => true | _ => false end.

(** [grgHash] is random; [fees]: whether the node knows [maxFeePerGas] and
    [maxPriorityFeePerGas], which are null on a chain without EIP-1559.  The
    result is the token id of the line it prints, [None] the line without. *)
Definition single_mint (account : option Z) (grgHash : Z) (fees : bool * bool) : comp exn chain (option Z) :=
  with_signer account (fun d =>
    _ ← request;   (* getNonce *)
    _ ← request;   (* getFeeData *)
    if fees.1 && fees.2 then
      es ← send_with_gas d (on_ttt TTT_ADDRESS (TTT.Mint d 1 grgHash));
      mret (match head (bfilter is_anchor es) with
            | Some (TTT.PoTAnchored stratum _ _ _) => Some stratum
            | _ => None
            end)
    else raise TypeError).

(** ** single_verify.ts *)

(** The call of TTTHookSimple, which reads its token's balances. *)
Definition on_simple (hook : Z) (c : TTTHookSimple.call) (m : msg) (s : chain) : option (chain * list TTTHookSimple.event) :=
  match simples s !! hook with
  | None => Some (s, [])
  | Some h =>
      t ← ttts s !! TTTHookSimple.ttt h;   (* a call of [balanceOf] without code reverts *)
      '(h', es) ← TTTHookSimple.exec keccak256 hook (TTT.tokens t) m c h;
      Some (put_simple hook h' s, es)
  end.

Definition POOL_ID : Z := keccak256 (ascii_bytes (js "openttt-base-sepolia-poc")).

(** [draw] is [Math.floor(Math.random() * 45)].  The result: the mode and fee
    of the event, when there is one, and the statistics. *)
Definition single_verify (account : option Z) (draw : Z) : comp exn chain (option (jsstr * Z) * (Z * Z * Z)) :=
  with_signer account (fun d =>
    let swapDelta := (5 + draw) * 10 ^ 18 in
    es ← send_with_gas d (on_simple HOOK_ADDRESS (TTTHookSimple.VerifySwap d POOL_ID swapDelta));
    stats ← view (fun s => h ← simples s !! HOOK_ADDRESS; Some (TTTHookSimple.getStats h));
    mret (match head es with
          | Some (TTTHookSimple.SwapVerified _ _ _ mode fee _) => Some (mode, fee)
          | None => None
          end, stats)).

(** ** Lemmas *)

Lemma script_bind {A B} (c : comp exn chain A) (k : A -> comp exn chain B) s s' b :
  (c ≫= k) s = (s', Ok b) -> exists s1 a, c s = (s1, Ok a) /\ k a s1 = (s', Ok b).
Proof. unfold mbind, comp_bind. destruct (c s) as [s1 [a|e]]; [|done]. eauto. Qed.

Lemma request_Ok s s' u : request s = (s', Ok u) -> s' = tick s.
Proof. unfold request. by intros [= <- _]. Qed.

Lemma view_Ok {A} (f : chain -> option A) s s' a : view f s = (s', Ok a) -> s' = tick s /\ f (tick s) = Some a.
Proof.
  unfold view. intros Hv. apply script_bind in Hv as (s1 & u & H1 & H2). apply request_Ok in H1 as ->.
  unfold act in H2. destruct (f (tick s)); [|done]. by injection H2 as <- <-.
Qed.

Lemma send_Ok {A} account (f : msg -> chain -> option (chain * A)) s s' a :
  send account f s = (s', Ok a) ->
  exists s1, f (msg_of account (tick s)) (tick s) = Some (s1, a) /\ s' = tick (bump s1).
Proof.
  unfold send. intros Hv. apply script_bind in Hv as (s1 & u & H1 & H2). apply request_Ok in H1 as ->.
  apply script_bind in H2 as (s2 & a' & H2 & H3). unfold act in H2.
  destruct (f _ _) as [[s3 a3]|]; [|done]. injection H2 as <- <-.
  apply script_bind in H3 as (s4 & u' & H4 & H5). apply request_Ok in H4 as ->. injection H5 as <- <-. eauto.
Qed.

Lemma deploy_Ok account make s s' a :
  deploy_contract account make s = (s', Ok a) ->
  a = create account (nonce s)
  /\ exists s1, make (msg_of account (tick s)) a (tick s) = Some s1 /\ s' = tick (bump s1).
Proof.
  unfold deploy_contract. intros Hd. apply send_Ok in Hd as (s1 & Hf & ->). cbn in Hf.
  destruct (make _ _ _) as [s2|] eqn:E; [|done]. injection Hf as <- <-. eauto.
Qed.

Lemma grantRole_Ok account ttt role a s s' u :
  grantRole account ttt role a s = (s', Ok u) ->
  exists s1 es, on_ttt ttt (TTT.Roles (GrantRole role a)) (msg_of account (tick s)) (tick s) = Some (s1, es)
    /\ s' = tick (bump s1).
Proof.
  unfold grantRole. intros Hg. apply script_bind in Hg as (s1 & es & H1 & H2). apply send_Ok in H1 as (s2 & Hf & ->).
  injection H2 as <- _. eauto.
Qed.

(** When the node answers every request, the scripts compute. *)
Section Answered.
Hypothesis answered : forall i, rpc i = Ok tt.

Lemma request_eq s : request s = (tick s, Ok tt).
Proof. unfold request. by rewrite answered. Qed.

Lemma bind_eq {A B} (c : comp exn chain A) (k : A -> comp exn chain B) s s1 a :
  c s = (s1, Ok a) -> (c ≫= k) s = k a s1.
Proof. unfold mbind, comp_bind. by intros ->. Qed.

Lemma bind_throw {A B} (c : comp exn chain A) (k : A -> comp exn chain B) s s1 e :
  c s = (s1, Throw e) -> (c ≫= k) s = (s1, Throw e).
Proof. unfold mbind, comp_bind. by intros ->. Qed.

Lemma view_eq {A} (f : chain -> option A) s a : f (tick s) = Some a -> view f s = (tick s, Ok a).
Proof. intros Hf. unfold view. rewrite (bind_eq _ _ _ _ _ (request_eq s)). unfold act. by rewrite Hf. Qed.

Lemma send_eq {A} account (f : msg -> chain -> option (chain * A)) s s1 a :
  f (msg_of account (tick s)) (tick s) = Some (s1, a) -> send account f s = (tick (bump s1), Ok a).
Proof.
  intros Hf. unfold send. rewrite (bind_eq _ _ _ _ _ (request_eq s)).
  rewrite (bind_eq (act _) _ (tick s) (bump s1) a) by (unfold act; by rewrite Hf).
  by rewrite (bind_eq _ _ _ _ _ (request_eq (bump s1))).
Qed.

Lemma send_reverts {A} account (f : msg -> chain -> option (chain * A)) s :
  f (msg_of account (tick s)) (tick s) = None -> send account f s = (tick s, Throw reverted).
Proof.
  intros Hf. unfold send. rewrite (bind_eq _ _ _ _ _ (request_eq s)).
  by rewrite (bind_throw (act _) _ (tick s) (tick s) reverted) by (unfold act; by rewrite Hf).
Qed.

Lemma deploy_eq account make s s1 :
  make (msg_of account (tick s)) (create account (nonce s)) (tick s) = Some s1 ->
  deploy_contract account make s = (tick (bump s1), Ok (create account (nonce s))).
Proof. intros Hm. apply send_eq. cbn. by rewrite Hm. Qed.

Lemma deploy_reverts account make s :
  make (msg_of account (tick s)) (create account (nonce s)) (tick s) = None ->
  deploy_contract account make s = (tick s, Throw reverted).
Proof. intros Hm. apply send_reverts. cbn. by rewrite Hm. Qed.

Lemma grantRole_eq account ttt role a s s1 es :
  on_ttt ttt (TTT.Roles (GrantRole role a)) (msg_of account (tick s)) (tick s) = Some (s1, es) ->
  grantRole account ttt role a s = (tick (bump s1), Ok tt).
Proof. intros Hg. unfold grantRole. by rewrite (bind_eq _ _ _ _ _ (send_eq _ _ _ _ _ Hg)). Qed.
End Answered.

End Scripts.

(** ** Properties *)
Section Deployments.
Context {R T : Type} `{AccessControlLaws R, ERC1155Laws T}.
Context (keccak256 : Buffer -> Z) (create : Z -> Z -> Z) (rpc : nat -> res unit) (block : nat -> Z * Z)
  (reverted wrong_arguments : exn).

Abbreviation deploy_base := (deploy_base_sepolia (R := R) (T := T) keccak256 create rpc block reverted).

(** The contracts a deployment leaves. *)
Definition deployed (d ttt fee hook : Z) (s : chain (R := R) (T := T)) : Prop :=
  (exists t, ttts s !! ttt = Some t /\ TTT.paused t = false
     /\ hasRole (TTT.roles t) (MINTER_ROLE keccak256) hook = true
     /\ hasRole (TTT.roles t) DEFAULT_ADMIN_ROLE d = true
     /\ (forall id, totalSupply (TTT.tokens t) id = 0)
     /\ exists h, hooks s !! hook = Some h /\ TTTHook.ttt h = ttt /\ TTTHook.fees_ok h
          /\ forall sender, TTTHook.selectedFee (TTT.tokens t) sender h = FULL_FEE)
  /\ exists p, fees s !! fee = Some p /\ ProtocolFee.owner p = d /\ ProtocolFee.feeRecipient p = TREASURY.

Lemma grant_by_admin (m : msg) role a (c : TTT.state (R := R) (T := T)) :
  hasRole (TTT.roles c) DEFAULT_ADMIN_ROLE (msg_sender m) = true ->
  TTT.exec keccak256 m (TTT.Roles (GrantRole role a)) c
  = Some ({| TTT.tokens := TTT.tokens c; TTT.roles := grant_ role a (TTT.roles c); TTT.paused := TTT.paused c |}, []).
Proof. intros Ha. cbn. by rewrite Ha. Qed.

Lemma fresh_admin (m : msg) :
  hasRole (TTT.roles (TTT.deploy (R := R) (T := T) keccak256 m)) DEFAULT_ADMIN_ROLE (msg_sender m) = true.
Proof.
  cbn. rewrite !hasRole_grant, (bool_decide_eq_true_2 (DEFAULT_ADMIN_ROLE = DEFAULT_ADMIN_ROLE /\ _)) by done.
  by rewrite !orb_true_r.
Qed.

(** The configuration the scripts deploy a hook with. *)
Lemma base_hook_config m this ttt (h : TTTHook.state (R := R)) :
  TTTHook.deploy keccak256 m this ttt MIN_TTT_BALANCE TURBO_FEE FULL_FEE = Some h ->
  TTTHook.validHookAddress this = true /\ TTTHook.ttt h = ttt /\ TTTHook.fees_ok h
  /\ forall t : T, (forall a i, balanceOf t a i = 0) -> forall sender, TTTHook.selectedFee t sender h = FULL_FEE.
Proof.
  unfold TTTHook.deploy. intros Hd. requires Hd. injection Hd as <-.
  split; [done|]. split; [done|]. split; [by vm_compute|].
  intros t Hb sender. unfold TTTHook.selectedFee, TTTHook.isTurbo. cbn. by rewrite Hb.
Qed.

Lemma base_deploys d s s' ttt fee hook :
  deploy_base (Some d) s = (s', Ok (ttt, fee, hook)) ->
  ttt = create d (nonce s) /\ fee = create d (nonce s + 1) /\ hook = create d (nonce s + 2)
  /\ TTTHook.validHookAddress hook = true /\ deployed d ttt fee hook s'.
Proof.
  unfold deploy_base_sepolia. cbn [with_account]. intros Hs.
  apply script_bind in Hs as (s1 & u & E & Hs). apply request_Ok in E as ->.
  apply script_bind in Hs as (s2 & ttt' & E & Hs).
  apply deploy_Ok in E as (Et & s3 & [= <-] & ->).
  apply script_bind in Hs as (s4 & fee' & E & Hs). apply deploy_Ok in E as (Ef & s5 & Ep & ->).
  destruct (ProtocolFee.deploy _ _ _) as [p|] eqn:Epf; [|done]. injection Ep as <-.
  apply script_bind in Hs as (s6 & hook' & E & Hs). apply deploy_Ok in E as (Eh & s7 & Eq & ->).
  destruct (TTTHook.deploy _ _ _ _ _ _ _) as [h|] eqn:Ehk; [|done]. injection Eq as <-.
  apply script_bind in Hs as (s8 & role & E & Hs). apply view_Ok in E as [-> Er].
  set (st := put_hook _ _ _) in *.
  set (t0 := TTT.deploy keccak256 (msg_of block d (tick (tick s)))) in *.
  assert (ttts st !! ttt' = Some t0) as Et0 by apply lookup_insert_eq.
  cbn in Er. rewrite lookup_insert_eq in Er. injection Er as <-.
  apply script_bind in Hs as (s9 & u' & E & Hs). apply grantRole_Ok in E as (s10 & es & Eg & ->).
  unfold on_ttt in Eg. change (ttts (tick (tick (tick (bump st)))) !! ttt') with (ttts st !! ttt') in Eg.
  rewrite Et0, grant_by_admin in Eg by exact (fresh_admin (msg_of block d (tick (tick s)))). injection Eg as <- <-.
  apply script_bind in Hs as (s11 & ok & E & Hs). apply view_Ok in E as [-> Eo].
  destruct ok; [|done]. apply script_bind in Hs as (s12 & u'' & E & Hs). apply request_Ok in E as ->.
  injection Hs as <- <- <- <-.
  apply base_hook_config in Ehk as (Hv & Ht & Hf & Hfee).
  unfold ProtocolFee.deploy in Epf. requires Epf. injection Epf as <-.
  split_and!; [done|subst fee'; cbn; f_equal; lia|subst hook'; cbn; f_equal; lia|done|]. split.
  - eexists. split; [apply lookup_insert_eq|]. split_and!; [done| | | |].
    + cbn. by rewrite hasRole_grant, bool_decide_eq_true_2, orb_true_r.
    + cbn [TTT.roles]. rewrite hasRole_grant. apply orb_true_intro. left.
      exact (fresh_admin (msg_of block d (tick (tick s)))).
    + intros id. apply supply_none.
    + exists h. split; [apply lookup_insert_eq|]. split; [done|]. split; [done|].
      intros sender. apply Hfee. intros. apply balance_none.
  - eexists. split; [apply lookup_insert_eq|]. done.
Qed.

(** What deploy_base_sepolia.ts deploys, whatever request the node fails:
    when it ends well, TTT, ProtocolFee and TTTHook are at the account's next
    three addresses, the hook is a minter of an unpaused TTT without tokens
    whose admin is the deployer, it charges everyone the full fee, and the fees
    go to the treasury.  With a node that answers, it ends well exactly when
    the third address happens to have the permission bits of a hook (and the
    first one is not zero). *)
Lemma base_sepolia_deployment d s :
  let a i := create d (nonce s + i) in
  (forall s' ttt fee hook, deploy_base (Some d) s = (s', Ok (ttt, fee, hook)) ->
     ttt = a 0 /\ fee = a 1 /\ hook = a 2 /\ TTTHook.validHookAddress hook = true /\ deployed d ttt fee hook s')
  /\ ((forall i, rpc i = Ok tt) ->
     is_ok (deploy_base (Some d) s).2 = TTTHook.validHookAddress (a 2) && negb (a 0 =? 0)).
Proof.
  intros a. split.
  { intros s' ttt fee hook Hd. apply base_deploys in Hd. unfold a. by rewrite Z.add_0_r. }
  intros Hr. unfold a. rewrite Z.add_0_r. unfold deploy_base_sepolia. cbn [with_account].
  rewrite (bind_eq _ _ _ _ _ (request_eq rpc Hr s)).
  rewrite (bind_eq (deployTTT _ _ _ _ _ d) _ _ _ _ (deploy_eq create rpc block reverted Hr d _ (tick s) _ eq_refl)).
  rewrite (bind_eq (deployProtocolFee _ _ _ _ d TREASURY) _ _ _ _ (deploy_eq create rpc block reverted Hr d _ _ _ eq_refl)).
  set (t0 := TTT.deploy _ _). set (st := tick (bump (put_fee _ _ _))). cbn [nonce tick].
  set (ttt := create d (nonce s)) in *. unfold deployTTTHook. set (make := fun m x c => _).
  assert (create d (nonce st) = create d (nonce s + 2)) as Eh by (cbn; f_equal; lia).
  destruct (TTTHook.validHookAddress (create d (nonce s + 2)) && negb (ttt =? 0)) eqn:Ev.
  - apply andb_prop in Ev as [Ev1 Ev2].
    assert (exists h, TTTHook.deploy (R := R) keccak256 (msg_of block d (tick st)) (create d (nonce st)) ttt MIN_TTT_BALANCE TURBO_FEE
                        FULL_FEE = Some h) as [h Ehk].
    { unfold TTTHook.deploy. rewrite Eh, Ev1, Ev2. by eexists. }
    assert (make (msg_of block d (tick st)) (create d (nonce st)) (tick st)
            = Some (put_hook (create d (nonce st)) h (tick st))) as Em by (unfold make; by rewrite Ehk).
    rewrite (bind_eq _ _ _ _ _ (deploy_eq create rpc block reverted Hr d make st _ Em)).
    set (st2 := tick (bump (put_hook _ _ _))). set (hk := create d (nonce st)) in *.
    assert (forall c : chain (R := R) (T := T), ttts c = ttts st2 -> ttts c !! ttt = Some t0) as Hlk.
    { intros c ->. apply lookup_insert_eq. }
    rewrite (bind_eq (readMinterRole _ _ _ _) _ _ (tick st2) (MINTER_ROLE keccak256))
      by (apply view_eq; [done|]; cbn [ttts tick]; by rewrite Hlk).
    set (t1 := {| TTT.tokens := TTT.tokens t0; TTT.roles := grant_ (MINTER_ROLE keccak256) hk (TTT.roles t0);
                  TTT.paused := TTT.paused t0 |}).
    assert (on_ttt keccak256 ttt (TTT.Roles (GrantRole (MINTER_ROLE keccak256) hk))
              (msg_of block d (tick (tick st2))) (tick (tick st2)) = Some (put_ttt ttt t1 (tick (tick st2)), [])) as Eg.
    { unfold on_ttt. rewrite Hlk by done. by rewrite grant_by_admin by exact (fresh_admin (msg_of block d (tick (tick s)))). }
    rewrite (bind_eq _ _ _ _ _ (grantRole_eq keccak256 rpc block reverted Hr d _ _ _ _ _ _ Eg)).
    rewrite (bind_eq (ttt_hasRole _ _ _ _ _) _ _ (tick (tick (bump (put_ttt ttt t1 (tick (tick st2)))))) true).
    + by rewrite (bind_eq _ _ _ _ _ (request_eq rpc Hr _)).
    + apply view_eq; [done|]. cbn [ttts tick bump put_ttt]. rewrite lookup_insert_eq. cbn.
      by rewrite hasRole_grant, bool_decide_eq_true_2, orb_true_r.
  - assert (make (msg_of block d (tick st)) (create d (nonce st)) (tick st) = None) as Em.
    { unfold make, TTTHook.deploy. rewrite Eh. destruct (TTTHook.validHookAddress _); [|done]. cbn in Ev. by rewrite Ev. }
    by rewrite (bind_throw _ _ _ _ _ (deploy_reverts create rpc block reverted Hr d make st Em)).
Qed.

End Deployments.

(** ** verify_swap_bot.ts against TTTHookSimple *)
Section VerifyBotOnChain.
Context {R T : Type} `{AccessControl R, ERC1155Supply T}.
Context (keccak256 : Buffer -> Z) (hook : Z).
(** Nobody else uses the hook meanwhile: [t] is the token's state, [d] the
    deployer's address, [block i] the block of the i-th transaction. *)
Context (t : T) (d pool : Z) (block : nat -> Z * Z) (h : TTTHookSimple.state (R := R)).
(** The [message] of the error the i-th [verifySwap] raises when it is refused.
    The transactions carry a gas limit, so nothing is estimated before they are
    sent: on a remote network the refusal shows in the receipt, with ethers'
    own text, while the in-process network reports the contract's error. *)
Context (message : nat -> option jsstr).

Definition tx (i : nat) : msg := {| msg_sender := d; block_timestamp := (block i).1; block_number := (block i).2 |}.

Abbreviation verify i s := (TTTHookSimple.exec keccak256 hook t (tx i) (TTTHookSimple.VerifySwap d pool (VerifyBot.swapDelta i)) s).

(** The hook after the calls 0 .. n-1, and what the i-th call is answered. *)
Fixpoint hook_after (n : nat) : TTTHookSimple.state (R := R) :=
  match n with
  | O => h
  | S i => match verify i (hook_after i) with Some (h', _) => h' | None => hook_after i end
  end.
Definition reply_of (i : nat) : VerifyBot.reply :=
  match verify i (hook_after i) with Some _ => None | None => Some (message i) end.

Definition turbo : bool := TTTHookSimple.isTurbo t d h.
Definition operator : bool := hasRole (TTTHookSimple.roles h) (TTTHookSimple.HOOK_OPERATOR_ROLE keccak256) d.

(** The hook with [n] more swaps of the deployer's mode. *)
Definition counted (n : Z) : TTTHookSimple.state (R := R) :=
  {| TTTHookSimple.ttt := TTTHookSimple.ttt h; TTTHookSimple.tttTokenId := TTTHookSimple.tttTokenId h;
     TTTHookSimple.minTTTBalance := TTTHookSimple.minTTTBalance h; TTTHookSimple.turboFee := TTTHookSimple.turboFee h;
     TTTHookSimple.fullFee := TTTHookSimple.fullFee h; TTTHookSimple.totalSwaps := TTTHookSimple.totalSwaps h + n;
     TTTHookSimple.turboSwaps := TTTHookSimple.turboSwaps h + (if turbo then n else 0);
     TTTHookSimple.fullSwaps := TTTHookSimple.fullSwaps h + (if turbo then 0 else n);
     TTTHookSimple.roles := TTTHookSimple.roles h |}.

Lemma increment_eq x : x + 1 < 2 ^ 256 -> increment x = Some (x + 1).
Proof. intros. by apply increment_Some. Qed.

Lemma verify_counted i n :
  operator = true -> TTTHookSimple.totalSwaps h + n + 1 < 2 ^ 256 ->
  TTTHookSimple.turboSwaps h + n + 1 < 2 ^ 256 -> TTTHookSimple.fullSwaps h + n + 1 < 2 ^ 256 ->
  exists es, verify i (counted n) = Some (counted (n + 1), es).
Proof.
  intros Ho H1 H2 H3. cbn [TTTHookSimple.exec]. unfold TTTHookSimple.verifySwap.
  change (TTTHookSimple.roles (counted n)) with (TTTHookSimple.roles h).
  change (TTTHookSimple.isTurbo t d (counted n)) with turbo.
  change (msg_sender (tx i)) with d. unfold operator in Ho. rewrite Ho. unfold counted. destruct turbo; cbn.
  - rewrite (increment_eq (_ + n)) by lia. cbn. rewrite (increment_eq (_ + n)) by lia. eexists. cbn.
    by rewrite !Z.add_0_r, !Z.add_assoc.
  - rewrite (increment_eq (_ + n)) by lia. cbn. rewrite (increment_eq (_ + n)) by lia. eexists. cbn.
    by rewrite !Z.add_0_r, !Z.add_assoc.
Qed.

(** Anybody else is refused every time, and the hook stays. *)
Lemma verify_refused n : operator = false -> hook_after n = h /\ reply_of n = Some (message n).
Proof.
  intros Ho.
  assert (forall i, verify i h = None) as Hv.
  { intros i. cbn [TTTHookSimple.exec]. unfold TTTHookSimple.verifySwap. change (msg_sender (tx i)) with d.
    unfold operator in Ho. by rewrite Ho. }
  assert (hook_after n = h) as Hn by (induction n as [|n IH]; [done|]; cbn [hook_after]; by rewrite IH, Hv).
  unfold reply_of. by rewrite Hn, Hv.
Qed.

Lemma hook_after_counted n :
  (n <= 20)%nat -> operator = true ->
  TTTHookSimple.totalSwaps h + 20 < 2 ^ 256 -> TTTHookSimple.turboSwaps h + 20 < 2 ^ 256 ->
  TTTHookSimple.fullSwaps h + 20 < 2 ^ 256 ->
  hook_after n = counted (Z.of_nat n) /\ (forall i, (i < n)%nat -> reply_of i = None).
Proof.
  intros Hn Ho H1 H2 H3. induction n as [|n IH].
  - split; [|lia]. cbn. unfold counted. destruct h. cbn. by destruct turbo; rewrite !Z.add_0_r.
  - destruct IH as [IH1 IH2]; [lia|].
    destruct (verify_counted n (Z.of_nat n)) as [es He]; [done|lia|lia|lia|]. split.
    + cbn [hook_after]. rewrite IH1, He. f_equal. lia.
    + intros i Hi. destruct (decide (i = n)) as [->|]; [|apply IH2; lia].
      unfold reply_of. by rewrite IH1, He.
Qed.

(** The statistics of a loop none of whose calls succeeded. *)
Lemma refused_loop :
  operator = false ->
  let s := VerifyBot.verify_loop VerifyBot.MAX_CALLS 0 reply_of VerifyBot.initial in
  let n := VerifyBot.calls_made VerifyBot.MAX_CALLS 0 reply_of in
  VerifyBot.successCount s = 0 /\ VerifyBot.failCount s = Z.of_nat n /\ length (VerifyBot.deltas s) = n.
Proof.
  intros Ho s n. pose proof (VerifyBot.verify_loop_spec VerifyBot.MAX_CALLS 0 reply_of VerifyBot.initial) as Hl.
  cbv zeta in Hl. fold s n in Hl. destruct Hl as (Hd & Hs & Hf).
  assert (forall l, VerifyBot.successes (reply_of <$> l) = 0) as Hz.
  { induction l as [|i l IH]; [done|]. csimpl. rewrite VerifyBot.successes_cons, IH.
    by rewrite (proj2 (verify_refused i Ho)). }
  rewrite Hz in Hs, Hf. rewrite length_seq in Hf. rewrite Hs, Hf, Hd, length_app, length_fmap, length_seq.
  cbn [VerifyBot.initial VerifyBot.successCount VerifyBot.failCount VerifyBot.deltas length]. split_and!; lia.
Qed.

(** C40: The bot and the contract agree, when the node answers, the gas limit
    suffices and nobody else uses the hook or moves the deployer's tokens
    meanwhile.  Run by an operator while the counters have room, the verify
    bot's twenty calls all succeed, the statistics it prints are the contract's
    with twenty more swaps, and all of them are of the mode it announced from
    the balance.  Run by anybody else, the contract refuses every call, the
    statistics it prints are the contract's from before, and it counts nothing
    but failures: twenty of them, unless an error's message names
    "AccessControl", where it stops after the first such call. *)
Theorem verify_bot_on_chain :
  let reads := Ok (balanceOf t d (TTTHookSimple.tttTokenId h), TTTHookSimple.minTTTBalance h) in
  let n := VerifyBot.calls_made VerifyBot.MAX_CALLS 0 reply_of in
  let bot := VerifyBot.main (Some []) reads reply_of (Ok (TTTHookSimple.getStats (hook_after n))) in
  let fatal i := VerifyBot.is_fatal (Some (message i)) in
  (operator = true ->
   TTTHookSimple.totalSwaps h + 20 < 2 ^ 256 -> TTTHookSimple.turboSwaps h + 20 < 2 ^ 256 ->
   TTTHookSimple.fullSwaps h + 20 < 2 ^ 256 ->
   exists s mode, bot = (s, Ok (mode, TTTHookSimple.getStats (counted 20)))
     /\ VerifyBot.successCount s = 20 /\ VerifyBot.failCount s = 0
     /\ mode = (if turbo then "TURBO" else "FULL")%string)
  /\ (operator = false ->
   exists s mode, bot = (s, Ok (mode, TTTHookSimple.getStats h))
     /\ VerifyBot.successCount s = 0 /\ VerifyBot.failCount s = Z.of_nat n
     /\ length (VerifyBot.deltas s) = n
     /\ ((forall i, (i < 20)%nat -> fatal i = false) -> n = 20%nat)
     /\ (forall k, (k < 20)%nat -> fatal k = true -> (forall i, (i < k)%nat -> fatal i = false) -> n = S k)).
Proof.
  intros reads n bot fatal. split.
  - intros Ho H1 H2 H3. destruct (hook_after_counted 20 ltac:(lia) Ho H1 H2 H3) as [Hh Hr].
    pose proof (VerifyBot.verify_loop_spec VerifyBot.MAX_CALLS 0 reply_of VerifyBot.initial) as Hl. cbv zeta in Hl.
    assert (VerifyBot.calls_made VerifyBot.MAX_CALLS 0 reply_of = 20%nat) as Hm.
    { apply VerifyBot.calls_made_all. intros j Hj. rewrite Hr; [done|]. unfold VerifyBot.MAX_CALLS in Hj. lia. }
    assert (reply_of <$> seq 0 20 = replicate 20 None) as Hrep.
    { cbn [seq fmap list_fmap]. by rewrite !Hr by lia. }
    rewrite Hm, Hrep in Hl. destruct Hl as (_ & Hs & Hf).
    unfold bot, n, VerifyBot.main, reads. rewrite Hm, Hh. eexists _, _. split; [reflexivity|].
    split_and!; [by rewrite Hs|by rewrite Hf|done].
  - intros Ho. destruct (refused_loop Ho) as (Hs & Hf & Hd).
    assert (forall i, VerifyBot.is_fatal (reply_of i) = fatal i) as Hfat
      by (intros i; by rewrite (proj2 (verify_refused i Ho))).
    unfold bot, VerifyBot.main, reads. rewrite (proj1 (verify_refused n Ho)). eexists _, _. split; [reflexivity|].
    split_and!; [done|done|done| |].
    + intros Hn. apply VerifyBot.calls_made_all. intros j Hj. rewrite Hfat. apply Hn. unfold VerifyBot.MAX_CALLS in Hj. lia.
    + intros k Hk Hkf Hn. apply VerifyBot.calls_made_stop; [done|by rewrite Hfat|].
      intros j Hj. rewrite Hfat. apply Hn. lia.
Qed.

End VerifyBotOnChain.

(** ** deploy.ts and single_mint.ts *)
Section Single.
Context {R T : Type} `{AccessControlLaws R, ERC1155Laws T}.
Context (keccak256 : Buffer -> Z) (create : Z -> Z -> Z) (rpc : nat -> res unit) (block : nat -> Z * Z)
  (reverted wrong_arguments : exn).

(** deploy.ts never ends well: ProtocolFee's constructor wants an argument.
    TTT is deployed all the same. *)
Lemma deploy_never_succeeds account (s : chain (R := R) (T := T)) :
  is_ok (deploy keccak256 create rpc block reverted wrong_arguments account s).2 = false
  /\ (forall d, account = Some d -> (forall i, rpc i = Ok tt) ->
       deploy keccak256 create rpc block reverted wrong_arguments account s
       = (tick (bump (put_ttt (create d (nonce s)) (TTT.deploy keccak256 (msg_of block d (tick s))) (tick s))),
          Throw wrong_arguments)).
Proof.
  unfold deploy. split.
  - destruct account as [d|]; [|done]. cbn [with_signer]. unfold mbind, comp_bind.
    by destruct (deployTTT _ _ _ _ _ _ _) as [s' [a|e]].
  - intros d -> Hr. cbn [with_signer].
    by rewrite (bind_eq (deployTTT _ _ _ _ _ d) _ _ _ _ (deploy_eq create rpc block reverted Hr d _ s _ eq_refl)).
Qed.

(** A mint gives its recipient one unit of the token whose id is the hash, and
    nobody a unit of the token the hook counts, whose id is 0. *)
Lemma mint_keeps_mode m to amount grgHash (c c' : TTT.state (R := R) (T := T)) es (h : TTTHookSimple.state (R := R)) sender :
  TTT.exec keccak256 m (TTT.Mint to amount grgHash) c = Some (c', es) ->
  grgHash <> TTTHookSimple.tttTokenId h ->
  TTTHookSimple.isTurbo (TTT.tokens c') sender h = TTTHookSimple.isTurbo (TTT.tokens c) sender h
  /\ balanceOf (TTT.tokens c') to grgHash = balanceOf (TTT.tokens c) to grgHash + amount.
Proof.
  intros Hx Hn. cbn [TTT.exec] in Hx. unfold TTT.mint in Hx. requires Hx.
  destruct (mint_ _ _ _ _) as [t|] eqn:Em; [|done]. injection Hx as <- _. cbn [TTT.tokens TTT.with_tokens]. split.
  - unfold TTTHookSimple.isTurbo. rewrite (mint_balance _ _ _ _ _ _ _ Em), bool_decide_eq_false_2; [by rewrite Z.add_0_r|].
    by intros [_ E].
  - by rewrite (mint_balance _ _ _ _ _ _ _ Em), bool_decide_eq_true_2.
Qed.

End Single.

(** ** Witnesses *)

(** Contract addresses that count up, the third one with a hook's bits. *)
Definition ex_create (_ n : Z) : Z := if n =? 2 then 192 else n + 1.
Definition ex_chain : chain (R := Maps.roles) (T := Maps.tokens) :=
  {| ttts := ∅; fees := ∅; hooks := ∅; simples := ∅; nonce := 0; requests := 0 |}.
Definition ex_rpc (_ : nat) : res unit := Ok tt.
Definition ex_block (i : nat) : Z * Z := (1710412800 + Z.of_nat i, 38890000 + Z.of_nat i).
Definition ex_reverted : exn := ForeignError None None None.

Abbreviation ex_run := (deploy_base_sepolia ex_keccak ex_create ex_rpc ex_block ex_reverted (Some 7) ex_chain).

Lemma ex_run_result : ex_run.2 = Ok (1, 2, 192).
Proof. vm_compute. reflexivity. Qed.

Lemma ex_run_ok : ex_run = (ex_run.1, Ok (1, 2, 192)).
Proof. rewrite <- ex_run_result. apply surjective_pairing. Qed.

Lemma base_sepolia_deployment_witness : deployed ex_keccak 7 1 2 192 ex_run.1 /\ is_ok ex_run.2 = true.
Proof.
  split; [|by rewrite ex_run_result].
  pose proof (base_sepolia_deployment (R := Maps.roles) (T := Maps.tokens) ex_keccak ex_create ex_rpc ex_block
              ex_reverted 7 ex_chain) as [H1 _].
  exact (proj2 (proj2 (proj2 (proj2 (H1 _ 1 2 192 ex_run_ok))))).
Defined.

(** The hook of deploy_hook_only.ts, its deployer and a stranger. *)
Definition ex_simple : TTTHookSimple.state (R := Maps.roles) :=
  {| TTTHookSimple.ttt := 3; TTTHookSimple.tttTokenId := 0; TTTHookSimple.minTTTBalance := 10 ^ 18; TTTHookSimple.turboFee := 500;
     TTTHookSimple.fullFee := 10000; TTTHookSimple.totalSwaps := 5; TTTHookSimple.turboSwaps := 2; TTTHookSimple.fullSwaps := 3;
     TTTHookSimple.roles := grant_ (TTTHookSimple.HOOK_OPERATOR_ROLE ex_keccak) 7 no_roles |}.
Definition ex_mined : jsstr := js "transaction execution reverted".
Definition ex_local : jsstr := js "reverted with custom error AccessControlUnauthorizedAccount".

Lemma verify_bot_on_chain_witness :
  let bot d message :=
    let reply := reply_of ex_keccak 9 (no_tokens : Maps.tokens) d 1 ex_block ex_simple message in
    VerifyBot.main (Some []) (Ok (0, 10 ^ 18)) reply
      (Ok (TTTHookSimple.getStats (hook_after ex_keccak 9 (no_tokens : Maps.tokens) d 1 ex_block ex_simple
             (VerifyBot.calls_made VerifyBot.MAX_CALLS 0 reply)))) in
  (exists s mode, bot 7 (fun _ => None) = (s, Ok (mode, (25, 2, 23))) /\ mode = "FULL"%string)
  /\ (exists s mode, bot 8 (fun _ => Some ex_mined) = (s, Ok (mode, (5, 2, 3))) /\ VerifyBot.failCount s = 20)
  /\ (exists s mode, bot 8 (fun _ => Some ex_local) = (s, Ok (mode, (5, 2, 3))) /\ VerifyBot.failCount s = 1).
Proof.
  split_and!.
  - destruct (proj1 (verify_bot_on_chain ex_keccak 9 (no_tokens : Maps.tokens) 7 1 ex_block ex_simple (fun _ => None)))
      as (s & mode & E & _ & _ & Em); [vm_compute; reflexivity..|].
    exists s, mode. split; [exact E|]. rewrite Em. vm_compute. reflexivity.
  - destruct (proj2 (verify_bot_on_chain ex_keccak 9 (no_tokens : Maps.tokens) 8 1 ex_block ex_simple (fun _ => Some ex_mined)))
      as (s & mode & E & _ & Ef & _ & Hn & _); [vm_compute; reflexivity|].
    exists s, mode. split; [exact E|]. rewrite Ef, Hn; [reflexivity|]. intros i _. vm_compute. reflexivity.
  - destruct (proj2 (verify_bot_on_chain ex_keccak 9 (no_tokens : Maps.tokens) 8 1 ex_block ex_simple (fun _ => Some ex_local)))
      as (s & mode & E & _ & Ef & _ & _ & Hn); [vm_compute; reflexivity|].
    exists s, mode. split; [exact E|]. rewrite Ef, (Hn 0%nat); [reflexivity|lia|vm_compute; reflexivity|lia].
Defined.

End Scripts.
