(* ===== verification/Settlement.v ===== *)
(** * Burning on the chain (src/src/evm_connector.ts, src/src/v4_hook.ts, contracts/contracts/TTT.sol)

    The SDK's connector and hook with the TTT contract as the chain they talk
    to.  A record is burned exactly when the account holds that much of the
    token whose id is the record's hash; the hook burns its fee from a token
    named after the moment of the swap, which nobody ever minted. *)
From Stdlib Require Import ZArith Lia String.
From stdpp Require Import base list numbers option strings.
From S2P Require Import Prelude JSString Errors Bytes Types AdaptiveSwitch EvmConnector V4Hook OpenZeppelin Contracts.

Module Settlement.

Section Settlement.
Context {R T : Type} `{AccessControl R, ERC1155Laws T}.
Variable keccak256_Z : Buffer -> Z.
(** ethers: a bytes32 argument and an address argument from their hex text. *)
Variable bytes32_of : jsstr -> option Z.
Variable address_of : jsstr -> option Z.
(** The error of a call that reverts or cannot be encoded, the gas estimate of
    one that does not, and the hash of the transaction. *)
Variable reverted : exn.
Variable gas : Z.
Variable tx_hash : jsstr.

Abbreviation contract := (TTT.state (R := R) (T := T)).

(** ** The contract as the connector's chain

    A transaction is the state it leads to; it is mined before anything else
    happens.  The swap router is another contract.  ethers encodes the
    arguments before anything is sent, and throws on one that does not fit its
    ABI type: a uint256 from a BigInt must be in range, from a Number it must
    be a safe integer too. *)
Definition uint256 (z : Z) : option Z := if (0 <=? z) && (z <? 2 ^ 256) then Some z else None.
Definition uint256_number (z : Z) : option Z := if (0 <=? z) && (z <? 2 ^ 53) then Some z else None.

Definition exec_burn (m : msg) (c : contract) (amount : Z) (grgHash : jsstr) (tier : Z) : option (contract * list TTT.event) :=
  v ← uint256 amount; h ← bytes32_of grgHash; t ← uint256_number tier; TTT.burn m v h t c.
Definition exec_mint (m : msg) (c : contract) (to : jsstr) (amount : Z) (grgHash : jsstr) : option (contract * list TTT.event) :=
  a ← address_of to; v ← uint256 amount; h ← bytes32_of grgHash; TTT.mint keccak256_Z m a v h c.

Definition sent {A} (r : option (contract * A)) : res contract :=
  match r with Some (c', _) => Ok c' | None => Throw reverted end.
Definition estimated {A} (r : option A) : option (res Z) :=
  Some (match r with Some _ => Ok gas | None => Throw reverted end).

Definition contract_calls (m : msg) (c : contract) : Evm.chain_calls (Tx := contract) := {|
  Evm.burn_estimateGas amount h tier := estimated (exec_burn m c amount h tier);
  Evm.burn amount h tier _ := sent (exec_burn m c amount h tier);
  Evm.mint_estimateGas to amount h := estimated (exec_mint m c to amount h);
  Evm.mint to amount h _ := sent (exec_mint m c to amount h);
  Evm.balanceOf user id :=
    match address_of user, uint256 id with
    | Some a, Some i => Ok (balanceOf (TTT.tokens c) a i)
    | _, _ => Throw reverted
    end;
  Evm.swap_estimateGas _ _ _ _ := Some (Throw reverted);
  Evm.router_swap _ _ _ _ _ := Throw reverted;
  Evm.wait _ := Ok (Some {| Evm.rc_hash := tx_hash |});
|}.

(** What the account of [m] can burn: a positive amount it holds, under a hash
    that is a bytes32 text and a tier that can be encoded. *)
Definition burnable (m : msg) (c : contract) (amount : Z) (grgHash : jsstr) (tier : Z) : Prop :=
  0 < amount < 2 ^ 256 /\ 0 <= tier < 2 ^ 53
  /\ exists id, bytes32_of grgHash = Some id /\ TTT.paused c = false
    /\ amount <= balanceOf (TTT.tokens c) (msg_sender m) id.

(** ** Lemmas *)

Lemma uint256_spec z r : uint256 z = Some r <-> 0 <= z < 2 ^ 256 /\ r = z.
Proof. unfold uint256. destruct (Z.leb_spec 0 z), (Z.ltb_spec z (2 ^ 256)); cbn [andb]; naive_solver lia. Qed.

Lemma uint256_number_spec z r : uint256_number z = Some r <-> 0 <= z < 2 ^ 53 /\ r = z.
Proof. unfold uint256_number. destruct (Z.leb_spec 0 z), (Z.ltb_spec z (2 ^ 53)); cbn [andb]; naive_solver lia. Qed.

(** A burn that is sent: its arguments fit. *)
Lemma exec_burn_sent m c amount h tier r :
  exec_burn m c amount h tier = Some r
  <-> 0 <= amount < 2 ^ 256 /\ 0 <= tier < 2 ^ 53
      /\ exists id, bytes32_of h = Some id /\ TTT.burn m amount id tier c = Some r.
Proof.
  unfold exec_burn. split.
  - intros (v & [Hv ->]%uint256_spec & (id & Hid & (t & [Ht ->]%uint256_number_spec & Hb)%bind_Some)%bind_Some)%bind_Some.
    eauto.
  - intros (Hv & Ht & id & Hid & Hb). rewrite (proj2 (uint256_spec amount amount) (conj Hv eq_refl)). cbn.
    rewrite Hid. cbn. rewrite (proj2 (uint256_number_spec tier tier) (conj Ht eq_refl)). exact Hb.
Qed.

Lemma exec_burn_iff m c amount h tier :
  msg_sender m <> 0 -> is_Some (exec_burn m c amount h tier) <-> burnable m c amount h tier.
Proof.
  intros Hm. unfold burnable. split.
  - intros [[c' es] (Hv & Ht & id & Hid & Hb)%exec_burn_sent]. unfold TTT.burn in Hb. requires Hb.
    destruct (burn_ _ _ _ _) as [t|] eqn:Eb; [|done].
    split_and!; [done|lia|lia|lia|]. exists id. split_and!; [done|done|by eapply burn_enough].
  - intros (Hv & Ht & id & Hid & Hp & Hb).
    destruct (burn_succeeds (msg_sender m) id amount (TTT.tokens c)) as [t Et]; [done|lia|].
    eexists. apply exec_burn_sent. split_and!; [lia|lia|lia|lia|]. exists id. split; [done|].
    unfold TTT.burn. rewrite Hp, (proj2 (Z.ltb_lt 0 amount)) by lia. cbn. by rewrite Et.
Qed.

(** A successful burn takes the amount from the account and from the supply. *)
Lemma exec_burn_effect m c amount h tier c' es :
  exec_burn m c amount h tier = Some (c', es) ->
  exists id, bytes32_of h = Some id
    /\ balanceOf (TTT.tokens c') (msg_sender m) id = balanceOf (TTT.tokens c) (msg_sender m) id - amount
    /\ totalSupply (TTT.tokens c') id = totalSupply (TTT.tokens c) id - amount
    /\ es = [TTT.TTTBurned (msg_sender m) id amount tier].
Proof.
  intros (_ & _ & id & Hid & Hb)%exec_burn_sent. unfold TTT.burn in Hb. requires Hb.
  destruct (burn_ _ _ _ _) as [t|] eqn:Eb; [|done]. injection Hb as <- <-. exists id. cbn.
  rewrite (burn_balance _ _ _ _ _ _ _ Eb), (burn_supply _ _ _ _ _ _ Eb).
  rewrite !bool_decide_eq_true_2 by done. by split_and!.
Qed.

(** *** Tokens that were never minted *)

(** An id without a mint in the log has no balances. *)
Definition unminted_empty (c : contract) (es : list TTT.event) : Prop :=
  forall id, TTT.minted id es = 0 -> forall a, balanceOf (TTT.tokens c) a id = 0.

Lemma minted_nonneg es id : TTT.anchored keccak256_Z es = true -> 0 <= TTT.minted id es.
Proof.
  revert es. fix IH 1. intros [|e es] He; [done|]. destruct e as [to i v|f i v t|st g p ts]; cbn in He; [| |done].
  - destruct es as [|[| |st g p ts] es]; try done. zbool. specialize (IH es ltac:(done)). unfold TTT.minted, at_ in *. cbn.
    case_bool_decide; lia.
  - zbool. specialize (IH es ltac:(done)). unfold TTT.minted in *. cbn. lia.
Qed.

Lemma exec_unminted m c x c' es es' :
  TTT.anchored keccak256_Z es = true -> unminted_empty c es -> TTT.exec keccak256_Z m x c = Some (c', es') ->
  unminted_empty c' (es ++ es').
Proof.
  intros Ha Hu Hx id Hid a. rewrite minted_app in Hid. pose proof (minted_nonneg es id Ha) as Hp.
  pose proof (minted_nonneg es' id (proj1 (ttt_exec_ledger keccak256_Z m x c c' es' Hx))) as Hp'.
  assert (TTT.minted id es = 0 /\ TTT.minted id es' = 0) as [H0e H0e'] by lia. specialize (Hu id H0e).
  destruct x as [to v g|v g tier| | |from to i v|from to ids vs|op b|rc]; cbn [TTT.exec] in Hx;
    unfold TTT.mint, TTT.burn, TTT.pause, TTT.unpause in Hx; requires Hx.
  - destruct (mint_ _ _ _ _) as [t|] eqn:Em; [|done]. injection Hx as <- <-. cbn [TTT.tokens TTT.with_tokens].
    unfold TTT.minted in H0e'. cbn in H0e'. destruct (decide (g = id)) as [->|Hg].
    + rewrite bool_decide_eq_true_2 in H0e' by done. cbn in H0e'. lia.
    + rewrite (mint_balance _ _ _ _ _ _ _ Em), Hu, bool_decide_eq_false_2; [done|]. intros [_ ->]. done.
  - destruct (burn_ _ _ _ _) as [t|] eqn:Em; [|done]. injection Hx as <- <-. cbn [TTT.tokens TTT.with_tokens].
    pose proof (burn_enough _ _ _ _ _ Em) as He. rewrite (burn_balance _ _ _ _ _ _ _ Em), Hu.
    rewrite bool_decide_eq_false_2; [done|]. intros [_ <-]. rewrite Hu in He. lia.
  - injection Hx as <- <-. apply Hu.
  - injection Hx as <- <-. apply Hu.
  - destruct (transfer_ _ _ _ _ _ _) as [t|] eqn:Em; [|done]. injection Hx as <- <-. cbn [TTT.tokens TTT.with_tokens].
    pose proof (transfer_enough _ _ _ _ _ _ _ Em) as He. rewrite (transfer_balance _ _ _ _ _ _ _ _ _ Em), Hu.
    destruct (decide (i = id)) as [->|Hn].
    + rewrite Hu in He. assert (v = 0) as -> by lia. by rewrite !at_zero.
    + rewrite !bool_decide_eq_false_2 by (by intros [_ ->]). done.
  - destruct (batch_ _ _ _ _ _) as [t|] eqn:Em; [|done]. injection Hx as <- <-. cbn [TTT.tokens TTT.with_tokens].
    pose proof (batch_enough _ _ _ _ _ _ Em) as He. rewrite (batch_balance _ _ _ _ _ _ _ _ Em), Hu.
    assert (batch_sum id (zip ids vs) = 0) as ->; [|by rewrite !at_zero].
    clear Em. induction He as [|[i v] l Hv _ IHl]; [done|]. unfold batch_sum. cbn [foldr fst snd].
    fold (batch_sum id l). rewrite IHl. unfold at_. case_bool_decide as Hi; [|done]. cbn in Hv, Hi. subst i. rewrite Hu in Hv. lia.
  - destruct (approve_ _ _ _ _) as [t|] eqn:Em; [|done]. injection Hx as <- <-. cbn [TTT.tokens TTT.with_tokens].
    by rewrite (approve_balance _ _ _ _ _ _ _ Em).
  - destruct (role_exec _ _ _); [|done]. injection Hx as <- <-. apply Hu.
Qed.

Lemma history_unminted m0 l :
  let '(c, es) := transactions (TTT.exec keccak256_Z) l (TTT.deploy (R := R) (T := T) keccak256_Z m0) in
  unminted_empty c es.
Proof.
  pose proof (transactions_inv (TTT.exec keccak256_Z)
    (fun c es => TTT.anchored keccak256_Z es = true /\ unminted_empty c es) l
    (TTT.deploy (R := R) (T := T) keccak256_Z m0) []) as Hi.
  destruct (transactions _ _ _) as [c es]. apply Hi.
  - split; [done|]. intros id _ a. apply balance_none.
  - intros m x s es1 s' es' _ [Ha Hu] Hx. split; [|by eapply exec_unminted].
    rewrite anchored_app by done. exact (proj1 (ttt_exec_ledger keccak256_Z m x s s' es' Hx)).
Qed.

(** ** The connector and the hook *)
Section Sdk.
Context {Prov Sgn Ctr : Type}.
Context (String_of message_of : exn -> jsstr) (keccak256 : Buffer -> jsstr).

Abbreviation connector := (Evm.t (Prov := Prov) (Sgn := Sgn) (Ctr := Ctr)).
Abbreviation submit m c := (Evm.submitTTTRecord (Prov := Prov) (Sgn := Sgn) (Ctr := Ctr) String_of message_of (contract_calls m c) keccak256).
Abbreviation burnTTT m c := (Evm.burnTTT (Prov := Prov) (Sgn := Sgn) (Ctr := Ctr) String_of message_of (contract_calls m c)).

Lemma catch_ok {A} keep k msg f (r : result Evm.thrown A) :
  is_ok (Evm.catch_tx String_of message_of keep k msg f r) = is_ok r.
Proof. destruct r as [a|e]; [done|]. cbn. by destruct (keep && _). Qed.

Lemma burnTTT_ok m c amount h tier (s : connector) :
  is_ok (burnTTT m c amount h tier s)
  = match Evm.tttContract s with Some _ => bool_decide (is_Some (exec_burn m c amount h tier)) | None => false end.
Proof.
  unfold Evm.burnTTT. destruct (Evm.tttContract s); [|done]. rewrite catch_ok. cbn.
  by destruct (exec_burn m c amount h tier) as [[c' es]|].
Qed.

Lemma submit_ok m c record amount tier (s : connector) :
  is_ok (submit m c record amount tier s)
  = match Evm.tttContract s with
    | Some _ => bool_decide (is_Some (exec_burn m c amount (keccak256 (concat (Adaptive.grgPayload record))) tier))
    | None => false
    end.
Proof.
  unfold Evm.submitTTTRecord. destruct (Evm.tttContract s); [|done]. rewrite catch_ok. cbn.
  unfold estimated. by destruct (exec_burn _ _ _ _ _) as [[c' es]|].
Qed.

(** C36: A record is settled exactly when it is paid for.  With the TTT
    contract as its chain, and its transaction mined before the contract
    changes, [submitTTTRecord] of an account other than the zero address
    returns a receipt exactly when a contract is attached, not paused, the
    amount is positive (and below 2^256), the tier is a safe unsigned integer,
    the payload's hash is a bytes32, and the account holds the amount of the
    token with that hash as id; the contract it leaves then holds that much
    less, in the account and in the supply, and its log says so. *)
Theorem record_settled_iff m c record amount tier (s : connector) :
  msg_sender m <> 0 ->
  let h := keccak256 (concat (Adaptive.grgPayload record)) in
  (is_ok (submit m c record amount tier s) = true <-> Evm.tttContract s <> None /\ burnable m c amount h tier)
  /\ (is_ok (submit m c record amount tier s) = true ->
      exists c' id, exec_burn m c amount h tier = Some (c', [TTT.TTTBurned (msg_sender m) id amount tier])
        /\ bytes32_of h = Some id
        /\ balanceOf (TTT.tokens c') (msg_sender m) id = balanceOf (TTT.tokens c) (msg_sender m) id - amount
        /\ totalSupply (TTT.tokens c') id = totalSupply (TTT.tokens c) id - amount).
Proof.
  intros Hm h. rewrite submit_ok. fold h. destruct (Evm.tttContract s) as [a|].
  - rewrite bool_decide_eq_true, exec_burn_iff by done. split; [naive_solver|]. intros Hb.
    apply (exec_burn_iff m c amount h tier Hm) in Hb as [[c' es] Hb].
    destruct (exec_burn_effect _ _ _ _ _ _ _ Hb) as (id & H1' & H2' & H3' & ->). exists c', id. by split_and!.
  - split; [|done]. split; [done|]. by intros [].
Qed.

(** *** The hook *)

(** A connector together with the account and block of its transaction and the
    contract it meets. *)
#[local] Instance on_chain : Hook.Burner (connector * (msg * contract)) Prov := {|
  Hook.conn_getProvider x := Evm.getProvider x.1;
  Hook.conn_burn x amount h tier := burnTTT x.2.1 x.2.2 amount h tier x.1;
|}.

Context (Contract : jsstr -> Prov -> res Ctr).

Abbreviation hook_call := (Hook.call (Conn := connector * (msg * contract)) (Ctr := Ctr)).
Abbreviation hook_run := (Hook.run (Conn := connector * (msg * contract)) Contract keccak256 message_of).

(** The hash a swap's fee is burned under. *)
Definition fee_hash (p : AfterSwapParams) (now : Z) : jsstr :=
  keccak256 (utf8_encode (js "burn-" ++ as_sender p ++ js "-" ++ z_to_dec now)).

(** The contract is in a state reached from its deployment without a mint of
    the token this swap's hash names. *)
Definition fee_unminted (c : hook_call) : Prop :=
  match c with
  | Hook.Before _ _ _ => True
  | Hook.After x p _ _ _ _ now _ =>
      exists m0 l, x.2.2 = (transactions (TTT.exec keccak256_Z) l (TTT.deploy keccak256_Z m0)).1
        /\ forall id, bytes32_of (fee_hash p now) = Some id ->
             TTT.minted id (transactions (TTT.exec keccak256_Z) l (TTT.deploy (R := R) (T := T) keccak256_Z m0)).2 = 0
  end.

Lemma unminted_burn_fails m c es amount h tier :
  unminted_empty c es -> (forall id, bytes32_of h = Some id -> TTT.minted id es = 0) -> exec_burn m c amount h tier = None.
Proof.
  intros Hu Hn. destruct (exec_burn _ _ _ _ _) as [r|] eqn:E; [|done]. exfalso.
  apply exec_burn_sent in E as (_ & _ & id & Hid & Hb). unfold TTT.burn in Hb. requires Hb.
  destruct (burn_ _ _ _ _) as [t|] eqn:Eb; [|done]. apply burn_enough in Eb. rewrite (Hu id) in Eb; [lia|by apply Hn].
Qed.

Lemma fee_burn_fails x p calc sig nonce deadline now1 now2 fee :
  fee_unminted (Hook.After x p calc sig nonce deadline now1 now2) ->
  is_ok (Hook.conn_burn x fee (fee_hash p now1) 1) = false.
Proof.
  intros (m0 & l & Hc & Hn). cbn [Hook.conn_burn on_chain]. rewrite burnTTT_ok.
  destruct (Evm.tttContract x.1); [|done].
  pose proof (history_unminted m0 l) as Hu. destruct (transactions _ _ _) as [c' es]. cbn in Hc, Hn. rewrite Hc.
  by rewrite (unminted_burn_fails _ _ es) by done.
Qed.

(** One call, as the statistics see it. *)
Lemma step_fails c s :
  fee_unminted c ->
  let s' := Hook.step Contract keccak256 message_of c s in
  Hook.failedBurns (Hook.st s') = Hook.failedBurns (Hook.st s) + Hook.recorded [c]
  /\ Hook.totalSwaps (Hook.st s') = Hook.totalSwaps (Hook.st s) + Hook.recorded [c]
  /\ Hook.totalFeesCollected (Hook.st s')
     = Hook.totalFeesCollected (Hook.st s) + Hook.swapFeeTTT s * Hook.admitted Contract keccak256 message_of [c] s
  /\ Hook.swapFeeTTT s' = Hook.swapFeeTTT s.
Proof.
  intros Hc. destruct c as [x p b|x p calc sig nonce deadline now1 now2]; cbn [Hook.step Hook.recorded foldr Hook.admitted].
  - pose proof (Hook.beforeSwap_stats Contract message_of x p b s) as Hb.
    destruct (Hook.beforeSwap Contract message_of x p b s) as [s1 r]. cbn [fst snd Hook.one].
    destruct Hb as (E1 & _ & E3 & E4 & _ & E6). rewrite E1, E3, E4, E6. split_and!; lia.
  - pose proof (fee_burn_fails x p calc sig nonce deadline now1 now2 (Hook.swapFeeTTT s) Hc) as Hb.
    unfold fee_hash in Hb. unfold Hook.afterSwap. destruct (Hook.conn_burn _ _ _ _); [done|]. cbn. split_and!; lia.
Qed.

Lemma run_fails l s :
  Forall fee_unminted l ->
  let s' := hook_run l s in
  Hook.failedBurns (Hook.st s') = Hook.failedBurns (Hook.st s) + Hook.recorded l
  /\ Hook.totalSwaps (Hook.st s') = Hook.totalSwaps (Hook.st s) + Hook.recorded l
  /\ Hook.totalFeesCollected (Hook.st s')
     = Hook.totalFeesCollected (Hook.st s) + Hook.swapFeeTTT s * Hook.admitted Contract keccak256 message_of l s.
Proof.
  intros Hf. revert s. induction Hf as [|c l Hc Hl IH]; intros s; [cbn; split_and!; lia|].
  pose proof (step_fails c s Hc) as Es. specialize (IH (Hook.step Contract keccak256 message_of c s)).
  cbv zeta in *. destruct Es as (E1 & E2 & E3 & E4), IH as (I1 & I2 & I3).
  assert (Hook.recorded (c :: l) = Hook.recorded [c] + Hook.recorded l) as ->.
  { unfold Hook.recorded. cbn [foldr]. lia. }
  assert (Hook.admitted Contract keccak256 message_of (c :: l) s
          = Hook.admitted Contract keccak256 message_of [c] s
            + Hook.admitted Contract keccak256 message_of l (Hook.step Contract keccak256 message_of c s)) as ->.
  { cbn [Hook.admitted]. lia. }
  change (hook_run (c :: l) s) with (hook_run l (Hook.step Contract keccak256 message_of c s)).
  rewrite I1, I2, I3, E1, E2, E3, E4. split_and!; lia.
Qed.

(** C9: No fee of the hook is ever burned.  In any history of its swaps over a
    connector to TTT, as long as nobody mints the token named after the very
    moment of the swap, every burn is refused: each recorded swap counts as a
    failed burn and no burn fee is collected, while the statistics go on adding
    the fee of every admitted swap to the fees collected. *)
Theorem hook_fees_never_burned (l : list hook_call) s :
  Forall fee_unminted l ->
  let s' := hook_run l s in
  Hook.failedBurns (Hook.st s') = Hook.failedBurns (Hook.st s) + Hook.recorded l
  /\ Hook.totalSwaps (Hook.st s') = Hook.totalSwaps (Hook.st s) + Hook.recorded l
  /\ Hook.totalFeesCollected (Hook.st s')
     = Hook.totalFeesCollected (Hook.st s) + Hook.swapFeeTTT s * Hook.admitted Contract keccak256 message_of l s
  /\ forall x p calc sig nonce deadline now1 now2 (s0 : Hook.t (Ctr := Ctr)),
       Hook.After x p calc sig nonce deadline now1 now2 ∈ l ->
       (Hook.afterSwap keccak256 x p calc sig nonce deadline now1 now2 s0).2 = None.
Proof.
  intros Hf s'. pose proof (run_fails l s Hf) as (E1 & E2 & E3). split_and!; [done|done|done|].
  intros x p calc sig nonce deadline now1 now2 s0 Hin. rewrite Forall_forall in Hf.
  pose proof (fee_burn_fails x p calc sig nonce deadline now1 now2 (Hook.swapFeeTTT s0) (Hf _ Hin)) as Hb.
  unfold fee_hash in Hb. unfold Hook.afterSwap. by destruct (Hook.conn_burn _ _ _ _).
Qed.

End Sdk.
End Settlement.

(** ** Witnesses *)

(** The account 7 holds 100 of token 5; hashes are token 5, or token 6 for the
    burn of a hook. *)
Definition ex_contract : TTT.state (R := Maps.roles) (T := Maps.tokens) :=
  (transactions (TTT.exec ex_keccak) [(ex_msg 1, TTT.Mint 7 100 5)] (TTT.deploy ex_keccak (ex_msg 1))).1.
Definition ex_connector : Evm.t (Prov := unit) (Sgn := unit) (Ctr := unit) :=
  {| Evm.provider := Some tt; Evm.signer := Some tt; Evm.tttContract := Some tt; Evm.protocolFeeContract := None;
     Evm.eventListeners := []; Evm.primaryRpcUrl := []; Evm.fallbackRpcUrls := []; Evm.signerOrKey := None;
     Evm.maxReconnectAttempts := 3; Evm.connected := true; Evm.trace := [] |}.
Definition ex_record : Adaptive.TTTRecord :=
  {| Adaptive.rec_time := JSNum.num_0; Adaptive.txOrder := []; Adaptive.grgPayload := [] |}.
Definition ex_hash (b : Buffer) : jsstr := if (length b =? 0)%nat then js "record" else js "swap".
Definition ex_bytes32 (s : jsstr) : option Z := if bool_decide (s = js "record") then Some 5 else Some 6.
Definition ex_text (_ : exn) : jsstr := js "reverted".

Lemma record_settled_iff_witness :
  let run a := Evm.submitTTTRecord ex_text ex_text
                 (contract_calls ex_keccak ex_bytes32 (fun _ => None) TypeError 50000 (js "0x1") (ex_msg 7) ex_contract)
                 ex_hash ex_record a 1 ex_connector in
  is_ok (run 40) = true /\ is_ok (run 101) = false /\ is_ok (run 0) = false
  /\ exists c' id, exec_burn ex_bytes32 (ex_msg 7) ex_contract 40 (js "record") 1
                     = Some (c', [TTT.TTTBurned 7 id 40 1])
       /\ ex_bytes32 (js "record") = Some id
       /\ balanceOf (TTT.tokens c') 7 id = balanceOf (TTT.tokens ex_contract) 7 id - 40
       /\ totalSupply (TTT.tokens c') id = totalSupply (TTT.tokens ex_contract) id - 40.
Proof.
  split; [vm_compute; reflexivity|]. split; [vm_compute; reflexivity|]. split; [vm_compute; reflexivity|].
  refine (proj2 (record_settled_iff ex_keccak ex_bytes32 (fun _ => None) TypeError 50000 (js "0x1") ex_text ex_text ex_hash
    (ex_msg 7) ex_contract ex_record 40 1 ex_connector _) _); [discriminate|vm_compute; reflexivity].
Defined.

Definition ex_key : PoolKey :=
  {| currency0 := js "0x1"; currency1 := js "0x2"; pk_fee := 3000; tickSpacing := 60; pk_hooks := js "0xhook" |}.
Definition ex_params : SwapParams := {| zeroForOne := true; amountSpecified := 1; sqrtPriceLimitX96 := 0 |}.
Definition ex_swaps : list (Hook.call (Conn := Evm.t (Prov := unit) (Sgn := unit) (Ctr := unit) * (msg * TTT.state)) (Ctr := unit)) :=
  let conn := (ex_connector, (ex_msg 7, ex_contract)) in
  [Hook.Before conn
      {| bs_sender := js "0xa"; bs_key := ex_key; bs_params := ex_params; bs_hookData := [] |} (fun _ _ => Ok (10 ^ 18));
   Hook.After conn
     {| as_sender := js "0xa"; as_key := ex_key; as_params := ex_params; as_amount0 := 1; as_amount1 := -1; as_hookData := [] |}
     None None None None 1710412800000 1710412801000].

Lemma hook_fees_never_burned_witness :
  let s := Hook.make (js "0xhook") (js "0xttt") None None true in
  let s' := Hook.run (Burner0 := on_chain ex_keccak ex_bytes32 (fun _ => None) TypeError 50000 (js "0x1") ex_text ex_text)
              (fun _ _ => Ok tt) ex_hash ex_text ex_swaps s in
  (Hook.failedBurns (Hook.st s') = 1 /\ Hook.totalFeesCollected (Hook.st s') = 10 ^ 17)
  /\ Hook.failedBurns (Hook.st s') = Hook.failedBurns (Hook.st s) + Hook.recorded ex_swaps.
Proof.
  split; [vm_compute; split; reflexivity|].
  refine (proj1 (hook_fees_never_burned ex_keccak ex_bytes32 (fun _ => None) TypeError 50000 (js "0x1") ex_text ex_text
    ex_hash (fun _ _ => Ok tt) ex_swaps (Hook.make (js "0xhook") (js "0xttt") None None true) _)).
  repeat constructor. exists (ex_msg 1), [(ex_msg 1, TTT.Mint 7 100 5)]. split; [reflexivity|].
  intros id Hid. vm_compute in Hid. injection Hid as <-. vm_compute. reflexivity.
Defined.

End Settlement.
