(* ===== verification/Player.v ===== *)
(** * The explainer's player (src/demo/GRGExplainer.tsx)

    The state of the component, the callback of its interval and its two
    buttons.  An interval callback runs on the state of the last rendering;
    React renders between two callbacks, so that a callback sees what the one
    before it set.  What the scenes draw is not modelled. *)
From Stdlib Require Import ZArith Lia String.
From stdpp Require Import base list numbers option.
From S2P Require Import Prelude JSNum.

Module Player.

Record Scene := { id : string; label : string; duration : Z }.

Definition SCENES : list Scene :=
  [{| id := "title"; label := "Title"; duration := 4000 |};
   {| id := "problem"; label := "The Problem"; duration := 6000 |};
   {| id := "shannon"; label := "Shannon Limit"; duration := 5500 |};
   {| id := "pipeline"; label := "GRG Pipeline"; duration := 8000 |};
   {| id := "byzantine"; label := "Elimination"; duration := 6500 |};
   {| id := "results"; label := "Results"; duration := 5000 |};
   {| id := "future"; label := "Future"; duration := 4000 |}].

Definition sum_durations (l : list Scene) : Z := foldl (fun a s => a + duration s) 0 l.
Definition totalDur : Z := sum_durations SCENES.

(** The hooks: four states and the two refs that hold times. *)
Record t := {
  sceneIdx : nat; playing : bool; elapsed : Z; totalPct : num; startRef : Z; elapsedRef : Z;
}.

Definition mount (now : Z) : t :=
  {| sceneIdx := 0; playing := true; elapsed := 0; totalPct := num_0; startRef := now; elapsedRef := 0 |}.

(** [SCENES[sceneIdx].duration]; an index outside the list breaks the
    rendering before any callback runs. *)
Definition scene_duration (i : nat) : Z := from_option duration 0 (SCENES !! i).
Definition doneMs (s : t) : Z := sum_durations (take (sceneIdx s) SCENES).

Definition nmin (a b : num) : num := if nle a b then a else b.
(** [Math.min(elapsed / currentScene.duration, 1)] *)
Definition sceneProgress (s : t) : num :=
  nmin (ndiv (num_of_Z (elapsed s)) (num_of_Z (scene_duration (sceneIdx s)))) (num_of_Z 1).

(** The interval callback, while the component plays. *)
Definition tick (now : Z) (s : t) : t :=
  if negb (playing s) then s
  else
    let delta := now - startRef s in
    let pct := nmin (ndiv (num_of_Z (doneMs s + delta)) (num_of_Z totalDur)) (num_of_Z 1) in
    if scene_duration (sceneIdx s) <=? delta then
      if (sceneIdx s <? length SCENES - 1)%nat
      then {| sceneIdx := S (sceneIdx s); playing := true; elapsed := 0; totalPct := pct;
              startRef := now; elapsedRef := 0 |}
      else {| sceneIdx := sceneIdx s; playing := false; elapsed := delta; totalPct := pct;
              startRef := startRef s; elapsedRef := delta |}
    else {| sceneIdx := sceneIdx s; playing := true; elapsed := delta; totalPct := pct;
            startRef := startRef s; elapsedRef := delta |}.

(** [goToScene(i)]: [elapsedRef] is left alone. *)
Definition goToScene (i : nat) (now : Z) (s : t) : t :=
  {| sceneIdx := i; playing := true; elapsed := 0; totalPct := totalPct s; startRef := now;
     elapsedRef := elapsedRef s |}.

Definition toggle (now : Z) (s : t) : t :=
  {| sceneIdx := sceneIdx s; playing := negb (playing s); elapsed := elapsed s; totalPct := totalPct s;
     startRef := if negb (playing s) then now - elapsedRef s else startRef s; elapsedRef := elapsedRef s |}.

(** What can happen to the component. *)
Inductive event := Tick (now : Z) | GoTo (i : nat) (now : Z) | Toggle (now : Z).

(** The buttons exist for the scenes of the list only. *)
Inductive step : t -> t -> Prop :=
| StTick now s : step s (tick now s)
| StGoTo i now s : (i < length SCENES)%nat -> step s (goToScene i now s)
| StToggle now s : step s (toggle now s).

Definition ticks (l : list Z) (s : t) : t := foldl (fun s now => tick now s) s l.

(** ** Specification

    Ticks from [from] on, each at most [gap] ms after the one before. *)
Fixpoint paced (gap from : Z) (l : list Z) : Prop :=
  match l with [] => True | now :: l' => from <= now <= from + gap /\ paced gap now l' end.

Definition last_tick (from : Z) (l : list Z) : Z := foldl (fun _ now => now) from l.

(** Where the [i]-th scene may begin at the latest, counted from the start of
    scene [i0]. *)
Definition begins_by (gap : Z) (i0 i : nat) : Z :=
  sum_durations (take i SCENES) - sum_durations (take i0 SCENES) + Z.of_nat (i - i0) * gap.

(** The state after a tick at [now], when scene [i0] began at [t0]. *)
Definition on_time (gap t0 : Z) (i0 : nat) (now : Z) (s : t) : Prop :=
  (i0 <= sceneIdx s < length SCENES)%nat
  /\ if playing s
     then startRef s <= t0 + begins_by gap i0 (sceneIdx s) /\ startRef s <= now < startRef s + scene_duration (sceneIdx s)
     else sceneIdx s = (length SCENES - 1)%nat /\ scene_duration (sceneIdx s) <= elapsed s.

(** ** Lemmas *)

Lemma sum_from l : forall z, foldl (fun a s => a + duration s) z l = z + sum_durations l.
Proof.
  induction l as [|s l IH]; intros z; unfold sum_durations; cbn; [lia|]. rewrite !IH. lia.
Qed.

Lemma sum_app l1 l2 : sum_durations (l1 ++ l2) = sum_durations l1 + sum_durations l2.
Proof. unfold sum_durations at 1. by rewrite foldl_app, sum_from. Qed.

Lemma durations_positive i : (i < length SCENES)%nat -> 0 < scene_duration i.
Proof. intros H. do 7 (destruct i as [|i]; [reflexivity|]). cbn in H. lia. Qed.

Lemma done_next i : (i < length SCENES)%nat ->
  sum_durations (take (S i) SCENES) = sum_durations (take i SCENES) + scene_duration i.
Proof.
  intros H. unfold scene_duration. destruct (SCENES !! i) as [s|] eqn:E; [|apply lookup_ge_None_1 in E; lia].
  rewrite (take_S_r _ _ s E), sum_app. cbn. lia.
Qed.

Lemma scene_index_inv s s' : (sceneIdx s < length SCENES)%nat -> step s s' -> (sceneIdx s' < length SCENES)%nat.
Proof.
  intros H Hs. revert H. destruct Hs as [now s0|i now s0 Hi|now s0]; cbn [goToScene toggle sceneIdx]; try done. unfold tick.
  destruct (playing s0); [|by intros]. cbn [negb]. destruct (_ <=? _); [|by intros].
  destruct (Nat.ltb_spec (sceneIdx s0) (length SCENES - 1)); cbn in *; lia.
Qed.

Lemma tick_on_time gap t0 i0 from now s :
  0 <= gap -> on_time gap t0 i0 from s -> from <= now <= from + gap -> on_time gap t0 i0 now (tick now s).
Proof.
  intros Hg [Hi Hs] Hnow. unfold tick. destruct (playing s) eqn:Ep; cbn [negb]; [|by unfold on_time; rewrite Ep].
  destruct Hs as [Hb Hf]. pose proof (done_next (sceneIdx s) ltac:(lia)) as Hd.
  destruct (Z.leb_spec (scene_duration (sceneIdx s)) (now - startRef s)) as [Hle|Hlt];
    [destruct (Nat.ltb_spec (sceneIdx s) (length SCENES - 1)) as [Hi'|Hi']|];
    unfold on_time; cbn [sceneIdx playing startRef elapsed].
  - pose proof (durations_positive (S (sceneIdx s)) ltac:(lia)). unfold begins_by in *. rewrite Hd.
    replace (S (sceneIdx s) - i0)%nat with (S (sceneIdx s - i0)) by lia. lia.
  - lia.
  - lia.
Qed.

Lemma ticks_on_time gap t0 i0 l : 0 <= gap -> forall from s,
  on_time gap t0 i0 from s -> paced gap from l -> on_time gap t0 i0 (last_tick from l) (ticks l s).
Proof.
  intros Hg. induction l as [|now l IH]; intros from s Hs Hp; [done|]. destruct Hp as [Hn Hp].
  exact (IH now _ (tick_on_time _ _ _ _ _ _ Hg Hs Hn) Hp).
Qed.

Lemma begins_last gap i0 i :
  (i0 <= i < length SCENES)%nat -> 0 <= gap ->
  begins_by gap i0 i + scene_duration i <= totalDur - sum_durations (take i0 SCENES) + 6 * gap.
Proof.
  intros Hi Hg. pose proof (done_next i ltac:(lia)) as Hd. unfold begins_by.
  assert (sum_durations (take (S i) SCENES) <= totalDur) as Ht.
  { unfold totalDur. rewrite <- (take_drop (S i) SCENES) at 2. rewrite sum_app.
    enough (0 <= sum_durations (drop (S i) SCENES)) by lia.
    do 7 (destruct i as [|i]; [vm_compute; discriminate|]). cbn in Hi. lia. }
  cbn in Hi. assert (Z.of_nat (i - i0) <= 6) by lia. nia.
Qed.

(** ** Properties *)

(** The player comes to its end: from the click on any scene, with ticks
    at most [gap] ms apart and no other click, it is stopped in the last scene
    at the latest when the remaining scenes and six gaps have passed.  Until
    then it never leaves the scene list or goes back. *)
Lemma player_stops gap i0 t0 s l :
  0 <= gap -> (i0 < length SCENES)%nat -> paced gap t0 l ->
  let s' := ticks l (goToScene i0 t0 s) in
  (i0 <= sceneIdx s' < length SCENES)%nat
  /\ (totalDur - sum_durations (take i0 SCENES) + 6 * gap <= last_tick t0 l - t0 ->
      playing s' = false /\ sceneIdx s' = (length SCENES - 1)%nat /\ scene_duration (sceneIdx s') <= elapsed s').
Proof.
  intros Hg Hi Hp s'.
  assert (on_time gap t0 i0 t0 (goToScene i0 t0 s)) as H0.
  { unfold on_time, begins_by. cbn [goToScene sceneIdx playing startRef]. rewrite Nat.sub_diag.
    pose proof (durations_positive i0 Hi). lia. }
  destruct (ticks_on_time gap t0 i0 l Hg t0 _ H0 Hp) as [Hr Hs]. fold s' in Hr, Hs. split; [done|].
  intros Hend. destruct (playing s'); [|done]. pose proof (begins_last gap i0 (sceneIdx s') Hr Hg). lia.
Qed.

(** Pressing PLAY at the end does not start the film again: the next tick
    stops it. *)
Lemma play_at_end_stops s now now' :
  playing s = false -> sceneIdx s = (length SCENES - 1)%nat -> scene_duration (sceneIdx s) <= elapsedRef s ->
  now <= now' -> playing (tick now' (toggle now s)) = false.
Proof.
  intros Hp Hi Hd Hn. unfold tick, toggle. cbn [playing]. rewrite Hp. cbn [negb startRef sceneIdx].
  rewrite (proj2 (Z.leb_le _ _)) by lia. by rewrite Hi.
Qed.

(** A scene that is chosen and paused before its first tick goes on from the
    time the scene before it had reached. *)
Lemma paused_scene_jumps i t0 t1 t2 s :
  elapsed (tick t2 (toggle t2 (toggle t1 (goToScene i t0 s)))) = elapsedRef s
  \/ scene_duration i <= elapsedRef s.
Proof.
  unfold tick, toggle, goToScene. cbn.
  replace (t2 - (t2 - elapsedRef s)) with (elapsedRef s) by lia.
  destruct (Z.leb_spec (scene_duration i) (elapsedRef s)); [by right|by left].
Qed.

(** ** Witness *)

Definition ex_ticks : list Z := (fun i => 1000 + 1000 * Z.of_nat i) <$> seq 1 45.

Lemma player_stops_witness :
  let s' := ticks ex_ticks (goToScene 0 1000 (mount 0)) in
  (0 <= sceneIdx s' < length SCENES)%nat
  /\ (totalDur - sum_durations (take 0 SCENES) + 6 * 1000 <= last_tick 1000 ex_ticks - 1000 ->
      playing s' = false /\ sceneIdx s' = (length SCENES - 1)%nat /\ scene_duration (sceneIdx s') <= elapsed s').
Proof.
  apply (player_stops 1000 0 1000 (mount 0) ex_ticks).
  - lia.
  - apply Nat.ltb_lt. reflexivity.
  - vm_compute. repeat split; discriminate.
Defined.

End Player.
