(* ===== verification/Osnma.v ===== *)
(** * OSNMA time source (src/src/osnma_source.ts)

    The checks on the Galileo key material and the source that runs them once
    and then serves the system clock as stratum 1.  SHA-256 is a parameter.
    The properties: which key material is accepted and with which error it is
    refused otherwise, and what a sequence of readings returns: after one
    success the key is never checked again. *)
From Stdlib Require Import ZArith Lia String Strings.Byte.
From stdpp Require Import base list numbers option strings.
From S2P Require Import Prelude JSString Errors Bytes JSNum Types.

Module Osnma.

Record OsnmaKeyMaterial := {
  om_pkid : num; om_publicKeyHex : jsstr; om_merkleRootHex : jsstr; om_hashFunction : jsstr; om_applicabilityMs : num;
}.

Record OsnmaVerificationResult := {
  ov_valid : bool; ov_pkid : num; ov_merkleRootHex : jsstr; ov_keyFingerprint : jsstr;
  ov_applicabilityMs : num; ov_checkedAt : Z;
}.

(** The GSC key: PKID 2, applicable from 2025-12-10T10:00:00Z. *)
Definition DEFAULT_OSNMA_KEY : OsnmaKeyMaterial :=
  {| om_pkid := num_of_Z 2;
     om_publicKeyHex := js "02219204B5CA6C46B623EEED6CDD2CDDB1F7D6A7532767E5B8DA0DE1EBD695FC99";
     om_merkleRootHex := js "7B944FA20915C7931D48DD016D94F9C6381FD37DC6C125D97015272FDDE41393";
     om_hashFunction := js "SHA-256"; om_applicabilityMs := num_of_Z 1765360800000 |}.

Section Operations.
Variable sha256 : Buffer -> Buffer.

(** The errors use the three-argument constructor: the name given first is the
    message and the code is the default. *)
Definition verifyOsnmaKeyMaterial (key : OsnmaKeyMaterial) (now : Z) : res OsnmaVerificationResult :=
  let pubKeyBytes := from_hex (om_publicKeyHex key) in
  if negb (length pubKeyBytes =? 33)%nat then throw3 TTTTimeSynthesisError "OSNMA_KEY_LENGTH_INVALID"
  else
    let prefix := bval <$> head pubKeyBytes in
    if negb (bool_decide (prefix = Some 2)) && negb (bool_decide (prefix = Some 3))
    then throw3 TTTTimeSynthesisError "OSNMA_KEY_PREFIX_INVALID"
    else
      let merkleBytes := from_hex (om_merkleRootHex key) in
      if negb (length merkleBytes =? 32)%nat then throw3 TTTTimeSynthesisError "OSNMA_MERKLE_LENGTH_INVALID"
      else if nlt (num_of_Z now) (om_applicabilityMs key)
      then throw3 TTTTimeSynthesisError "OSNMA_KEY_NOT_YET_APPLICABLE"
      else Ok {| ov_valid := true; ov_pkid := om_pkid key; ov_merkleRootHex := om_merkleRootHex key;
                 ov_keyFingerprint := to_hex (sha256 pubKeyBytes); ov_applicabilityMs := om_applicabilityMs key;
                 ov_checkedAt := now |}.

(** ** The source *)

Record t := { keyMaterial : OsnmaKeyMaterial; verificationResult : option OsnmaVerificationResult }.

(** The constructor: each missing field takes the default's. *)
Definition make (pkid : option num) (publicKeyHex merkleRootHex hashFunction : option jsstr)
    (applicabilityMs : option num) : t :=
  {| keyMaterial :=
       {| om_pkid := default (om_pkid DEFAULT_OSNMA_KEY) pkid;
          om_publicKeyHex := default (om_publicKeyHex DEFAULT_OSNMA_KEY) publicKeyHex;
          om_merkleRootHex := default (om_merkleRootHex DEFAULT_OSNMA_KEY) merkleRootHex;
          om_hashFunction := default (om_hashFunction DEFAULT_OSNMA_KEY) hashFunction;
          om_applicabilityMs := default (om_applicabilityMs DEFAULT_OSNMA_KEY) applicabilityMs |};
     verificationResult := None |}.

(** [getTime]; [now1] is the clock of the check, [now2] of the reading. *)
Definition getTime (now1 now2 : Z) (s : t) : t * res TimeReading :=
  let reading := {| tr_timestamp := now2 * 1000000; tr_uncertainty := num_of_Z 50; tr_stratum := 1;
                    tr_source := js "osnma" |} in
  match verificationResult s with
  | Some _ => (s, Ok reading)
  | None =>
      match verifyOsnmaKeyMaterial (keyMaterial s) now1 with
      | Ok v => ({| keyMaterial := keyMaterial s; verificationResult := Some v |}, Ok reading)
      | Throw e => (s, Throw e)
      end
  end.

Definition getVerificationResult (s : t) : option OsnmaVerificationResult := verificationResult s.
Definition getKeyMaterial (s : t) : OsnmaKeyMaterial := keyMaterial s.

(** A sequence of readings with their clocks. *)
Fixpoint readings_of (l : list (Z * Z)) (s : t) : list (res TimeReading) :=
  match l with
  | [] => []
  | (now1, now2) :: l' => let '(s', r) := getTime now1 now2 s in r :: readings_of l' s'
  end.

(** ** Properties *)

(** What the checks accept. *)
Definition key_ok (key : OsnmaKeyMaterial) (now : Z) : Prop :=
  length (from_hex (om_publicKeyHex key)) = 33%nat
  /\ (bval <$> head (from_hex (om_publicKeyHex key)) = Some 2 \/ bval <$> head (from_hex (om_publicKeyHex key)) = Some 3)
  /\ length (from_hex (om_merkleRootHex key)) = 32%nat
  /\ nlt (num_of_Z now) (om_applicabilityMs key) = false.

(** The key material is accepted exactly when it is [key_ok]; nothing compares
    it with the anchor the file holds, so any point with the right prefix
    passes. *)
Lemma osnma_accepts_iff key now : is_ok (verifyOsnmaKeyMaterial key now) = true <-> key_ok key now.
Proof.
  unfold verifyOsnmaKeyMaterial, key_ok.
  destruct (Nat.eqb_spec (length (from_hex (om_publicKeyHex key))) 33) as [H1|H1]; cbn [negb].
  2: { split; [done|]. by intros [? _]. }
  set (prefix := bval <$> head (from_hex (om_publicKeyHex key))).
  assert (negb (bool_decide (prefix = Some 2)) && negb (bool_decide (prefix = Some 3)) = false
          <-> prefix = Some 2 \/ prefix = Some 3) as Hp.
  { rewrite andb_false_iff, !negb_false_iff, !bool_decide_eq_true. done. }
  destruct (negb _ && negb _); [split; [done|]; intros (_ & Hx & _); by apply Hp in Hx|].
  destruct (Nat.eqb_spec (length (from_hex (om_merkleRootHex key))) 32) as [H3|H3]; cbn [negb].
  2: { split; [done|]. by intros (_ & _ & ? & _). }
  destruct (nlt _ _); [split; [done|]; by intros (_ & _ & _ & ?)|].
  split; [|done]. intros _. split_and!; [done|by apply Hp|done..].
Qed.

(** After one success every later reading is the system clock, whatever has
    become of the key's applicability. *)
Lemma osnma_checked_once now1 now2 s l :
  is_ok (getTime now1 now2 s).2 = true ->
  readings_of l (getTime now1 now2 s).1
  = (fun c => Ok {| tr_timestamp := c.2 * 1000000; tr_uncertainty := num_of_Z 50; tr_stratum := 1;
                    tr_source := js "osnma" |}) <$> l.
Proof.
  intros H. assert (exists v, verificationResult (getTime now1 now2 s).1 = Some v) as [v Hv].
  { unfold getTime in *. destruct (verificationResult s) as [v|] eqn:E; [by exists v|].
    destruct (verifyOsnmaKeyMaterial _ _) as [v|]; [by exists v|done]. }
  revert Hv. generalize (getTime now1 now2 s).1. clear H.
  induction l as [|[n1 n2] l IH]; intros s' Hv; [done|]. cbn [readings_of]. unfold getTime. rewrite Hv.
  csimpl. by rewrite IH.
Qed.

(** The default key passes from its applicability date on. *)
Lemma osnma_default_key : is_ok (verifyOsnmaKeyMaterial DEFAULT_OSNMA_KEY 1765360800000) = true
  /\ is_ok (verifyOsnmaKeyMaterial DEFAULT_OSNMA_KEY 1765360799999) = false.
Proof. split; vm_compute; reflexivity. Qed.

End Operations.

End Osnma.
