(* ===== verification/Rust.v ===== *)
(** * Rust values

    The Rust crate under src/src/roughtime runs beside the TypeScript SDK.
    Its unsigned integers are [Z] within their width, [Vec<u8>] and arrays of
    bytes are lists of bytes, a slice out of range panics.  The release profile
    of Cargo.toml leaves overflow checks off, so plain arithmetic wraps around. *)
From Stdlib Require Import ZArith Lia.
From stdpp Require Import base list numbers option.
From S2P Require Import Prelude Bytes.

Definition u32 (z : Z) : Z := z mod 2 ^ 32.
Definition u64 (z : Z) : Z := z mod 2 ^ 64.

(** [a.saturating_sub(b)], [a.saturating_add(b)] on u64. *)
Definition saturating_sub (a b : Z) : Z := Z.max 0 (a - b).
Definition saturating_add (a b : Z) : Z := Z.min (2 ^ 64 - 1) (a + b).

(** What a function can end with: a value, the error of a [Result], a panic. *)
Inductive fault (E : Type) := Err (e : E) | Panic.
Arguments Err {E} e.
Arguments Panic {E}.
Abbreviation rres E := (result (fault E)).

(** [data[a..b]] where the bounds were tested before. *)
Definition slice (l : Buffer) (a b : nat) : Buffer := take (b - a) (drop a l).

Lemma slice_length l a b : (b <= length l)%nat -> length (slice l a b) = (b - a)%nat.
Proof. intros H. unfold slice. rewrite length_take, length_drop. lia. Qed.

Lemma slice_middle (l1 l2 l3 : Buffer) a b :
  a = length l1 -> b = (length l1 + length l2)%nat -> slice (l1 ++ l2 ++ l3) a b = l2.
Proof.
  intros -> ->. unfold slice. replace (length l1 + length l2 - length l1)%nat with (length l2) by lia.
  by rewrite drop_app_length, take_app_length.
Qed.

Lemma slice_all (l : Buffer) : slice l 0 (length l) = l.
Proof. unfold slice. rewrite Nat.sub_0_r, drop_0. by apply firstn_all. Qed.

(** A u64 or u32 is what its bytes say. *)
Lemma be_val_u64 z : 0 <= z < 2 ^ 64 -> be_val (be_bytes 8 z) = z.
Proof. intros H. rewrite be_val_be_bytes. by apply Z.mod_small. Qed.
Lemma be_val_u32 z : 0 <= z < 2 ^ 32 -> be_val (be_bytes 4 z) = z.
Proof. intros H. rewrite be_val_be_bytes. by apply Z.mod_small. Qed.

(** The largest and the smallest element of a list. *)
Lemma foldl_max_spec x l : (forall y, y ∈ x :: l -> y <= foldl Z.max x l) /\ foldl Z.max x l ∈ x :: l.
Proof.
  revert x. induction l as [|y l IH]; intros x; cbn [foldl].
  - split; [|left]. intros y ->%list_elem_of_singleton. lia.
  - destruct (IH (Z.max x y)) as [H1 H2]. split.
    + pose proof (H1 (Z.max x y) ltac:(left)).
      intros z [->|[->|Hz]%elem_of_cons]%elem_of_cons; [lia..|]. apply H1. by right.
    + apply elem_of_cons in H2 as [->|H2]; [|by do 2 right].
      destruct (Z.max_spec x y) as [[_ ->]|[_ ->]]; [right; left|left].
Qed.

Lemma foldl_min_spec x l : (forall y, y ∈ x :: l -> foldl Z.min x l <= y) /\ foldl Z.min x l ∈ x :: l.
Proof.
  revert x. induction l as [|y l IH]; intros x; cbn [foldl].
  - split; [|left]. intros y ->%list_elem_of_singleton. lia.
  - destruct (IH (Z.min x y)) as [H1 H2]. split.
    + pose proof (H1 (Z.min x y) ltac:(left)).
      intros z [->|[->|Hz]%elem_of_cons]%elem_of_cons; [lia..|]. apply H1. by right.
    + apply elem_of_cons in H2 as [->|H2]; [|by do 2 right].
      destruct (Z.min_spec x y) as [[_ ->]|[_ ->]]; [left|right; left].
Qed.

