(* ===== verification/RustSwitch.v ===== *)
(** * The Rust mode switch and its store
    (src/src/roughtime/adaptive_switch.rs, src/src/roughtime/as_store.rs)

    The issuer's port of [AdaptiveSwitch].  It takes the results of the three
    checks of a block, counts failures and backs off; the file compares it with
    the TypeScript switch over any history of blocks and resets.  The store
    keeps one switch per context. *)
From Stdlib Require Import ZArith Lia String Floats.SpecFloat.
From stdpp Require Import base list numbers option strings gmap.
From S2P Require Import Prelude JSNum AdaptiveSwitch Rust.

Module Switch.

Inductive AdaptiveMode : Set := Turbo | Full.

#[global] Instance AdaptiveMode_eq_dec : EqDecision AdaptiveMode.
Proof. solve_decision. Defined.

(** The fields [new] fixes once and for all. *)
Definition window : nat := 20.
Definition turbo_entry : num := num_lit 95 100.
Definition turbo_maintain : num := num_lit 85 100.
Definition backoff_base : Z := 2.

Record t := {
  history : list bool;
  mode : AdaptiveMode;
  penalty_cooldown : Z;
  fail_count : Z;
  tier_tolerance_ms : Z;
}.

Definition new (tier_tolerance_ms : Z) : t :=
  {| history := []; mode := Full; penalty_cooldown := 0; fail_count := 0;
     tier_tolerance_ms := tier_tolerance_ms |}.

Definition check_recency (pot_timestamp_ms submission_ms : Z) (s : t) : bool :=
  saturating_sub submission_ms pot_timestamp_ms <=? tier_tolerance_ms s.

Definition match_rate (h : list bool) : num :=
  match h with
  | [] => num_0
  | _ => ndiv (num_of_Z (Z.of_nat (length (bfilter (fun v => v) h)))) (num_of_Z (Z.of_nat (length h)))
  end.

(** A failed check: [fail_count += 1] and the exponential backoff. *)
Definition penalize (s : t) : t :=
  let fc := u32 (fail_count s + 1) in
  {| history := history s; mode := Full; penalty_cooldown := u32 (backoff_base ^ Z.min fc 8);
     fail_count := fc; tier_tolerance_ms := tier_tolerance_ms s |}.

Definition verify_block (order_ok time_ok integrity_ok : bool) (s : t) : t :=
  if negb integrity_ok then penalize s
  else if negb time_ok then penalize s
  else
    let pc := if 0 <? penalty_cooldown s then penalty_cooldown s - 1 else penalty_cooldown s in
    let h := push_bounded window (history s) (order_ok && time_ok) in
    let rate := match_rate h in
    let threshold := if bool_decide (mode s = Turbo) then turbo_maintain else turbo_entry in
    let m := if (window <=? length h)%nat && nle threshold rate && (pc =? 0) && (fail_count s =? 0) then Turbo
             else if nlt rate threshold || (0 <? pc) then Full else mode s in
    {| history := h; mode := m; penalty_cooldown := pc; fail_count := fail_count s;
       tier_tolerance_ms := tier_tolerance_ms s |}.

Definition fee_discount (s : t) : num := if bool_decide (mode s = Turbo) then num_lit 20 100 else num_0.

Definition reset (s : t) : t :=
  {| history := []; mode := Full; penalty_cooldown := 0; fail_count := 0; tier_tolerance_ms := tier_tolerance_ms s |}.

Inductive op := Block (order_ok time_ok integrity_ok : bool) | Reset.

Definition exec (s : t) (o : op) : t :=
  match o with Block a b c => verify_block a b c s | Reset => reset s end.
Definition run (l : list op) (s : t) : t := foldl exec s l.

(** ** The TypeScript switch on the same blocks

    It has no integrity input, and an outcome is order and time together. *)
Definition ts_exec (s : Adaptive.t) (o : op) : Adaptive.t :=
  match o with Block a b _ => Adaptive.observe (a && b) s | Reset => Adaptive.reset s end.
Definition ts_run (l : list op) (s : Adaptive.t) : Adaptive.t := foldl ts_exec s l.

Definition of_ts (m : Adaptive.AdaptiveMode) : AdaptiveMode :=
  match m with Adaptive.TURBO => Turbo | Adaptive.FULL => Full end.

(** Some block since the last reset was late or failed its integrity check. *)
Definition failed (l : list op) : bool :=
  foldl (fun b o => match o with Block _ t i => b || negb (t && i) | Reset => false end) false l.

(** ** Lemmas *)

Lemma match_rate_ts h : match_rate h = Adaptive.matchRate h.
Proof. by destruct h. Qed.

(** On a full window the two comparisons with a threshold are complementary. *)
Lemma thresholds_total :
  forallb (fun n =>
      let r := ndiv (num_of_Z (Z.of_nat n)) (num_of_Z 20) in
      Bool.eqb (nlt r turbo_entry) (negb (nle turbo_entry r))
      && Bool.eqb (nlt r turbo_maintain) (negb (nle turbo_maintain r)))
    (seq 0 21) = true.
Proof. vm_compute. reflexivity. Qed.

Lemma rate_below h (b : bool) :
  length h = 20%nat ->
  let thr := if b then turbo_maintain else turbo_entry in
  nlt (match_rate h) thr = negb (nle thr (match_rate h)).
Proof.
  intros Hl thr. pose proof thresholds_total as H. rewrite forallb_forall in H.
  pose proof (bfilter_length (fun v : bool => v) h) as Hc.
  specialize (H (length (bfilter (fun v => v) h))). rewrite in_seq in H.
  specialize (H ltac:(lia)). cbv zeta in H. apply andb_prop in H as [H1 H2].
  apply Bool.eqb_prop in H1, H2. unfold thr, match_rate. destruct h as [|x h]; [done|].
  rewrite Hl. change (Z.of_nat 20) with 20. by destruct b.
Qed.

(** The two switches after the same blocks, none of which failed. *)
Definition same (s : t) (s' : Adaptive.t) : Prop :=
  history s = Adaptive.history s' /\ mode s = of_ts (Adaptive.currentMode s')
  /\ penalty_cooldown s = 0 /\ fail_count s = 0 /\ Adaptive.penaltyCooldown s' = 0
  /\ (length (history s) <= 20)%nat /\ (mode s = Turbo -> length (history s) = 20%nat).

Lemma same_block s s' a : same s s' -> same (verify_block a true true s) (Adaptive.observe (a && true) s').
Proof.
  intros (Hh & Hm & Hp & Hf & Hp' & Hl & Ht). unfold verify_block, Adaptive.observe. cbn [negb].
  rewrite <- Hh, Hp, Hp', Hf. change (0 <? 0) with false. cbn [Z.eqb].
  change Adaptive.windowSize with window. set (h := push_bounded window (history s) (a && true)).
  assert (length h = Nat.min 20 (S (length (history s)))) as Hlh
    by (apply push_bounded_length; unfold window; lia).
  rewrite !andb_true_r, <- match_rate_ts, orb_false_r.
  set (thr := if bool_decide (mode s = Turbo) then turbo_maintain else turbo_entry).
  replace (match Adaptive.currentMode s' with Adaptive.TURBO => Adaptive.turboMaintainThreshold
           | Adaptive.FULL => Adaptive.turboEntryThreshold end) with thr
    by (unfold thr; rewrite Hm; by destruct (Adaptive.currentMode s')).
  change Adaptive.minBlocks with window.
  destruct (Nat.leb_spec window (length h)) as [Hw|Hw]; unfold window in Hw; cbn [andb].
  - assert (length h = 20%nat) as H20 by lia.
    unfold thr. rewrite (rate_below h _ H20). fold thr.
    destruct (nle thr (match_rate h)); cbn [negb]; split_and!; cbn; try done; lia.
  - assert (mode s = Full) as Hfull by (destruct (mode s); [specialize (Ht eq_refl); lia|done]).
    rewrite Hfull. unfold same. destruct (nlt _ _); cbn; split_and!; try done; lia.
Qed.

Lemma penalize_fails n s : 0 <= fail_count s <= n -> n + 1 < 2 ^ 32 ->
  mode (penalize s) = Full /\ 0 < fail_count (penalize s) <= n + 1.
Proof. intros H Hn. split; [done|]. cbn. unfold u32. rewrite Z.mod_small; lia. Qed.

(** After a failure no block brings the mode back. *)
Lemma failing_block n s a b c : n + 1 < 2 ^ 32 ->
  mode s = Full -> 0 < fail_count s <= n ->
  mode (verify_block a b c s) = Full /\ 0 < fail_count (verify_block a b c s) <= n + 1.
Proof.
  intros Hn Hm Hf. unfold verify_block.
  destruct c; cbn [negb]; [|apply penalize_fails; lia]. destruct b; cbn [negb]; [|apply penalize_fails; lia].
  cbn [mode fail_count]. split; [|lia]. replace (fail_count s =? 0) with false by (symmetry; apply Z.eqb_neq; lia).
  rewrite andb_false_r, Hm. by destruct (_ || _).
Qed.

Lemma failed_snoc l o :
  failed (l ++ [o]) = match o with Block _ b c => failed l || negb (b && c) | Reset => false end.
Proof. unfold failed. by rewrite foldl_app. Qed.

(** The simulation. *)
Lemma run_related tol otol l :
  Z.of_nat (length l) < 2 ^ 32 ->
  let s := run l (new tol) in
  if failed l then mode s = Full /\ 0 < fail_count s <= Z.of_nat (length l)
  else same s (ts_run l (Adaptive.make otol)).
Proof.
  induction l as [|o l IH] using rev_ind; intros Hl; cbv zeta.
  { cbn. unfold same. cbn. split_and!; done || lia. }
  rewrite length_app in Hl. cbn [length] in Hl. specialize (IH ltac:(lia)). cbv zeta in IH.
  unfold run, ts_run in *. rewrite !foldl_app, failed_snoc, length_app. cbn [foldl length].
  set (s := foldl exec (new tol) l) in *. set (s' := foldl ts_exec _ l) in *.
  destruct o as [a b c|]; cbn [exec ts_exec].
  2: { unfold same. cbn. split_and!; done || lia. }
  replace (Z.of_nat (length l + 1)) with (Z.of_nat (length l) + 1) by lia.
  destruct (failed l); cbn [orb].
  - destruct IH as [Hm Hf]. apply failing_block; [lia|done|done].
  - destruct b, c; cbn [negb andb]; try by apply same_block.
    all: destruct IH as (_ & _ & _ & Hf & _); apply penalize_fails; lia.
Qed.

(** Good blocks bring the TypeScript automaton to TURBO. *)
Lemma good_blocks_turbo sp n :
  (20 <= n)%nat -> Adaptive.mode (foldl Adaptive.spec_step sp (replicate n true)) = Adaptive.TURBO.
Proof.
  intros Hn. replace n with (n - 20 + 19 + 1)%nat by lia. rewrite replicate_add, foldl_app.
  cbn [replicate foldl]. unfold Adaptive.spec_step at 1. cbn [Adaptive.mode].
  rewrite Adaptive.foldl_spec_outcomes. set (os := (Adaptive.outcomes sp ++ replicate (n - 20 + 19) true) ++ [true]).
  assert (exists l, os = l ++ replicate 20 true) as [l ->].
  { exists (Adaptive.outcomes sp ++ replicate (n - 20) true). unfold os. rewrite replicate_add.
    change (replicate 20 true) with (replicate 19 true ++ [true]). by rewrite !app_assoc. }
  replace (20 <=? _)%nat with true by (symmetry; apply Nat.leb_le; rewrite length_app, length_replicate; lia).
  unfold last_n. rewrite length_app, length_replicate. replace (length l + 20 - 20)%nat with (length l) by lia.
  rewrite drop_app_length. by destruct (Adaptive.mode _).
Qed.

Lemma ts_run_good tol sp n :
  ts_run (replicate n (Block true true true)) (Adaptive.abs tol sp)
  = Adaptive.abs tol (foldl Adaptive.spec_step sp (replicate n true)).
Proof.
  revert sp. induction n as [|n IH]; intros sp; [done|]. unfold ts_run in *. cbn [replicate foldl ts_exec andb].
  by rewrite Adaptive.observe_abs, IH.
Qed.

(** ** Properties *)

(** C31: The Rust switch is the TypeScript switch until a block is late or fails
    its integrity check, and in FULL ever after: over any history of fewer than
    2^32 calls its mode is that of the TypeScript switch fed the same blocks
    and resets when no check failed since the last reset, and FULL otherwise,
    whatever blocks follow.  The counter of failures is never cleared by good
    blocks. *)
Theorem rust_switch_vs_typescript tol otol l :
  Z.of_nat (length l) < 2 ^ 32 ->
  mode (run l (new tol))
  = if failed l then Full else of_ts (Adaptive.currentMode (ts_run l (Adaptive.make otol))).
Proof.
  intros Hl. pose proof (run_related tol otol l Hl) as H. cbv zeta in H.
  destruct (failed l); [by destruct H|]. by destruct H as (_ & H & _).
Qed.

(** A late block and any number of good ones: with twenty of them the
    TypeScript switch is in TURBO again, the Rust switch never is. *)
Lemma no_eventual_turbo tol otol n :
  (20 <= n)%nat -> Z.of_nat n + 1 < 2 ^ 32 ->
  let l := Block true false true :: replicate n (Block true true true) in
  mode (run l (new tol)) = Full /\ Adaptive.currentMode (ts_run l (Adaptive.make otol)) = Adaptive.TURBO.
Proof.
  intros Hn Hl l. split.
  - pose proof (run_related tol otol l) as H. cbv zeta in H.
    replace (failed l) with true in H; [apply H; unfold l; cbn [length]; rewrite length_replicate; lia|].
    unfold l, failed. cbn [foldl orb negb andb]. clear. by induction n.
  - change (ts_run l (Adaptive.make otol))
      with (ts_run (replicate n (Block true true true)) (Adaptive.observe false (Adaptive.make otol))).
    rewrite Adaptive.make_abs, Adaptive.observe_abs, ts_run_good. by apply good_blocks_turbo.
Qed.

Lemma rust_switch_vs_typescript_witness :
  mode (run (replicate 20 (Block true true true)) (new 200))
  = if failed (replicate 20 (Block true true true)) then Full
    else of_ts (Adaptive.currentMode (ts_run (replicate 20 (Block true true true)) (Adaptive.make None))).
Proof. apply (rust_switch_vs_typescript 200 None (replicate 20 (Block true true true))). vm_compute. reflexivity. Defined.

End Switch.

(** ** as_store.rs *)

Module Store.

Record Snapshot := {
  snap_ctx_id : string; snap_history : list bool; snap_mode : string; snap_fail_count : Z;
  snap_penalty_cooldown : Z; snap_tier_tolerance_ms : Z; snap_last_updated_ms : Z;
}.

Record t := { switches : gmap string Switch.t; snapshots : gmap string Snapshot; path : option string }.

Definition in_memory : t := {| switches := ∅; snapshots := ∅; path := None |}.
Definition with_path (p : string) : t := {| switches := ∅; snapshots := ∅; path := Some p |}.

(** The switch of a context, made with the tolerance of its first call. *)
Definition get_or_create (ctx : string) (tolerance : Z) (s : t) : Switch.t :=
  default (Switch.new tolerance) (switches s !! ctx).

(** [format!("{:?}", mode)] *)
Definition mode_text (m : Switch.AdaptiveMode) : string :=
  match m with Switch.Turbo => "Turbo" | Switch.Full => "Full" end.

Record call := { c_ctx : string; c_order : bool; c_time : bool; c_integrity : bool; c_tolerance : Z; c_now : Z }.

Definition block_of (c : call) : Switch.op := Switch.Block (c_order c) (c_time c) (c_integrity c).

Definition snapshot (c : call) (sw : Switch.t) : Snapshot :=
  {| snap_ctx_id := c_ctx c; snap_history := []; snap_mode := mode_text (Switch.mode sw);
     snap_fail_count := Switch.fail_count sw; snap_penalty_cooldown := Switch.penalty_cooldown sw;
     snap_tier_tolerance_ms := c_tolerance c; snap_last_updated_ms := c_now c |}.

Definition verify_and_persist (c : call) (s : t) : t * Switch.AdaptiveMode :=
  let sw := Switch.verify_block (c_order c) (c_time c) (c_integrity c) (get_or_create (c_ctx c) (c_tolerance c) s) in
  ({| switches := <[c_ctx c := sw]> (switches s); snapshots := <[c_ctx c := snapshot c sw]> (snapshots s);
      path := path s |}, Switch.mode sw).

Definition current_mode (ctx : string) (s : t) : Switch.AdaptiveMode :=
  default Switch.Full (Switch.mode <$> switches s !! ctx).

Definition all_snapshots (s : t) : list Snapshot := (map_to_list (snapshots s)).*2.

(** [flush_to_disk] writes the snapshots to the path, when there is one. *)
Definition flush_to_disk (s : t) : option (string * gmap string Snapshot) :=
  p ← path s; Some (p, snapshots s).

Definition run (l : list call) (s : t) : t := foldl (fun s c => (verify_and_persist c s).1) s l.

(** ** Specification: each context on its own *)

Definition calls_of (ctx : string) (l : list call) : list call := bfilter (fun c => bool_decide (c_ctx c = ctx)) l.

(** A switch with the tolerance of the first call, run on the blocks. *)
Definition alone (l : list call) : option Switch.t :=
  c ← head l; Some (Switch.run (block_of <$> l) (Switch.new (c_tolerance c))).

Lemma alone_snoc l c :
  alone (l ++ [c])
  = Some (Switch.verify_block (c_order c) (c_time c) (c_integrity c) (default (Switch.new (c_tolerance c)) (alone l))).
Proof.
  unfold alone, Switch.run. destruct l as [|d l]; [done|]. csimpl.
  by rewrite fmap_app, foldl_app.
Qed.

(** The store after a history of calls. *)
Definition tracks (l : list call) (s : t) : Prop :=
  forall ctx, switches s !! ctx = alone (calls_of ctx l)
    /\ snapshots s !! ctx = (c ← last (calls_of ctx l); sw ← alone (calls_of ctx l); Some (snapshot c sw)).

Lemma tracks_call l s c : tracks l s -> tracks (l ++ [c]) (verify_and_persist c s).1.
Proof.
  intros Hs ctx. destruct (Hs ctx) as [Hw Hn]. unfold calls_of. rewrite bfilter_app. cbn [bfilter].
  fold (calls_of ctx l). cbn [verify_and_persist fst switches snapshots].
  case_bool_decide as Hc; subst.
  - rewrite !lookup_insert_eq, alone_snoc, last_snoc. unfold get_or_create. by rewrite Hw.
  - rewrite app_nil_r, !lookup_insert_ne by done. done.
Qed.

Lemma run_tracks l p : tracks l (run l {| switches := ∅; snapshots := ∅; path := p |}).
Proof.
  induction l as [|c l IH] using rev_ind; [done|]. unfold run. rewrite foldl_app. cbn [foldl].
  by apply tracks_call.
Qed.

(** ** Properties *)

(** The store keeps the contexts apart: after any history of calls the mode
    of a context is the one a switch of its own would be in after that
    context's blocks, FULL when there were none, and what is written to disk
    says so: the snapshot of a context holds the mode, the failures and the
    cooldown of its switch after its last call. *)
Lemma store_contexts_independent l p ctx :
  let s := run l (with_path p) in
  current_mode ctx s = default Switch.Full (Switch.mode <$> alone (calls_of ctx l))
  /\ exists disk, flush_to_disk s = Some (p, disk)
     /\ disk !! ctx = (c ← last (calls_of ctx l); sw ← alone (calls_of ctx l); Some (snapshot c sw)).
Proof.
  intros s. destruct (run_tracks l (Some p) ctx) as [Hw Hn]. split.
  - unfold current_mode, s. by rewrite <- Hw.
  - exists (snapshots s). split; [|exact Hn].
    assert (path s = Some p) as Hp; [|by unfold flush_to_disk; rewrite Hp].
    unfold s, run. clear. change (Some p) with (path (with_path p)). generalize (with_path p).
    induction l as [|c l IH]; intros s0; [done|]. cbn [foldl]. by rewrite IH.
Qed.

End Store.
