(* ===== verification/RustPot.v ===== *)
(** * Proof-of-Time records of the Rust issuer
    (src/src/roughtime: grg_bridge.rs, pot_crypto.rs, no_std_verify.rs,
    quic_transport.rs and the frames of wire.rs)

    The issuer's side of the 175-byte frame that [PotFrame] and [PotVerifier]
    read in TypeScript: the signed payload, its signature, the two gates, the
    transport frames and the verification pipeline.  The file proves that the
    two languages agree on the frames, and where they do not.  The GRG
    commitment is an argument (its pipeline is not in the repository), Ed25519,
    keccak256 and HMAC-SHA256 are parameters. *)
From Stdlib Require Import ZArith Lia String Strings.Byte.
From stdpp Require Import base list numbers option strings gmap.
From S2P Require Import Prelude JSString Errors Bytes JSMap NonceCache PotFrame PotVerifier Rust.

(** ** grg_bridge.rs *)

Module Bridge.

Definition R_FLAG : Z := 1.

Definition TIER_TOLERANCE_MS : list (string * Z) :=
  [("T0_epoch"%string, 2000); ("T1_block"%string, 200); ("T2_slot"%string, 500); ("T3_micro"%string, 10)].

Definition build_grg_input_basic (payload : Buffer) : Buffer :=
  be_bytes 4 (u32 (Z.of_nat (length payload))) ++ payload.

Definition build_grg_input (payload chain_digest : Buffer) : Buffer :=
  be_bytes 4 (u32 (Z.of_nat (length payload))) ++ payload ++ chain_digest.

(** The first byte is [(version << 4) | (tier & 0x0F)], in eight bits. *)
Definition assemble_pot_payload (version tier source_cnt : Z) (r_flag : bool)
    (timestamp_ns confidence_ppm : Z) (nonce : Buffer) : Buffer :=
  let reserved := if r_flag then R_FLAG else 0 in
  [bofZ (Z.lor (Z.shiftl version 4 mod 256) (Z.land tier 15))] ++ [bofZ source_cnt] ++ [bofZ reserved]
  ++ be_bytes 8 timestamp_ns ++ be_bytes 4 confidence_ppm ++ nonce.

Definition prepare_grg_input_with_chain (timestamp_ns tier source_cnt : Z) (nonce : Buffer)
    (confidence_ppm : Z) (chain_digest : Buffer) : Buffer * Buffer :=
  let payload := assemble_pot_payload 1 tier source_cnt true timestamp_ns confidence_ppm nonce in
  (build_grg_input payload chain_digest, chain_digest).

(** [GrgInputWithChain] of mod.rs. *)
Record GrgInputWithChain := { gi_payload : Buffer; gi_chain_digest : Buffer }.
Definition to_grg_bytes (g : GrgInputWithChain) : Buffer :=
  be_bytes 4 (u32 (Z.of_nat (length (gi_payload g)))) ++ gi_payload g ++ gi_chain_digest g.

End Bridge.

(** ** pot_crypto.rs *)

Module PotCrypto.

(** ed25519-dalek, sha3 and hmac. *)
Class Crypto (Sk Vk : Type) := {
  verifying_key : Sk -> Vk;
  sign : Sk -> Buffer -> Buffer;
  verify_strictly : Vk -> Buffer -> Buffer -> bool;      (* vk.verify(msg, sig).is_ok() *)
  keccak256 : Buffer -> Buffer;
  hmac_sha256 : Buffer -> Buffer -> Buffer;              (* key, message *)
}.

Class CryptoLaws (Sk Vk : Type) `{Crypto Sk Vk} : Prop := {
  sign_length sk m : length (sign sk m) = 64%nat;
  sign_verifies sk m : verify_strictly (verifying_key sk) m (sign sk m) = true;
  hmac_length k m : length (hmac_sha256 k m) = 32%nat;
}.

Section Operations.
Context {Sk Vk : Type} `{Crypto Sk Vk}.

Definition sign_pot (sk : Sk) (payload grg_commitment : Buffer) : Buffer := sign sk (payload ++ grg_commitment).
Definition verify_pot (vk : Vk) (payload grg_commitment sig : Buffer) : bool :=
  verify_strictly vk (payload ++ grg_commitment) sig.

Definition derive_ctx_key (chain_id : Z) (pool_address : Buffer) : Buffer :=
  keccak256 (be_bytes 8 chain_id ++ pool_address).

Definition hmac_gate1_compute (ctx_key shard : Buffer) : Buffer := take 8 (hmac_sha256 ctx_key shard).

(** [computed.iter().zip(expected.iter()).all(|(a, b)| a == b)] *)
Definition all_equal (a b : Buffer) : bool := forallb (fun p => bool_decide (p.1 = p.2)) (zip a b).

Definition hmac_gate1_commitment (ctx_key grg_commitment : Buffer) : Buffer := hmac_gate1_compute ctx_key grg_commitment.

Definition hmac_gate1_verify (ctx_key shard expected_tag : Buffer) : bool :=
  all_equal (hmac_gate1_compute ctx_key shard) expected_tag.

End Operations.

(** [NonceStore]: a set that only grows. *)
Definition NonceStore : Type := gset (list Z).
Definition check_and_insert (nonce : Buffer) (s : NonceStore) : NonceStore * bool :=
  let n := bval <$> nonce in ({[n]} ∪ s, negb (bool_decide (n ∈ s))).

Lemma all_equal_spec a b : length a = length b -> all_equal a b = true <-> a = b.
Proof.
  revert b. induction a as [|x a IH]; intros [|y b] Hl; try done. cbn in Hl. unfold all_equal in *.
  cbn [zip forallb fst snd]. cbn. rewrite andb_true_iff, bool_decide_eq_true, IH by lia. naive_solver.
Qed.

(** A nonce is fresh once in the life of a store. *)
Lemma nonce_fresh_once l s nonce :
  (check_and_insert nonce s).2 = true ->
  (check_and_insert nonce (foldl (fun s n => (check_and_insert n s).1) (check_and_insert nonce s).1 l)).2 = false.
Proof.
  intros _. cbn [check_and_insert snd]. apply negb_false_iff, bool_decide_eq_true.
  assert ((bval <$> nonce) ∈ (check_and_insert nonce s).1) as Hin by (cbn; set_solver).
  revert Hin. generalize (check_and_insert nonce s).1. induction l as [|n l IH]; intros s0 Hin; [done|].
  cbn [foldl]. apply IH. cbn. set_solver.
Qed.

End PotCrypto.

(** ** no_std_verify.rs *)

Module NoStd.

Definition TIER_BY_INDEX : list (string * Z) :=
  [("T0_epoch"%string, 60000000000); ("T1_block"%string, 2000000000); ("T2_slot"%string, 12000000000);
   ("T3_micro"%string, 100000000); ("T_space"%string, 3000000000)].

Definition tier_index (tier : string) : nat :=
  if String.eqb tier "T0_epoch" then 0 else if String.eqb tier "T1_block" then 1
  else if String.eqb tier "T2_slot" then 2 else if String.eqb tier "T3_micro" then 3
  else if String.eqb tier "T_space" then 4 else 1.

Definition tier_name (index : Z) : string :=
  match Z.land index 15 with
  | 0 => "T0_epoch" | 1 => "T1_block" | 2 => "T2_slot" | 3 => "T3_micro" | 4 => "T_space" | _ => "T1_block"
  end%Z.

Definition tier_tolerance_ns (tier : string) : Z :=
  from_option snd 0 (TIER_BY_INDEX !! tier_index tier).

Inductive VerifyResult :=
| VOk | HmacFailed | Stale (delta_ns : Z) | ChainDigestMismatch | UnknownVersion | BindingKeyMismatch.

#[global] Instance VerifyResult_eq_dec : EqDecision VerifyResult.
Proof. solve_decision. Defined.

(** Version, tier, number of sources, R flag. *)
Definition parse_pot_header (bytes : Buffer) : option (Z * Z * Z * bool) :=
  match bytes with
  | b0 :: b1 :: b2 :: _ =>
      Some (Z.land (Z.shiftr (bval b0) 4) 15, Z.land (bval b0) 15, bval b1, negb (Z.land (bval b2) 1 =? 0))
  | _ => None
  end.

Definition check_recency (pot_ns submit_ns : Z) (tier : string) : VerifyResult :=
  let delta := saturating_sub submit_ns pot_ns in
  if tier_tolerance_ns tier <? delta then Stale delta else VOk.

Definition extract_timestamp_ns (bytes : Buffer) : option Z :=
  if (length bytes <? 11)%nat then None else Some (be_val (slice bytes 3 11)).

End NoStd.

(** ** The frames of wire.rs *)

Module Wire.

Definition parse_extended_pot_frame (bytes : Buffer) : option (Buffer * Buffer) :=
  if (length bytes <? 175)%nat then None else Some (slice bytes 0 32, slice bytes 32 175).

(** The frame is filled up with zeros, and cut nowhere. *)
Definition build_extended_pot_frame (binding_key pot_record : Buffer) : Buffer :=
  let buf := binding_key ++ pot_record in
  if (length buf <? 175)%nat then buf ++ zeros (175 - length buf) else buf.

(** *** The verification pipeline *)

Inductive VerifyStep : Set :=
| VersionCheck | BindingKeyCheck | HmacGate1 | Ed25519Verify | RecencyCheck | NonceFreshness.

Inductive VerifyError :=
| EUnknownVersion (got : Z) | EBindingKeyMismatch | EHmacFailed | ESignatureInvalid
| EStale (age_ms tolerance_ms : Z) | EReplayedNonce.

Record VerificationPipeline := {
  steps_passed : list VerifyStep;
  failed_at : option (VerifyStep * VerifyError);
  result_ : bool;
}.

Definition new : VerificationPipeline := {| steps_passed := []; failed_at := None; result_ := false |}.

Definition passed (st : VerifyStep) (p : VerificationPipeline) : VerificationPipeline :=
  {| steps_passed := steps_passed p ++ [st]; failed_at := failed_at p; result_ := result_ p |}.
Definition fails (st : VerifyStep) (e : VerifyError) (p : VerificationPipeline) : VerificationPipeline :=
  {| steps_passed := steps_passed p; failed_at := Some (st, e); result_ := result_ p |}.

(** The version check does not look at [failed_at]. *)
Definition check_version (version : Z) (p : VerificationPipeline) : VerificationPipeline :=
  if negb (version =? 1) then fails VersionCheck (EUnknownVersion version) p else passed VersionCheck p.

(** The others return early after a failure. *)
Definition check (st : VerifyStep) (e : VerifyError) (ok : bool) (p : VerificationPipeline) : VerificationPipeline :=
  match failed_at p with Some _ => p | None => if negb ok then fails st e p else passed st p end.

Definition check_binding_key (ok : bool) := check BindingKeyCheck EBindingKeyMismatch ok.
Definition check_hmac (ok : bool) := check HmacGate1 EHmacFailed ok.
Definition check_signature (ok : bool) := check Ed25519Verify ESignatureInvalid ok.
Definition check_recency (age_ms tolerance_ms : Z) :=
  check RecencyCheck (EStale age_ms tolerance_ms) (negb (tolerance_ms <? age_ms)).

Definition check_nonce (is_fresh : bool) (p : VerificationPipeline) : VerificationPipeline :=
  match failed_at p with
  | Some _ => p
  | None =>
      if negb is_fresh then fails NonceFreshness EReplayedNonce p
      else {| steps_passed := steps_passed p ++ [NonceFreshness]; failed_at := failed_at p; result_ := true |}
  end.

Inductive call :=
| Version (version : Z) | Binding (ok : bool) | Hmac (ok : bool) | Signature (ok : bool)
| Recency (age_ms tolerance_ms : Z) | Nonce (is_fresh : bool).

Definition exec (p : VerificationPipeline) (c : call) : VerificationPipeline :=
  match c with
  | Version v => check_version v p
  | Binding b => check_binding_key b p
  | Hmac b => check_hmac b p
  | Signature b => check_signature b p
  | Recency a t => check_recency a t p
  | Nonce b => check_nonce b p
  end.

Definition run (l : list call) (p : VerificationPipeline) : VerificationPipeline := foldl exec p l.

(** What a call checks. *)
Definition holds (c : call) : bool :=
  match c with
  | Version v => v =? 1
  | Binding b | Hmac b | Signature b | Nonce b => b
  | Recency a t => negb (t <? a)
  end.

Definition step_of (c : call) : VerifyStep :=
  match c with
  | Version _ => VersionCheck | Binding _ => BindingKeyCheck | Hmac _ => HmacGate1
  | Signature _ => Ed25519Verify | Recency _ _ => RecencyCheck | Nonce _ => NonceFreshness
  end.

Definition is_nonce (c : call) : bool := match c with Nonce _ => true | _ => false end.

End Wire.

(** ** Lemmas on the pipeline *)

Module Pipeline.
Import Wire.

Lemma exec_holds p c : failed_at p = None -> holds c = true ->
  exec p c = {| steps_passed := steps_passed p ++ [step_of c]; failed_at := None; result_ := result_ p || is_nonce c |}.
Proof.
  intros Hf Hc. destruct p as [st fa re]. cbn in Hf. subst fa.
  destruct c; cbn in Hc |- *; unfold check_version, check_nonce, check_binding_key, check_hmac, check_signature,
    check_recency, check; cbn; rewrite Hc; cbn; by rewrite ?orb_false_r, ?orb_true_r.
Qed.

Lemma run_holds l p : failed_at p = None -> Forall (fun c => holds c = true) l ->
  run l p = {| steps_passed := steps_passed p ++ (step_of <$> l); failed_at := None;
               result_ := result_ p || existsb is_nonce l |}.
Proof.
  intros Hf Hl. revert p Hf. induction Hl as [|c l Hc _ IH]; intros p Hf.
  - destruct p as [st fa re]. cbn in *. subst. by rewrite app_nil_r, orb_false_r.
  - change (run (c :: l) p) with (run l (exec p c)). rewrite exec_holds by done. rewrite IH by done. csimpl.
    by rewrite <- app_assoc, orb_assoc.
Qed.

(** A failure stays, and no later call makes the result true. *)
Lemma exec_failed p c : is_Some (failed_at p) ->
  is_Some (failed_at (exec p c)) /\ result_ (exec p c) = result_ p.
Proof.
  intros [x Hx]. destruct c as [v| | | | |]; cbn; unfold check_version, check_nonce, check_binding_key, check_hmac, check_signature,
    check_recency, check; rewrite ?Hx; [destruct (v =? 1)|..]; cbn; rewrite ?Hx; split; (by eexists) || done.
Qed.

Lemma run_failed l p : is_Some (failed_at p) ->
  is_Some (failed_at (run l p)) /\ result_ (run l p) = result_ p.
Proof.
  revert p. induction l as [|c l IH]; intros p Hp; [done|]. destruct (exec_failed p c Hp) as [H1 H2].
  destruct (IH _ H1) as [H3 H4]. split; [done|]. change (result_ (run l (exec p c)) = result_ p). congruence.
Qed.

Lemma exec_fails p c : failed_at p = None -> holds c = false ->
  (exists e, failed_at (exec p c) = Some (step_of c, e)) /\ result_ (exec p c) = result_ p
  /\ steps_passed (exec p c) = steps_passed p.
Proof.
  intros Hf Hc. destruct c; cbn in Hc |- *; unfold check_version, check_nonce, check_binding_key, check_hmac,
    check_signature, check_recency, check; rewrite ?Hf, ?Hc; cbn; rewrite ?Hf; cbn; split_and!; try done; by eexists.
Qed.

(** Every history splits at its first failing call. *)
Lemma first_failure l : Forall (fun c => holds c = true) l
  \/ exists l1 c l2, l = l1 ++ c :: l2 /\ Forall (fun c => holds c = true) l1 /\ holds c = false.
Proof.
  induction l as [|c l [IH|(l1 & d & l2 & -> & H1 & H2)]]; [by left| |].
  - destruct (holds c) eqn:E; [left; by constructor|right; by exists [], c, l].
  - destruct (holds c) eqn:E; [|right; by exists [], c, (l1 ++ d :: l2)].
    right. exists (c :: l1), d, l2. split_and!; [done|by constructor|done].
Qed.

Lemma pipeline_run_app l1 l2 p : run (l1 ++ l2) p = run l2 (run l1 p).
Proof. apply foldl_app. Qed.

(** The result after a first failure. *)
Lemma run_first_failure l1 c l2 :
  Forall (fun c => holds c = true) l1 -> holds c = false ->
  result_ (run (l1 ++ c :: l2) new) = existsb is_nonce l1.
Proof.
  intros H1 Hc. rewrite pipeline_run_app, (run_holds l1) by done. change (c :: l2) with ([c] ++ l2). rewrite pipeline_run_app.
  set (q := {| steps_passed := _ |}). destruct (exec_fails q c eq_refl Hc) as ([e He] & Hr & _).
  change (run [c] q) with (exec q c).
  destruct (run_failed l2 (exec q c)) as [_ ->]; [by rewrite He|]. by rewrite Hr.
Qed.

(** C32: The result of a pipeline is true exactly when its nonce check passed and
    every check called before it did: whatever the calls and their order, it
    says nothing of the steps that were not called, and a failure after the
    nonce check does not take it back.  In the documented order of the six
    steps the result is their conjunction, the steps passed are those before
    the first failure, and the failure is that step's. *)
Theorem pipeline_result l v b h s a t n :
  (result_ (run l new) = true
   <-> exists l1 l2, l = l1 ++ Nonce true :: l2 /\ Forall (fun c => holds c = true) l1)
  /\ let six := [Version v; Binding b; Hmac h; Signature s; Recency a t; Nonce n] in
     result_ (run six new) = forallb holds six
     /\ exists rest, (step_of <$> six) = steps_passed (run six new) ++ rest
        /\ fst <$> failed_at (run six new) = head rest.
Proof.
  split.
  - split.
    + intros Hr. destruct (first_failure l) as [Hall|(l1 & c & l2 & -> & H1 & Hc)].
      * rewrite run_holds in Hr by done. cbn in Hr. apply existsb_exists in Hr as (c & Hin & Hn).
        destruct c as [| | | | |[]]; try done.
        -- apply list_elem_of_In, list_elem_of_split in Hin as (l1 & l2 & ->). exists l1, l2. split; [done|].
           by apply Forall_app in Hall as [? _].
        -- exfalso. apply list_elem_of_In in Hin. by apply (proj1 (Forall_forall _ _) Hall) in Hin.
      * rewrite run_first_failure in Hr by done. apply existsb_exists in Hr as (d & Hin & Hn).
        apply list_elem_of_In in Hin. assert (holds d = true) as Hd by (by apply (proj1 (Forall_forall _ _) H1)).
        destruct d as [| | | | |[]]; try done. apply list_elem_of_split in Hin as (k1 & k2 & ->).
        exists k1, (k2 ++ c :: l2). rewrite <- app_assoc. split; [done|]. by apply Forall_app in H1 as [? _].
    + intros (l1 & l2 & -> & H1). destruct (first_failure l2) as [Hall|(k1 & c & k2 & -> & K1 & Kc)].
      * rewrite run_holds; [cbn; by rewrite existsb_app, orb_true_r|done|].
        apply Forall_app. split; [done|]. by constructor.
      * replace (l1 ++ Nonce true :: k1 ++ c :: k2) with ((l1 ++ Nonce true :: k1) ++ c :: k2)
          by (by rewrite <- app_assoc).
        rewrite run_first_failure; [by rewrite existsb_app, orb_true_r| |done].
        apply Forall_app. split; [done|]. by constructor.
  - intros six. cbn -[Z.eqb Z.ltb]. unfold check_version, check_nonce, check_binding_key, check_hmac,
      check_signature, check_recency, check.
    destruct (v =? 1), b, h, s, (t <? a), n; cbn; (split; [done|]); eexists; split; done.
Qed.

End Pipeline.

(** ** quic_transport.rs *)

Module Quic.

Definition TLS_EXPORTER_LABEL : string := "EXPORTER-tttps-pot-binding".
Definition BINDING_KEY_LEN : nat := 32.
Definition POT_FRAME_EXTENDED_BYTES : nat := 175.
Definition POT_FRAME_TYPE : Z := 0x4C4F5400.
Definition POT_QUIC_STREAM_TYPE : Z := 0x74.

Definition label_bytes : Buffer := ascii_bytes (js TLS_EXPORTER_LABEL).

Section Operations.
Context {Sk Vk : Type} `{PotCrypto.Crypto Sk Vk}.

(** An HMAC under the master secret, not the exporter of the TLS library. *)
Definition derive_binding_key (tls_master_secret pot_without_sig : Buffer) : Buffer :=
  take BINDING_KEY_LEN
    (PotCrypto.hmac_sha256 tls_master_secret
       (label_bytes ++ [Byte.x00] ++ be_bytes 4 (u32 (Z.of_nat (length pot_without_sig))) ++ pot_without_sig)).

Definition verify_binding_key (tls_master_secret pot_without_sig received : Buffer) : bool :=
  PotCrypto.all_equal (derive_binding_key tls_master_secret pot_without_sig) received.

Record PotFrameExtended := { binding_key : Buffer; pot_record : Buffer }.

Definition without_sig (pot_record : Buffer) : Buffer := take (length pot_record - 64) pot_record.

Definition build (tls_master_secret pot_record : Buffer) : PotFrameExtended :=
  {| binding_key := derive_binding_key tls_master_secret (without_sig pot_record); pot_record := pot_record |}.

Definition to_bytes (f : PotFrameExtended) : Buffer := binding_key f ++ pot_record f.

Definition from_bytes (bytes : Buffer) : option PotFrameExtended :=
  if (length bytes <? BINDING_KEY_LEN)%nat then None
  else Some {| binding_key := take BINDING_KEY_LEN bytes; pot_record := drop BINDING_KEY_LEN bytes |}.

Definition verify (tls_master_secret : Buffer) (f : PotFrameExtended) : bool :=
  verify_binding_key tls_master_secret (without_sig (pot_record f)) (binding_key f).

Lemma length_binding_key `{!PotCrypto.CryptoLaws Sk Vk} secret w :
  length (derive_binding_key secret w) = BINDING_KEY_LEN.
Proof. unfold derive_binding_key. by rewrite length_take, PotCrypto.hmac_length. Qed.

(** A frame built in a session survives the wire and verifies in that session. *)
Lemma extended_frame_roundtrip `{!PotCrypto.CryptoLaws Sk Vk} secret rec :
  from_bytes (to_bytes (build secret rec)) = Some (build secret rec) /\ verify secret (build secret rec) = true.
Proof.
  pose proof (length_binding_key secret (without_sig rec)) as Hl.
  split; [|by apply PotCrypto.all_equal_spec].
  unfold from_bytes, to_bytes, build. cbn [binding_key pot_record]. rewrite length_app, Hl.
  unfold BINDING_KEY_LEN in *. cbn [Nat.add Nat.ltb Nat.leb].
  by rewrite <- Hl, take_app_length, drop_app_length.
Qed.

End Operations.

Record PotQuicFrame := { stream_type : Z; payload_len : Z; r_flag : bool; payload : Buffer }.

Definition new_frame (payload : Buffer) (r_flag : bool) : PotQuicFrame :=
  {| stream_type := POT_QUIC_STREAM_TYPE; payload_len := u32 (Z.of_nat (length payload)); r_flag := r_flag;
     payload := payload |}.

Definition frame_to_bytes (f : PotQuicFrame) : Buffer :=
  [bofZ (stream_type f)] ++ be_bytes 4 (payload_len f) ++ [if r_flag f then Byte.x01 else Byte.x00] ++ payload f.

Definition frame_from_bytes (bytes : Buffer) : option PotQuicFrame :=
  if (length bytes <? 6)%nat then None
  else
    let n := be_val (slice bytes 1 5) in
    if Z.of_nat (length bytes) <? 6 + n then None
    else Some {| stream_type := be_val (slice bytes 0 1); payload_len := n;
                 r_flag := bool_decide (slice bytes 5 6 = [Byte.x01]);
                 payload := slice bytes 6 (6 + Z.to_nat n) |}.

(** QUIC frames round-trip, whatever follows them in the stream. *)
Lemma quic_frame_roundtrip p r tail :
  Z.of_nat (length p) < 2 ^ 32 -> frame_from_bytes (frame_to_bytes (new_frame p r) ++ tail) = Some (new_frame p r).
Proof.
  intros Hp. unfold new_frame, frame_to_bytes. cbn [stream_type payload_len r_flag payload].
  unfold u32. rewrite Z.mod_small by lia.
  set (b := [bofZ POT_QUIC_STREAM_TYPE]). set (n4 := be_bytes 4 _). set (f := [if r then _ else _]).
  assert (length n4 = 4%nat) as H4 by apply length_be_bytes.
  unfold frame_from_bytes. rewrite <- !app_assoc.
  assert (slice (b ++ n4 ++ f ++ p ++ tail) 1 5 = n4) as -> by (apply slice_middle; cbn; lia).
  assert (be_val n4 = Z.of_nat (length p)) as -> by (apply be_val_u32; lia).
  assert (length (b ++ n4 ++ f ++ p ++ tail) = 6 + length p + length tail)%nat as ->
    by (rewrite !length_app, H4; cbn; lia).
  replace (_ <? 6)%nat with false by (symmetry; apply Nat.ltb_ge; lia).
  replace (_ <? _) with false by (symmetry; apply Z.ltb_ge; lia).
  rewrite Nat2Z.id. f_equal. f_equal.
  - assert (slice ((b ++ n4) ++ f ++ p ++ tail) 5 6 = f) as E by (apply slice_middle; rewrite length_app, H4; done).
    rewrite <- app_assoc in E. rewrite E. unfold f. by destruct r.
  - assert (slice ((b ++ n4 ++ f) ++ p ++ tail) 6 (6 + length p) = p) as E
      by (apply slice_middle; rewrite !length_app, H4; done).
    by rewrite <- !app_assoc in E.
Qed.

(** [PotAckFrame::to_bytes] *)
Definition ack_to_bytes (stream_id mode : Z) : Buffer := be_bytes 8 stream_id ++ [bofZ mode].

Record PotHttp3Frame := { frame_type : Z; body : Buffer }.
Definition new_extended (f : PotFrameExtended) : PotHttp3Frame := {| frame_type := POT_FRAME_TYPE; body := to_bytes f |}.
Definition is_extended (f : PotHttp3Frame) : bool := (length (body f) =? POT_FRAME_EXTENDED_BYTES)%nat.

End Quic.

(** ** The two languages on one frame *)

Module Interop.

(** The first byte of a payload. *)
Lemma header_byte v t : 0 <= v < 16 -> 0 <= t < 16 ->
  Z.lor (Z.shiftl v 4 mod 256) (Z.land t 15) = 16 * v + t.
Proof.
  intros Hv Ht.
  assert (forallb (fun v => forallb (fun t =>
    Z.lor (Z.shiftl (Z.of_nat v) 4 mod 256) (Z.land (Z.of_nat t) 15) =? 16 * Z.of_nat v + Z.of_nat t) (seq 0 16)) (seq 0 16) = true)
    as H by (vm_compute; reflexivity).
  rewrite forallb_forall in H. specialize (H (Z.to_nat v) ltac:(apply in_seq; lia)).
  rewrite forallb_forall in H. specialize (H (Z.to_nat t) ltac:(apply in_seq; lia)).
  rewrite !Z2Nat.id in H by lia. by apply Z.eqb_eq in H.
Qed.

Definition reserved_byte (r : bool) : Z := if r then Bridge.R_FLAG else 0.

(** A payload, its commitment and its signature are a record of the layout the
    TypeScript decoder reads. *)
Lemma payload_record v t n r ts conf nonce grg sig : 0 <= v < 16 -> 0 <= t < 16 ->
  Bridge.assemble_pot_payload v t n r ts conf nonce ++ grg ++ sig
  = record_bytes v t n (reserved_byte r) ts conf nonce grg sig.
Proof.
  intros Hv Ht. unfold Bridge.assemble_pot_payload, record_bytes. rewrite header_byte by done.
  by rewrite <- !app_assoc.
Qed.

Lemma length_payload v t n r ts conf nonce :
  length nonce = 32%nat -> length (Bridge.assemble_pot_payload v t n r ts conf nonce) = 47%nat.
Proof. intros H. unfold Bridge.assemble_pot_payload. rewrite !length_app, !length_be_bytes. cbn. lia. Qed.

(** The Rust frame builder is the TypeScript encoder, the parsers agree. *)
Lemma build_is_encode bk rec : length bk = 32%nat -> length rec = 143%nat ->
  encodePotFrame bk rec = Ok (Wire.build_extended_pot_frame bk rec)
  /\ Wire.parse_extended_pot_frame (Wire.build_extended_pot_frame bk rec) = Some (bk, rec).
Proof.
  intros H1 H2. assert (Wire.build_extended_pot_frame bk rec = bk ++ rec) as ->
    by (unfold Wire.build_extended_pot_frame; by rewrite length_app, H1, H2).
  split; [by apply encode_ok|]. unfold Wire.parse_extended_pot_frame. rewrite length_app, H1, H2.
  cbn [Nat.add Nat.ltb Nat.leb]. f_equal. f_equal.
  - apply (slice_middle [] bk rec); cbn; lia.
  - rewrite <- (app_nil_r (bk ++ rec)), <- app_assoc. apply slice_middle; lia.
Qed.

Section Issue.
Context {Sk Vk : Type} `{CL : PotCrypto.CryptoLaws Sk Vk}.
(** Node's [crypto.verify] on the DER form of a dalek key: both are Ed25519. *)
Variable node_verify : Buffer -> Buffer -> Buffer -> res bool.
Variable spki : Vk -> Buffer.
Hypothesis node_agrees : forall vk m s,
  length s = 64%nat -> node_verify (spki vk) m s = Ok (PotCrypto.verify_strictly vk m s).

(** A 143-byte record of a payload, its commitment and its signature, in the
    layout [PotFrameExtended::build] and the TypeScript decoder split: the
    signature is the last 64 bytes, the context of the binding key the others. *)
Lemma issued_record sk tier n r ts conf nonce grg :
  length nonce = 32%nat -> length grg = 32%nat ->
  let payload := Bridge.assemble_pot_payload 1 tier n r ts conf nonce in
  let rec := payload ++ grg ++ PotCrypto.sign_pot sk payload grg in
  length rec = 143%nat /\ take 79 rec = payload ++ grg /\ Quic.without_sig rec = payload ++ grg.
Proof.
  intros Hn Hg payload rec. assert (length payload = 47%nat) as Hp by (by apply length_payload).
  assert (length (PotCrypto.sign_pot sk payload grg) = 64%nat) as Hs by apply PotCrypto.sign_length.
  assert (length rec = 143%nat) as Hr by (unfold rec; rewrite !length_app; lia).
  assert (take 79 rec = payload ++ grg) as Ht.
  { unfold rec. rewrite app_assoc. replace 79%nat with (length (payload ++ grg)) by (rewrite length_app; lia).
    apply take_app_length. }
  split_and!; [done|done|]. unfold Quic.without_sig. by rewrite Hr.
Qed.

(** What TypeScript decodes of a bound record. *)
Lemma issued_frame_decodes sk bk tier n r ts conf nonce grg :
  let payload := Bridge.assemble_pot_payload 1 tier n r ts conf nonce in
  let rec := payload ++ grg ++ PotCrypto.sign_pot sk payload grg in
  length bk = 32%nat ->
  0 <= tier < 16 -> 0 <= ts < 2 ^ 64 -> 0 <= conf < 2 ^ 32 -> length nonce = 32%nat -> length grg = 32%nat ->
  length (bk ++ rec) = 175%nat
  /\ exists f, decodePotFrame (bk ++ rec) = Ok f /\ pf_version f = 1 /\ pf_tier f = tier
     /\ pf_reserved f = reserved_byte r /\ pf_timestamp f = ts /\ pf_confidence f = conf /\ pf_nonce f = nonce
     /\ pf_grgCommit f = grg /\ pf_ed25519Sig f = PotCrypto.sign sk (payload ++ grg) /\ pf_bindingKey f = bk
     /\ take 79 (pf_potRecord f) = payload ++ grg.
Proof.
  intros payload rec Hbk Ht Hts Hc Hn Hg.
  destruct (issued_record sk tier n r ts conf nonce grg Hn Hg) as (Hr & H79 & _). fold payload rec in Hr, H79.
  split; [by rewrite length_app, Hbk, Hr|].
  destruct (decode_parts _ rec Hbk Hr) as (f & E & E1 & E2 & Ev & Et & Er & Ets & Ec & En & Eg & Es).
  exists f. rewrite E.
  assert (rec = record_bytes 1 tier n (reserved_byte r) ts conf nonce grg (PotCrypto.sign_pot sk payload grg)) as Erec
    by (apply payload_record; lia).
  destruct (record_fields 1 tier n (reserved_byte r) ts conf nonce grg (PotCrypto.sign_pot sk payload grg))
    as (F1 & F2 & F3 & F4 & F5 & F6 & F7);
    try done; [by destruct r|apply PotCrypto.sign_length|]. rewrite <- Erec in F1, F2, F3, F4, F5, F6, F7.
  rewrite F1 in Ev, Et. destruct (nibbles 1 tier ltac:(lia) Ht) as [N1 N2]. rewrite N1 in Ev. rewrite N2 in Et.
  split_and!; try congruence. by rewrite Es, F7.
Qed.

Context {C : Type} `{NonceCacheLaws C}.

(** C11: A frame of the Rust crate (payload, commitment and signature by
    [assemble_pot_payload] and [sign_pot], bound and serialized by
    [PotFrameExtended]) in TypeScript.  It decodes to every field the issuer
    put in; but the crate binds it with an HMAC of the TLS master secret, so
    [PotVerifier.verify] accepts it exactly when Node's exporter on that
    session happens to answer this HMAC, and the frame is in its tier's window
    with an unseen nonce: where the two keys differ every frame is refused,
    although the crate's own check of the same bytes passes.  And
    [validatePotFrameStructure] refuses every frame with the R flag, which the
    issuer sets whenever it has a Roughtime chain, and the tiers above 3. *)
Theorem rust_frame_in_typescript sk secret socket tier n r ts conf nonce grg now h a1 a2 (c : C) :
  0 <= tier < 16 -> 0 <= ts < 2 ^ 64 -> 0 <= conf < 2 ^ 32 -> length nonce = 32%nat -> length grg = 32%nat ->
  let payload := Bridge.assemble_pot_payload 1 tier n r ts conf nonce in
  let rec := payload ++ grg ++ PotCrypto.sign_pot sk payload grg in
  let frame := Quic.to_bytes (Quic.build secret rec) in
  (exists f, decodePotFrame frame = Ok f /\ pf_version f = 1 /\ pf_tier f = tier /\ pf_timestamp f = ts
     /\ pf_confidence f = conf /\ pf_nonce f = nonce /\ pf_grgCommit f = grg)
  /\ (exists x, Quic.from_bytes frame = Some x /\ Quic.verify secret x = true
      /\ PotCrypto.verify_pot (PotCrypto.verifying_key sk) payload grg (drop 79 (Quic.pot_record x)) = true)
  /\ (accepts (verify node_verify (spki (PotCrypto.verifying_key sk)) socket frame now h a1 a2 c).2 = true
      <-> encrypted socket = true
          /\ exportKeyingMaterial socket 32 TTTPS_EXPORTER_LABEL (payload ++ grg)
             = Quic.derive_binding_key secret (payload ++ grg)
          /\ now - ts / 1000000 <= tier_tolerance tier /\ ~ nc_live h (to_hex nonce) c)
  /\ validatePotFrameStructure frame
     = (if negb r && (tier <=? 3) then Ok tt else Throw PotFrameError).
Proof.
  intros Ht Hts Hc Hn Hg payload rec frame.
  destruct (issued_record sk tier n r ts conf nonce grg Hn Hg) as (Hr & H79 & Hw). fold payload rec in Hr, H79, Hw.
  assert (frame = Quic.derive_binding_key secret (payload ++ grg) ++ rec) as Ef
    by (unfold frame, Quic.to_bytes, Quic.build; cbn [Quic.binding_key Quic.pot_record]; by rewrite Hw).
  destruct (issued_frame_decodes sk (Quic.derive_binding_key secret (payload ++ grg)) tier n r ts conf nonce grg
    (Quic.length_binding_key _ _) Ht Hts Hc Hn Hg) as (Hl & f & E & E1 & E2 & E3 & E4 & E5 & E6 & E7 & E8 & E9 & E10).
  fold payload rec in Hl, E, E8, E10. rewrite <- Ef in Hl, E. split_and!.
  - exists f. by split_and!.
  - destruct (Quic.extended_frame_roundtrip secret rec) as [Hx Hv]. exists (Quic.build secret rec).
    split_and!; [done|done|]. cbn [Quic.build Quic.pot_record]. unfold rec. rewrite app_assoc, drop_app_length'.
    + apply PotCrypto.sign_verifies.
    + rewrite length_app, Hg. unfold payload. by rewrite length_payload.
  - rewrite verify_accepts, <- nc_has_spec, not_true_iff_false. split.
    + intros (f' & (Ef' & _ & Henc & Hexp & _) & Hlat & Hnew). rewrite E in Ef'. injection Ef' as <-.
      rewrite E10, E9 in Hexp. rewrite E2 in Hlat. unfold pot_ms in Hlat. rewrite E4 in Hlat. by rewrite E6 in Hnew.
    + intros (Henc & Hexp & Hlat & Hnew). exists f. unfold pot_ms. rewrite E2, E4, E6. split_and!; [|done|done].
      unfold authentic. rewrite E10, E8, E9. split_and!; try done.
      rewrite node_agrees by apply PotCrypto.sign_length. by rewrite PotCrypto.sign_verifies.
  - unfold validatePotFrameStructure. rewrite Hl, E. cbn [Nat.eqb POT_FRAME_SIZE negb mbind result_bind].
    rewrite E1, E2, E3. cbn [Z.eqb Pos.eqb negb].
    destruct (Z.ltb_spec 3 tier), (Z.leb_spec tier 3); try lia; destruct r; done.
Qed.

End Issue.

(** The recency gates in nanoseconds and in milliseconds. *)
Lemma window_ms_ns ts ms k : 0 <= ts -> 0 <= k ->
  (k * 1000000 <? saturating_sub (ms * 1000000) ts) = (k <? ms - ts / 1000000).
Proof.
  intros Hts Hk. unfold saturating_sub. apply eq_true_iff_eq. rewrite !Z.ltb_lt.
  pose proof (Z.div_mod ts 1000000 ltac:(lia)). pose proof (Z.mod_pos_bound ts 1000000 ltac:(lia)). lia.
Qed.

Definition tolerance_ms (tier : Z) : Z := if tier =? 4 then 3000 else tier_tolerance tier.

Lemma tier_tolerance_ports tier : 0 <= tier < 16 ->
  NoStd.tier_tolerance_ns (NoStd.tier_name tier) = tolerance_ms tier * 1000000.
Proof.
  intros H. assert (forallb (fun t => NoStd.tier_tolerance_ns (NoStd.tier_name (Z.of_nat t))
    =? tolerance_ms (Z.of_nat t) * 1000000) (seq 0 16) = true) as Hc by (vm_compute; reflexivity).
  rewrite forallb_forall in Hc. specialize (Hc (Z.to_nat tier) ltac:(apply in_seq; lia)).
  rewrite Z2Nat.id in Hc by lia. by apply Z.eqb_eq in Hc.
Qed.

Lemma land_1_odd z : negb (Z.land z 1 =? 0) = Z.odd z.
Proof.
  change 1 with (Z.ones 1) at 1. rewrite Z.land_ones by lia. change (2 ^ 1) with 2.
  rewrite Zmod_odd. by destruct (Z.odd z).
Qed.

Lemma be_val_1 b : be_val [b] = bval b.
Proof. unfold be_val. cbn [reverse rev_append le_val]. apply Z.add_0_r. Qed.

(** C13: The embedded readers of the Rust crate and the TypeScript decoder agree on
    every frame: same binding key and record, same version, tier, flag and
    timestamp; and the recency gates, one in nanoseconds and saturating, the
    other in milliseconds, let the same frames pass in every tier but T_space,
    which Rust gives 3 s and TypeScript, that does not know it, 2 s. *)
Theorem frame_readers_agree frame f submit_ms :
  decodePotFrame frame = Ok f ->
  Wire.parse_extended_pot_frame frame = Some (pf_bindingKey f, pf_potRecord f)
  /\ (exists n, NoStd.parse_pot_header (pf_potRecord f) = Some (pf_version f, pf_tier f, n, Z.odd (pf_reserved f)))
  /\ NoStd.extract_timestamp_ns (pf_potRecord f) = Some (pf_timestamp f)
  /\ (NoStd.check_recency (pf_timestamp f) (submit_ms * 1000000) (NoStd.tier_name (pf_tier f)) = NoStd.VOk
      <-> submit_ms - pot_ms f <= tolerance_ms (pf_tier f)).
Proof.
  intros E. destruct (frame_split frame (decode_length _ _ E)) as (bk & rec & -> & H1 & H2).
  destruct (decode_parts bk rec H1 H2) as (f' & E' & E1 & E2 & Ev & Et & Er & Ets & _).
  rewrite E in E'. injection E' as <-. rewrite E1, E2.
  assert (0 <= pf_tier f < 16) as Ht.
  { rewrite Et. change 15 with (Z.ones 4). rewrite Z.land_ones by lia. apply Z.mod_pos_bound. lia. }
  assert (0 <= pf_timestamp f) as Hts by (rewrite Ets; apply be_val_range).
  assert (0 <= tolerance_ms (pf_tier f)) as Hk.
  { unfold tolerance_ms, tier_tolerance, TTTPS_TIER_TOLERANCE_MS. repeat case_match; cbn; lia. }
  split_and!.
  - rewrite <- (proj2 (build_is_encode bk rec H1 H2)). f_equal. unfold Wire.build_extended_pot_frame.
    by rewrite length_app, H1, H2.
  - destruct rec as [|b0 [|b1 [|b2 rec]]]; try done. exists (bval b1). cbn [NoStd.parse_pot_header].
    rewrite Ev, Et, Er, land_1_odd. cbn [take drop]. by rewrite !be_val_1.
  - unfold NoStd.extract_timestamp_ns. rewrite H2. cbn [Nat.ltb Nat.leb]. by rewrite Ets.
  - unfold NoStd.check_recency. rewrite tier_tolerance_ports, window_ms_ns by done. fold (pot_ms f).
    destruct (Z.ltb_spec (tolerance_ms (pf_tier f)) (submit_ms - pot_ms f)); split; done || lia.
Qed.

(** ** Witnesses *)

(** Toy operations: a signature is the key repeated, hashes are constant. *)
#[local] Instance ex_ops : PotCrypto.Crypto byte byte := {|
  PotCrypto.verifying_key k := k; PotCrypto.sign k _ := replicate 64 k;
  PotCrypto.verify_strictly k _ s := bool_decide (s = replicate 64 k);
  PotCrypto.keccak256 _ := zeros 32; PotCrypto.hmac_sha256 _ _ := zeros 32 |}.

#[local] Instance ex_ops_laws : PotCrypto.CryptoLaws byte byte.
Proof. split; intros; cbn -[replicate]; [apply length_replicate|by apply bool_decide_eq_true|apply length_replicate]. Qed.

Definition ex_node : Buffer -> Buffer -> Buffer -> res bool :=
  fun key _ s => match key with [k] => Ok (bool_decide (s = replicate 64 k)) | _ => Throw TypeError end.

(** A session whose exporter answers the toy HMAC, and one whose exporter does
    not ([ex_socket]). *)
Definition ex_same_socket : TLSSocket :=
  {| encrypted := true; exportKeyingMaterial := fun n _ _ => zeros n |}.

Lemma rust_frame_in_typescript_witness :
  let payload := Bridge.assemble_pot_payload 1 2 3 true 1710412800123456789 999000 (zeros 32) in
  let rec := payload ++ replicate 32 Byte.x07 ++ PotCrypto.sign_pot Byte.x05 payload (replicate 32 Byte.x07) in
  let frame := Quic.to_bytes (Quic.build (zeros 48) rec) in
  accepts (verify ex_node [Byte.x05] ex_same_socket frame 1710412801000 0 0 0 ex_cache).2 = true
  /\ accepts (verify ex_node [Byte.x05] ex_socket frame 1710412801000 0 0 0 ex_cache).2 = false
  /\ validatePotFrameStructure frame = Throw PotFrameError.
Proof.
  assert (forall vk m s, length s = 64%nat ->
    ex_node [vk] m s = Ok (PotCrypto.verify_strictly (Crypto := ex_ops) vk m s)) as Hnode by (intros; reflexivity).
  pose proof (fun socket => rust_frame_in_typescript ex_node (fun k : byte => [k]) Hnode Byte.x05 (zeros 48) socket 2 3 true
    1710412800123456789 999000 (zeros 32) (replicate 32 Byte.x07) 1710412801000 0 0 0 ex_cache
    ltac:(lia) ltac:(lia) ltac:(lia) eq_refl eq_refl) as Hthm.
  split_and!.
  - apply (Hthm ex_same_socket). split_and!; [reflexivity|vm_compute; reflexivity|vm_compute; discriminate|].
    intros (x & Hx & _). discriminate Hx.
  - apply not_true_iff_false. intros Ha. apply (Hthm ex_socket) in Ha as (_ & Hx & _). vm_compute in Hx. discriminate Hx.
  - apply (Hthm ex_socket).
Defined.

Lemma frame_readers_agree_witness :
  NoStd.extract_timestamp_ns (pf_potRecord ex_parsed) = Some (pf_timestamp ex_parsed).
Proof. apply (frame_readers_agree ex_frame ex_parsed 1710412801000). exact ex_parsed_ok. Defined.

End Interop.
