(* ===== verification/FiloQueue.v ===== *)
(** * The FILO queue (src/src/roughtime/filo_queue.rs)

    Proofs of Time that passed both gates wait in a heap ordered by the time
    they were generated, newest first.  The heap is the standard library's
    [BinaryHeap]: a class of its operations with the laws its documentation
    gives, which leave the order of equal times open, and an instance on lists.
    The queue's capacity bounds nothing: a full queue still takes every entry
    that is newer than its oldest. *)
From Stdlib Require Import ZArith Lia String Sorting.Sorted.
From stdpp Require Import base list numbers option strings sorting.
From S2P Require Import Prelude Bytes Rust.

(** ** BinaryHeap *)

Class BinaryHeap (H A : Type) := {
  heap_new : H;
  heap_push : A -> H -> H;
  heap_pop : H -> option (A * H);
  heap_items : H -> list A;              (* heap.iter(), in some order *)
}.

Class BinaryHeapLaws (H A : Type) (key : A -> Z) `{BinaryHeap H A} : Prop := {
  items_new : heap_items heap_new = [];
  items_push a h : heap_items (heap_push a h) ≡ₚ a :: heap_items h;
  items_pop_None h : heap_pop h = None -> heap_items h = [];
  items_pop_Some h a h' : heap_pop h = Some (a, h') ->
    heap_items h ≡ₚ a :: heap_items h' /\ Forall (fun x => key x <= key a) (heap_items h);
}.

(** A list, whose greatest elements leave in the order they came. *)
Module ListHeap.
Section Heap.
Context {A : Type} (key : A -> Z).

Fixpoint take_max (x : A) (l : list A) : A * list A :=
  match l with
  | [] => (x, [])
  | y :: l' => let '(m, r) := take_max y l' in if key m <=? key x then (x, m :: r) else (m, x :: r)
  end.

Definition pop (h : list A) : option (A * list A) :=
  match h with [] => None | x :: l => Some (take_max x l) end.

#[export] Instance list_heap : BinaryHeap (list A) A := {|
  heap_new := []; heap_push a h := h ++ [a]; heap_pop := pop; heap_items h := h |}.

Lemma take_max_spec x l : x :: l ≡ₚ (take_max x l).1 :: (take_max x l).2
  /\ Forall (fun y => key y <= key (take_max x l).1) (x :: l).
Proof.
  revert x. induction l as [|y l IH]; intros x; [split; [done|by repeat constructor]|].
  destruct (IH y) as [Hp Hm]. cbn [take_max]. destruct (take_max y l) as [m r]. cbn [fst snd] in *.
  destruct (Z.leb_spec (key m) (key x)) as [Hle|Hgt]; cbn [fst snd].
  - split; [by rewrite Hp|]. constructor; [lia|]. eapply Forall_impl; [exact Hm|]. cbn. lia.
  - split; [rewrite Hp; by apply Permutation_swap|]. constructor; [lia|done].
Qed.

#[export] Instance list_heap_laws : BinaryHeapLaws (list A) A key.
Proof.
  split; cbn.
  - done.
  - intros a h. by rewrite Permutation_app_comm.
  - by intros [|x h].
  - intros [|x l] a h' Hp; [done|]. injection Hp as Hp. destruct (take_max_spec x l) as [H1 H2].
    rewrite Hp in H1, H2. done.
Qed.
End Heap.
End ListHeap.

(** ** The queue *)

Record PotQueueEntry := {
  timestamp_ns : Z; ctx_id : string; pot_bytes : Buffer; grg_commitment : Buffer; entry_mode : Z; submitted_ns : Z;
}.

Module Filo.
Section Queue.
Context {H : Type} `{HL : BinaryHeapLaws H PotQueueEntry timestamp_ns}.

Record t := { heap : H; capacity : nat }.

Definition new (capacity : nat) : t := {| heap := heap_new; capacity := capacity |}.
Definition items (q : t) : list PotQueueEntry := heap_items (heap q).
Definition len (q : t) : nat := length (items q).

(** [iter().map(|e| e.timestamp_ns).min().unwrap_or(0)] *)
Definition min_timestamp (l : list PotQueueEntry) : Z :=
  match timestamp_ns <$> l with [] => 0 | x :: l' => foldl Z.min x l' end.

Definition push (e : PotQueueEntry) (q : t) : t * bool :=
  let pushed := {| heap := heap_push e (heap q); capacity := capacity q |} in
  if (capacity q <=? len q)%nat
  then if timestamp_ns e <=? min_timestamp (items q) then (q, false) else (pushed, true)
  else (pushed, true).

Definition pop_newest (q : t) : t * option PotQueueEntry :=
  match heap_pop (heap q) with
  | Some (e, h) => ({| heap := h; capacity := capacity q |}, Some e)
  | None => (q, None)
  end.

Definition peek_newest (q : t) : option PotQueueEntry := fst <$> heap_pop (heap q).
Definition is_empty (q : t) : bool := (len q =? 0)%nat.

(** The loop of [drain_newer_than] pops at most all items. *)
Fixpoint drain (n : nat) (cutoff_ns : Z) (q : t) : t * list PotQueueEntry :=
  match n with
  | O => (q, [])
  | S n' =>
      match peek_newest q with
      | None => (q, [])
      | Some e =>
          if cutoff_ns <=? timestamp_ns e
          then let '(q', _) := pop_newest q in
               let '(q'', out) := drain n' cutoff_ns q' in (q'', e :: out)
          else (q, [])
      end
  end.
Definition drain_newer_than (cutoff_ns : Z) (q : t) : t * list PotQueueEntry := drain (len q) cutoff_ns q.

(** ** Lemmas *)

Definition newer (x y : PotQueueEntry) : Prop := timestamp_ns y <= timestamp_ns x.

(** An entry is no newer than the oldest exactly when no entry is older. *)
Lemma min_timestamp_spec e l : l <> [] ->
  timestamp_ns e <= min_timestamp l <-> Forall (fun x => timestamp_ns e <= timestamp_ns x) l.
Proof.
  destruct l as [|x l]; [done|]. intros _. unfold min_timestamp. csimpl.
  destruct (foldl_min_spec (timestamp_ns x) (timestamp_ns <$> l)) as [H1 H2]. split.
  - intros He. apply Forall_forall. intros y Hy.
    specialize (H1 (timestamp_ns y) (list_elem_of_fmap_2 timestamp_ns (x :: l) y Hy)). lia.
  - intros Hl. apply (list_elem_of_fmap timestamp_ns (x :: l)) in H2 as (y & -> & Hy).
    by apply (proj1 (Forall_forall _ _) Hl).
Qed.

Lemma push_spec e q :
  let '(q', ok) := push e q in
  capacity q' = capacity q
  /\ (if ok then items q' ≡ₚ e :: items q else q' = q /\ (capacity q <= len q)%nat
      /\ Forall (fun x => timestamp_ns e <= timestamp_ns x) (items q))
  /\ ((capacity q <= len q)%nat -> items q <> [] ->
      Forall (fun x => timestamp_ns e <= timestamp_ns x) (items q) -> ok = false).
Proof.
  unfold push. destruct (Nat.leb_spec (capacity q) (len q)) as [Hc|Hc].
  - destruct (Z.leb_spec (timestamp_ns e) (min_timestamp (items q))) as [Hm|Hm].
    + split_and!; try done. destruct (items q) as [|x l] eqn:E; [constructor|].
      by apply min_timestamp_spec.
    + split_and!; [done|apply items_push|]. intros _ Hn Hf.
      apply min_timestamp_spec in Hf; [lia|done].
  - split_and!; [done|apply items_push|]. intros Hx. unfold len in *. lia.
Qed.

Lemma pop_spec q :
  match pop_newest q with
  | (q', Some e) => items q ≡ₚ e :: items q' /\ Forall (newer e) (items q) /\ capacity q' = capacity q
  | (q', None) => q' = q /\ items q = []
  end.
Proof.
  unfold pop_newest, items. destruct (heap_pop (heap q)) as [[e h]|] eqn:E.
  - destruct (items_pop_Some _ _ _ E) as [Hp Hm]. by split_and!.
  - split; [done|]. by apply items_pop_None.
Qed.

Lemma drain_spec n c q : (len q <= n)%nat ->
  let '(q', out) := drain n c q in
  items q ≡ₚ out ++ items q' /\ StronglySorted newer out
  /\ Forall (fun e => c <= timestamp_ns e) out /\ Forall (fun e => timestamp_ns e < c) (items q').
Proof.
  revert q. induction n as [|n IH]; intros q Hn; cbn [drain].
  { unfold len in Hn. destruct (items q); [|cbn in Hn; lia]. by split_and!; constructor. }
  pose proof (pop_spec q) as Hs. unfold peek_newest, pop_newest in *.
  destruct (heap_pop (heap q)) as [[e h]|] eqn:E; cbn [fmap option_fmap option_map fst].
  2: { destruct Hs as [_ Hs]. rewrite Hs. by split_and!; constructor. }
  destruct Hs as (Hp & Hm & _). set (q1 := {| heap := h; capacity := capacity q |}) in *.
  destruct (Z.leb_spec c (timestamp_ns e)) as [Hc|Hc].
  - specialize (IH q1). destruct (drain n c q1) as [q' out].
    destruct IH as (H1 & H2 & H3 & H4).
    { unfold len in *. rewrite Hp in Hn. cbn in Hn. lia. }
    split_and!; [by rewrite Hp, H1| |by constructor|done].
    constructor; [done|]. rewrite Hp in Hm. apply Forall_cons in Hm as [_ Hm]. rewrite H1 in Hm.
    by apply Forall_app in Hm as [? _].
  - split_and!; [done|constructor|constructor|]. eapply Forall_impl; [exact Hm|].
    unfold newer. cbn. lia.
Qed.

(** ** Histories *)

Inductive op := Push (e : PotQueueEntry) | Pop | DrainNewer (cutoff_ns : Z).

(** An operation, the entries it takes in and the ones it gives out. *)
Definition exec (o : op) (q : t) : t * list PotQueueEntry * list PotQueueEntry :=
  match o with
  | Push e => let '(q', ok) := push e q in (q', if ok then [e] else [], [])
  | Pop => let '(q', r) := pop_newest q in (q', [], option_list r)
  | DrainNewer c => let '(q', out) := drain_newer_than c q in (q', [], out)
  end.

Fixpoint run (l : list op) (q : t) : t * list PotQueueEntry * list PotQueueEntry :=
  match l with
  | [] => (q, [], [])
  | o :: l' =>
      let '(q', i1, o1) := exec o q in
      let '(q'', i2, o2) := run l' q' in (q'', i1 ++ i2, o1 ++ o2)
  end.

Lemma exec_spec o q :
  let '(q', i, out) := exec o q in
  i ++ items q ≡ₚ out ++ items q' /\ StronglySorted newer out
  /\ Forall (fun e => Forall (newer e) (items q') \/ i <> []) out /\ capacity q' = capacity q.
Proof.
  destruct o as [e| |c]; cbn [exec].
  - pose proof (push_spec e q) as Hs. destruct (push e q) as [q' ok]. destruct Hs as (Hc & Hs & _).
    split_and!; [|constructor|constructor|done].
    destruct ok; [cbn; by rewrite Hs|by destruct Hs as [-> _]].
  - pose proof (pop_spec q) as Hs. destruct (pop_newest q) as [q' [e|]]; cbn.
    + destruct Hs as (Hp & Hm & Hc). rewrite Hp in Hm. apply Forall_cons in Hm as [_ Hm].
      split_and!; [done|by repeat constructor|apply Forall_singleton; by left|done].
    + destruct Hs as [-> Hs]. split_and!; [done|constructor|constructor|done].
  - unfold drain_newer_than. pose proof (drain_spec (len q) c q (le_n _)) as Hs.
    assert (capacity (drain (len q) c q).1 = capacity q) as Hc.
    { generalize (len q). intros n. revert q Hs. clear. intros q _. revert q.
      induction n as [|n IH]; intros q; [done|]. cbn [drain]. destruct (peek_newest q) as [e|]; [|done].
      destruct (_ <=? _); [|done]. pose proof (IH (pop_newest q).1) as IHq.
      unfold pop_newest in *. destruct (heap_pop (heap q)) as [[e' h]|]; cbn in *;
        by destruct (drain n c _) as [q' out]. }
    destruct (drain (len q) c q) as [q' out]. destruct Hs as (H1 & H2 & H3 & H4). cbn in Hc.
    split_and!; [done|done| |done]. eapply Forall_impl; [exact H3|]. intros e He. left.
    eapply Forall_impl; [exact H4|]. unfold newer. cbn in *. lia.
Qed.

(** An operation that takes nothing in gives out the newest entries. *)
Lemma run_conserves l q :
  let '(q', i, out) := run l q in i ++ items q ≡ₚ out ++ items q' /\ capacity q' = capacity q.
Proof.
  revert q. induction l as [|o l IH]; intros q; cbn [run]; [done|].
  pose proof (exec_spec o q) as Hs. destruct (exec o q) as [[q1 i1] o1]. destruct Hs as (H1 & _ & _ & Hc).
  specialize (IH q1). destruct (run l q1) as [[q2 i2] o2]. destruct IH as [H2 Hc2].
  split; [|congruence].
  rewrite <- !app_assoc, (Permutation_app_comm i2), app_assoc, H1, <- app_assoc.
  rewrite (Permutation_app_comm (items q1)), H2. done.
Qed.

(** Pushing newer and newer entries. *)
Lemma push_newer e q : Forall (fun x => timestamp_ns x < timestamp_ns e) (items q) -> 0 < timestamp_ns e ->
  (push e q).2 = true.
Proof.
  intros Hf He. unfold push. destruct (_ <=? _)%nat; [|done].
  destruct (Z.leb_spec (timestamp_ns e) (min_timestamp (items q))) as [Hm|]; [exfalso|done].
  destruct (items q) as [|x l] eqn:E; [cbn in Hm; lia|].
  apply min_timestamp_spec in Hm; [|done]. apply Forall_cons in Hm as [Hm _]. apply Forall_cons in Hf as [Hf _]. lia.
Qed.

(** ** Properties *)

(** C33: The queue conserves its entries and serves the newest first: after any
    history of pushes, pops and drains, what was taken in is, as a multiset,
    what was given out and what is left; and from there a pop gives the newest
    entry, a drain gives exactly the entries from the cutoff on, in order of
    decreasing time, and a push refuses an entry only when the queue holds at
    least its capacity and nothing older. *)
Theorem filo_serves_newest l cap e c :
  let '(q, taken, given) := run l (new cap) in
  taken ≡ₚ given ++ items q
  /\ match pop_newest q with
     | (q', Some x) => items q ≡ₚ x :: items q' /\ Forall (newer x) (items q')
     | (q', None) => q' = q /\ items q = []
     end
  /\ (let '(q', out) := drain_newer_than c q in
      items q ≡ₚ out ++ items q' /\ StronglySorted newer out
      /\ Forall (fun x => c <= timestamp_ns x) out /\ Forall (fun x => timestamp_ns x < c) (items q'))
  /\ ((push e q).2 = false ->
      (cap <= len q)%nat /\ Forall (fun x => timestamp_ns e <= timestamp_ns x) (items q)).
Proof.
  pose proof (run_conserves l (new cap)) as Hr. destruct (run l (new cap)) as [[q taken] given].
  destruct Hr as [Hr Hcap]. unfold items at 1 in Hr. cbn [new heap capacity] in Hr, Hcap.
  rewrite items_new, app_nil_r in Hr. split_and!; [done| | |].
  - pose proof (pop_spec q) as Hs. destruct (pop_newest q) as [q' [x|]]; [|done].
    destruct Hs as (Hp & Hm & _). split; [done|]. rewrite Hp in Hm. by apply Forall_cons in Hm as [_ Hm].
  - apply drain_spec. done.
  - pose proof (push_spec e q) as Hs. destruct (push e q) as [q' ok]. cbn. intros ->.
    destruct Hs as (_ & (_ & Hc & Hf) & _). by rewrite <- Hcap.
Qed.

(** The capacity bounds nothing: any number of entries, each newer than those
    before it, are all taken in. *)
Lemma filo_outgrows_capacity cap es :
  StronglySorted (fun x y => timestamp_ns x < timestamp_ns y) es -> Forall (fun e => 0 < timestamp_ns e) es ->
  len (run (Push <$> es) (new cap)).1.1 = length es.
Proof.
  assert (forall q, Forall (fun e => Forall (fun x => timestamp_ns x < timestamp_ns e) (items q)) es ->
    StronglySorted (fun x y => timestamp_ns x < timestamp_ns y) es -> Forall (fun e => 0 < timestamp_ns e) es ->
    len (run (Push <$> es) q).1.1 = (len q + length es)%nat) as Hg.
  { induction es as [|e es IH]; intros q Hq Hs Hp; [cbn; lia|]. cbn [fmap list_fmap run exec].
    apply Forall_cons in Hq as [He Hq], Hp as [Hp1 Hp]. apply StronglySorted_inv in Hs as [Hs Hse].
    pose proof (push_spec e q) as Hps. pose proof (push_newer e q He Hp1) as Hok.
    destruct (push e q) as [q' ok]. cbn in Hok. subst ok. destruct Hps as (_ & Hi & _).
    specialize (IH q'). destruct (run (Push <$> es) q') as [[q2 i2] o2]. cbn in IH |- *. rewrite IH; [|clear IH|done..].
    - unfold len. rewrite Hi. cbn. lia.
    - rewrite Forall_forall in Hq, Hse |- *. intros y Hy. rewrite Hi. constructor; [by apply Hse|by apply Hq]. }
  intros Hs Hp. rewrite Hg; [| |done..].
  - unfold len, items. cbn [new heap]. by rewrite items_new.
  - apply Forall_forall. intros e _. unfold items. cbn [new heap]. rewrite items_new. constructor.
Qed.

End Queue.

(** ** Example *)

Definition ex_entry (ts : Z) : PotQueueEntry :=
  {| timestamp_ns := ts; ctx_id := "ctx1"; pot_bytes := []; grg_commitment := []; entry_mode := 1; submitted_ns := ts |}.

#[local] Instance ex_heap : BinaryHeap (list PotQueueEntry) PotQueueEntry := ListHeap.list_heap timestamp_ns.

Example ex_filo :
  timestamp_ns <$> (run (H := list PotQueueEntry)
    [Push (ex_entry 1000); Push (ex_entry 3000); Push (ex_entry 2000); Pop; DrainNewer 1500] (new 2)).2
  = [3000; 2000].
Proof. vm_compute. reflexivity. Qed.

Lemma filo_serves_newest_witness :
  let '(q, taken, given) := run (H := list PotQueueEntry)
    [Push (ex_entry 1000); Push (ex_entry 3000); Push (ex_entry 2000); Pop] (new 2) in
  taken ≡ₚ given ++ items q /\ timestamp_ns <$> given = [3000].
Proof.
  destruct (filo_serves_newest (H0 := ex_heap) (HL := ListHeap.list_heap_laws timestamp_ns)
    [Push (ex_entry 1000); Push (ex_entry 3000); Push (ex_entry 2000); Pop] 2 (ex_entry 0) 0) as [Hp _].
  split; [exact Hp|reflexivity].
Defined.

End Filo.
