(* ===== verification/RustRoughtime.v ===== *)
(** * Roughtime messages of the Rust client (src/src/roughtime/wire.rs)

    The parser and the request of the Rust side.  It reads the same format as
    [RoughtimeWire], with other tolerances: values out of range are skipped
    where TypeScript refuses the message, at most 64 tags are read, and the
    fixed-size fields must have their exact size.  The file proves that the two
    parsers find the same values, and that a response the TypeScript client
    validated means the same time to the Rust one. *)
From Stdlib Require Import ZArith Lia String Strings.Byte.
From stdpp Require Import base list numbers option strings gmap.
From S2P Require Import Prelude JSString Errors Bytes JSMap RoughtimeWire Roughtime Rust.

Module RtWire.

Definition ROUGHTIME_MAGIC : Z := 0x4d49544847554f52.

(** [u32::from_le_bytes( *b"NONC")]; a tag of three letters ends in a zero byte. *)
Definition tag_const (ascii : string) : Z := le_val (ascii_bytes (js ascii)).
Definition NONC : Z := tag_const "NONC".
Definition VER : Z := tag_const "VER".
Definition SREP : Z := tag_const "SREP".
Definition SIG : Z := tag_const "SIG".
Definition CERT : Z := tag_const "CERT".
Definition INDX : Z := tag_const "INDX".
Definition PATH : Z := tag_const "PATH".
Definition MIDP : Z := tag_const "MIDP".
Definition RADI : Z := tag_const "RADI".
Definition ROOT : Z := tag_const "ROOT".
Definition DELE : Z := tag_const "DELE".
Definition PUBK : Z := tag_const "PUBK".
Definition MINT : Z := tag_const "MINT".
Definition MAXT : Z := tag_const "MAXT".

Record RoughtimeResponse := {
  midp : Z; radi : Z; root : Buffer; sig : Buffer; pubk : Buffer; mint : Z; maxt : Z; indx : Z; path : list Buffer;
}.

(** ** parse_msg *)

(** The last loop: a later value of the same tag replaces the earlier one, a
    value out of range is left out. *)
Fixpoint insert_values (values_start : Z) (data : Buffer) (tags offsets : list Z) (map : gmap Z Buffer)
    : gmap Z Buffer :=
  match tags, offsets with
  | t :: tags', o :: offsets' =>
      let start := values_start + o in
      let end_ := match offsets' with o2 :: _ => values_start + o2 | [] => Z.of_nat (length data) end in
      let map' := if (start <=? Z.of_nat (length data)) && (end_ <=? Z.of_nat (length data)) && (start <=? end_)
                  then <[t := slice data (Z.to_nat start) (Z.to_nat end_)]> map else map in
      insert_values values_start data tags' offsets' map'
  | _, _ => map
  end.

Definition parse_msg (data : Buffer) : option (gmap Z Buffer) :=
  if (length data <? 4)%nat then None
  else
    let num := le_val (slice data 0 4) in
    if (num =? 0) || (64 <? num) then None
    else
      let header_size := 4 + (num - 1) * 4 + num * 4 in
      if Z.of_nat (length data) <? header_size then None
      else
        let n := Z.to_nat num in
        let offsets := 0 :: read_words (pred n) (drop 4 data) in
        let tag_list := read_words n (drop (4 + pred n * 4) data) in
        Some (insert_values header_size data tag_list offsets ∅).

(** [get_fixed::<N>]. *)
Definition get_fixed (n : nat) (map : gmap Z Buffer) (tag : Z) : option Buffer :=
  v ← map !! tag; if (length v =? n)%nat then Some v else None.
Definition get_u32_le (map : gmap Z Buffer) (tag : Z) : option Z := le_val <$> get_fixed 4 map tag.
Definition get_u64_le (map : gmap Z Buffer) (tag : Z) : option Z := le_val <$> get_fixed 8 map tag.

(** ** parse_roughtime_response *)

Definition U64_MAX : Z := 2 ^ 64 - 1.

Definition no_delegation : Buffer * Z * Z := (zeros 32, 0, U64_MAX).

(** The nested [if let]s over CERT and DELE: anything missing gives the
    defaults. *)
Definition delegation (outer : gmap Z Buffer) : Buffer * Z * Z :=
  match outer !! CERT with
  | Some cert_data =>
      match parse_msg cert_data with
      | Some cert =>
          match cert !! DELE with
          | Some dele_data =>
              match parse_msg dele_data with
              | Some dele => (default (zeros 32) (get_fixed 32 dele PUBK), default 0 (get_u64_le dele MINT),
                              default U64_MAX (get_u64_le dele MAXT))
              | None => no_delegation
              end
          | None => no_delegation
          end
      | None => no_delegation
      end
  | None => no_delegation
  end.

(** [path_raw.chunks_exact(32)] leaves out an incomplete last chunk. *)
Definition chunks_exact (n : nat) (l : Buffer) : list Buffer := chunks (length l / n) l.

Definition parse_roughtime_response (packet : Buffer) : option RoughtimeResponse :=
  if (length packet <? 12)%nat then None
  else if negb (le_val (slice packet 0 8) =? ROUGHTIME_MAGIC) then None
  else
    let msg_len := le_val (slice packet 8 12) in
    if Z.of_nat (length packet) <? 12 + msg_len then None
    else
      outer ← parse_msg (slice packet 12 (12 + Z.to_nat msg_len));
      sig ← get_fixed 64 outer SIG;
      let indx := default 0 (get_u32_le outer INDX) in
      let path := chunks_exact 32 (default [] (outer !! PATH)) in
      srep_data ← outer !! SREP;
      srep ← parse_msg srep_data;
      midp ← get_u64_le srep MIDP;
      radi ← get_u32_le srep RADI;
      root ← get_fixed 32 srep ROOT;
      let '(pubk, mint, maxt) := delegation outer in
      Some {| midp := midp; radi := radi; root := root; sig := sig; pubk := pubk; mint := mint; maxt := maxt;
              indx := indx; path := path |}.

(** [pkt.resize(1024, 0)] also cuts. *)
Definition resize (n : nat) (l : Buffer) : Buffer := take n l ++ zeros (n - length l).

Definition build_roughtime_request (nonce : Buffer) : Buffer :=
  let msg := le_bytes 4 2 ++ le_bytes 4 4 ++ le_bytes 4 VER ++ le_bytes 4 NONC ++ le_bytes 4 1 ++ nonce in
  resize 1024 (le_bytes 8 ROUGHTIME_MAGIC ++ le_bytes 4 (u32 (Z.of_nat (length msg))) ++ msg).

(** ** The two parsers *)

(** [m'] has the values of the JavaScript map [m]. *)
Definition same_values (m : jsmap Z Buffer) (m' : gmap Z Buffer) : Prop := forall t, m' !! t = jm_get m t.

Lemma slice_Z buf s e :
  0 <= s <= e -> RoughtimeWire.slice buf s e = slice buf (Z.to_nat s) (Z.to_nat e).
Proof. intros H. unfold RoughtimeWire.slice, slice. by rewrite Z2Nat.inj_sub by lia. Qed.

Lemma same_values_insert m m' t v : same_values m m' -> same_values (jm_set m t v) (<[t := v]> m').
Proof.
  intros H t'. destruct (decide (t = t')) as [->|Hne].
  - by rewrite lookup_insert_eq, jm_get_set_eq.
  - rewrite lookup_insert_ne, jm_get_set_ne by done. apply H.
Qed.

Lemma read_words_nonneg n l : Forall (Z.le 0) (read_words n l).
Proof.
  revert l. induction n as [|n IH]; intros l; constructor; [|apply IH]. pose proof (le_val_range (take 4 l)). lia.
Qed.

(** What TypeScript accepts, Rust reads without skipping anything. *)
Lemma insert_values_same vs data tags offs m m' g :
  0 <= vs -> Forall (Z.le 0) offs ->
  parse_values vs data tags offs m = Some m' -> same_values m g ->
  same_values m' (insert_values vs data tags offs g).
Proof.
  intros Hvs. revert offs m g. induction tags as [|t tags IH]; intros offs m g Ho; [by intros [= <-]|].
  destruct offs as [|o offs]; [by intros [= <-]|]. apply Forall_cons in Ho as [Ho Hos].
  cbn [parse_values insert_values]. set (e := match offs with [] => _ | o2 :: _ => _ end).
  destruct (_ || _) eqn:E; [done|]. zbool. intros Hp Hs.
  replace (_ && _) with true
    by (symmetry; rewrite !andb_true_iff; split_and!; apply Z.leb_le; lia).
  eapply IH; [done|exact Hp|]. rewrite <- slice_Z by lia. by apply same_values_insert.
Qed.

(** The number of tags a message announces. *)
Definition tag_count (data : Buffer) : Z := le_val (slice data 0 4).

Lemma parse_msg_same data m m' :
  parseMessage data = Some m -> parse_msg data = Some m' -> same_values m m'.
Proof.
  unfold parseMessage, parse_msg. rewrite (eq_refl : slice data 0 4 = take 4 data).
  destruct (length data <? 4)%nat; [done|]. cbv zeta.
  pose proof (le_val_range (take 4 data)) as Hr. set (n := le_val (take 4 data)) in *.
  destruct (Z.eqb_spec n 0) as [->|Hn]; [done|]. cbn [orb].
  replace (4 + (n - 1) * 4 + n * 4) with (4 + 4 * (n - 1) + 4 * n) by lia.
  replace (4 + pred (Z.to_nat n) * 4)%nat with (4 + 4 * pred (Z.to_nat n))%nat by lia.
  destruct (64 <? n); [done|]. destruct (_ <? _); [done|]. intros Hp [= <-].
  eapply insert_values_same; [lia| |exact Hp|done]. constructor; [lia|apply read_words_nonneg].
Qed.

Lemma parse_msg_some data m :
  parseMessage data = Some m -> 0 < tag_count data <= 64 -> exists m', parse_msg data = Some m' /\ same_values m m'.
Proof.
  intros Hp Hc. destruct (parse_msg data) as [m'|] eqn:E; [by eauto using parse_msg_same|exfalso].
  revert E. unfold parse_msg, parseMessage, tag_count in *. rewrite (eq_refl : slice data 0 4 = take 4 data) in *.
  destruct (length data <? 4)%nat; [done|]. cbv zeta in *. set (n := le_val (take 4 data)) in *.
  replace (n =? 0) with false in * by (symmetry; apply Z.eqb_neq; lia).
  replace (64 <? n) with false by (symmetry; apply Z.ltb_ge; lia). cbn [orb].
  replace (4 + (n - 1) * 4 + n * 4) with (4 + 4 * (n - 1) + 4 * n) by lia. by destruct (_ <? _).
Qed.

Lemma message_not_empty data m t b : parseMessage data = Some m -> jm_get m t = Some b -> 0 < tag_count data.
Proof.
  unfold parseMessage, tag_count. rewrite (eq_refl : slice data 0 4 = take 4 data).
  destruct (length data <? 4)%nat; [done|]. pose proof (le_val_range (take 4 data)).
  cbv zeta. destruct (Z.eqb_spec (le_val (take 4 data)) 0) as [|Hn]; [by intros [= <-]|]. lia.
Qed.

(** An exact field is the value TypeScript reads from its front. *)
Lemma get_fixed_has_le m m' ascii n z b :
  same_values m m' -> has_le m ascii n z -> get_fixed n m' (tag ascii) = Some b -> le_val b = z.
Proof.
  intros Hs (x & Hx & Hl & ->). unfold get_fixed. rewrite Hs, Hx. cbn [mbind option_bind].
  destruct (Nat.eqb_spec (length x) n) as [<-|]; [|done]. intros [= ->]. by rewrite firstn_all.
Qed.

Lemma get_fixed_some m m' n t b :
  same_values m m' -> jm_get m t = Some b -> length b = n -> get_fixed n m' t = Some b.
Proof. intros Hs H <-. unfold get_fixed. rewrite Hs, H. cbn [mbind option_bind]. by rewrite Nat.eqb_refl. Qed.

(** The part of a packet both clients parse. *)
Definition msg_len (packet : Buffer) : Z := le_val (slice packet 8 12).
Definition body (packet : Buffer) : Buffer := slice packet 12 (12 + Z.to_nat (msg_len packet)).

Lemma body_subarray packet :
  12 + msg_len packet <= Z.of_nat (length packet) ->
  subarray_from packet 12 (le_val (take 4 (drop 8 packet))) = body packet.
Proof.
  intros H. change (le_val (take 4 (drop 8 packet))) with (msg_len packet). unfold body.
  pose proof (le_val_range (slice packet 8 12) : 0 <= msg_len packet < _) as Hr.
  revert H Hr. generalize (msg_len packet). intros n H Hr. unfold subarray_from, slice.
  rewrite Z.min_l by lia. f_equal. lia.
Qed.

(** The two window fields of a delegation TypeScript checked. *)
Lemma delegation_window (outer : gmap Z Buffer) top cert certMsg dele deleMsg lo hi midp :
  same_values top outer -> jm_get top (tag "CERT") = Some cert ->
  parseMessage cert = Some certMsg -> jm_get certMsg (tag "DELE") = Some dele -> parseMessage dele = Some deleMsg ->
  has_le deleMsg "MINT" 8 lo -> has_le deleMsg "MAXT" 8 hi -> lo <= midp <= hi -> 0 <= midp <= U64_MAX ->
  let '(_, mint, maxt) := delegation outer in mint <= midp <= maxt.
Proof.
  intros Hs Hc Hpc Hd Hpd Hlo Hhi Hw Hm. unfold delegation. rewrite Hs, (Hc : jm_get top CERT = _).
  destruct (parse_msg cert) as [c|] eqn:E1; [|done].
  rewrite (parse_msg_same _ _ _ Hpc E1), (Hd : jm_get certMsg DELE = _).
  destruct (parse_msg dele) as [d|] eqn:E2; [|done]. pose proof (parse_msg_same _ _ _ Hpd E2) as Hsd.
  unfold get_u64_le.
  destruct (get_fixed 8 d MINT) as [b1|] eqn:E3; destruct (get_fixed 8 d MAXT) as [b2|] eqn:E4; csimpl;
    try (apply (get_fixed_has_le _ _ "MINT" 8 lo _ Hsd Hlo) in E3);
    try (apply (get_fixed_has_le _ _ "MAXT" 8 hi _ Hsd Hhi) in E4); lia.
Qed.

(** What the Rust parser demands of a packet beyond the protocol's checks. *)
Record framed (packet : Buffer) : Prop := {
  fr_magic : le_val (slice packet 0 8) = ROUGHTIME_MAGIC;
  fr_whole : 12 + msg_len packet <= Z.of_nat (length packet);
  fr_count : tag_count (body packet) <= 64;
  fr_sizes top sig data srep m r g :
    parseMessage (body packet) = Some top -> jm_get top (tag "SIG") = Some sig ->
    jm_get top (tag "SREP") = Some data -> parseMessage data = Some srep ->
    jm_get srep (tag "MIDP") = Some m -> jm_get srep (tag "RADI") = Some r -> jm_get srep (tag "ROOT") = Some g ->
    length sig = 64%nat /\ tag_count data <= 64 /\ length m = 8%nat /\ length r = 4%nat /\ length g = 32%nat;
}.

Section Agreement.
Variable sha512 : Buffer -> Buffer.
Context {K : Type}.
Variable createPublicKey : Buffer -> res K.
Variable crypto_verify : Buffer -> K -> Buffer -> res bool.

Lemma parsed_agrees request response key nonce v r :
  authentic sha512 createPublicKey crypto_verify request response key nonce v ->
  parse_roughtime_response response = Some r ->
  midp r = midpSeconds v /\ radi r = radiSeconds v /\ mint r <= midp r <= maxt r.
Proof.
  intros [(top & sg & pth & srep & cert & certMsg & certSig & dele & deleMsg & pk & srepMsg & rt
    & longTerm & delegated & ix & lo & hi & Hl & Htop & _ & _ & _ & _ & Hsrep & Hcert
    & _ & HpC & _ & HD & HpD & _ & _ & _ & _ & _ & Hlo & Hhi & HpS & HM & HR & Hw & _)].
  unfold parse_roughtime_response. destruct (length response <? 12)%nat; [done|].
  destruct (negb _); [done|]. cbv zeta. change (le_val (slice response 8 12)) with (msg_len response).
  destruct (Z.ltb_spec (Z.of_nat (length response)) (12 + msg_len response)) as [|Hlen]; [done|].
  rewrite body_subarray in Htop by done.
  change (slice response 12 _) with (body response).
  destruct (parse_msg (body response)) as [outer|] eqn:Eo; [|done]. cbn [mbind option_bind].
  pose proof (parse_msg_same _ _ _ Htop Eo) as Hso.
  destruct (get_fixed 64 outer SIG) as [s|]; [|done]. cbn [mbind option_bind]. cbv zeta.
  rewrite (Hso SREP), (Hsrep : jm_get top SREP = _). cbn [mbind option_bind].
  destruct (parse_msg srep) as [sm|] eqn:Es; [|done]. cbn [mbind option_bind].
  pose proof (parse_msg_same _ _ _ HpS Es) as Hss.
  unfold get_u64_le, get_u32_le.
  destruct (get_fixed 8 sm MIDP) as [bm|] eqn:Em; [|done]. cbn [fmap option_fmap option_map mbind option_bind].
  destruct (get_fixed 4 sm RADI) as [br|] eqn:Er; [|done]. cbn [fmap option_fmap option_map mbind option_bind].
  destruct (get_fixed 32 sm ROOT) as [bg|]; [|done]. cbn [mbind option_bind].
  apply (get_fixed_has_le _ _ "MIDP" 8 _ _ Hss HM) in Em. apply (get_fixed_has_le _ _ "RADI" 4 _ _ Hss HR) in Er.
  assert (0 <= midpSeconds v <= U64_MAX) as Hm.
  { destruct HM as (b & _ & Hb & ->). pose proof (le_val_take_range 8 b Hb).
    change (256 ^ Z.of_nat 8) with (2 ^ 64) in *. unfold U64_MAX. lia. }
  pose proof (delegation_window outer top cert certMsg dele deleMsg lo hi _ Hso Hcert HpC HD HpD Hlo Hhi Hw Hm) as Hd.
  destruct (delegation outer) as [[p l] h]. intros [= <-]. cbn. rewrite Em, Er. done.
Qed.

Lemma framed_parses request response key nonce v :
  authentic sha512 createPublicKey crypto_verify request response key nonce v -> framed response ->
  is_Some (parse_roughtime_response response).
Proof.
  intros [(top & sg & pth & srep & cert & certMsg & certSig & dele & deleMsg & pk & srepMsg & rt
    & longTerm & delegated & ix & lo & hi & Hl & Htop & _ & _ & Hsig & _ & Hsrep & Hcert
    & _ & _ & _ & _ & _ & _ & _ & _ & _ & _ & _ & _ & HpS & (bm & Hm & _) & (br & Hr & _) & _ & Hg & _)]
    [Fm Fw Fc Fs].
  rewrite body_subarray in Htop by done.
  destruct (Fs _ _ _ _ _ _ _ Htop Hsig Hsrep HpS Hm Hr Hg) as (L1 & L2 & L3 & L4 & L5).
  unfold parse_roughtime_response. replace (length response <? 12)%nat with false by (symmetry; by apply Nat.ltb_ge).
  rewrite Fm, Z.eqb_refl. cbn [negb]. cbv zeta.
  replace (Z.of_nat (length response) <? _) with false by (symmetry; apply Z.ltb_ge; exact Fw).
  change (slice response 12 _) with (body response).
  destruct (parse_msg_some _ _ Htop) as (outer & -> & Hso); [split; [by eapply message_not_empty|done]|].
  cbn [mbind option_bind]. rewrite (get_fixed_some _ _ 64 SIG _ Hso Hsig L1), (Hso SREP), (Hsrep : jm_get top SREP = _).
  cbn [mbind option_bind].
  destruct (parse_msg_some _ _ HpS) as (sm & -> & Hss); [split; [by eapply message_not_empty|done]|].
  cbn [mbind option_bind]. unfold get_u64_le, get_u32_le.
  rewrite (get_fixed_some _ _ 8 MIDP _ Hss Hm L3), (get_fixed_some _ _ 4 RADI _ Hss Hr L4),
    (get_fixed_some _ _ 32 ROOT _ Hss Hg L5). cbn [fmap option_fmap option_map mbind option_bind].
  destruct (delegation outer) as [[? ?] ?]. by eexists.
Qed.

(** C6: whatever response the TypeScript client validated, the Rust client
    reads the same midpoint and radius from it when it reads it at all, and the
    midpoint passes its delegation-window test; it does read it when the packet
    carries the magic, is complete, has at most 64 tags a message, and its
    fixed-size fields have exactly their size.  TypeScript tests none of
    these. *)
Theorem rust_reads_validated_response request response key nonce v :
  validateRoughtimeResponse sha512 createPublicKey crypto_verify request response key nonce = Ok v ->
  (forall r, parse_roughtime_response response = Some r ->
     midp r = midpSeconds v /\ radi r = radiSeconds v /\ mint r <= midp r <= maxt r)
  /\ (framed response -> is_Some (parse_roughtime_response response)).
Proof. intros H%validate_sound. eauto using parsed_agrees, framed_parses. Qed.

End Agreement.

(** ** The request *)

(** The Rust request for a 32-byte nonce is a packet of 1024 bytes whose
    message both parsers read back: the version 1 and the nonce, and nothing
    else, in particular no hash of the server's key. *)
Lemma rust_request_wellformed nonce :
  length nonce = 32%nat ->
  length (build_roughtime_request nonce) = 1024%nat
  /\ parseMessage (body (build_roughtime_request nonce)) = Some [(VER, le_bytes 4 1); (NONC, nonce)]
  /\ parse_msg (body (build_roughtime_request nonce)) = Some {[VER := le_bytes 4 1; NONC := nonce]}.
Proof.
  intros H. do 32 (destruct nonce as [|? nonce]; [done|]). destruct nonce; [|done]. split_and!; vm_compute; reflexivity.
Qed.

(** ** Witnesses *)

Lemma rust_reads_validated_response_witness :
  exists r, parse_roughtime_response ex_response = Some r /\ midp r = 1710412800 /\ radi r = 3
            /\ mint r <= midp r <= maxt r.
Proof.
  destruct (rust_reads_validated_response ex_sha ex_key ex_verify (zeros 1032) ex_response (zeros 32) (zeros 32)
    {| midpSeconds := 1710412800; radiSeconds := 3 |} ex_response_accepted) as [H1 H2].
  destruct H2 as [r Hr].
  { split; [reflexivity|vm_compute; discriminate|vm_compute; discriminate|].
    intros top sg data srep m r g E1 E2 E3 E4 E5 E6 E7. vm_compute in E1. injection E1 as <-.
    vm_compute in E2. injection E2 as <-. vm_compute in E3. injection E3 as <-.
    vm_compute in E4. injection E4 as <-. vm_compute in E5. injection E5 as <-.
    vm_compute in E6. injection E6 as <-. vm_compute in E7. injection E7 as <-.
    split_and!; first [reflexivity | vm_compute; discriminate]. }
  exists r. split; [exact Hr|]. exact (H1 r Hr).
Defined.

Lemma rust_request_wellformed_witness : length (build_roughtime_request (zeros 32)) = 1024%nat.
Proof. exact (proj1 (rust_request_wellformed (zeros 32) eq_refl)). Defined.

End RtWire.
