(* ===== verification/RustChain.v ===== *)
(** * Roughtime chains (src/src/roughtime: types.rs, chain.rs, client.rs,
    async_client.rs)

    Attestations, the chain built from the answers of the three listed servers,
    and the check of a chain against the time of a proof.  What the check
    accepts is characterised; what it does not look at is proved too: the
    signatures, and, the nonces being the client's own, the servers' answers.
    SHA-256, SHA-512, the hex decoder, the random bytes and the network are
    parameters; the network is a function of the server and the request, so an
    attacker's network is one of them. *)
From Stdlib Require Import ZArith Lia String Strings.Byte.
From stdpp Require Import base list numbers option strings sorting.
From S2P Require Import Prelude JSString Errors Bytes JSMap RoughtimeWire Roughtime Rust RustRoughtime.

Module RtChain.

(** ** types.rs *)

Record RoughtimeAttestation := {
  server_pubkey : Buffer; server_name : jsstr; midp : Z; radi : Z; sig : Buffer; root : Buffer;
  nonce : Buffer; blind : Buffer; indx : Z; path : list Buffer; raw_response : Buffer;
}.

Record RoughtimeChain := { attestations : list RoughtimeAttestation; chain_digest : Buffer }.

Definition time_interval_secs (a : RoughtimeAttestation) : Z * Z :=
  (saturating_sub (midp a) (radi a), saturating_add (midp a) (radi a)).

(** [iter().max()], [iter().min()]. *)
Definition iter_max (l : list Z) : option Z := match l with [] => None | x :: l' => Some (foldl Z.max x l') end.
Definition iter_min (l : list Z) : option Z := match l with [] => None | x :: l' => Some (foldl Z.min x l') end.

(** ** chain.rs *)

Inductive ChainError :=
  | TooShort (got min : nat) | NonceMismatch (at_ : nat) | OrderingViolated (at_ : nat)
  | SpreadExceeded (spread_secs : Z) | SignatureInvalid (at_ : nat) | MerkleInvalid (at_ : nat)
  | DigestMismatch | TimestampDrift (diff_secs : Z).
Abbreviation chain_result := (result ChainError).

Definition CHAIN_SPREAD_TOLERANCE_SECS : Z := 2.
Definition MIN_CHAIN_LEN : nat := 3.

(** The median of the sorted midpoints: the sum of the middle two wraps, and
    the index [len / 2 - 1] of an empty list panics. *)
Definition synthesise_timestamp (chain : RoughtimeChain) : rres ChainError (Z * Z) :=
  let midps := merge_sort Z.le (midp <$> attestations chain) in
  let n := length midps in
  let max_radi := default 1 (iter_max (radi <$> attestations chain)) in
  if Nat.even n then
    match n, midps !! (n / 2 - 1)%nat, midps !! (n / 2)%nat with
    | S _, Some a, Some b => Ok (u64 (a + b) / 2, max_radi)
    | _, _, _ => Throw Panic
    end
  else match midps !! (n / 2)%nat with Some m => Ok (m, max_radi) | None => Throw Panic end.

Definition chain_len (chain : RoughtimeChain) : nat := length (attestations chain).
Definition chain_is_empty (chain : RoughtimeChain) : bool := (chain_len chain =? 0)%nat.

(** A loop over the neighbours [i - 1], [i] of a list, from index [i] on. *)
Fixpoint windows (f : nat -> RoughtimeAttestation -> RoughtimeAttestation -> option ChainError)
    (i : nat) (prev : RoughtimeAttestation) (rest : list RoughtimeAttestation) : chain_result unit :=
  match rest with
  | [] => Ok tt
  | a :: rest' => match f i prev a with Some e => Throw e | None => windows f (S i) a rest' end
  end.
Definition each_window f (l : list RoughtimeAttestation) : chain_result unit :=
  match l with [] => Ok tt | a :: rest => windows f 1 a rest end.

Section Chain.
Context (sha256 sha512 : Buffer -> Buffer).

Definition next_nonce (a : RoughtimeAttestation) : Buffer := take 32 (sha512 (raw_response a ++ blind a)).

Definition verify_nonce_chain (l : list RoughtimeAttestation) : chain_result unit :=
  each_window (fun i prev a => if bool_decide (nonce a = next_nonce prev) then None else Some (NonceMismatch i)) l.

Definition verify_causal_ordering (l : list RoughtimeAttestation) : chain_result unit :=
  each_window (fun i a b =>
    let lo_i := saturating_sub (midp a) (radi a) in
    let hi_j := saturating_add (midp b) (radi b) in
    if hi_j <? lo_i then Some (OrderingViolated (i - 1)) else None) l.

Definition verify_spread (l : list RoughtimeAttestation) : chain_result unit :=
  let min_m := default 0 (iter_min (midp <$> l)) in
  let max_m := default 0 (iter_max (midp <$> l)) in
  let spread := saturating_sub max_m min_m in
  if CHAIN_SPREAD_TOLERANCE_SECS <? spread then Throw (SpreadExceeded spread) else Ok tt.

(** What is hashed: the number of attestations as one byte, and of each the
    midpoint, the radius, the root and the nonce. *)
Definition digest_entry (a : RoughtimeAttestation) : Buffer :=
  be_bytes 8 (midp a) ++ be_bytes 4 (radi a) ++ root a ++ nonce a.
Definition digest_input (l : list RoughtimeAttestation) : Buffer :=
  bofZ (Z.of_nat (length l)) :: (l ≫= digest_entry).
Definition compute_chain_digest (l : list RoughtimeAttestation) : Buffer := sha256 (digest_input l).

Definition build_chain (l : list RoughtimeAttestation) : chain_result RoughtimeChain :=
  if (length l <? MIN_CHAIN_LEN)%nat then Throw (TooShort (length l) MIN_CHAIN_LEN)
  else
    _ ← verify_nonce_chain l;
    _ ← verify_causal_ordering l;
    _ ← verify_spread l;
    Ok {| attestations := l; chain_digest := compute_chain_digest l |}.

Definition build_chain_unchecked (l : list RoughtimeAttestation) : chain_result RoughtimeChain :=
  if (length l <? MIN_CHAIN_LEN)%nat then Throw (TooShort (length l) MIN_CHAIN_LEN)
  else
    _ ← verify_causal_ordering l;
    _ ← verify_spread l;
    Ok {| attestations := l; chain_digest := compute_chain_digest l |}.

(** The [?] of a function that can also panic. *)
Definition lift {A} (r : chain_result A) : rres ChainError A :=
  match r with Ok a => Ok a | Throw e => Throw (Err e) end.

Definition verify_chain_against_pot (chain : RoughtimeChain) (t_synth_ns : Z) (expected_digest : Buffer)
    : rres ChainError Z :=
  let recomputed := compute_chain_digest (attestations chain) in
  if negb (bool_decide (recomputed = expected_digest)) then Throw (Err DigestMismatch)
  else
    _ ← lift (verify_causal_ordering (attestations chain));
    _ ← lift (verify_spread (attestations chain));
    '(median_secs, max_radi) ← synthesise_timestamp chain;
    let t_synth_secs := t_synth_ns / 1000000000 in
    let tolerance := max_radi + 1 in
    let diff := if median_secs <=? t_synth_secs then t_synth_secs - median_secs else median_secs - t_synth_secs in
    if tolerance <? diff then Throw (Err (TimestampDrift diff)) else Ok median_secs.

(** [async_client.rs]: seconds to nanoseconds, wrapping. *)
Definition chain_to_timestamp_ns (chain : RoughtimeChain) : rres ChainError Z :=
  '(median_secs, _) ← synthesise_timestamp chain; Ok (u64 (median_secs * 1000000000)).

End Chain.

(** ** The clients *)

Record RoughtimeServerEntry := { name : jsstr; host : jsstr; port : Z; pubkey_hex : jsstr }.

Definition ROUGHTIME_SERVERS : list RoughtimeServerEntry :=
  [{| name := js "Google"; host := js "roughtime.sandbox.google.com"; port := 2002;
      pubkey_hex := js "7ad3da688c5c04c635a14786a70bcf30224cc25455371bf9d4a2bfb64b682534" |};
   {| name := js "Cloudflare"; host := js "roughtime.cloudflare.com"; port := 2002;
      pubkey_hex := js "803eb799d6ab9e96f64e0b9b18cf6e8a14c3ad5acaa7b4af01f99e8b1a7ae07c" |};
   {| name := js "Chainpoint"; host := js "roughtime.chainpoint.org"; port := 2002;
      pubkey_hex := js "bbad0a7e33a573ae56edada97b5a0b49e5b5ac2f7bbe25f2e3e4d9d3a80e1e74" |}].

(** How sending and receiving can fail. *)
Inductive net_error := NetIo | NetTimeout.

(** The two error types of the clients; the server a message names is left
    out. *)
Inductive ClientError :=
  | Io | Timeout | ParseFailed | ChainBuildFailed (e : ChainError) | InsufficientServers (got min : nat).

Definition RECV_BUF : nat := 4096.
Definition ASYNC_RECV_BUF : nat := Z.to_nat 65536.
Definition MIN_CHAIN : nat := 3.

Definition format_addr (host : jsstr) (port : Z) : jsstr := host ++ js ":" ++ z_to_dec port.

Section Clients.
Context (sha256 sha512 : Buffer -> Buffer).
(** [hex::decode]. *)
Variable hex_decode : jsstr -> option Buffer.
(** The address and the request give the datagram that came back. *)
Variable exchange : jsstr -> Buffer -> result net_error Buffer.
(** The calls of [fill_bytes], in order. *)
Variable rng : nat -> Buffer.

Definition receive (buf : nat) (host : jsstr) (port : Z) (nonce : Buffer) : result ClientError Buffer :=
  match exchange (format_addr host port) (RtWire.build_roughtime_request nonce) with
  | Ok datagram => Ok (take buf datagram)
  | Throw NetIo => Throw Io
  | Throw NetTimeout => Throw Timeout
  end.

Definition attest (pubkey nonce blind raw : Buffer) (parsed : RtWire.RoughtimeResponse) (name : jsstr)
    : RoughtimeAttestation :=
  {| server_pubkey := pubkey; server_name := name; midp := RtWire.midp parsed; radi := RtWire.radi parsed;
     sig := RtWire.sig parsed; root := RtWire.root parsed; nonce := nonce; blind := blind;
     indx := RtWire.indx parsed; path := RtWire.path parsed; raw_response := raw |}.

(** [client.rs]. *)
Definition query_server (host : jsstr) (port : Z) (pubkey : Buffer) (server_name : jsstr) (nonce blind : Buffer)
    : result ClientError RoughtimeAttestation :=
  raw_response ← receive RECV_BUF host port nonce;
  match RtWire.parse_roughtime_response raw_response with
  | Some parsed => Ok (attest pubkey nonce blind raw_response parsed server_name)
  | None => Throw ParseFailed
  end.

(** [async_client.rs]: the midpoint must be in the delegation's window, a key
    of another length becomes zeros. *)
Definition query_one_server (host : jsstr) (port : Z) (nonce blind : Buffer) (pubkey_hex : jsstr)
    : result ClientError RoughtimeAttestation :=
  raw_response ← receive ASYNC_RECV_BUF host port nonce;
  match RtWire.parse_roughtime_response raw_response with
  | Some parsed =>
      if (RtWire.midp parsed <? RtWire.mint parsed) || (RtWire.maxt parsed <? RtWire.midp parsed)
      then Throw ParseFailed
      else
        match hex_decode pubkey_hex with
        | Some pk => Ok (attest (if (length pk =? 32)%nat then pk else zeros 32) nonce blind raw_response parsed
                                (format_addr host port))
        | None => Throw ParseFailed
        end
  | None => Throw ParseFailed
  end.

(** The loop over the servers: a server that fails is passed over, the nonce of
    the next request is drawn from the last answer. *)
Fixpoint query_all (query : RoughtimeServerEntry -> Buffer -> Buffer -> result ClientError RoughtimeAttestation)
    (i : nat) (servers : list RoughtimeServerEntry) (nonce : Buffer) : list RoughtimeAttestation :=
  match servers with
  | [] => []
  | server :: rest =>
      let blind := rng i in
      match query server nonce blind with
      | Ok att => att :: query_all query (S i) rest (next_nonce sha512 att)
      | Throw _ => query_all query (S i) rest nonce
      end
  end.

(** A key that does not decode to 32 bytes is a [continue]. *)
Definition query_entry (server : RoughtimeServerEntry) (nonce blind : Buffer)
    : result ClientError RoughtimeAttestation :=
  match hex_decode (pubkey_hex server) with
  | Some k => if (length k =? 32)%nat then query_server (host server) (port server) k (name server) nonce blind
              else Throw ParseFailed
  | None => Throw ParseFailed
  end.

Definition query_entry_async (server : RoughtimeServerEntry) (nonce blind : Buffer)
    : result ClientError RoughtimeAttestation :=
  query_one_server (host server) (port server) nonce blind (pubkey_hex server).

Definition chain_or_error (r : chain_result RoughtimeChain) : result ClientError RoughtimeChain :=
  match r with Ok c => Ok c | Throw e => Throw (ChainBuildFailed e) end.

(** [rng 0] is the first nonce, [rng 1 ...] are the blinds. *)
Definition build_roughtime_chain (min_k : nat) : result ClientError RoughtimeChain :=
  let l := query_all query_entry 1 ROUGHTIME_SERVERS (rng 0%nat) in
  if (length l <? min_k)%nat then Throw (InsufficientServers (length l) min_k)
  else chain_or_error (build_chain sha256 sha512 l).

Definition build_roughtime_chain_async : result ClientError RoughtimeChain :=
  let l := query_all query_entry_async 1 ROUGHTIME_SERVERS (rng 0%nat) in
  if (length l <? MIN_CHAIN)%nat then Throw (InsufficientServers (length l) MIN_CHAIN)
  else chain_or_error (build_chain_unchecked sha256 l).

End Clients.

(** ** The check of a chain *)

(** The fields are what their types hold. *)
Definition att_ok (a : RoughtimeAttestation) : Prop :=
  0 <= midp a < 2 ^ 64 /\ 0 <= radi a < 2 ^ 32.

(** No attestation starts after the next one ended. *)
Definition ordered (l : list RoughtimeAttestation) : Prop :=
  forall i a b, l !! i = Some a -> l !! S i = Some b -> midp a - radi a <= midp b + radi b.

Definition close_together (l : list RoughtimeAttestation) : Prop :=
  forall a b, a ∈ l -> b ∈ l -> midp a - midp b <= 2.

Lemma windows_Ok f i prev rest :
  windows f i prev rest = Ok tt
  <-> forall j a b, (prev :: rest) !! j = Some a -> (prev :: rest) !! S j = Some b -> f (i + j)%nat a b = None.
Proof.
  revert i prev. induction rest as [|x rest IH]; intros i prev; cbn [windows].
  { split; [|done]. intros _ j a b _ H. by destruct j. }
  destruct (f i prev x) eqn:E.
  - split; [done|]. intros H. specialize (H 0%nat prev x eq_refl eq_refl). rewrite Nat.add_0_r in H. congruence.
  - rewrite IH. split; intros H [|j] a b Ha Hb.
    + rewrite Nat.add_0_r. cbn in Ha, Hb. by simplify_eq.
    + rewrite Nat.add_succ_r. by apply (H j).
    + specialize (H 1%nat a b Ha Hb). by rewrite Nat.add_0_r, <- Nat.add_1_r.
    + specialize (H (S (S j)) a b Ha Hb). by rewrite Nat.add_succ_r in H.
Qed.

Lemma each_window_Ok f l :
  each_window f l = Ok tt <-> forall j a b, l !! j = Some a -> l !! S j = Some b -> f (S j) a b = None.
Proof. destruct l as [|x l]; [split; [|done]; by intros _ [|]|]. apply windows_Ok. Qed.

Lemma ordering_Ok l : Forall att_ok l -> verify_causal_ordering l = Ok tt <-> ordered l.
Proof.
  rewrite Forall_lookup. intros Hok. unfold verify_causal_ordering. rewrite each_window_Ok.
  unfold ordered. split; intros H i a b Ha Hb; specialize (H i a b Ha Hb).
  all: destruct (Hok _ _ Ha) as (A1 & A2), (Hok _ _ Hb) as (B1 & B2).
  all: revert H; unfold saturating_sub, saturating_add; cbv zeta; case_match eqn:E; zbool; intros H; first [done | lia | exfalso; lia].
Qed.

Lemma iter_max_spec l : l <> [] -> exists m, iter_max l = Some m /\ (forall y, y ∈ l -> y <= m) /\ m ∈ l.
Proof. destruct l as [|x l]; [done|]. intros _. eexists. split; [done|]. apply foldl_max_spec. Qed.
Lemma iter_min_spec l : l <> [] -> exists m, iter_min l = Some m /\ (forall y, y ∈ l -> m <= y) /\ m ∈ l.
Proof. destruct l as [|x l]; [done|]. intros _. eexists. split; [done|]. apply foldl_min_spec. Qed.

Lemma spread_Ok l : verify_spread l = Ok tt <-> close_together l.
Proof.
  destruct (decide (l = [])) as [->|Hne].
  { split; [|done]. intros _ a b Ha. by apply elem_of_nil in Ha. }
  assert (midp <$> l <> []) as Hm by by destruct l.
  destruct (iter_max_spec _ Hm) as (M & E1 & M1 & (a & Ea & Ha)%list_elem_of_fmap).
  destruct (iter_min_spec _ Hm) as (N & E2 & N1 & (b & Eb & Hb)%list_elem_of_fmap).
  unfold verify_spread, CHAIN_SPREAD_TOLERANCE_SECS. rewrite E1, E2. cbn [default]. cbv zeta.
  unfold saturating_sub, from_option, id. case_match eqn:E; zbool.
  - split; [done|]. intros H. specialize (H a b Ha Hb). lia.
  - split; [|done]. intros _ c d Hc%(list_elem_of_fmap_2 midp) Hd%(list_elem_of_fmap_2 midp).
    specialize (M1 _ Hc). specialize (N1 _ Hd). lia.
Qed.

(** *** The median *)

Lemma sorted_midps l x : x ∈ merge_sort Z.le (midp <$> l) -> exists a, a ∈ l /\ midp a = x.
Proof.
  rewrite (merge_sort_Permutation Z.le (midp <$> l)). intros (a & -> & H)%list_elem_of_fmap. by exists a.
Qed.

Lemma length_sorted_midps l : length (merge_sort Z.le (midp <$> l)) = length l.
Proof. rewrite (merge_sort_Permutation Z.le (midp <$> l)). apply length_fmap. Qed.

Lemma synth_panics chain : synthesise_timestamp chain = Throw Panic <-> attestations chain = [].
Proof.
  unfold synthesise_timestamp. cbv zeta. set (ms := merge_sort _ _).
  assert (length ms = length (attestations chain)) as Hl by apply length_sorted_midps.
  destruct (attestations chain) as [|a l] eqn:E.
  { split; [done|]. intros _. by rewrite Hl. }
  split; [|done]. intros H. exfalso. revert H.
  assert (0 < length ms)%nat as Hpos by (rewrite Hl; simpl; lia).
  pose proof (Nat.div_lt (length ms) 2 ltac:(lia) ltac:(lia)) as Hd.
  destruct (lookup_lt_is_Some_2 ms (length ms / 2 - 1) ltac:(lia)) as [x Hx].
  destruct (lookup_lt_is_Some_2 ms (length ms / 2) ltac:(lia)) as [y Hy].
  destruct (length ms) as [|n]; [lia|]. rewrite Hx, Hy. by destruct (Nat.even (S n)).
Qed.

Lemma synth_total chain : attestations chain <> [] -> exists v, synthesise_timestamp chain = Ok v.
Proof.
  intros H. destruct (synthesise_timestamp chain) as [v|[e|]] eqn:E; [by exists v| |by apply synth_panics in E].
  exfalso. revert E. unfold synthesise_timestamp. cbv zeta. repeat case_match; congruence.
Qed.

(** Without wrapping, the median lies between two midpoints, and the radius is
    the largest. *)
Lemma synth_between chain m r :
  Forall (fun a => 0 <= midp a < 2 ^ 63) (attestations chain) -> synthesise_timestamp chain = Ok (m, r) ->
  (exists a b, a ∈ attestations chain /\ b ∈ attestations chain /\ midp a <= m <= midp b)
  /\ (forall a, a ∈ attestations chain -> radi a <= r).
Proof.
  rewrite Forall_forall. intros Hs H. split.
  - revert H. unfold synthesise_timestamp. cbv zeta. set (ms := merge_sort _ _). repeat case_match; try done.
    + intros [= <- _].
      destruct (sorted_midps (attestations chain) z) as (a & Ha & Ea); [by eapply list_elem_of_lookup_2|].
      destruct (sorted_midps (attestations chain) z0) as (b & Hb & Eb); [by eapply list_elem_of_lookup_2|].
      pose proof (Hs a Ha). pose proof (Hs b Hb). unfold u64. rewrite Z.mod_small by lia.
      destruct (Z.le_ge_cases z z0); [exists a, b|exists b, a]; split_and!; try done; subst;
        first [apply Z.div_le_upper_bound|apply Z.div_le_lower_bound]; lia.
    + intros [= <- _]. destruct (sorted_midps (attestations chain) z) as (a & Ha & Ea); [by eapply list_elem_of_lookup_2|].
      exists a, a. split_and!; (done || lia).
  - intros a Ha. assert (radi <$> attestations chain <> []) as Hne by (by destruct (attestations chain); [apply elem_of_nil in Ha|]).
    destruct (iter_max_spec _ Hne) as (M & E & HM & _).
    assert (r = M) as ->; [|by apply HM, list_elem_of_fmap_2].
    revert H. unfold synthesise_timestamp. rewrite E. cbv zeta. repeat case_match; intros ?; by simplify_eq/=.
Qed.

Section Acceptance.
Context (sha256 : Buffer -> Buffer).

Lemma verify_chain_unfold chain t digest :
  Forall att_ok (attestations chain) ->
  compute_chain_digest sha256 (attestations chain) = digest ->
  ordered (attestations chain) -> close_together (attestations chain) ->
  verify_chain_against_pot sha256 chain t digest =
    '(med, r) ← synthesise_timestamp chain;
    let diff := if med <=? t / 1000000000 then t / 1000000000 - med else med - t / 1000000000 in
    if r + 1 <? diff then Throw (Err (TimestampDrift diff)) else Ok med.
Proof.
  intros Hok <- Ho%(ordering_Ok _ Hok) Hs%spread_Ok. unfold verify_chain_against_pot.
  rewrite bool_decide_eq_true_2 by done. cbn [negb]. by rewrite Ho, Hs.
Qed.

Lemma verify_chain_inv chain t digest (b : rres ChainError Z) :
  Forall att_ok (attestations chain) -> verify_chain_against_pot sha256 chain t digest = b ->
  (forall e, b <> Throw (Err e)) ->
  compute_chain_digest sha256 (attestations chain) = digest /\ ordered (attestations chain)
  /\ close_together (attestations chain).
Proof.
  intros Hok H Hb. revert H. unfold verify_chain_against_pot. case_bool_decide as E; cbn [negb]; [|by intros <-; destruct (Hb DigestMismatch)].
  destruct (verify_causal_ordering _) as [[]|e] eqn:E1; cbn [lift mbind result_bind]; [|by intros <-; destruct (Hb e)].
  destruct (verify_spread _) as [[]|e] eqn:E2; cbn [lift mbind result_bind]; [|by intros <-; destruct (Hb e)].
  intros _. split_and!; [done|by apply ordering_Ok|by apply spread_Ok].
Qed.

Lemma drift_small med s r (b : Z) :
  (if r + 1 <? (if med <=? s then s - med else med - s) then Throw (Err (TimestampDrift (if med <=? s then s - med else med - s))) else Ok med : rres ChainError Z) = Ok b
  <-> b = med /\ Z.abs (s - med) <= r + 1.
Proof.
  destruct (Z.leb_spec med s); case_match; zbool; split; try done; try (intros [= <-]; lia); try (intros [-> ?]; (done || lia)).
Qed.

(** C7: a chain is accepted for the time of a proof exactly when its digest is
    the expected one, every attestation overlaps its successor, all midpoints
    lie within two seconds, and the proof's second is within the largest radius
    plus one of the median, which is returned; then the proof is within the
    largest radius plus three seconds of every midpoint (for midpoints below
    2^63, where the sum of the middle two does not wrap).  The check panics
    exactly on the empty chain with a matching digest. *)
Theorem chain_acceptance_exact chain t digest med :
  Forall att_ok (attestations chain) ->
  (verify_chain_against_pot sha256 chain t digest = Ok med
   <-> compute_chain_digest sha256 (attestations chain) = digest /\ ordered (attestations chain)
       /\ close_together (attestations chain)
       /\ exists r, synthesise_timestamp chain = Ok (med, r) /\ Z.abs (t / 1000000000 - med) <= r + 1)
  /\ (verify_chain_against_pot sha256 chain t digest = Ok med ->
      Forall (fun a => midp a < 2 ^ 63) (attestations chain) ->
      exists r, forall a, a ∈ attestations chain ->
        radi a <= r /\ Z.abs (med - midp a) <= 2 /\ Z.abs (t / 1000000000 - midp a) <= r + 3)
  /\ (verify_chain_against_pot sha256 chain t digest = Throw Panic
      <-> attestations chain = [] /\ digest = compute_chain_digest sha256 []).
Proof.
  intros Hok.
  assert (verify_chain_against_pot sha256 chain t digest = Ok med
   <-> compute_chain_digest sha256 (attestations chain) = digest /\ ordered (attestations chain)
       /\ close_together (attestations chain)
       /\ exists r, synthesise_timestamp chain = Ok (med, r) /\ Z.abs (t / 1000000000 - med) <= r + 1) as Hiff.
  { split.
    - intros H. destruct (verify_chain_inv _ _ _ _ Hok H ltac:(done)) as (Hd & Ho & Hs). split_and!; [done..|].
      rewrite verify_chain_unfold in H by done. apply result_bind_Ok in H as ([m r] & E & [-> H]%drift_small).
      by exists r.
    - intros (Hd & Ho & Hs & r & E & H). rewrite verify_chain_unfold, E by done. by apply drift_small. }
  split_and!; [done| |].
  - intros (_ & _ & Hs & r & E & Hr)%Hiff Hlt. exists r. intros a Ha.
    destruct (synth_between chain med r) as [(x & y & Hx & Hy & Hm) Hmax]; [|done|].
    { rewrite Forall_forall in *. intros c Hc. destruct (Hok c Hc). specialize (Hlt c Hc). lia. }
    pose proof (Hs a x Ha Hx). pose proof (Hs y a Hy Ha). pose proof (Hmax a Ha). lia.
  - split.
    + intros H. destruct (verify_chain_inv _ _ _ _ Hok H ltac:(done)) as (Hd & Ho & Hs).
      rewrite verify_chain_unfold in H by done.
      destruct (synthesise_timestamp chain) as [[m r]|e] eqn:E; cbn [mbind result_bind] in H.
      * exfalso. revert H. cbv zeta. by case_match.
      * injection H as ->. apply synth_panics in E. rewrite E in Hd. done.
    + intros [E ->]. rewrite verify_chain_unfold; rewrite ?E; try done.
      * by rewrite (proj2 (synth_panics chain) E).
      * intros a b Ha. by apply elem_of_nil in Ha.
Qed.

End Acceptance.

(** ** The clients *)

Section ClientChains.
Context (sha256 sha512 : Buffer -> Buffer).
Variable hex_decode : jsstr -> option Buffer.
Variable rng : nat -> Buffer.

Abbreviation query_all' := (query_all sha512 rng).

(** The attestation records the nonce of the request. *)
Definition echoes (query : RoughtimeServerEntry -> Buffer -> Buffer -> result ClientError RoughtimeAttestation) : Prop :=
  forall s n b a, query s n b = Ok a -> nonce a = n.

Lemma query_entry_echoes exchange : echoes (query_entry hex_decode exchange).
Proof.
  intros s n b a. unfold query_entry, query_server. repeat case_match; try done.
  intros (raw & _ & H')%result_bind_Ok. revert H'. by case_match; [intros [= <-]|].
Qed.

Lemma query_all_linked query i servers n :
  echoes query -> verify_nonce_chain sha512 (query_all' query i servers n) = Ok tt.
Proof.
  intros Hq. unfold verify_nonce_chain. set (f := fun i prev a => _).
  assert (forall servers i j prev, windows f j prev (query_all' query i servers (next_nonce sha512 prev)) = Ok tt) as Hw.
  { clear servers i. induction servers as [|s servers IH]; intros i j prev; [done|]. cbn [query_all]. cbv zeta.
    destruct (query s _ _) as [a|] eqn:E; [|apply IH]. cbn [windows]. apply Hq in E.
    unfold f at 1. rewrite bool_decide_eq_true_2 by done. apply IH. }
  revert i n. induction servers as [|s servers IH]; intros i n; [done|]. cbn [query_all]. cbv zeta.
  destruct (query s n _) as [a|]; [apply Hw|apply IH].
Qed.

(** Whatever the network answers, the nonce check of the chain the client
    built passes: it compares nonces the client computed with themselves.  So
    [build_roughtime_chain] is the loop with the unchecked builder, and
    [NonceMismatch] cannot occur. *)
Lemma nonce_check_vacuous exchange min_k :
  build_roughtime_chain sha256 sha512 hex_decode exchange rng min_k
  = (let l := query_all' (query_entry hex_decode exchange) 1 ROUGHTIME_SERVERS (rng 0%nat) in
     if (length l <? min_k)%nat then Throw (InsufficientServers (length l) min_k)
     else chain_or_error (build_chain_unchecked sha256 l)).
Proof.
  unfold build_roughtime_chain, build_chain, build_chain_unchecked. cbv zeta.
  by rewrite query_all_linked by apply query_entry_echoes.
Qed.

(** *** A forged answer *)

(** A datagram that needs no key: a zero signature over the time [t], no
    certificate, no nonce, no Merkle path. *)
Definition srep_pairs (t : Z) : list (Buffer * Buffer) :=
  [(tagU32 "RADI", le_bytes 4 0); (tagU32 "MIDP", le_bytes 8 t); (tagU32 "ROOT", zeros 32)].
Definition forged_srep (t : Z) : Buffer := ok_or_empty (buildMessage (srep_pairs t)).
Definition top_pairs (t : Z) : list (Buffer * Buffer) :=
  [(tagU32 "SIG", zeros 64); (tagU32 "SREP", forged_srep t)].
Definition forged (t : Z) : Buffer := datagram (ok_or_empty (buildMessage (top_pairs t))).

(** A message built from a few pairs, read by the Rust parser. *)
Lemma built_message pairs :
  pairs_ok pairs -> (0 < length pairs <= 64)%nat ->
  let msg := ok_or_empty (buildMessage pairs) in
  length msg = (8 * length pairs + length (concat pairs.*2))%nat
  /\ parseMessage msg = Some ((fun p => (tagKey p.1, p.2)) <$> pairs)
  /\ exists m, RtWire.parse_msg msg = Some m /\ RtWire.same_values ((fun p => (tagKey p.1, p.2)) <$> pairs) m.
Proof.
  intros Hok Hn. destruct (parse_build pairs Hok) as (msg & E & Hl & Hp). cbv zeta. rewrite E. cbn [ok_or_empty].
  split_and!; [rewrite Hl; destruct (decide _) as [->|]; simpl in *; lia|done|].
  apply RtWire.parse_msg_some; [done|]. rewrite buildMessage_ok in E by done.
  assert (forall a b : Buffer, Ok a = Ok b :> res Buffer -> a = b) as Hi by congruence. apply Hi in E. subst msg.
  unfold RtWire.tag_count, slice. rewrite drop_0. cbn [Nat.sub].
  rewrite take_app_le by (by rewrite length_le_bytes). rewrite firstn_all2 by (by rewrite length_le_bytes).
  rewrite le_val_le_bytes_small by (change (256 ^ Z.of_nat 4) with (2 ^ 32); lia). lia.
Qed.

(** The conditions on the pairs of a short message; [H] is the length of a
    nested one. *)
Ltac pairs_ok_tac H :=
  split_and!;
    [by repeat constructor|refine (bool_decide_unpack _ _); vm_compute; exact I|done
    |cbn [fmap list_fmap snd concat srep_pairs top_pairs]; rewrite !length_app, ?length_le_bytes, ?H; vm_compute; done].

Lemma forged_srep_spec t :
  length (forged_srep t) = 68%nat
  /\ exists m, RtWire.parse_msg (forged_srep t) = Some m
       /\ RtWire.same_values ((fun p => (tagKey p.1, p.2)) <$> srep_pairs t) m.
Proof.
  destruct (built_message (srep_pairs t)) as (Hl & _ & Hm); [pairs_ok_tac length_le_bytes|simpl; lia|].
  split; [|exact Hm]. unfold forged_srep. rewrite Hl. cbn [fmap list_fmap snd concat srep_pairs].
  by rewrite !length_app, !length_le_bytes.
Qed.

Lemma top_message t :
  let msg := ok_or_empty (buildMessage (top_pairs t)) in
  length msg = 148%nat
  /\ parseMessage msg = Some ((fun p => (tagKey p.1, p.2)) <$> top_pairs t)
  /\ exists m, RtWire.parse_msg msg = Some m /\ RtWire.same_values ((fun p => (tagKey p.1, p.2)) <$> top_pairs t) m.
Proof.
  destruct (forged_srep_spec t) as [Hls _]. destruct (built_message (top_pairs t)) as (Hl & Hp & Hm);
    [pairs_ok_tac Hls|simpl; lia|].
  split; [|done]. rewrite Hl. cbn [fmap list_fmap snd concat top_pairs length]. by rewrite !length_app, Hls.
Qed.

Lemma datagram_header msg :
  Z.of_nat (length msg) < 2 ^ 32 ->
  le_val (slice (datagram msg) 0 8) = RtWire.ROUGHTIME_MAGIC
  /\ RtWire.msg_len (datagram msg) = Z.of_nat (length msg) /\ RtWire.body (datagram msg) = msg
  /\ length (datagram msg) = (12 + length msg)%nat.
Proof.
  intros H. assert (length ROUGHTIME_MAGIC = 8%nat) as H8 by done.
  assert (length (datagram msg) = (12 + length msg)%nat) as Hl
    by (unfold datagram; rewrite !length_app, H8, length_le_bytes; lia).
  assert (RtWire.msg_len (datagram msg) = Z.of_nat (length msg)) as Hm.
  { unfold RtWire.msg_len. rewrite <- (le_val_le_bytes_small 4 (Z.of_nat (length msg))) by (change (256 ^ Z.of_nat 4) with (2 ^ 32); lia).
    done. }
  split_and!; [|done| |done].
  - unfold datagram, slice. rewrite drop_0. cbn [Nat.sub]. rewrite take_app_le by done. by vm_compute.
  - rewrite <- RtWire.body_subarray by (rewrite Hl, Hm; lia). by apply datagram_body.
Qed.

Lemma forged_parses t :
  0 <= t < 2 ^ 64 ->
  length (forged t) = 160%nat
  /\ exists r, RtWire.parse_roughtime_response (forged t) = Some r
      /\ RtWire.midp r = t /\ RtWire.radi r = 0 /\ RtWire.mint r = 0 /\ RtWire.maxt r = RtWire.U64_MAX.
Proof.
  intros Ht. destruct (forged_srep_spec t) as (Hls & sm & Es & Hs).
  destruct (top_message t) as (Hl' & _ & om & Eo & Ho).
  unfold forged. set (msg := ok_or_empty (buildMessage (top_pairs t))) in *.
  destruct (datagram_header msg) as (H1 & H2 & H3 & H4); [rewrite Hl'; done|].
  split; [by rewrite H4, Hl'|]. unfold RtWire.parse_roughtime_response.
  change (slice (datagram msg) 12 _) with (RtWire.body (datagram msg)).
  change (le_val (slice (datagram msg) 8 12)) with (RtWire.msg_len (datagram msg)).
  rewrite H1, H2, H3, H4, Hl'. cbn [Nat.ltb Nat.leb Nat.add]. rewrite Z.eqb_refl. cbn [negb].
  replace (Z.of_nat 160 <? _) with false by done. cbv iota zeta. rewrite Eo. cbn [mbind option_bind].
  rewrite (RtWire.get_fixed_some _ _ 64 RtWire.SIG (zeros 64) Ho) by (by vm_compute). cbn [mbind option_bind].
  assert (om !! RtWire.SREP = Some (forged_srep t)) as -> by (rewrite (Ho RtWire.SREP); done).
  cbn [mbind option_bind]. rewrite Es. cbn [mbind option_bind]. unfold RtWire.get_u64_le, RtWire.get_u32_le.
  rewrite (RtWire.get_fixed_some _ _ 8 RtWire.MIDP (le_bytes 8 t) Hs) by (by rewrite ?length_le_bytes).
  rewrite (RtWire.get_fixed_some _ _ 4 RtWire.RADI (le_bytes 4 0) Hs) by done.
  rewrite (RtWire.get_fixed_some _ _ 32 RtWire.ROOT (zeros 32) Hs) by done.
  cbn [fmap option_fmap option_map mbind option_bind].
  assert (RtWire.delegation om = RtWire.no_delegation) as ->
    by (unfold RtWire.delegation; by rewrite (Ho RtWire.CERT)).
  cbn [RtWire.no_delegation]. eexists. split; [done|]. cbn. split_and!; try done.
  by apply (le_val_le_bytes_small 8).
Qed.

(** TypeScript refuses the same datagram, whatever its keys and signatures say. *)
Lemma forged_refused {K} (createPublicKey : Buffer -> res K) crypto_verify request key n t :
  validateRoughtimeResponse sha512 createPublicKey crypto_verify request (forged t) key n = fail.
Proof.
  destruct (top_message t) as (Hl & Hp & _).
  unfold forged. set (msg := ok_or_empty (buildMessage (top_pairs t))) in *.
  destruct (datagram_body msg) as [H12 Hb]; [rewrite Hl; done|]. unfold validateRoughtimeResponse.
  replace (length (datagram msg) <? 12)%nat with false by (symmetry; by apply Nat.ltb_ge).
  rewrite read_msgLen by done. cbn [mbind result_bind]. rewrite Hb, Hp. cbn [opt mbind result_bind].
  set (m := _ <$> _). by assert (jm_get m (tag "NONC") = None) as -> by reflexivity.
Qed.

(** An attestation of the time [t] with radius 0. *)
Definition at_time (t : Z) (a : RoughtimeAttestation) : Prop := midp a = t /\ radi a = 0.

Lemma query_all_uniform query (P : RoughtimeAttestation -> Prop) servers i n :
  Forall (fun s => forall n b, exists a, query s n b = Ok a /\ P a) servers ->
  Forall P (query_all' query i servers n) /\ length (query_all' query i servers n) = length servers.
Proof.
  intros H. revert i n. induction H as [|s servers Hs _ IH]; intros i n; [done|].
  cbn [query_all]. cbv zeta. destruct (Hs n (rng i)) as (a & -> & Ha).
  destruct (IH (S i) (next_nonce sha512 a)) as [H1 H2]. split; [by constructor|]. simpl. by rewrite H2.
Qed.

Lemma uniform_chain l t :
  Forall (at_time t) l -> length l = 3%nat -> 0 <= t < 2 ^ 64 ->
  build_chain_unchecked sha256 l = Ok {| attestations := l; chain_digest := compute_chain_digest sha256 l |}
  /\ synthesise_timestamp {| attestations := l; chain_digest := compute_chain_digest sha256 l |} = Ok (t, 0).
Proof.
  intros Ha Hl Ht. pose proof (proj1 (Forall_forall _ _) Ha) as Hall. destruct l as [|a1 [|a2 [|a3 [|]]]]; [done..| |done]. 
  repeat match goal with H : Forall _ (_ :: _) |- _ => apply Forall_cons in H as [[? ?] ?] end.
  assert (Forall att_ok [a1; a2; a3]) as Hok by (repeat constructor; unfold att_ok; lia).
  unfold build_chain_unchecked. cbn [length]. cbn [MIN_CHAIN_LEN Nat.ltb Nat.leb].
  rewrite (proj2 (ordering_Ok _ Hok)), (proj2 (spread_Ok [a1; a2; a3])); [split; [done|]| |].
  - unfold synthesise_timestamp. cbv zeta. cbn [attestations fmap list_fmap].
    replace (midp a1) with t by done. replace (midp a2) with t by done. replace (midp a3) with t by done.
    replace (radi a1) with 0 by done. replace (radi a2) with 0 by done. replace (radi a3) with 0 by done.
    assert (merge_sort Z.le [t; t; t] = [t; t; t]) as ->; [|done].
    symmetry. apply (replicate_Permutation 3 t). symmetry. apply merge_sort_Permutation.
  - intros x y Hx%Hall Hy%Hall. destruct Hx, Hy. lia.
  - intros i x y Hx%list_elem_of_lookup_2%Hall Hy%list_elem_of_lookup_2%Hall. destruct Hx, Hy. lia.
Qed.

(** The hex decoder reads what an encoder wrote. *)
Hypothesis hex_decode_encode : forall b, hex_decode (to_hex b) = Some b.

Lemma server_keys : Forall (fun s => exists k, hex_decode (pubkey_hex s) = Some k /\ length k = 32%nat) ROUGHTIME_SERVERS.
Proof.
  repeat constructor.
  all: match goal with |- exists k, hex_decode ?h = _ /\ _ => exists (from_hex h); split; [|done] end.
  all: match goal with |- hex_decode ?h = _ => rewrite <- (hex_decode_encode (from_hex h)); f_equal; by vm_compute end.
Qed.

Definition everywhere (d : Buffer) (_ : jsstr) (_ : Buffer) : result net_error Buffer := Ok d.

Lemma forged_queries t s n b :
  0 <= t < 2 ^ 64 -> (exists k, hex_decode (pubkey_hex s) = Some k /\ length k = 32%nat) ->
  (exists a, query_entry hex_decode (everywhere (forged t)) s n b = Ok a /\ at_time t a)
  /\ (exists a, query_entry_async hex_decode (everywhere (forged t)) s n b = Ok a /\ at_time t a).
Proof.
  intros Ht (k & Hk & Hk2). destruct (forged_parses t Ht) as (Hl & r & Hr & <- & Hrad & Hmin & Hmax).
  unfold query_entry, query_entry_async, query_server, query_one_server, receive, everywhere. rewrite Hk, Hk2.
  cbn [Nat.eqb mbind result_bind].
  rewrite !firstn_all2 by (rewrite Hl; apply Nat.leb_le; vm_compute; reflexivity). rewrite Hr, Hmin, Hmax.
  rewrite (proj2 (Z.ltb_ge (RtWire.midp r) 0)), (proj2 (Z.ltb_ge RtWire.U64_MAX (RtWire.midp r)))
    by (unfold RtWire.U64_MAX; lia).
  cbn [orb]. split; eexists; (split; [reflexivity|split; [reflexivity|exact Hrad]]).
Qed.

(** C5: neither client checks who answered.  One datagram, made without a key
    and without seeing the request, makes both clients build a chain in which
    every server attests the time [t] the attacker chose, for whatever nonces
    they drew; the chain passes the check against a proof of that time.  The
    TypeScript client refuses the same datagram. *)
Theorem forged_chain_accepted t :
  0 <= t < 2 ^ 64 ->
  let net := everywhere (forged t) in
  (exists c c',
     build_roughtime_chain sha256 sha512 hex_decode net rng MIN_CHAIN_LEN = Ok c
     /\ build_roughtime_chain_async sha256 sha512 hex_decode net rng = Ok c'
     /\ Forall (fun ch => length (attestations ch) = 3%nat /\ Forall (at_time t) (attestations ch)
          /\ forall t_ns, t_ns / 1000000000 = t ->
              verify_chain_against_pot sha256 ch t_ns (chain_digest ch) = Ok t) [c; c'])
  /\ (forall (K : Type) (createPublicKey : Buffer -> res K) crypto_verify request key n,
        validateRoughtimeResponse sha512 createPublicKey crypto_verify request (forged t) key n = fail).
Proof.
  intros Ht net. split; [|intros; apply forged_refused].
  assert (forall l, Forall (at_time t) l -> length l = 3%nat -> forall t_ns, t_ns / 1000000000 = t ->
    verify_chain_against_pot sha256 {| attestations := l; chain_digest := compute_chain_digest sha256 l |} t_ns
      (compute_chain_digest sha256 l) = Ok t) as Hver.
  { intros l Ha Hl t_ns Hns. destruct (uniform_chain l t Ha Hl Ht) as [Hb Hs].
    apply (f_equal is_ok) in Hb. revert Hb. unfold build_chain_unchecked. rewrite Hl. cbn [Nat.ltb Nat.leb MIN_CHAIN_LEN].
    unfold verify_chain_against_pot. cbn [attestations]. rewrite bool_decide_eq_true_2 by done. cbn [negb].
    destruct (verify_causal_ordering l) as [[]|]; [|done]. cbn [lift mbind result_bind].
    destruct (verify_spread l) as [[]|]; [|done]. cbn [lift mbind result_bind]. intros _. rewrite Hs.
    cbn [mbind result_bind]. by rewrite Hns, Z.leb_refl, Z.sub_diag. }
  destruct (query_all_uniform (query_entry hex_decode net) (at_time t) ROUGHTIME_SERVERS 1 (rng 0%nat)) as [A1 A2];
    [eapply Forall_impl; [exact server_keys|]; intros s Hs n b; exact (proj1 (forged_queries t s n b Ht Hs))|].
  destruct (query_all_uniform (query_entry_async hex_decode net) (at_time t) ROUGHTIME_SERVERS 1 (rng 0%nat)) as [B1 B2];
    [eapply Forall_impl; [exact server_keys|]; intros s Hs n b; exact (proj2 (forged_queries t s n b Ht Hs))|].
  change (length ROUGHTIME_SERVERS) with 3%nat in *.
  destruct (uniform_chain _ t A1 A2 Ht) as [U1 _], (uniform_chain _ t B1 B2 Ht) as [U2 _].
  do 2 eexists. split_and!.
  - unfold build_roughtime_chain, build_chain. cbv zeta. rewrite A2, query_all_linked by apply query_entry_echoes.
    unfold build_chain_unchecked in U1. rewrite A2 in U1. cbn [Nat.ltb Nat.leb MIN_CHAIN_LEN mbind result_bind] in *.
    by rewrite U1.
  - unfold build_roughtime_chain_async. cbv zeta. rewrite B2, U2. cbn [Nat.ltb Nat.leb MIN_CHAIN]. done.
  - apply Forall_cons. split; [exact (conj A2 (conj A1 (Hver _ A1 A2)))|].
    apply Forall_singleton. exact (conj B2 (conj B1 (Hver _ B1 B2))).
Qed.

End ClientChains.

(** ** Witnesses *)

Lemma forged_chain_accepted_witness :
  exists c, build_roughtime_chain (take 32) (fun b => b ++ zeros 64) (fun h => Some (from_hex h))
              (everywhere (forged 4000000000)) (fun _ => zeros 32) MIN_CHAIN_LEN = Ok c
    /\ verify_chain_against_pot (take 32) c 4000000000000000000 (chain_digest c) = Ok 4000000000.
Proof.
  destruct (forged_chain_accepted (take 32) (fun b => b ++ zeros 64) (fun h => Some (from_hex h))
    (fun _ => zeros 32) (fun b => f_equal Some (from_hex_to_hex b)) 4000000000 ltac:(lia)) as [(c & c' & H1 & _ & H3) _].
  exists c. split; [exact H1|]. apply Forall_cons in H3 as [(_ & _ & H3) _]. apply H3. reflexivity.
Defined.

Definition ex_att (midp radi : Z) : RoughtimeAttestation :=
  {| server_pubkey := zeros 32; server_name := js "test"; midp := midp; radi := radi; sig := zeros 64;
     root := zeros 32; nonce := zeros 32; blind := zeros 32; indx := 0; path := []; raw_response := [] |}.
Definition ex_chain (l : list RoughtimeAttestation) : RoughtimeChain :=
  {| attestations := l; chain_digest := digest_input l |}.

(** The cases of the crate's tests, and the wrapping median of midpoints from
    2^63 on. *)
Example spread_exceeded :
  verify_spread [ex_att 1700000000 1; ex_att 1700000001 1; ex_att 1700000100 1] = Throw (SpreadExceeded 100).
Proof. reflexivity. Qed.
Example ordering_violated :
  verify_causal_ordering [ex_att 1700000010 1; ex_att 1700000000 1; ex_att 1700000011 1] = Throw (OrderingViolated 0).
Proof. reflexivity. Qed.
Example median_wraps :
  synthesise_timestamp (ex_chain (replicate 4 (ex_att (2 ^ 63) 1))) = Ok (0, 1).
Proof. vm_compute. reflexivity. Qed.

Lemma chain_acceptance_exact_witness :
  exists r, forall a, a ∈ attestations (ex_chain [ex_att 1700000000 1; ex_att 1700000001 1; ex_att 1700000002 1]) ->
    radi a <= r /\ Z.abs (1700000001 - midp a) <= 2 /\ Z.abs (1700000001000000000 / 1000000000 - midp a) <= r + 3.
Proof.
  destruct (chain_acceptance_exact id (ex_chain [ex_att 1700000000 1; ex_att 1700000001 1; ex_att 1700000002 1])
    1700000001000000000 (chain_digest (ex_chain [ex_att 1700000000 1; ex_att 1700000001 1; ex_att 1700000002 1]))
    1700000001) as (_ & H & _).
  { repeat (apply Forall_cons; split; [unfold att_ok; cbn; lia|]). constructor. }
  apply H; [vm_compute; reflexivity|]. repeat (apply Forall_cons; split; [cbn; lia|]). constructor.
Defined.

End RtChain.
