(* ===== verification/RustOsnma.v ===== *)
(** * OSNMA key and issuer client of the Rust crate
    (src/src/roughtime: osnma.rs, issuer_client.rs)

    The Rust port of the OSNMA source is proved to answer like the TypeScript
    class of [Osnma] on the same key material, with one more check: the key
    must be a point of P-256.  The issuer client takes its address from the URL
    but always connects to port 80.  SHA-256, the curve, the hex decoder, JSON
    and the sockets are parameters. *)
From Stdlib Require Import ZArith Lia String Strings.Byte.
From stdpp Require Import base list numbers option strings.
From S2P Require Import Prelude JSString Errors Bytes JSNum Types Osnma Rust.

Module GalileoKey.

Record OsnmaKeyMaterial := {
  pkid : Z; pubkey_compressed : Buffer; merkle_root : Buffer; applicability_secs : Z;
}.

Record OsnmaVerificationResult := {
  valid : bool; r_pkid : Z; key_fingerprint : Buffer; r_applicability_secs : Z; checked_at_secs : Z;
}.

Inductive OsnmaError :=
  | InvalidKeyLength (got : nat) | InvalidKeyPrefix (got : Z) | InvalidMerkleLength (got : nat)
  | KeyNotYetApplicable (applicable_at : Z) | InvalidP256Key.

Definition OSNMA_PUBKEY_HEX : jsstr := js "02219204B5CA6C46B623EEED6CDD2CDDB1F7D6A7532767E5B8DA0DE1EBD695FC99".
Definition OSNMA_MERKLE_ROOT_HEX : jsstr := js "7B944FA20915C7931D48DD016D94F9C6381FD37DC6C125D97015272FDDE41393".
Definition OSNMA_APPLICABILITY_SECS : Z := 1765360800.

(** [SystemTime::now().duration_since(UNIX_EPOCH)] in nanoseconds; a clock
    before the epoch reads 0. *)
Definition now_secs (now_ns : Z) : Z := Z.max 0 now_ns / 1000000000.
Definition now_nanos (now_ns : Z) : Z := u64 (Z.max 0 now_ns).

Record OsnmaTimeSource := { key : OsnmaKeyMaterial; result_ : option OsnmaVerificationResult }.

Section Operations.
Variable sha256 : Buffer -> Buffer.
(** [VerifyingKey::from_sec1_bytes(..).is_ok()]. *)
Variable from_sec1_bytes : Buffer -> bool.
Variable hex_decode : jsstr -> option Buffer.

Definition default_osnma_key : result OsnmaError OsnmaKeyMaterial :=
  match hex_decode OSNMA_PUBKEY_HEX with
  | None => Throw (InvalidKeyLength 0)
  | Some pubkey_bytes =>
      if negb (length pubkey_bytes =? 33)%nat then Throw (InvalidKeyLength (length pubkey_bytes))
      else
        match hex_decode OSNMA_MERKLE_ROOT_HEX with
        | None => Throw (InvalidMerkleLength 0)
        | Some merkle_bytes =>
            if negb (length merkle_bytes =? 32)%nat then Throw (InvalidMerkleLength (length merkle_bytes))
            else Ok {| pkid := 2; pubkey_compressed := pubkey_bytes; merkle_root := merkle_bytes;
                       applicability_secs := OSNMA_APPLICABILITY_SECS |}
        end
  end.

(** [pubkey_compressed[0]] comes after the length test. *)
Definition verify_osnma_key_material (key : OsnmaKeyMaterial) (now_ns : Z)
    : result OsnmaError OsnmaVerificationResult :=
  if negb (length (pubkey_compressed key) =? 33)%nat then Throw (InvalidKeyLength (length (pubkey_compressed key)))
  else
    let prefix := bval (nth 0 (pubkey_compressed key) Byte.x00) in
    if negb (prefix =? 2) && negb (prefix =? 3) then Throw (InvalidKeyPrefix prefix)
    else if negb (length (merkle_root key) =? 32)%nat then Throw (InvalidMerkleLength (length (merkle_root key)))
    else if now_secs now_ns <? applicability_secs key then Throw (KeyNotYetApplicable (applicability_secs key))
    else if negb (from_sec1_bytes (pubkey_compressed key)) then Throw InvalidP256Key
    else Ok {| valid := true; r_pkid := pkid key; key_fingerprint := sha256 (pubkey_compressed key);
               r_applicability_secs := applicability_secs key; checked_at_secs := now_secs now_ns |}.

Definition new : result OsnmaError OsnmaTimeSource :=
  k ← default_osnma_key; Ok {| key := k; result_ := None |}.

(** Nanoseconds, an uncertainty of 50 ms, stratum 1. *)
Definition get_time (now1 now2 : Z) (s : OsnmaTimeSource) : OsnmaTimeSource * result OsnmaError (Z * Z * Z) :=
  let reading := (now_nanos now2, 50, 1) in
  match result_ s with
  | Some _ => (s, Ok reading)
  | None =>
      match verify_osnma_key_material (key s) now1 with
      | Ok r => ({| key := key s; result_ := Some r |}, Ok reading)
      | Throw e => (s, Throw e)
      end
  end.

Definition verification_result (s : OsnmaTimeSource) : option OsnmaVerificationResult := result_ s.

Fixpoint readings (l : list (Z * Z)) (s : OsnmaTimeSource) : list (result OsnmaError (Z * Z * Z)) :=
  match l with
  | [] => []
  | (now1, now2) :: l' => let '(s', r) := get_time now1 now2 s in r :: readings l' s'
  end.

(** ** The TypeScript source *)

(** The same key: hexadecimal text there, bytes here; milliseconds there,
    seconds here. *)
Record same_key (k : Osnma.OsnmaKeyMaterial) (r : OsnmaKeyMaterial) : Prop := {
  sk_pkid : Osnma.om_pkid k = num_of_Z (pkid r);
  sk_pubkey : from_hex (Osnma.om_publicKeyHex k) = pubkey_compressed r;
  sk_merkle : from_hex (Osnma.om_merkleRootHex k) = merkle_root r;
  sk_date : Osnma.om_applicabilityMs k = num_of_Z (applicability_secs r * 1000);
  sk_range : 0 <= applicability_secs r * 1000 < 2 ^ 53;
}.

(** A clock read in nanoseconds and in milliseconds. *)
Definition same_instant (ms ns : Z) : Prop := 0 <= ms < 2 ^ 53 /\ ns / 1000000 = ms.

Definition same_error (e : exn) (r : OsnmaError) : Prop :=
  let thrown name := @throw3 unit TTTTimeSynthesisError name = Throw e in
  match r with
  | InvalidKeyLength _ => thrown "OSNMA_KEY_LENGTH_INVALID"%string
  | InvalidKeyPrefix _ => thrown "OSNMA_KEY_PREFIX_INVALID"%string
  | InvalidMerkleLength _ => thrown "OSNMA_MERKLE_LENGTH_INVALID"%string
  | KeyNotYetApplicable _ => thrown "OSNMA_KEY_NOT_YET_APPLICABLE"%string
  | InvalidP256Key => False
  end.

Definition same_check (t : res Osnma.OsnmaVerificationResult) (r : result OsnmaError OsnmaVerificationResult)
    (pubkey : Buffer) : Prop :=
  match t, r with
  | Ok v, Ok w => Osnma.ov_keyFingerprint v = to_hex (key_fingerprint w) /\ from_sec1_bytes pubkey = true
  | Ok _, Throw e => e = InvalidP256Key /\ from_sec1_bytes pubkey = false
  | Throw e, Throw e' => same_error e e'
  | Throw _, Ok _ => False
  end.

Lemma instant_secs ms ns : same_instant ms ns -> now_secs ns = ms / 1000.
Proof. intros [H <-]. unfold now_secs. rewrite Z.max_r by zdiv. by rewrite Z.div_div by lia. Qed.

Lemma check_agrees k r ms ns :
  same_key k r -> same_instant ms ns ->
  same_check (Osnma.verifyOsnmaKeyMaterial sha256 k ms) (verify_osnma_key_material r ns) (pubkey_compressed r).
Proof.
  intros [_ Hp Hm Hd Hr] Hi. pose proof Hi as [Hms _].
  unfold Osnma.verifyOsnmaKeyMaterial, verify_osnma_key_material. rewrite Hp, Hm, Hd. cbv zeta.
  destruct (Nat.eqb_spec (length (pubkey_compressed r)) 33) as [Hl|]; [|done]. cbn [negb].
  destruct (pubkey_compressed r) as [|b pk] eqn:Epk; [done|]. cbn [head nth fmap option_fmap option_map].
  assert (forall z, bool_decide (Some (bval b) = Some z) = (bval b =? z)) as Hz.
  { intros z. destruct (Z.eqb_spec (bval b) z) as [->|Hn]; [by apply bool_decide_eq_true|].
    apply bool_decide_eq_false. by intros [= ?]. }
  rewrite !Hz. destruct (_ && _); [done|].
  destruct (Nat.eqb_spec (length (merkle_root r)) 32); [|done]. cbn [negb].
  rewrite nlt_of_Z by done. rewrite (instant_secs _ _ Hi).
  destruct (Z.ltb_spec ms (applicability_secs r * 1000)), (Z.ltb_spec (ms / 1000) (applicability_secs r)); try zdiv; [done|].
  destruct (from_sec1_bytes (b :: pk)) eqn:E; done.
Qed.

(** The sources hold the same key and were both checked or both not. *)
Definition same_source (s : Osnma.t) (r : OsnmaTimeSource) : Prop :=
  same_key (Osnma.keyMaterial s) (key r) /\ (is_Some (Osnma.verificationResult s) <-> is_Some (result_ r)).

(** A reading of both: the same instant to the millisecond, or the same error. *)
Definition same_reading (t : res TimeReading) (r : result OsnmaError (Z * Z * Z)) : Prop :=
  match t, r with
  | Ok x, Ok (ns, uncertainty_ms, stratum) =>
      tr_timestamp x <= ns < tr_timestamp x + 1000000
      /\ tr_uncertainty x = num_of_Z uncertainty_ms /\ tr_stratum x = stratum
  | Throw e, Throw e' => same_error e e'
  | _, _ => False
  end.

(** Times a u64 of nanoseconds holds: until the year 2554. *)
Definition in_range (c : (Z * Z) * (Z * Z)) : Prop :=
  same_instant c.1.1 c.2.1 /\ same_instant c.1.2 c.2.2 /\ 0 <= c.2.2 < 2 ^ 64.

Lemma get_time_agrees s r c :
  same_source s r -> in_range c -> from_sec1_bytes (pubkey_compressed (key r)) = true ->
  same_source (Osnma.getTime sha256 c.1.1 c.1.2 s).1 (get_time c.2.1 c.2.2 r).1
  /\ key (get_time c.2.1 c.2.2 r).1 = key r
  /\ same_reading (Osnma.getTime sha256 c.1.1 c.1.2 s).2 (get_time c.2.1 c.2.2 r).2.
Proof.
  intros [Hk Hv] (H1 & [_ H2] & H3) Hc.
  assert (same_reading (Ok {| tr_timestamp := c.1.2 * 1000000; tr_uncertainty := num_of_Z 50; tr_stratum := 1;
    tr_source := js "osnma" |}) (Ok (now_nanos c.2.2, 50, 1))) as Hread.
  { cbn. split_and!; [| |done|done]; unfold now_nanos, u64; rewrite Z.max_r, Z.mod_small by lia; zdiv. }
  unfold Osnma.getTime, get_time.
  destruct (Osnma.verificationResult s) as [v|] eqn:Es, (result_ r) as [w|] eqn:Er.
  - split_and!; [|done|done]. split; [done|]. cbn [fst]. by rewrite Es, Er.
  - destruct (proj1 Hv ltac:(by eexists)) as [? [=]].
  - destruct (proj2 Hv ltac:(by eexists)) as [? [=]].
  - pose proof (check_agrees _ _ _ _ Hk H1) as Hch.
    destruct (Osnma.verifyOsnmaKeyMaterial _ _ _) as [v|e], (verify_osnma_key_material _ _) as [w|e'];
      cbn [same_check] in Hch; [| |done|].
    + split_and!; [|done|done]. split; [done|]. cbn. split; by eexists.
    + destruct Hch as [_ Hch]. congruence.
    + split_and!; [|done|done]. split; [done|]. cbn [fst]. by rewrite Es, Er.
Qed.

(** C34: over any sequence of readings the Rust source answers like the
    TypeScript one: given the same key material and clocks, each reading is the
    same instant to the millisecond with the same uncertainty and stratum, or
    both refuse with the error of the same check.  The key is checked once in
    both.  Only the P-256 test, which TypeScript has not, is Rust's own: with a
    key it refuses and no earlier result, the Rust source answers no reading. *)
Theorem rust_osnma_refines_typescript s r clocks :
  same_source s r -> Forall in_range clocks ->
  (from_sec1_bytes (pubkey_compressed (key r)) = true ->
   Forall2 same_reading (Osnma.readings_of sha256 clocks.*1 s) (readings clocks.*2 r))
  /\ (from_sec1_bytes (pubkey_compressed (key r)) = false -> result_ r = None ->
      Forall (fun x => is_ok x = false) (readings clocks.*2 r)).
Proof.
  intros Hs Hc. split.
  - revert s r Hs. induction Hc as [|c clocks Hc _ IH]; intros s r Hs Hp; [constructor|].
    destruct (get_time_agrees s r c Hs Hc Hp) as (H1 & H2 & H3). destruct c as [[t1 t2] [n1 n2]].
    cbn [fmap list_fmap fst snd Osnma.readings_of readings] in *.
    destruct (Osnma.getTime sha256 t1 t2 s) as [s' x], (get_time n1 n2 r) as [r' y]. cbn [fst snd] in *.
    constructor; [done|]. apply IH; [done|]. by rewrite H2.
  - intros Hp Hr. clear Hs. induction Hc as [|[c [n1 n2]] clocks _ _ IH]; [constructor|].
    cbn [fmap list_fmap snd readings]. unfold get_time at 1. rewrite Hr.
    destruct (verify_osnma_key_material (key r) n1) as [w|e] eqn:E; [|by constructor].
    exfalso. revert E. unfold verify_osnma_key_material. rewrite Hp. cbv zeta. by repeat case_match.
Qed.

End Operations.
End GalileoKey.

Lemma rust_osnma_refines_typescript_witness :
  exists r, GalileoKey.new (fun h => Some (from_hex h)) = Ok r
    /\ Forall2 GalileoKey.same_reading
         (Osnma.readings_of (take 32) [(1765360799999, 1765360799999); (1765360800000, 1765360800001)]
            (Osnma.make None None None None None))
         (GalileoKey.readings (take 32) (fun _ => true)
            [(1765360799999000005, 1765360799999000007); (1765360800000000000, 1765360800001999999)] r).
Proof.
  destruct (GalileoKey.new (fun h => Some (from_hex h))) as [r|] eqn:E; [|discriminate].
  exists r. split; [reflexivity|]. vm_compute in E. injection E as <-.
  eapply (proj1 (GalileoKey.rust_osnma_refines_typescript (take 32) (fun _ => true) (Osnma.make None None None None None) _
    [((1765360799999, 1765360799999), (1765360799999000005, 1765360799999000007));
     ((1765360800000, 1765360800001), (1765360800000000000, 1765360800001999999))] _ _)).
  reflexivity.
  Unshelve.
  - split; [split; [vm_compute; reflexivity..|vm_compute; split; congruence]|].
    split; intros [x Hx]; discriminate Hx.
  - repeat constructor; discriminate.
Defined.

(** ** The issuer client *)

Module IssuerClient.

(** Text is its code units, as in [JSString]; a body's length is counted in
    bytes of UTF-8. *)
Definition DEFAULT_ISSUER_URL : jsstr := js "https://api.helm-protocol.io".
Definition POC_ISSUER_URL : jsstr := js "http://localhost:8080".

Inductive IssuerError := Http (why : jsstr) | Json (why : jsstr) | Timeout | IssuerRefused (why : jsstr).

Record t := { base_url : jsstr; timeout : Z }.

Definition new (base_url : jsstr) : t := {| base_url := base_url; timeout := 10 |}.
Definition with_timeout (self : t) (secs : Z) : t := {| base_url := base_url self; timeout := secs |}.

Definition strip_prefix (p s : jsstr) : option jsstr := if starts_with p s then Some (drop (length p) s) else None.

(** [s.find('/').unwrap_or(s.len())]. *)
Fixpoint find_slash (s : jsstr) : nat :=
  match s with [] => O | c :: s' => if c =? 47 then O else S (find_slash s') end.

Definition parse_url (url : jsstr) : result IssuerError (jsstr * jsstr) :=
  match (match strip_prefix (js "http://") url with Some s => Some s | None => strip_prefix (js "https://") url end) with
  | None => Throw (Http (js "invalid URL"))
  | Some stripped =>
      let slash := find_slash stripped in
      Ok (take slash stripped, if (slash <? length stripped)%nat then drop slash stripped else js "/")
  end.

Definition crlf : jsstr := [13; 10].

Definition request_text (path host body : jsstr) : jsstr :=
  js "POST " ++ path ++ js " HTTP/1.1" ++ crlf ++ js "Host: " ++ host ++ crlf
  ++ js "Content-Type: application/json" ++ crlf
  ++ js "Content-Length: " ++ z_to_dec (Z.of_nat (length (utf8_encode body))) ++ crlf
  ++ js "Connection: close" ++ crlf ++ crlf ++ body.

(** What follows the first blank line. *)
Fixpoint after_headers (s : jsstr) : option jsstr :=
  match s with
  | [] => None
  | _ :: s' => if starts_with (crlf ++ crlf) s then Some (drop 4 s) else after_headers s'
  end.

(** How the exchange on the stream can fail. *)
Inductive stream_fault := ConnectTimeout | Failed (why : jsstr).

Section Operations.
(** The address, the seconds to wait and the request give the whole response. *)
Variable exchange : jsstr -> Z -> jsstr -> result stream_fault jsstr.
Context {Req Resp : Type}.
Variable to_string : Req -> result jsstr jsstr.          (* serde_json *)
Variable from_str : jsstr -> result jsstr Resp.

Definition http_post (self : t) (url body : jsstr) : result IssuerError jsstr :=
  '(host, path) ← parse_url url;
  let addr := host ++ js ":80" in
  match exchange addr (timeout self) (request_text path host body) with
  | Throw ConnectTimeout => Throw Timeout
  | Throw (Failed why) => Throw (Http why)
  | Ok response =>
      match after_headers response with
      | Some b => Ok b
      | None => Throw (Http (js "no body in response"))
      end
  end.

Definition json_err {A} (r : result jsstr A) : result IssuerError A :=
  match r with Ok a => Ok a | Throw why => Throw (Json why) end.

(** [generate] and [verify_remote]: their URLs, the request as JSON, the
    response parsed. *)
Definition call (self : t) (suffix : jsstr) (req : Req) : result IssuerError Resp :=
  body ← json_err (to_string req);
  resp ← http_post self (base_url self ++ suffix) body;
  json_err (from_str resp).
Definition generate (self : t) (req : Req) : result IssuerError Resp := call self (js "/v1/pot/generate") req.
Definition verify_remote (self : t) (req : Req) : result IssuerError Resp := call self (js "/v1/pot/verify") req.

(** ** Properties *)

Lemma starts_with_app p s : starts_with p (p ++ s) = true.
Proof. unfold starts_with. rewrite take_app_length. by apply bool_decide_eq_true. Qed.

Lemma find_slash_app h s : Forall (fun c => c <> 47) h -> find_slash (h ++ s) = (length h + find_slash s)%nat.
Proof.
  induction 1 as [|c h Hc _ IH]; [done|]. cbn [app find_slash length Nat.add].
  rewrite (proj2 (Z.eqb_neq c 47)) by done. by rewrite IH.
Qed.

(** A URL of one of the two schemes: a host part without a slash, then a path
    that is empty or starts with one. *)
Lemma parse_url_parts scheme h p :
  scheme = js "http://" \/ scheme = js "https://" -> Forall (fun c => c <> 47) h ->
  p = [] \/ head p = Some 47 ->
  parse_url (scheme ++ h ++ p) = Ok (h, match p with [] => js "/" | _ => p end).
Proof.
  intros Hs Hh Hp. unfold parse_url, strip_prefix.
  assert (find_slash (h ++ p) = length h) as Hf.
  { rewrite find_slash_app by done. destruct Hp as [->|Hp]; [simpl; lia|]. destruct p as [|c p]; [done|].
    injection Hp as ->. simpl. lia. }
  assert ((match (if starts_with (js "http://") (scheme ++ h ++ p) then Some (drop (length (js "http://")) (scheme ++ h ++ p))
            else None) with Some s => Some s
            | None => if starts_with (js "https://") (scheme ++ h ++ p)
                      then Some (drop (length (js "https://")) (scheme ++ h ++ p)) else None end) = Some (h ++ p)) as ->.
  { destruct Hs as [-> | ->]; [by rewrite starts_with_app, drop_app_length|].
    replace (starts_with (js "http://") _) with false by done. by rewrite starts_with_app, drop_app_length. }
  cbv zeta. rewrite Hf, take_app_length, drop_app_length. destruct p as [|c p].
  - by rewrite app_nil_r, Nat.ltb_irrefl.
  - rewrite (proj2 (Nat.ltb_lt _ _)) by (rewrite length_app; simpl; lia). done.
Qed.

(** The client speaks plain HTTP to port 80 of whatever follows the scheme:
    for a base URL of a scheme and a host part, with a port or without one,
    both calls connect to the host part with ":80" appended and answer with
    what that connection gives.  An https URL is sent in clear, and a URL that
    names its port connects to an address with two ports. *)
Lemma issuer_always_port_80 scheme h secs req body :
  scheme = js "http://" \/ scheme = js "https://" -> Forall (fun c => c <> 47) h -> to_string req = Ok body ->
  forall suffix, suffix = js "/v1/pot/generate" \/ suffix = js "/v1/pot/verify" ->
  call (with_timeout (new (scheme ++ h)) secs) suffix req
  = match exchange (h ++ js ":80") secs (request_text suffix h body) with
    | Throw ConnectTimeout => Throw Timeout
    | Throw (Failed why) => Throw (Http why)
    | Ok response =>
        match after_headers response with
        | Some b => json_err (from_str b)
        | None => Throw (Http (js "no body in response"))
        end
    end.
Proof.
  intros Hs Hh Hb suffix Hsuf. unfold call. rewrite Hb. cbn [json_err mbind result_bind].
  unfold http_post. cbn [base_url with_timeout new timeout]. rewrite <- app_assoc.
  rewrite parse_url_parts by (first [done | destruct Hsuf as [-> | ->]; by right]).
  assert (match suffix with [] => js "/" | _ => suffix end = suffix) as -> by (by destruct Hsuf as [-> | ->]).
  cbn [mbind result_bind]. destruct (exchange _ _ _) as [resp|[|]]; [|done|done]. by destruct (after_headers resp).
Qed.

End Operations.

(** The proof-of-concept URL of the file: "localhost:8080:80". *)
Lemma issuer_always_port_80_witness :
  generate (fun addr _ _ => if bool_decide (addr = js "localhost:8080:80") then Throw (Failed (js "invalid address"))
                            else Throw ConnectTimeout)
    (fun s : jsstr => Ok s) (fun s => Ok s) (with_timeout (new POC_ISSUER_URL) 10) (js "{}")
  = Throw (Http (js "invalid address")).
Proof.
  refine (eq_trans (issuer_always_port_80 _ (fun s : jsstr => Ok s) (fun s => Ok s) (js "http://") (js "localhost:8080") 10
    (js "{}") (js "{}") (or_introl eq_refl) _ eq_refl (js "/v1/pot/generate") (or_introl eq_refl)) _).
  - repeat constructor; discriminate.
  - reflexivity.
Defined.

End IssuerClient.
